(* ===== verification/_CoqProject ===== *)
-Q . S2P
Prelude.v
Testing.v
Effects.v
Time.v
TimeTests.v
Serde.v
Version.v
Protocol.v
Request.v
Response.v
Storage.v
Common.v
UpdateCheck.v
StorageTests.v
AppSet.v
UriExt.v
Http.v
Cup.v
RequestBuilder.v
CupKeys.v
CupTests.v
Server.v
ServerProgram.v
ServerTests.v
Metrics.v
Installer.v
Policy.v
DataTests.v
Generator.v
Timers.v
Coroutine.v
GeneratorTests.v
Machine.v
Omaha.v
Check.v
Typed.v
Examples.v
Exchange.v
Trace.v
Requests.v
Wire.v
Books.v
Records.v
RunLoop.v
Invariant.v
NoReboot.v
Builder.v
Crash.v
HelloWorld.v
MachineTesting.v
MessageTests.v
CheckTests.v
LoopTests.v
