(* ===== verification/Prelude.v ===== *)
(** * A verification library for the Omaha client

    The Rust crate [omaha-client] keeps a set of apps up to date over Omaha protocol 3: it asks a
    server whether there are updates, installs them through an installer of the embedder, and
    reboots when the policy of the embedder allows it.  This library models the crate in the shape
    it has, and proves what makes it correct.  It also models the server that the crate
    [mock-omaha-server] answers the client with, and the hello-world program, a whole client.
    Paths below are under [src/omaha-client/src].

    ** How the program is modelled

    - Code that returns a value or panics is a function into [outcome]; Rust's [Result] is
      [result], and [?] is [let?].  Integers are [Z] with the bounds of their type written out;
      arithmetic that overflows panics or wraps as [OverflowChecks] says.  Times are counts of
      nanoseconds with the bounds of Linux's clocks (Time.v).
    - A method of the state machine is a computation [SM A] (Effects.v, Machine.v): it changes the
      record [StateMachine] and performs [Effect]s in order: events to the observer, metrics,
      requests, waits, commits, and the questions to the policy and the installer with their
      answers.  An [async fn] is the computation it performs when it is polled to its end.  Each
      method runs alone between the places where the task waits, so the locks on the storage and
      the app set do not show.
    - [run] waits for several things at once and takes control requests while a check runs
      (RunLoop.v).  It is a transition relation [step] between [Phase]s, the places where the task
      waits; what happens next is the choice of the environment.
    - Traits are type classes with the operations ([Storage], [AppSet], [PolicyEngine],
      [Installer], [Timer], [TimeSource], [MetricsReporter], [HttpTransport], [Cupv2Handler],
      [Plan]), and what a trait's documentation promises is a class of laws ([StorageSpec],
      [AppSetSpec]).  The theorems about clients are proved against the classes; the instances of
      the crate ([MemStorage], [VecAppSet], [StandardCupv2Handler], the stubs and mocks) are given
      and, where there are laws, proved to have them.
    - JSON is a tree ([Json]): what the derived [Serialize] and [Deserialize] make of a tree is
      modelled, for each type that has them; the text of a tree is [serde_json]'s, which reads back
      what it prints of trees that are not nested deeper than its recursion limit.
    - Crates the program calls ([http], [hyper], [serde_json], [sha2], [hex], [p256], [futures],
      [tokio], [uuid], [rand], [anyhow]) are classes of parameters, with the documented facts that
      are used as classes of laws ([UriLaws], [UriTextLaws], [HexLaws], [UrlLaws], [EcdsaSignLaws],
      [SerdeJsonLaws], [PemLaws], [HeaderLaws], [WireLaws], [TokioTimeLaws], [GeneratorPartsSpec],
      [ChannelSpec], [TimerChannelsSpec]).  The clocks of the system
      are readings of a world ([StdClock]).
      Examples.v gives each a value, so that the theorems are also run on concrete inputs.

    ** The files

    - Prelude.v (this file): results, outcomes, integers at their width, decimal numbers, lists and
      strings; the tactics and the hint databases of the library.  Testing.v: what the tests of
      the crates are written with.
    - Serde.v: JSON, the parts a derived reader is composed of, and when a reader reads a tree.
    - Effects.v: the state monad with effects; a weakest precondition [wp], the frame relation
      [respects], [total], [observes] and their rules.
    - Time.v: [time.rs], [time/complex.rs], [time/timers.rs], [time/time_source.rs], [clock.rs];
      TimeTests.v: their tests.  Timers.v: the blocking timer of [time/timers.rs] with its channels.
      Version.v: [version.rs].  Protocol.v: [protocol.rs].  Request.v: [protocol/request.rs], with
      the JSON that [serde] derives.  Response.v: [protocol/response.rs], with its derived readers.
    - Storage.v: [storage.rs], [storage/memory.rs], [storage/stub.rs].  StorageTests.v: the tests
      [storage.rs] has for every storage.  Common.v: [common.rs], [unless.rs].
      UpdateCheck.v: [state_machine/update_check.rs].  AppSet.v: [app_set.rs].
    - UriExt.v: [http_uri_ext.rs].  Http.v: [http_request.rs] and its mock.  Cup.v:
      [cup_ecdsa.rs]; CupKeys.v: its keys as text and its support for tests; CupTests.v: its tests.
      RequestBuilder.v: [request_builder.rs] and [configuration.rs].
    - Server.v: [src/mock-omaha-server/src/lib.rs], a request at a time; ServerProgram.v: its
      requests at once, and [main.rs]; ServerTests.v: its tests, and those of the mock of Http.v.
    - Metrics.v, Installer.v, Policy.v: the traits the embedder implements, their stubs and mocks.
      DataTests.v: the tests of the versions, the protocol, the apps, the app sets, the URIs, the
      context, the storages and the stubs.
    - Generator.v: [async_generator.rs], for any task; Coroutine.v: tasks as programs that await
      [yield_] and [yield_all], and the channel they send into; GeneratorTests.v: its tests.
    - Machine.v, Omaha.v, Check.v, RunLoop.v: [state_machine.rs], from the record and its
      primitives, over the exchange with the server and the update check, to the main loop.
      Builder.v: [state_machine/builder.rs].  Crash.v: the client when its power may be lost.
    - HelloWorld.v: [src/omaha-client/examples/hello-world], an instance of [Client].
    - Examples.v: a client to run.  Trace.v, Requests.v, Books.v, Records.v: the theorems about
      the update check.  Typed.v, Invariant.v, NoReboot.v: what stays true of a client.
      Exchange.v, Wire.v: the client and the mock server put together.
    - MachineTesting.v, CheckTests.v, LoopTests.v: the tests of [state_machine.rs]: the client they
      run, the tests of one check, and the tests that schedule the task themselves.  MessageTests.v:
      the tests of the requests, the responses and the request builder.

    ** What is proved

    - The main loop (RunLoop.v): the reported states follow the protocol between them; a reboot
      only comes right after the policy allowed it; every control request is answered once, to its
      own responder, and the answer means what it says; a wait for the next check is armed with the
      timers that the policy asked for.  An answer is an effect of the code that takes the request,
      so code that forgets one shows; the executable [simulate] finds runs of the relation.
    - The state (Typed.v, Invariant.v, Builder.v): the client starts from any storage with its
      numbers in the ranges of their types, and over every run that does not panic they stay there;
      the poll interval is never above a day, but for one that was stored; the identity of its apps,
      its configuration and its keys never change.  An app that is not valid stops it.
    - The update check (Trace.v): its milestones are one of the paths of [check_path]; an
      installation starts only with a plan that was made from the response and that the policy let
      start.
    - The exchange with the server (Requests.v, Cup.v, RequestBuilder.v, UriExt.v): the number of
      attempts and the waits between them; with a CUP handler, a response that is not verified
      changes nothing; the body that is signed is the body that is sent; an accepted response is the one the server
      gave to this request, and an honest server is accepted.
    - The mock server (Server.v, ServerProgram.v, Exchange.v, Wire.v): which requests of the client
      it answers and with what; that the client accepts what it signs and reads from its JSON what
      was configured; what a whole check of a client that is wired to it does; that serving requests
      concurrently is serving them one after the other in some order (a refinement of an atomic
      server).
    - The hello-world program (HelloWorld.v): it starts and never reboots, checks every 15 seconds,
      its timer sleeps exactly as long as it has to, and its requests end within their timeout.
    - The books (Books.v, Records.v, Builder.v): counters, times and stored values after a check
      and a ping, and what an installation's results say of the apps; that a restart finds them
      again; when an update was first seen, how often it was tried and how long a reboot was waited
      for.  Where these need it, the storage keeps its contract ([StorageSpec]) and never fails a
      write ([StorageInfallible]).
    - Power loss (Crash.v): whenever the client loses its power, the one that is built from what was
      committed has the apps, the count of failed checks and the last update time from before or
      after the step that was in progress, and between checks the whole context.  Its storage never
      fails a write or a commit ([StorageReliable]): of a commit that fails, the code keeps no more
      than a line in its log.
    - The data (Storage.v, Common.v, AppSet.v, UpdateCheck.v, Time.v, Version.v, Protocol.v,
      Request.v, Response.v, CupKeys.v): round trips through the storage, JSON and text, bounds of
      the time conversions, refinement of a map by the memory storage, and the JSON of requests.
    - The streams (Generator.v, Coroutine.v): a generator gives every item in order and then the
      result, and a task that yields is run to its end.
    - The blocking timer (Timers.v): in any order of polls, receipts, releases and drops, of timers
      and of their receiver, a wait ends exactly as the test decides.
    - The tests (StorageTests.v, TimeTests.v, CupTests.v, ServerTests.v, DataTests.v,
      GeneratorTests.v, MessageTests.v, CheckTests.v, LoopTests.v): the tests of the crates,
      translated, pass on the model, but for those named below; those of the storage for every storage that keeps its
      contract, and those of the times at whatever time they are run.

    ** Bounds

    [request_loop] has as fuel the most attempts there can be, [MAX_OMAHA_REQUEST_ATTEMPTS];
    [request_attempts] shows that it never runs out.  A test of the main loop polls the task for a
    number of turns; one that ran out of them would not pass.  The other recursions are structural.

    ** What is not modelled

    Logs; the polling of futures except in Generator.v, Coroutine.v and Timers.v; a control handle
    that outlives the state machine; other holders of the shared storage and app set that change
    them while a check runs; the order of [HashMap]s, which nothing depends on; the texts of errors,
    and [Debug] except where the code writes it by hand; JSON and PEM as text, which are
    [serde_json]'s and [p256]'s; the executor, the listener and the socket of the mock server.
    Of the tests, [test_report_successful_update_duration], whose installer moves the clock of the
    test while it installs; [test_wait_for_wrong_duration], which expects the [Debug] text of a
    duration in a panic; and [test_readable_system_time], whose text is [chrono]'s. *)

From Stdlib Require Export ZArith Lia Ascii Strings.Byte.
From stdpp Require Export base list option strings gmap pretty.

(** ** Notation and automation shared by every file *)

Declare Scope omaha_scope.
Delimit Scope omaha_scope with omaha.
Open Scope omaha_scope.
Open Scope Z_scope.

Create HintDb omaha.
Create Rewrite HintDb omaha_simpl.

(** Rust's [Result<A, E>]. *)
Inductive result (A E : Type) : Type :=
| Ok (a : A)
| Err (e : E).
Arguments Ok {A E} a.
Arguments Err {A E} e.

(** What running a piece of Rust code gives: a value, or a panic with its message. *)
Inductive outcome (A : Type) : Type :=
| Ret (a : A)
| Panic (msg : string).
Arguments Ret {A} a.
Arguments Panic {A} msg.

#[export] Instance outcome_ret : MRet outcome := λ A a, Ret a.
#[export] Instance outcome_bind : MBind outcome := λ A B k o,
  match o with Ret a => k a | Panic m => Panic m end.

Definition is_ok {A E} (r : result A E) : bool :=
  match r with Ok _ => true | Err _ => false end.

(** [Result::ok]. *)
Definition res_ok {A E} (r : result A E) : option A :=
  match r with Ok a => Some a | Err _ => None end.

(** [Result::map_err]. *)
Definition map_err {A E F} (f : E → F) (r : result A E) : result A F :=
  match r with Ok a => Ok a | Err e => Err (f e) end.

(** [Option::unwrap_or], [Option::ok_or]. *)
Definition unwrap_or {A} (o : option A) (d : A) : A :=
  match o with Some a => a | None => d end.
Definition ok_or {A E} (o : option A) (e : E) : result A E :=
  match o with Some a => Ok a | None => Err e end.

(** [Option::unwrap], [Result::unwrap], [assert!]. *)
Definition unwrap {A} (o : option A) : outcome A :=
  match o with
  | Some a => Ret a
  | None => Panic "called `Option::unwrap()` on a `None` value"
  end.
Definition unwrap_ok {A E} (r : result A E) : outcome A :=
  match r with Ok a => Ret a | Err _ => Panic "called `Result::unwrap()` on an `Err` value" end.
Definition assert (b : bool) : outcome unit := if b then Ret tt else Panic "assertion failed".

(** The [?] operator on results. *)
Definition res_bind {A B E} (r : result A E) (k : A → result B E) : result B E :=
  match r with Ok a => k a | Err e => Err e end.
Notation "'let?' x := r 'in' k" := (res_bind r (λ x, k))
  (at level 10, x pattern, r at level 100, k at level 200) : omaha_scope.

Definition opt_is_some {A} (o : option A) : bool :=
  match o with Some _ => true | None => false end.

(** ** Machine integers

    An integer of the code is a [Z] kept in the range of its Rust type. *)

Definition u32_max : Z := 2 ^ 32 - 1.
Definition u64_max : Z := 2 ^ 64 - 1.
Definition i64_max : Z := 2 ^ 63 - 1.
Definition i64_min : Z := - 2 ^ 63.

Definition in_u32 (z : Z) : Prop := 0 ≤ z ≤ u32_max.
Definition in_u64 (z : Z) : Prop := 0 ≤ z ≤ u64_max.
Definition in_i64 (z : Z) : Prop := i64_min ≤ z ≤ i64_max.
#[export] Instance in_u32_dec z : Decision (in_u32 z).
Proof. apply _. Defined.
#[export] Instance in_u64_dec z : Decision (in_u64 z).
Proof. apply _. Defined.
#[export] Instance in_i64_dec z : Decision (in_i64 z).
Proof. apply _. Defined.

(** [TryFrom] into a narrower integer type. *)
Definition try_u32 (z : Z) : option Z := if decide (in_u32 z) then Some z else None.
Definition try_u64 (z : Z) : option Z := if decide (in_u64 z) then Some z else None.
Definition try_i64 (z : Z) : option Z := if decide (in_i64 z) then Some z else None.

(** [as u64] and [as i64] casts: two's complement wrap-around. *)
Definition wrap_u32 (z : Z) : Z := z mod 2 ^ 32.
Definition wrap_u64 (z : Z) : Z := z mod 2 ^ 64.
Definition wrap_i64 (z : Z) : Z := (z + 2 ^ 63) mod 2 ^ 64 - 2 ^ 63.

(** Whether the build checks arithmetic overflow (a debug build panics, a release build wraps). *)
Class OverflowChecks := overflow_checks : bool.

Section arithmetic.
Context {oc : OverflowChecks}.

Definition arith (fits : bool) (exact wrapped : Z) (op : string) : outcome Z :=
  if fits then Ret exact
  else if overflow_checks then Panic ("attempt to " +:+ op +:+ " with overflow")
  else Ret wrapped.

Definition add_u32 (a b : Z) : outcome Z :=
  arith (bool_decide (in_u32 (a + b))) (a + b) (wrap_u32 (a + b)) "add".
Definition add_u64 (a b : Z) : outcome Z :=
  arith (bool_decide (in_u64 (a + b))) (a + b) (wrap_u64 (a + b)) "add".
Definition sub_u64 (a b : Z) : outcome Z :=
  arith (bool_decide (in_u64 (a - b))) (a - b) (wrap_u64 (a - b)) "subtract".
Definition add_i64 (a b : Z) : outcome Z :=
  arith (bool_decide (in_i64 (a + b))) (a + b) (wrap_i64 (a + b)) "add".
End arithmetic.

(** ** Strings

    A [&str] or [String] is the sequence of its UTF-8 bytes. *)

Definition dquote : ascii := "034"%char.

#[export] Instance byte_eq_dec : EqDecision byte := Byte.byte_eq_dec.

Definition bytes := list byte.

(** [str::split] at a separator character: always at least one piece. *)
Fixpoint split_on (sep : ascii) (s : string) : list string :=
  match s with
  | EmptyString => [EmptyString]
  | String c s' =>
    if decide (c = sep) then EmptyString :: split_on sep s'
    else match split_on sep s' with
         | [] => [String c EmptyString]
         | p :: ps => String c p :: ps
         end
  end.

(** [str::split_once]: the text before and after the first separator. *)
Fixpoint split_once (sep : ascii) (s : string) : option (string * string) :=
  match s with
  | EmptyString => None
  | String c s' =>
    if decide (c = sep) then Some (EmptyString, s')
    else match split_once sep s' with
         | Some (a, b) => Some (String c a, b)
         | None => None
         end
  end.

(** The slice pattern [inner @ .., last]: the string without its last character, when
    that character is [last]. *)
Fixpoint strip_last (last : ascii) (s : string) : option string :=
  match s with
  | EmptyString => None
  | String c EmptyString => if decide (c = last) then Some EmptyString else None
  | String c s' =>
    match strip_last last s' with Some i => Some (String c i) | None => None end
  end.

Fixpoint str_in (c : ascii) (s : string) : bool :=
  match s with
  | EmptyString => false
  | String c' s' => bool_decide (c = c') || str_in c s'
  end.

Fixpoint str_forall (p : ascii → bool) (s : string) : bool :=
  match s with EmptyString => true | String c s' => p c && str_forall p s' end.

(** [join]: the pieces separated by [sep], as [Itertools::format] prints them. *)
Fixpoint str_join (sep : string) (l : list string) : string :=
  match l with
  | [] => EmptyString
  | [s] => s
  | s :: l' => s +:+ sep +:+ str_join sep l'
  end.

(** A decimal digit's value. *)
Definition digit_val (c : ascii) : option Z :=
  let n := Z.of_nat (nat_of_ascii c) in
  if decide (48 ≤ n ≤ 57) then Some (n - 48) else None.

(** The digit loop of [u32::from_str] and [u64::from_str]: an error as soon as the
    accumulator leaves the type. *)
Fixpoint parse_digits (max acc : Z) (s : string) : option Z :=
  match s with
  | EmptyString => Some acc
  | String c s' =>
    match digit_val c with
    | Some d => if decide (acc * 10 + d ≤ max) then parse_digits max (acc * 10 + d) s' else None
    | None => None
    end
  end.

(** [str::parse::<u32>()] and [str::parse::<u64>()]: an optional [+], then at least one
    digit, and nothing else. *)
Definition parse_uint (max : Z) (s : string) : option Z :=
  match s with
  | EmptyString => None
  | String c s' =>
    if decide (c = "+"%char) then
      match s' with EmptyString => None | _ => parse_digits max 0 s' end
    else parse_digits max 0 s
  end.

(** [Display] of an unsigned integer. *)
Definition show_uint (z : Z) : string := pretty (Z.to_N z).

(** A text for any countable value, and back: the examples use it where a library turns values
    into text. *)
Fixpoint pos_bits (p : positive) : string :=
  match p with
  | xH => EmptyString
  | xO p' => String "0" (pos_bits p')
  | xI p' => String "1" (pos_bits p')
  end.
Fixpoint bits_pos (s : string) : positive :=
  match s with
  | EmptyString => xH
  | String c s' => if decide (c = "0"%char) then xO (bits_pos s') else xI (bits_pos s')
  end.
Definition to_text {A} `{Countable A} (a : A) : string := pos_bits (encode a).
Definition of_text {A} `{Countable A} (s : string) : option A := decode (bits_pos s).

(** ** Lists and options *)

(** What an option holds satisfies a predicate, if it holds something. *)
Definition opt_in {A} (P : A → Prop) (o : option A) : Prop :=
  match o with Some a => P a | None => True end.

(** [Iterator::find]: the first element that satisfies a test. *)
Fixpoint find_first {A} (p : A → bool) (l : list A) : option A :=
  match l with [] => None | x :: l' => if p x then Some x else find_first p l' end.

(** ** Lemmas *)

(** *** Options, results and outcomes *)

Lemma ret_bind {A B} (a : A) (k : A → outcome B) : (Ret a ≫= k) = k a.
Proof. done. Qed.

Lemma is_ok_res_ok {A E} (r : result A E) : is_ok r = opt_is_some (res_ok r).
Proof. by destruct r. Qed.

Lemma res_bind_Ok {A B E} (r : result A E) (k : A → result B E) b :
  res_bind r k = Ok b ↔ ∃ a, r = Ok a ∧ k a = Ok b.
Proof. destruct r; cbn; naive_solver. Qed.
Lemma map_err_Ok {A E F} (f : E → F) (r : result A E) a : map_err f r = Ok a ↔ r = Ok a.
Proof. destruct r; cbn; naive_solver. Qed.
Lemma ok_or_Ok {A E} (o : option A) (e : E) a : ok_or o e = Ok a ↔ o = Some a.
Proof. destruct o; cbn; naive_solver. Qed.

Lemma opt_is_some_spec {A} (o : option A) : opt_is_some o = true ↔ is_Some o.
Proof. destruct o; split; [eauto|done|done|by intros []]. Qed.

(** *** Integers *)

Lemma try_u32_Some z x : try_u32 z = Some x ↔ x = z ∧ in_u32 z.
Proof. unfold try_u32. case_decide; split; [intros [= <-]|intros [-> _]|done|intros [_ ?]]; done. Qed.
Lemma try_u64_Some z x : try_u64 z = Some x ↔ x = z ∧ in_u64 z.
Proof. unfold try_u64. case_decide; split; [intros [= <-]|intros [-> _]|done|intros [_ ?]]; done. Qed.
Lemma try_i64_Some z x : try_i64 z = Some x ↔ x = z ∧ in_i64 z.
Proof. unfold try_i64. case_decide; split; [intros [= <-]|intros [-> _]|done|intros [_ ?]]; done. Qed.
Lemma try_u32_in z : in_u32 z → try_u32 z = Some z.
Proof. intros. by apply try_u32_Some. Qed.
Lemma try_u64_in z : in_u64 z → try_u64 z = Some z.
Proof. intros. by apply try_u64_Some. Qed.
Lemma try_i64_in z : in_i64 z → try_i64 z = Some z.
Proof. intros. by apply try_i64_Some. Qed.

(** Solves a range goal once the range predicates are unfolded. *)
Ltac range :=
  unfold in_u32, in_u64, in_i64, u32_max, u64_max, i64_max, i64_min, wrap_u32, wrap_u64, wrap_i64 in *;
  lia.

Lemma wrap_u64_in z : in_u64 (wrap_u64 z).
Proof. pose proof (Z.mod_pos_bound z (2 ^ 64)). range. Qed.
Lemma wrap_u32_in z : in_u32 (wrap_u32 z).
Proof. pose proof (Z.mod_pos_bound z (2 ^ 32)). range. Qed.
Lemma wrap_i64_in z : in_i64 (wrap_i64 z).
Proof. pose proof (Z.mod_pos_bound (z + 2 ^ 63) (2 ^ 64)). range. Qed.

Section arithmetic_lemmas.
Context {oc : OverflowChecks}.

Lemma add_u32_exact a b : in_u32 (a + b) → add_u32 a b = Ret (a + b).
Proof. intros. unfold add_u32. by rewrite bool_decide_true. Qed.
Lemma add_i64_exact a b : in_i64 (a + b) → add_i64 a b = Ret (a + b).
Proof. intros. unfold add_i64. by rewrite bool_decide_true. Qed.
Lemma add_u64_exact a b : in_u64 (a + b) → add_u64 a b = Ret (a + b).
Proof. intros. unfold add_u64. by rewrite bool_decide_true. Qed.
Lemma sub_u64_exact a b : in_u64 (a - b) → sub_u64 a b = Ret (a - b).
Proof. intros. unfold sub_u64. by rewrite bool_decide_true. Qed.

(** Whatever the build, an arithmetic result that is returned is in range. *)
Lemma add_u32_in a b c : add_u32 a b = Ret c → in_u32 c.
Proof.
  unfold add_u32, arith. case_bool_decide; [by intros [= <-]|].
  destruct overflow_checks; [done|]. intros [= <-]. apply wrap_u32_in.
Qed.
Lemma add_i64_in a b c : add_i64 a b = Ret c → in_i64 c.
Proof.
  unfold add_i64, arith. case_bool_decide; [by intros [= <-]|].
  destruct overflow_checks; [done|]. intros [= <-]. apply wrap_i64_in.
Qed.
End arithmetic_lemmas.

#[export] Hint Resolve wrap_u64_in wrap_u32_in wrap_i64_in add_u32_exact add_i64_exact
  add_u64_exact sub_u64_exact try_i64_in try_u64_in try_u32_in : omaha.

(** *** Strings *)

Lemma str_app_cons c s t : String c s +:+ t = String c (s +:+ t).
Proof. done. Qed.
Lemma str_app_nil_l s : EmptyString +:+ s = s.
Proof. done. Qed.
Lemma str_app_nil_r s : s +:+ EmptyString = s.
Proof. induction s as [|c s IH]; [done|]. by rewrite str_app_cons, IH. Qed.
Lemma str_app_assoc a b c : (a +:+ b) +:+ c = a +:+ b +:+ c.
Proof. induction a as [|x a IH]; [done|]. by rewrite !str_app_cons, IH. Qed.
#[export] Hint Rewrite str_app_cons str_app_nil_l str_app_nil_r str_app_assoc : omaha_simpl.

Lemma str_in_app c a b : str_in c (a +:+ b) = str_in c a || str_in c b.
Proof. induction a as [|x a IH]; [done|]. rewrite str_app_cons. simpl. by rewrite IH, orb_assoc. Qed.

Lemma split_once_app sep a b :
  str_in sep a = false → split_once sep (a +:+ String sep b) = Some (a, b).
Proof.
  induction a as [|x a IH]; [by intros; simpl; rewrite decide_True|]. rewrite str_app_cons. simpl.
  intros [Hx Ha]%orb_false_iff. apply bool_decide_eq_false in Hx.
  by rewrite decide_False, IH by congruence.
Qed.

Lemma split_once_none sep s : split_once sep s = None ↔ str_in sep s = false.
Proof.
  induction s as [|c s IH]; [done|]. simpl. case_decide as E.
  - by rewrite bool_decide_true.
  - rewrite bool_decide_false by congruence. simpl. rewrite <-IH.
    by destruct (split_once sep s) as [[]|].
Qed.

Lemma split_once_Some sep s a b :
  split_once sep s = Some (a, b) ↔ s = a +:+ String sep b ∧ str_in sep a = false.
Proof.
  split; [|intros [-> Ha]; by apply split_once_app].
  revert a. induction s as [|c s IH]; intros a; [done|]. simpl. case_decide as E.
  - intros [= <- <-]. by subst.
  - destruct (split_once sep s) as [[a' b']|]; [|done]. intros [= <- <-].
    destruct (IH a' eq_refl) as [-> Ha]. rewrite str_app_cons. simpl.
    by rewrite bool_decide_false by congruence.
Qed.

Lemma split_on_none sep s : str_in sep s = false → split_on sep s = [s].
Proof.
  induction s as [|x s IH]; [done|]. simpl. intros [Hx Hs]%orb_false_iff.
  apply bool_decide_eq_false in Hx. by rewrite decide_False, IH by congruence.
Qed.

Lemma split_on_app sep a b :
  str_in sep a = false → split_on sep (a +:+ String sep b) = a :: split_on sep b.
Proof.
  induction a as [|x a IH]; [by intros; simpl; rewrite decide_True|]. rewrite str_app_cons. simpl.
  intros [Hx Ha]%orb_false_iff. apply bool_decide_eq_false in Hx.
  by rewrite decide_False, IH by congruence.
Qed.

Lemma strip_last_app s c : strip_last c (s +:+ String c EmptyString) = Some s.
Proof.
  induction s as [|x s IH]; [by simpl; rewrite decide_True|]. rewrite str_app_cons. simpl.
  rewrite IH. by destruct s.
Qed.

Lemma strip_last_Some s c i : strip_last c s = Some i → s = i +:+ String c EmptyString.
Proof.
  revert i. induction s as [|x s IH]; intros i; [done|]. simpl. destruct s as [|y s].
  - case_decide; naive_solver.
  - destruct (strip_last c (String y s)) as [j|]; [|done]. intros [= <-].
    by rewrite (IH j).
Qed.

(** Splitting what [str_join] put together gives the pieces back. *)
Lemma split_on_join sep l :
  l ≠ [] → Forall (λ s, str_in sep s = false) l →
  split_on sep (str_join (String sep EmptyString) l) = l.
Proof.
  induction l as [|s l IH]; [done|]. intros _ [Hs Hl]%Forall_cons. destruct l as [|t l].
  - by apply split_on_none.
  - change (str_join (String sep "") (s :: t :: l))
      with (s +:+ String sep (str_join (String sep "") (t :: l))).
    rewrite split_on_app by done. by rewrite IH.
Qed.

(** *** Strings of characters with a property *)

Lemma str_forall_app p a b : str_forall p (a +:+ b) = str_forall p a && str_forall p b.
Proof. induction a as [|c a IH]; [done|]. rewrite str_app_cons. cbn. by rewrite IH, andb_assoc. Qed.
Lemma str_forall_impl (p q : ascii → bool) s :
  (∀ c, p c = true → q c = true) → str_forall p s = true → str_forall q s = true.
Proof.
  intros Hpq. induction s as [|c s IH]; [done|]. cbn. rewrite !andb_true_iff. intros [? ?]; auto.
Qed.
Lemma str_forall_not_in p c s : str_forall p s = true → p c = false → str_in c s = false.
Proof.
  intros Hs Hc. induction s as [|x s IH]; [done|]. cbn in *.
  apply andb_true_iff in Hs as [Hx Hs]. rewrite IH, bool_decide_false by congruence. done.
Qed.

(** *** Decimal printing and parsing *)

Lemma pretty_char_digit n :
  (n < 10)%N → digit_val (pretty_N_char n) = Some (Z.of_N n) ∧ pretty_N_char n ≠ "+"%char
    ∧ pretty_N_char n ≠ "."%char ∧ pretty_N_char n ≠ ":"%char.
Proof.
  intros. assert (n = 0 ∨ n = 1 ∨ n = 2 ∨ n = 3 ∨ n = 4 ∨ n = 5 ∨ n = 6 ∨ n = 7 ∨ n = 8 ∨ n = 9)%N
    as Hn by lia. by repeat destruct Hn as [->|Hn]; subst.
Qed.

(** The digits of [n] parse to [n], whatever follows them. *)
Lemma parse_digits_go max n s :
  Z.of_N n ≤ max → parse_digits max 0 (pretty_N_go n s) = parse_digits max (Z.of_N n) s.
Proof.
  revert s. induction (N.lt_wf_0 n) as [n _ IH]; intros s Hmax.
  destruct (decide (n = 0)%N) as [->|Hn]; [done|].
  pose proof (N.mod_lt n 10 ltac:(lia)) as Hlt. pose proof (N.div_lt n 10 ltac:(lia) ltac:(lia)).
  rewrite pretty_N_go_step by lia. rewrite IH; [|done|lia]. simpl.
  destruct (pretty_char_digit _ Hlt) as [-> _].
  replace (Z.of_N (n / 10) * 10 + Z.of_N (n mod 10)) with (Z.of_N n);
    [by rewrite decide_True|].
  rewrite N2Z.inj_div, N2Z.inj_mod, (Z.mul_comm _ 10). by apply Z.div_mod.
Qed.

(** Every character of a printed number is a digit. *)
Lemma pretty_go_forall p n s :
  (∀ d, (d < 10)%N → p (pretty_N_char d) = true) → str_forall p s = true →
  str_forall p (pretty_N_go n s) = true.
Proof.
  intros Hp. revert s. induction (N.lt_wf_0 n) as [n _ IH]; intros s Hs.
  destruct (decide (n = 0)%N) as [->|Hn]; [done|].
  rewrite pretty_N_go_step by lia. apply IH; [apply N.div_lt; lia|]. simpl.
  rewrite Hs, Hp; [done|by apply N.mod_lt].
Qed.
Lemma show_uint_forall p z :
  (∀ d, (d < 10)%N → p (pretty_N_char d) = true) → str_forall p (show_uint z) = true.
Proof.
  intros Hp. unfold show_uint, pretty, pretty_N. case_decide; [|by apply pretty_go_forall].
  pose proof (Hp 0%N ltac:(lia)) as H0. simpl in *. by rewrite H0.
Qed.

Lemma show_uint_free c z :
  (∀ d, (d < 10)%N → pretty_N_char d ≠ c) → str_in c (show_uint z) = false.
Proof.
  intros Hc. apply (str_forall_not_in (λ d, negb (bool_decide (d = c)))).
  - apply show_uint_forall. intros d Hd. by rewrite bool_decide_false by auto.
  - by rewrite bool_decide_true.
Qed.

Lemma pretty_go_head n s :
  (0 < n)%N → ∃ d s', (d < 10)%N ∧ pretty_N_go n s = String (pretty_N_char d) s'.
Proof.
  revert s. induction (N.lt_wf_0 n) as [n _ IH]; intros s Hn.
  rewrite pretty_N_go_step by done. pose proof (N.mod_lt n 10 ltac:(lia)).
  destruct (decide (n / 10 = 0)%N) as [->|].
  - rewrite pretty_N_go_0. eauto.
  - apply IH; [by apply N.div_lt|by apply N.neq_0_lt_0].
Qed.

Lemma parse_digits_cons max acc c s d :
  digit_val c = Some d → acc * 10 + d ≤ max →
  parse_digits max acc (String c s) = parse_digits max (acc * 10 + d) s.
Proof. intros Hd Hle. simpl. rewrite Hd. by rewrite decide_True. Qed.

(** Parsing a printed unsigned integer gives it back. *)
Lemma parse_show_uint max z : 0 ≤ z ≤ max → parse_uint max (show_uint z) = Some z.
Proof.
  intros Hz. unfold show_uint, pretty, pretty_N. case_decide as Hn.
  - assert (z = 0) as -> by lia. unfold parse_uint. rewrite decide_False by done.
    by rewrite (parse_digits_cons _ _ _ _ 0) by (done || lia).
  - destruct (pretty_go_head (Z.to_N z) "") as (d & s' & Hd & Heq); [lia|].
    unfold parse_uint. rewrite Heq. destruct (pretty_char_digit _ Hd) as (_ & Hp & _).
    rewrite decide_False by done. rewrite <-Heq, parse_digits_go by lia. simpl. f_equal. lia.
Qed.

(** What parses is in the type's range. *)
Lemma parse_digits_bound max acc s z :
  0 ≤ acc ≤ max → parse_digits max acc s = Some z → 0 ≤ z ≤ max.
Proof.
  revert acc. induction s as [|c s IH]; intros acc Hacc; simpl; [naive_solver|].
  unfold digit_val. case_decide; [|done]. case_decide; [|done]. apply IH. lia.
Qed.

Lemma parse_uint_bound max s z : 0 ≤ max → parse_uint max s = Some z → 0 ≤ z ≤ max.
Proof.
  intros ?. unfold parse_uint. destruct s as [|c s]; [done|]. case_decide.
  - destruct s; [done|]. apply parse_digits_bound. lia.
  - apply parse_digits_bound. lia.
Qed.

Lemma show_uint_no_dot z : str_in "."%char (show_uint z) = false.
Proof. apply show_uint_free. intros d Hd. by apply pretty_char_digit. Qed.
Lemma show_uint_no_colon z : str_in ":"%char (show_uint z) = false.
Proof. apply show_uint_free. intros d Hd. by apply pretty_char_digit. Qed.

#[export] Hint Resolve show_uint_no_dot show_uint_no_colon parse_show_uint : omaha.

Lemma of_to_text {A} `{Countable A} (a : A) : of_text (to_text a) = Some a.
Proof.
  unfold of_text, to_text.
  assert (bits_pos (pos_bits (encode a)) = encode a) as ->; [|apply decode_encode].
  generalize (encode a). intros p. by induction p as [p IH|p IH|]; cbn; rewrite ?IH.
Qed.

(** *** Lists *)

Lemma find_first_Some {A} (p : A → bool) l x :
  find_first p l = Some x → x ∈ l ∧ p x = true.
Proof.
  induction l as [|y l IH]; simpl; [done|]. destruct (p y) eqn:Hp.
  - intros [= ->]. split; [left|done].
  - intros [? ?]%IH. split; [by right|done].
Qed.

Lemma find_first_None {A} (p : A → bool) l :
  find_first p l = None ↔ Forall (λ x, p x = false) l.
Proof.
  induction l as [|y l IH]; simpl; [by split|]. rewrite Forall_cons, <-IH.
  destruct (p y); naive_solver.
Qed.
