(* ===== verification/Testing.v ===== *)
(** * What the crate's tests are written with

    A [#[test]] is an [outcome unit]: it passes when it returns.  The tests of the modules are
    translated where those modules are modelled, or next to them; they are run on the model. *)

From S2P Require Import Prelude.
Open Scope Z_scope.

#[export] Instance result_eq_dec {A E} `{EqDecision A, EqDecision E} : EqDecision (result A E).
Proof. solve_decision. Defined.

(** A step of a test whose value the rest of the test uses. *)
Definition and_then {A B} (o : outcome A) (k : A → outcome B) : outcome B :=
  match o with Ret a => k a | Panic msg => Panic msg end.
Notation "'let*' x := o 'in' k" := (and_then o (λ x, k))
  (at level 10, x pattern, o at level 100, k at level 200) : omaha_scope.

(** [assert_eq!] and [assert_ne!]. *)
Definition assert_eq {A} `{EqDecision A} (left right : A) : outcome unit :=
  if decide (left = right) then Ret tt else Panic "assertion failed: `(left == right)`".
Definition assert_ne {A} `{EqDecision A} (left right : A) : outcome unit :=
  if decide (left = right) then Panic "assertion failed: `(left != right)`" else Ret tt.
(** [assert_matches!] with a pattern that binds nothing. *)
Definition assert_matches (matched : bool) : outcome unit :=
  if matched then Ret tt else Panic "assertion failed: does not match".

(** Whether a text occurs in another. *)
Fixpoint contains (needle text : string) : bool :=
  String.prefix needle text ||
  match text with EmptyString => false | String _ text => contains needle text end.

(** [#[should_panic(expected = "..")]]. *)
Definition should_panic (expected : string) {A} (test : outcome A) : outcome unit :=
  match test with
  | Panic msg => assert (contains expected msg)
  | Ret _ => Panic "test did not panic as expected"
  end.

Definition test_passes (test : outcome unit) : bool :=
  match test with Ret _ => true | Panic _ => false end.
Definition all_pass (tests : list (outcome unit)) : bool := forallb test_passes tests.

Lemma assert_eq_refl {A} `{EqDecision A} (x : A) : assert_eq x x = Ret tt.
Proof. unfold assert_eq. by rewrite decide_True. Qed.
Lemma assert_eq_Z (x y : Z) : x = y → assert_eq x y = Ret tt.
Proof. intros ->. apply assert_eq_refl. Qed.
Lemma assert_true b : b = true → assert b = Ret tt.
Proof. by intros ->. Qed.

(** A list of tests passes when each of them returns. *)
Lemma all_pass_Forall tests : Forall (λ test, test = Ret tt) tests → all_pass tests = true.
Proof.
  intros Ht. apply forallb_forall. intros test Hin%list_elem_of_In.
  rewrite Forall_forall in Ht. by rewrite (Ht test).
Qed.
