(* ===== verification/Effects.v ===== *)
(** * The effect monad of the state machine

    A stateful [async fn] of the client is a value of [M S E A]: run from a state [S], it gives
    the final state, the observable effects it had in order, and its outcome.  A panic stops the
    function but keeps the effects that came before it.  The lemmas are a weakest-precondition
    calculus ([wp]) and a closure principle for relations every step maintains ([respects]). *)

From S2P Require Import Prelude.

Definition M (S E A : Type) : Type := S → S * list E * outcome A.

#[export] Instance M_ret S E : MRet (M S E) := λ A a s, (s, [], Ret a).
#[export] Instance M_bind S E : MBind (M S E) := λ A B k m s,
  match m s with
  | (s1, t1, Ret a) => match k a s1 with (s2, t2, o) => (s2, t1 ++ t2, o) end
  | (s1, t1, Panic msg) => (s1, t1, Panic msg)
  end.

Section operations.
Context {S E : Type}.

(** Read a part of the state. *)
Definition gets {A} (f : S → A) : M S E A := λ s, (s, [], Ret (f s)).
(** Assign to the state. *)
Definition modify (f : S → S) : M S E unit := λ s, (f s, [], Ret tt).
(** Perform an observable action. *)
Definition emit (e : E) : M S E unit := λ s, (s, [e], Ret tt).
Definition emits (t : list E) : M S E unit := λ s, (s, t, Ret tt).
(** Embed a computation that can only panic. *)
Definition lift {A} (o : outcome A) : M S E A := λ s, (s, [], o).
(** Call a collaborator that is kept in the state: [get] is its state, [set] stores the new one. *)
Definition call {C A} (get : S → C) (set : C → S → S) (f : C → A * C) : M S E A := λ s,
  match f (get s) with (a, c) => (set c s, [], Ret a) end.

(** A [for] loop over the items of an iterator. *)
Fixpoint for_each {A} (f : A → M S E unit) (l : list A) : M S E unit :=
  match l with
  | [] => mret tt
  | a :: l' => f a ≫= λ _, for_each f l'
  end.

(** The [?] operator in an [async fn]: an error ends the function. *)
Definition try_bind {A B X} (m : M S E (result A X)) (k : A → M S E (result B X))
    : M S E (result B X) :=
  r ← m; match r with Ok a => k a | Err e => mret (Err e) end.

Definition final {A} (m : M S E A) (s : S) : S := (m s).1.1.
Definition trace {A} (m : M S E A) (s : S) : list E := (m s).1.2.
Definition returned {A} (m : M S E A) (s : S) : outcome A := (m s).2.

(** A computation that starts with an effect, or with a read of the state. *)
Lemma trace_emit_bind {A} (e : E) (k : unit → M S E A) s : trace (emit e ≫= k) s = e :: trace (k tt) s.
Proof. unfold trace, emit, mbind, M_bind. cbn. by destruct (k tt s) as [[s' t] o]. Qed.
Lemma trace_gets_bind {A B} (f : S → A) (k : A → M S E B) s :
  trace (gets f ≫= k) s = trace (k (f s)) s.
Proof. unfold trace, gets, mbind, M_bind. cbn. by destruct (k (f s) s) as [[s' t] o]. Qed.

(** ** Weakest preconditions *)

Definition wp {A} (m : M S E A) (Q : outcome A → S → list E → Prop) (s : S) : Prop :=
  match m s with (s', t, o) => Q o s' t end.

(** ** Relations between the start, the effects and the end of a computation *)

Class StepRel (R : S → list E → S → Prop) : Prop := {
  step_refl s : R s [] s;
  step_trans s1 t1 s2 t2 s3 : R s1 t1 s2 → R s2 t2 s3 → R s1 (t1 ++ t2) s3;
}.

(** [m] takes every state to a state [R] relates it to, whether it returns or panics. *)
Definition respects (R : S → list E → S → Prop) {A} (m : M S E A) : Prop :=
  ∀ s, R s (trace m s) (final m s).
End operations.

Notation "'let!' x := m 'in' k" := (try_bind m (λ x, k))
  (at level 10, x pattern, m at level 100, k at level 200) : omaha_scope.

(** A computation that never panics. *)
Definition total {S E A} (m : M S E A) : Prop := ∀ s, ∃ a, returned m s = Ret a.

(** What the values a computation returns have in common. *)
Definition returns {S E A} (P : A → Prop) (m : M S E A) : Prop := ∀ s a, returned m s = Ret a → P a.

(** A property of the state that a computation which returns leaves true. *)
Definition maintains {S E A} (I : S → Prop) (m : M S E A) : Prop :=
  ∀ s, I s → match returned m s with Ret _ => I (final m s) | Panic _ => True end.

(** ** What is observed of a computation

    [f] picks the effects of interest and what to remember of them. *)

Definition observed {E X} (f : E → option X) (t : list E) : list X := omap f t.
Definition observes {S E X A} (f : E → option X) (m : M S E A) (Φ : outcome A → list X → Prop) : Prop :=
  ∀ s, Φ (returned m s) (observed f (trace m s)).
(** The relation of the computations that do nothing of interest. *)
Definition silent_rel {S E X} (f : E → option X) : S → list E → S → Prop :=
  λ _ t _, observed f t = [].
Abbreviation silent f := (respects (silent_rel f)).

(** The relation of the computations that leave a part of the state alone. *)
Definition keeps {S E X} (f : S → X) : S → list E → S → Prop := λ s _ s', f s' = f s.

(** The relation of the computations whose effects all satisfy a predicate. *)
Definition only {S E} (P : E → Prop) : S → list E → S → Prop := λ _ t _, Forall P t.

(** Both relations at once. *)
Definition both {S E} (R1 R2 : S → list E → S → Prop) : S → list E → S → Prop :=
  λ s t s', R1 s t s' ∧ R2 s t s'.

(** ** The calculus *)

#[export] Instance silent_step_rel {S E X} (f : E → option X) : StepRel (silent_rel (S := S) f).
Proof.
  split; [done|]. unfold silent_rel, observed. intros s1 t1 s2 t2 s3 H1 H2.
  by rewrite omap_app, H1, H2.
Qed.
#[export] Instance keeps_step_rel {S E X} (f : S → X) : StepRel (E := E) (keeps f).
Proof. split; [done|]. unfold keeps. congruence. Qed.
#[export] Instance only_step_rel {S E} (P : E → Prop) : StepRel (S := S) (only P).
Proof. split; [by constructor|]. unfold only. intros. by apply Forall_app. Qed.
#[export] Instance both_step_rel {S E} (R1 R2 : S → list E → S → Prop) :
  StepRel R1 → StepRel R2 → StepRel (both R1 R2).
Proof.
  intros. split; [split; apply step_refl|]. intros s1 t1 s2 t2 s3 [? ?] [? ?].
  split; by eapply step_trans.
Qed.

Section wp_rules.
Context {S E : Type}.

Lemma wp_mono {A} (m : M S E A) (Q Q' : outcome A → S → list E → Prop) s :
  (∀ o s' t, Q o s' t → Q' o s' t) → wp m Q s → wp m Q' s.
Proof. unfold wp. destruct (m s) as [[??]?]. auto. Qed.

Lemma wp_ret {A} (a : A) (Q : outcome A → S → list E → Prop) s :
  Q (Ret a) s [] → wp (mret a) Q s.
Proof. done. Qed.

Lemma wp_bind {A B} (m : M S E A) (k : A → M S E B) (Q : outcome B → S → list E → Prop) s :
  wp m (λ o s' t, match o with
                  | Ret a => wp (k a) (λ o' s'' t', Q o' s'' (t ++ t')) s'
                  | Panic msg => Q (Panic msg) s' t
                  end) s →
  wp (m ≫= k) Q s.
Proof.
  unfold wp, mbind, M_bind. destruct (m s) as [[s1 t1] [a|msg]]; [|done].
  by destruct (k a s1) as [[??]?].
Qed.

Lemma wp_gets {A} (f : S → A) (Q : outcome A → S → list E → Prop) s :
  Q (Ret (f s)) s [] → wp (gets f) Q s.
Proof. done. Qed.
Lemma wp_modify (f : S → S) (Q : outcome unit → S → list E → Prop) s :
  Q (Ret tt) (f s) [] → wp (modify f) Q s.
Proof. done. Qed.
Lemma wp_emit (e : E) (Q : outcome unit → S → list E → Prop) s :
  Q (Ret tt) s [e] → wp (emit e) Q s.
Proof. done. Qed.
Lemma wp_emits (t : list E) (Q : outcome unit → S → list E → Prop) s :
  Q (Ret tt) s t → wp (emits t) Q s.
Proof. done. Qed.
Lemma wp_lift {A} (o : outcome A) (Q : outcome A → S → list E → Prop) s :
  Q o s [] → wp (lift o) Q s.
Proof. done. Qed.
Lemma wp_call {C A} (get : S → C) (set : C → S → S) (f : C → A * C)
    (Q : outcome A → S → list E → Prop) s :
  Q (Ret (f (get s)).1) (set (f (get s)).2 s) [] → wp (call get set f) Q s.
Proof. unfold wp, call. by destruct (f (get s)). Qed.

Lemma wp_run {A} (m : M S E A) (Q : outcome A → S → list E → Prop) s :
  wp m Q s ↔ Q (returned m s) (final m s) (trace m s).
Proof. unfold wp, returned, final, trace. by destruct (m s) as [[??]?]. Qed.

Lemma wp_and {A} (m : M S E A) (P Q : outcome A → S → list E → Prop) s :
  wp m P s → wp m Q s → wp m (λ o s' t, P o s' t ∧ Q o s' t) s.
Proof. unfold wp. by destruct (m s) as [[??]?]. Qed.
End wp_rules.

Section respects_rules.
Context {S E : Type} (R : S → list E → S → Prop) `{!StepRel R}.

Lemma respects_ret {A} (a : A) : respects R (mret a : M S E A).
Proof. intros s. apply step_refl. Qed.

Lemma respects_bind {A B} (m : M S E A) (k : A → M S E B) :
  respects R m → (∀ a, respects R (k a)) → respects R (m ≫= k).
Proof.
  intros Hm Hk s. specialize (Hm s). unfold final, trace, mbind, M_bind in *.
  destruct (m s) as [[s1 t1] [a|msg]]; [|done]. simpl in *.
  specialize (Hk a s1). unfold final, trace in Hk. destruct (k a s1) as [[s2 t2] o].
  by eapply step_trans.
Qed.

Lemma respects_gets {A} (f : S → A) : respects R (gets (E := E) f).
Proof. intros s. apply step_refl. Qed.
Lemma respects_lift {A} (o : outcome A) : respects R (lift (S := S) (E := E) o).
Proof. intros s. apply step_refl. Qed.
Lemma respects_modify (f : S → S) : (∀ s, R s [] (f s)) → respects R (modify (E := E) f).
Proof. intros H s. apply H. Qed.
Lemma respects_emit (e : E) : (∀ s, R s [e] s) → respects R (emit (S := S) e).
Proof. intros H s. apply H. Qed.
Lemma respects_emits (t : list E) : (∀ s, R s t s) → respects R (emits (S := S) t).
Proof. intros H s. apply H. Qed.
Lemma respects_call {C A} (get : S → C) (set : C → S → S) (f : C → A * C) :
  (∀ s, R s [] (set (f (get s)).2 s)) → respects R (call (E := E) get set f).
Proof. intros H s. specialize (H s). unfold final, trace, call. by destruct (f (get s)). Qed.

Lemma respects_for_each {A} (f : A → M S E unit) l :
  (∀ a, respects R (f a)) → respects R (for_each f l).
Proof.
  intros Hf. induction l as [|a l IH]; [apply respects_ret|].
  simpl. apply respects_bind; auto.
Qed.

Lemma respects_try {A B X} (m : M S E (result A X)) (k : A → M S E (result B X)) :
  respects R m → (∀ a, respects R (k a)) → respects R (try_bind m k).
Proof. intros Hm Hk. apply respects_bind; [done|]. intros [a|e]; [done|apply respects_ret]. Qed.

Lemma respects_wp {A} (m : M S E A) s : respects R m → wp m (λ _ s' t, R s t s') s.
Proof. intros H. apply wp_run, H. Qed.
End respects_rules.

Section total_rules.
Context {S E : Type}.

Lemma total_ret {A} (a : A) : total (mret a : M S E A).
Proof. intros s. by exists a. Qed.
Lemma total_bind {A B} (m : M S E A) (k : A → M S E B) :
  total m → (∀ a, total (k a)) → total (m ≫= k).
Proof.
  intros Hm Hk s. destruct (Hm s) as [a Ha]. unfold returned, mbind, M_bind in *.
  destruct (m s) as [[s1 t1] o]. cbn in Ha. subst o. destruct (Hk a s1) as [b Hb].
  unfold returned in Hb. destruct (k a s1) as [[s2 t2] o2]. cbn in *. eauto.
Qed.
Lemma total_try {A B X} (m : M S E (result A X)) (k : A → M S E (result B X)) :
  total m → (∀ a, total (k a)) → total (try_bind m k).
Proof. intros Hm Hk. apply total_bind; [done|]. intros [a|e]; [done|apply total_ret]. Qed.
Lemma total_gets {A} (f : S → A) : total (gets (E := E) f).
Proof. intros s. by eexists. Qed.
Lemma total_modify (f : S → S) : total (modify (E := E) f).
Proof. intros s. by eexists. Qed.
Lemma total_emit (e : E) : total (emit (S := S) e).
Proof. intros s. by eexists. Qed.
Lemma total_call {C A} (get : S → C) (set : C → S → S) (f : C → A * C) :
  total (call (E := E) get set f).
Proof. intros s. unfold returned, call. destruct (f (get s)). by eexists. Qed.
Lemma total_for_each {A} (f : A → M S E unit) l : (∀ a, total (f a)) → total (for_each f l).
Proof.
  intros Hf. induction l as [|a l IH]; [apply total_ret|]. by apply total_bind.
Qed.

(** A computation that does not panic, and what it respects. *)
Lemma wp_total {A} (R : S → list E → S → Prop) (m : M S E A) s :
  total m → respects R m → wp m (λ o s' t, (∃ a, o = Ret a) ∧ R s t s') s.
Proof. intros Hm HR. apply wp_run. split; [apply Hm|apply HR]. Qed.
End total_rules.

Section returns_rules.
Context {S E : Type}.

Lemma returns_ret {A} (P : A → Prop) a : P a → returns P (mret a : M S E A).
Proof. by intros Ha s b [= <-]. Qed.
Lemma returns_lift {A} (P : A → Prop) (o : outcome A) :
  (∀ a, o = Ret a → P a) → returns P (lift o : M S E A).
Proof. intros Ho s a Ha. by apply Ho. Qed.
Lemma returns_bind {A B} (Q : A → Prop) (P : B → Prop) (m : M S E A) (k : A → M S E B) :
  returns Q m → (∀ a, Q a → returns P (k a)) → returns P (m ≫= k).
Proof.
  intros Hm Hk s b. unfold returned, mbind, M_bind. specialize (Hm s). unfold returned in Hm.
  destruct (m s) as [[s1 t1] [a|msg]]; [|done]. specialize (Hk a (Hm a eq_refl) s1 b).
  unfold returned in Hk. by destruct (k a s1) as [[s2 t2] o].
Qed.
(** The value of the first step is of no interest. *)
Lemma returns_then {A B} (P : B → Prop) (m : M S E A) (k : A → M S E B) :
  (∀ a, returns P (k a)) → returns P (m ≫= k).
Proof. intros Hk. by apply (returns_bind (λ _, True)). Qed.
Lemma returns_wp {A} (P : A → Prop) (m : M S E A) s :
  returns P m → wp m (λ o _ _, match o with Ret a => P a | Panic _ => True end) s.
Proof. intros Hm. apply wp_run. specialize (Hm s). destruct (returned m s); auto. Qed.
End returns_rules.

Section maintains_rules.
Context {S E : Type} (I : S → Prop).

Lemma maintains_wp {A} (m : M S E A) s :
  maintains I m → I s → wp m (λ o s' _, match o with Ret _ => I s' | Panic _ => True end) s.
Proof. intros Hm Hs. apply wp_run, Hm, Hs. Qed.
Lemma maintains_by_wp {A} (m : M S E A) :
  (∀ s, I s → wp m (λ o s' _, match o with Ret _ => I s' | Panic _ => True end) s) → maintains I m.
Proof. intros Hm s Hs. by apply (proj1 (wp_run _ _ _) (Hm s Hs)). Qed.
Lemma maintains_ret {A} (a : A) : maintains I (mret a : M S E A).
Proof. by intros s Hs. Qed.
Lemma maintains_gets {A} (f : S → A) : maintains I (gets (E := E) f).
Proof. by intros s Hs. Qed.
Lemma maintains_lift {A} (o : outcome A) : maintains I (lift (S := S) (E := E) o).
Proof. intros s Hs. by destruct o. Qed.
Lemma maintains_emit (e : E) : maintains I (emit (S := S) e).
Proof. by intros s Hs. Qed.
Lemma maintains_modify (f : S → S) : (∀ s, I s → I (f s)) → maintains I (modify (E := E) f).
Proof. intros Hf s Hs. by apply Hf. Qed.
Lemma maintains_call {C A} (get : S → C) (set : C → S → S) (f : C → A * C) :
  (∀ s c, I s → I (set c s)) → maintains I (call (E := E) get set f).
Proof. intros Hset s Hs. unfold returned, final, call. destruct (f (get s)). by apply Hset. Qed.
Lemma maintains_bind_if {A B} (P : A → Prop) (m : M S E A) (k : A → M S E B) :
  maintains I m → returns P m → (∀ a, P a → maintains I (k a)) → maintains I (m ≫= k).
Proof.
  intros Hm Hr Hk. apply maintains_by_wp. intros s Hs. apply wp_bind.
  eapply wp_mono; [|apply wp_and; [by apply maintains_wp|by apply returns_wp]].
  intros [a|msg] s' t; [|done]. intros [Hs' Ha]. eapply wp_mono; [|by apply maintains_wp; [apply Hk|]].
  by intros.
Qed.
Lemma maintains_bind {A B} (m : M S E A) (k : A → M S E B) :
  maintains I m → (∀ a, maintains I (k a)) → maintains I (m ≫= k).
Proof. intros Hm Hk. by apply (maintains_bind_if (λ _, True)). Qed.
Lemma maintains_try {A B X} (m : M S E (result A X)) (k : A → M S E (result B X)) :
  maintains I m → (∀ a, maintains I (k a)) → maintains I (try_bind m k).
Proof. intros Hm Hk. apply maintains_bind; [done|]. intros [a|e]; [done|apply maintains_ret]. Qed.
End maintains_rules.

Create HintDb maintains.

(** Walks through a computation, leaving the assignments and the calls that are not in
    [maintains]. *)
Ltac maintains_step :=
  match goal with
  | |- maintains _ (_ ≫= _) => apply maintains_bind; [|intros]
  | |- maintains _ (try_bind _ _) => apply maintains_try; [|intros]
  | |- maintains _ (mret _) => apply maintains_ret
  | |- maintains _ (gets _) => apply maintains_gets
  | |- maintains _ (lift _) => apply maintains_lift
  | |- maintains _ (emit _) => apply maintains_emit
  | |- maintains _ (call _ _ _) => apply maintains_call; by intros
  | |- maintains _ (modify _) => apply maintains_modify; by intros
  | |- maintains _ (match ?x with _ => _ end) => destruct x
  | |- maintains _ (if ?x then _ else _) => destruct x
  | |- maintains _ _ => solve [auto 2 with maintains]
  end.

Create HintDb total.
#[export] Hint Resolve total_ret total_gets total_modify total_emit total_call : total.

Ltac total_step :=
  match goal with
  | |- total (_ ≫= _) => apply total_bind; [|intros]
  | |- total (try_bind _ _) => apply total_try; [|intros]
  | |- total (mret _) => apply total_ret
  | |- total (gets _) => apply total_gets
  | |- total (modify _) => apply total_modify
  | |- total (emit _) => apply total_emit
  | |- total (call _ _ _) => apply total_call
  | |- total (for_each _ _) => apply total_for_each; intros
  | |- total (match ?x with _ => _ end) => destruct x
  | |- total (if ?x then _ else _) => destruct x
  | |- total _ => solve [auto 2 with total]
  end.

Section observes_rules.
Context {S E X : Type} (f : E → option X).

Lemma observes_mono {A} (m : M S E A) (Φ Ψ : outcome A → list X → Prop) :
  observes f m Φ → (∀ o l, Φ o l → Ψ o l) → observes f m Ψ.
Proof. intros H HΨ s. apply HΨ, H. Qed.

Lemma observes_ret {A} (a : A) (Φ : outcome A → list X → Prop) :
  Φ (Ret a) [] → observes (S := S) f (mret a) Φ.
Proof. intros H s. done. Qed.

Lemma observes_lift {A} (o : outcome A) (Φ : outcome A → list X → Prop) :
  Φ o [] → observes (S := S) f (lift o) Φ.
Proof. intros H s. done. Qed.

Lemma observes_emit (e : E) (Φ : outcome unit → list X → Prop) :
  Φ (Ret tt) (match f e with Some x => [x] | None => [] end) → observes (S := S) f (emit e) Φ.
Proof. intros H s. unfold returned, trace, emit, observed. cbn. by destruct (f e). Qed.

Lemma observes_bind {A B} (m : M S E A) (k : A → M S E B) (Φ : outcome A → list X → Prop)
    (Ψ : outcome B → list X → Prop) :
  observes f m Φ →
  (∀ a l, Φ (Ret a) l → observes f (k a) (λ o l', Ψ o (l ++ l'))) →
  (∀ msg l, Φ (Panic msg) l → Ψ (Panic msg) l) →
  observes f (m ≫= k) Ψ.
Proof.
  intros Hm Hk Hp s. specialize (Hm s). unfold returned, trace, mbind, M_bind in *.
  destruct (m s) as [[s1 t1] [a|msg]]; [|by apply Hp]. cbn in *.
  specialize (Hk a _ Hm s1). unfold returned, trace, observed in Hk.
  destruct (k a s1) as [[s2 t2] o]. cbn in *. unfold observed. by rewrite omap_app.
Qed.

Lemma observes_silent {A} (m : M S E A) (Φ : outcome A → list X → Prop) :
  silent f m → (∀ o, Φ o []) → observes f m Φ.
Proof. intros Hm H s. specialize (Hm s). unfold silent_rel in Hm. by rewrite Hm. Qed.

Lemma silent_observes {A} (m : M S E A) : silent f m ↔ observes f m (λ _ l, l = []).
Proof. done. Qed.

(** A silent step in front. *)
Lemma observes_bind_silent {A B} (m : M S E A) (k : A → M S E B) (Ψ : outcome B → list X → Prop) :
  silent f m → (∀ a, observes f (k a) Ψ) → (∀ msg, Ψ (Panic msg) []) → observes f (m ≫= k) Ψ.
Proof.
  intros Hm Hk Hp. eapply (observes_bind _ _ (λ _ l, l = [])); [exact Hm| |].
  - intros a l ->. apply Hk.
  - intros msg l ->. apply Hp.
Qed.

(** An observed effect in front. *)
Lemma observes_bind_emit {B} (e : E) x (k : unit → M S E B) (Ψ : outcome B → list X → Prop) :
  f e = Some x → observes f (k tt) (λ o l, Ψ o (x :: l)) → observes f (emit e ≫= k) Ψ.
Proof.
  intros Hf Hk. eapply (observes_bind _ _ (λ o l, o = Ret tt ∧ l = [x])).
  - apply observes_emit. by rewrite Hf.
  - intros [] l [_ ->]. apply Hk.
  - by intros msg l [? _].
Qed.

Lemma silent_emit (e : E) : f e = None → respects (silent_rel (S := S) f) (emit e).
Proof. intros Hf. apply respects_emit. intros s. unfold silent_rel, observed. cbn. by rewrite Hf. Qed.
Lemma silent_modify (g : S → S) : silent f (modify (E := E) g).
Proof. by apply respects_modify. Qed.
Lemma silent_call {C A} (get : S → C) (set : C → S → S) (g : C → A * C) :
  silent f (call (E := E) get set g).
Proof. by apply respects_call. Qed.
End observes_rules.

Create HintDb respects.
#[export] Hint Resolve respects_ret respects_gets respects_lift : respects.

(** Walks through the structure of a computation, leaving the calls that are not in [respects]. *)
Ltac respects_step :=
  match goal with
  | |- respects _ (_ ≫= _) => apply respects_bind; [apply _| |intros]
  | |- respects _ (try_bind _ _) => apply respects_try; [apply _| |intros]
  | |- respects _ (mret _) => apply respects_ret; apply _
  | |- respects _ (gets _) => apply respects_gets; apply _
  | |- respects _ (lift _) => apply respects_lift; apply _
  | |- respects _ (for_each _ _) => apply respects_for_each; [apply _|intros]
  | |- respects _ (match ?x with _ => _ end) => destruct x
  | |- respects _ (if ?x then _ else _) => destruct x
  | |- respects _ (let '(_, _) := ?x in _) => destruct x
  | |- respects _ _ => solve [auto 2 with respects]
  end.

(** One step of symbolic execution on a weakest precondition. *)
Ltac wp_step :=
  match goal with
  | |- wp (_ ≫= _) _ _ => apply wp_bind
  | |- wp (mret _) _ _ => apply wp_ret
  | |- wp (gets _) _ _ => apply wp_gets
  | |- wp (modify _) _ _ => apply wp_modify
  | |- wp (emit _) _ _ => apply wp_emit
  | |- wp (emits _) _ _ => apply wp_emits
  | |- wp (lift _) _ _ => apply wp_lift
  | |- wp (call _ _ _) _ _ => apply wp_call
  end.
