(* ===== verification/Time.v ===== *)
(** * Wall and monotonic time ([time.rs], [time/complex.rs], [time/time_source.rs],
    [time/timers.rs], [clock.rs])

    [SystemTime], [Instant] and [Duration] are nanosecond counts.  A [Duration] is 64 bits of
    seconds and a nanosecond part; a [SystemTime] or an [Instant] is an [i64] of seconds and a
    nanosecond part, counted from the Unix epoch or from an unspecified origin.  The operators
    [+] and [-] panic outside the range, the [checked_] methods return [None]. *)

From S2P Require Import Prelude.
Open Scope Z_scope.

Definition nanos_per_sec : Z := 10 ^ 9.

Definition Duration : Type := Z.
Definition SystemTime : Type := Z.
Definition Instant : Type := Z.

#[export] Instance Duration_eq_dec : EqDecision Duration := Z.eq_dec.
#[export] Instance SystemTime_eq_dec : EqDecision SystemTime := Z.eq_dec.
#[export] Instance Instant_eq_dec : EqDecision Instant := Z.eq_dec.

Definition duration_max : Z := u64_max * nanos_per_sec + (nanos_per_sec - 1).
Definition timespec_min : Z := i64_min * nanos_per_sec.
Definition timespec_max : Z := i64_max * nanos_per_sec + (nanos_per_sec - 1).

Definition valid_duration (d : Duration) : Prop := 0 ≤ d ≤ duration_max.
Definition valid_timespec (t : Z) : Prop := timespec_min ≤ t ≤ timespec_max.
#[export] Instance valid_duration_dec d : Decision (valid_duration d).
Proof. apply _. Defined.
#[export] Instance valid_timespec_dec t : Decision (valid_timespec t).
Proof. apply _. Defined.

Definition UNIX_EPOCH : SystemTime := 0.

(** ** [std::time::Duration] *)

Definition from_nanos (n : Z) : Duration := n.
Definition from_micros (n : Z) : Duration := n * 1000.
Definition from_millis (n : Z) : Duration := n * 1000000.
Definition from_secs (n : Z) : Duration := n * nanos_per_sec.
Definition as_nanos (d : Duration) : Z := d.
Definition as_micros (d : Duration) : Z := d / 1000.
Definition as_millis (d : Duration) : Z := d / 1000000.
(** [Duration::checked_sub]. *)
Definition duration_checked_sub (a b : Duration) : option Duration :=
  if decide (b ≤ a) then Some (a - b) else None.

(** ** [SystemTime] and [Instant] arithmetic *)

Definition checked_add (t : Z) (d : Duration) : option Z :=
  if decide (valid_timespec (t + d)) then Some (t + d) else None.
Definition checked_sub (t : Z) (d : Duration) : option Z :=
  if decide (valid_timespec (t - d)) then Some (t - d) else None.
Definition time_add (t : Z) (d : Duration) : outcome Z :=
  match checked_add t d with
  | Some t' => Ret t'
  | None => Panic "overflow when adding duration to instant"
  end.
Definition time_sub (t : Z) (d : Duration) : outcome Z :=
  match checked_sub t d with
  | Some t' => Ret t'
  | None => Panic "overflow when subtracting duration from instant"
  end.
(** [SystemTime::duration_since]: the error carries how far [earlier] is ahead. *)
Definition duration_since (t earlier : SystemTime) : result Duration Duration :=
  if decide (earlier ≤ t) then Ok (t - earlier) else Err (earlier - t).
(** [Instant::checked_duration_since]. *)
Definition checked_duration_since (t earlier : Instant) : option Duration :=
  if decide (earlier ≤ t) then Some (t - earlier) else None.

(** ** Microseconds from the epoch ([complex.rs], [system_time_conversion]) *)

Definition checked_system_time_to_micros_from_epoch (time : SystemTime) : option Z :=
  match duration_since time UNIX_EPOCH with
  | Ok duration_since_epoch => try_i64 (as_micros duration_since_epoch)
  | Err e =>
    (* [i64::checked_neg] fails on [i64::MIN] alone, which [try_i64] never gives here *)
    match try_i64 (as_micros e) with
    | Some micros => if decide (micros = i64_min) then None else Some (- micros)
    | None => None
    end
  end.

Definition micros_from_epoch_to_system_time (micros : Z) : outcome SystemTime :=
  if decide (0 < micros) then
    time_add UNIX_EPOCH (from_micros (wrap_u64 micros))
  else
    time_sub UNIX_EPOCH (from_micros (wrap_u64 (- wrap_u64 micros))).

(** ** [ComplexTime] *)

Record ComplexTime : Type := mkComplexTime { wall : SystemTime; mono : Instant }.
#[export] Instance ComplexTime_eq_dec : EqDecision ComplexTime.
Proof. solve_decision. Defined.

(** [PartialComplexTime]: a value on at least one of the two clocks. *)
Inductive PartialComplexTime : Type :=
| Wall (w : SystemTime)
| Monotonic (m : Instant)
| Complex (c : ComplexTime).
#[export] Instance PartialComplexTime_eq_dec : EqDecision PartialComplexTime.
Proof. solve_decision. Defined.

(** The [From] implementations of [complex_time_type_conversions] and
    [partial_complex_time_type_conversions]. *)
Definition complex_from_pair (t : SystemTime * Instant) : ComplexTime := mkComplexTime t.1 t.2.
Definition partial_from_complex (t : ComplexTime) : PartialComplexTime := Complex t.
Definition partial_from_system_time (w : SystemTime) : PartialComplexTime := Wall w.
Definition partial_from_instant (m : Instant) : PartialComplexTime := Monotonic m.
Definition partial_from_pair (t : SystemTime * Instant) : PartialComplexTime :=
  Complex (complex_from_pair t).

(** [ComplexTime::wall_duration_since]. *)
Definition wall_duration_since (self : ComplexTime) (earlier : SystemTime) : result Duration Duration :=
  duration_since (wall self) earlier.

(** [ComplexTime::truncate_submicrosecond_walltime]. *)
Definition truncate_submicrosecond_walltime (self : ComplexTime) : outcome ComplexTime :=
  let nanos_in_one_micro := as_nanos (from_micros 1) in
  let submicrosecond_nanos :=
    match wall_duration_since self UNIX_EPOCH with
    | Ok duration => as_nanos duration mod nanos_in_one_micro
    | Err e => nanos_in_one_micro - as_nanos e mod nanos_in_one_micro
    end in
  w ← time_sub (wall self) (from_nanos (wrap_u64 submicrosecond_nanos));
  Ret (mkComplexTime w (mono self)).

(** [ComplexTime::is_after_or_eq_any]. *)
Definition is_after_or_eq_any (self : ComplexTime) (other : PartialComplexTime) : bool :=
  match other with
  | Wall w => bool_decide (w ≤ wall self)
  | Monotonic m => bool_decide (m ≤ mono self)
  | Complex c => bool_decide (wall c ≤ wall self) || bool_decide (mono c ≤ mono self)
  end.

(** [impl Add<Duration>], [impl Sub<Duration>] for [ComplexTime]. *)
Definition complex_add (self : ComplexTime) (dur : Duration) : outcome ComplexTime :=
  w ← time_add (wall self) dur;
  m ← time_add (mono self) dur;
  Ret (mkComplexTime w m).
Definition complex_sub (self : ComplexTime) (dur : Duration) : outcome ComplexTime :=
  w ← unwrap (checked_sub (wall self) dur);
  m ← unwrap (checked_sub (mono self) dur);
  Ret (mkComplexTime w m).

(** [From<ComplexTime>] for [SystemTime], [Instant] and [Option<PartialComplexTime>]. *)
Definition system_time_from_complex (complex : ComplexTime) : SystemTime := wall complex.
Definition instant_from_complex (complex : ComplexTime) : Instant := mono complex.
Definition option_partial_from_complex (t : ComplexTime) : option PartialComplexTime :=
  Some (partial_from_complex t).

(** ** [PartialComplexTime] *)

(** [PartialComplexTime::destructure]. *)
Definition destructure (self : PartialComplexTime) : option SystemTime * option Instant :=
  match self with
  | Wall w => (Some w, None)
  | Monotonic m => (None, Some m)
  | Complex c => (Some (wall c), Some (mono c))
  end.

Definition checked_to_system_time (self : PartialComplexTime) : option SystemTime :=
  (destructure self).1.
Definition checked_to_instant (self : PartialComplexTime) : option Instant :=
  (destructure self).2.
Definition checked_to_micros_since_epoch (self : PartialComplexTime) : option Z :=
  match checked_to_system_time self with
  | Some t => checked_system_time_to_micros_from_epoch t
  | None => None
  end.
Definition from_micros_since_epoch (micros : Z) : outcome PartialComplexTime :=
  t ← micros_from_epoch_to_system_time micros;
  Ret (partial_from_system_time t).
Definition complete_with (self : PartialComplexTime) (complex : ComplexTime) : ComplexTime :=
  let '(system, instant) := destructure self in
  complex_from_pair (unwrap_or system (wall complex), unwrap_or instant (mono complex)).

(** [impl Add<Duration>], [impl Sub<Duration>] for [PartialComplexTime]. *)
Definition partial_add (self : PartialComplexTime) (dur : Duration) : outcome PartialComplexTime :=
  match self with
  | Wall w => w' ← time_add w dur; Ret (Wall w')
  | Monotonic m => m' ← time_add m dur; Ret (Monotonic m')
  | Complex c => c' ← complex_add c dur; Ret (Complex c')
  end.
Definition partial_sub (self : PartialComplexTime) (dur : Duration) : outcome PartialComplexTime :=
  match self with
  | Wall w => w' ← unwrap (checked_sub w dur); Ret (Wall w')
  | Monotonic m => m' ← unwrap (checked_sub m dur); Ret (Monotonic m')
  | Complex c => c' ← complex_sub c dur; Ret (Complex c')
  end.

(** ** Reading the clocks

    [TimeSource]: the reads take [&self], but what they return changes as time passes, so each
    read also gives the source's next state.  [Timer]: a wait is a request to the timer. *)

Class TimeSource (TS : Type) := {
  now_in_walltime : TS → SystemTime * TS;
  now_in_monotonic : TS → Instant * TS;
  now : TS → ComplexTime * TS;
}.

Class Timer (TM : Type) := {
  wait_until : TM → PartialComplexTime → TM;
  wait_for : TM → Duration → TM;
}.

(** [SystemTime::now] and [Instant::now] of the standard library: [W] is the world they read. *)
Class StdClock (W : Type) := {
  system_time_now : W → SystemTime * W;
  instant_now : W → Instant * W;
}.

(** [StandardTimeSource]: a unit struct, here with the world its reads look at. *)
Record StandardTimeSource (W : Type) : Type := mkStandardTimeSource { std_world : W }.
Arguments mkStandardTimeSource {W} std_world.
Arguments std_world {W} s.
Definition standard_now {W} `{StdClock W} (self : StandardTimeSource W)
    : ComplexTime * StandardTimeSource W :=
  let '(w, world) := system_time_now (std_world self) in
  let '(m, world) := instant_now world in
  (complex_from_pair (w, m), mkStandardTimeSource world).
#[export] Instance standard_time_source {W} `{StdClock W} : TimeSource (StandardTimeSource W) := {|
  now_in_walltime self :=
    let '(t, world) := system_time_now (std_world self) in (t, mkStandardTimeSource world);
  now_in_monotonic self :=
    let '(t, world) := instant_now (std_world self) in (t, mkStandardTimeSource world);
  now := standard_now;
|}.

(** [clock::now], outside of tests. *)
Definition clock_now {W} `{StdClock W} (world : W) : SystemTime * W := system_time_now world.

(** [MockTimeSource]: an [Arc<RwLock<ComplexTime>>], that is a cell of a store that every clone
    of the source shares. *)
Definition cell : Type := positive.
Record MockTimeSource : Type := mkMockTimeSource { mock_time : cell }.

Definition mock_now (h : gmap cell ComplexTime) (self : MockTimeSource) : option ComplexTime :=
  h !! mock_time self.
Definition mock_now_in_walltime (h : gmap cell ComplexTime) (self : MockTimeSource) : option SystemTime :=
  wall <$> (h !! mock_time self).
Definition mock_now_in_monotonic (h : gmap cell ComplexTime) (self : MockTimeSource) : option Instant :=
  mono <$> (h !! mock_time self).
Definition mock_new (h : gmap cell ComplexTime) (t : ComplexTime) : MockTimeSource * gmap cell ComplexTime :=
  let c := fresh (dom h) in (mkMockTimeSource c, <[c := t]> h).
Definition mock_new_from_now {W} `{StdClock W} (h : gmap cell ComplexTime) (world : W)
    : MockTimeSource * gmap cell ComplexTime * W :=
  let '(t, source) := standard_now (mkStandardTimeSource world) in (mock_new h t, std_world source).
Definition mock_clone (self : MockTimeSource) : MockTimeSource := self.
Definition mock_update (f : ComplexTime → outcome ComplexTime) (h : gmap cell ComplexTime)
    (self : MockTimeSource) : outcome (gmap cell ComplexTime) :=
  t ← unwrap (h !! mock_time self);
  t' ← f t;
  Ret (<[mock_time self := t']> h).
Definition mock_advance (h : gmap cell ComplexTime) (self : MockTimeSource) (duration : Duration)
    : outcome (gmap cell ComplexTime) :=
  mock_update (λ t, complex_add t duration) h self.
Definition mock_truncate_submicrosecond_walltime (h : gmap cell ComplexTime) (self : MockTimeSource)
    : outcome (gmap cell ComplexTime) :=
  mock_update truncate_submicrosecond_walltime h self.

(** ** Texts

    The formats of the [chrono] crate and the [Debug] texts of the standard library. *)

Class TimeFormats := {
  readable_system_time : SystemTime → string;
  debug_instant : Instant → string;
  debug_duration : Duration → string;
}.

Section display.
Context `{TimeFormats}.

(** [impl Display for ComplexTime], [impl Display for PartialComplexTime]. *)
Definition complex_display (self : ComplexTime) : string :=
  readable_system_time (wall self) +:+ " at " +:+ debug_instant (mono self).
Definition partial_display (self : PartialComplexTime) : string :=
  match self with
  | Wall w => readable_system_time w +:+ " and No Monotonic"
  | Monotonic m => "No Wall and " +:+ debug_instant m
  | Complex t => complex_display t
  end.
End display.

(** ** Timers for tests ([time/timers.rs]) *)

Inductive ExpectedWait : Type :=
| ExpectUntil (t : PartialComplexTime)
| ExpectFor (min max : Duration).
Inductive RequestedWait : Type :=
| Until (t : PartialComplexTime)
| For (d : Duration).
#[export] Instance RequestedWait_eq_dec : EqDecision RequestedWait.
Proof. solve_decision. Defined.

(** What a wait's future does: it is ready at once, or it never completes. *)
Inductive WaitFuture : Type := FutReady | FutPending.

Record MockTimer : Type := mkMockTimer {
  expected_waits : list ExpectedWait;
  requested_waits : list RequestedWait;
}.
Definition mock_timer_new : MockTimer := mkMockTimer [] [].
Definition expect_until (self : MockTimer) (t : PartialComplexTime) : MockTimer :=
  mkMockTimer (expected_waits self ++ [ExpectUntil t]) (requested_waits self).
Definition expect_for (self : MockTimer) (d : Duration) : MockTimer :=
  mkMockTimer (expected_waits self ++ [ExpectFor d d]) (requested_waits self).
Definition expect_for_range (self : MockTimer) (min max : Duration) : MockTimer :=
  mkMockTimer (expected_waits self ++ [ExpectFor min max]) (requested_waits self).

Definition handle_wait (self : MockTimer) (requested : RequestedWait)
    : outcome (MockTimer * WaitFuture) :=
  match expected_waits self with
  | expected :: rest =>
    _ ← match requested, expected with
        | For duration, ExpectFor min max =>
          if decide (min ≤ duration ∧ duration ≤ max) then Ret tt else Panic "out of range"
        | Until requested, ExpectUntil expected =>
          if decide (requested = expected) then Ret tt
          else Panic "wait_until() called with wrong time"
        | _, _ => Panic "Timer called with wrong wait"
        end;
    Ret (mkMockTimer rest (requested_waits self ++ [requested]), FutReady)
  | [] => Ret (self, FutPending)
  end.
Definition mock_wait_until (self : MockTimer) (t : PartialComplexTime) : outcome (MockTimer * WaitFuture) :=
  handle_wait self (Until t).
Definition mock_wait_for (self : MockTimer) (d : Duration) : outcome (MockTimer * WaitFuture) :=
  handle_wait self (For d).
(** [impl Drop]: every expected wait has been used. *)
Definition mock_timer_drop (self : MockTimer) : outcome unit :=
  match expected_waits self with
  | [] => Ret tt
  | _ => Panic "assertion failed: self.expected_waits.is_empty()"
  end.

(** [StubTimer]: every wait is over at once; [InfiniteTimer]: no wait is ever over. *)
Definition stub_wait (requested : RequestedWait) : WaitFuture := FutReady.
Definition infinite_wait (requested : RequestedWait) : WaitFuture := FutPending.

(** ** Lemmas *)

Ltac time_range :=
  unfold valid_timespec, valid_duration, timespec_min, timespec_max, duration_max,
    nanos_per_sec, from_micros, from_millis, from_secs, from_nanos, as_micros, as_millis, as_nanos,
    UNIX_EPOCH in *; range.

Lemma time_add_exact t d : valid_timespec (t + d) → time_add t d = Ret (t + d).
Proof. intros. unfold time_add, checked_add. by rewrite decide_True. Qed.
Lemma time_sub_exact t d : valid_timespec (t - d) → time_sub t d = Ret (t - d).
Proof. intros. unfold time_sub, checked_sub. by rewrite decide_True. Qed.
Lemma time_add_Ret t d t' : time_add t d = Ret t' → t' = t + d ∧ valid_timespec t'.
Proof. unfold time_add, checked_add. case_decide; [by intros [= <-]|done]. Qed.
Lemma checked_sub_back t d : valid_timespec t → checked_sub (t + d) d = Some t.
Proof.
  intros. unfold checked_sub. replace (t + d - d) with t by lia. by rewrite decide_True.
Qed.

(** Every [i64] of microseconds is a [SystemTime]: the conversion never panics. *)
Lemma micros_from_epoch_value micros :
  in_i64 micros → micros_from_epoch_to_system_time micros = Ret (micros * 1000).
Proof.
  intros Hm. unfold micros_from_epoch_to_system_time. case_decide.
  - rewrite time_add_exact; [f_equal|]; unfold wrap_u64; rewrite ?Z.mod_small by range; time_range.
  - assert (wrap_u64 (- wrap_u64 micros) = - micros) as ->.
    { unfold wrap_u64. rewrite <-(Z.sub_0_l (_ mod _)), Zminus_mod_idemp_r, Z.mod_small; range. }
    rewrite time_sub_exact; [f_equal|]; time_range.
Qed.

(** Microseconds since the epoch, towards zero. *)
Lemma checked_to_micros_value t :
  checked_system_time_to_micros_from_epoch t =
  if decide (Z.abs (Z.quot t 1000) ≤ i64_max) then Some (Z.quot t 1000) else None.
Proof.
  unfold checked_system_time_to_micros_from_epoch, duration_since, as_micros, UNIX_EPOCH.
  destruct (decide (0 ≤ t)).
  - rewrite Z.sub_0_r, Z.quot_div_nonneg by lia. pose proof (Z.div_pos t 1000).
    unfold try_i64. repeat case_decide; try done; range.
  - assert (Z.quot t 1000 = - ((0 - t) / 1000)) as ->.
    { replace t with (- (0 - t)) at 1 by lia. by rewrite Z.quot_opp_l, Z.quot_div_nonneg by lia. }
    pose proof (Z.div_pos (0 - t) 1000). unfold try_i64. repeat case_decide; try done; range.
Qed.

#[export] Hint Rewrite micros_from_epoch_value using (range || done) : omaha_simpl.
#[export] Hint Resolve micros_from_epoch_value : omaha.

(** ** Properties *)

(** C39: every [i64] of microseconds converts to a [SystemTime] without a panic, and converting
    that time back gives the same number; the one exception is [i64::MIN], whose time no longer
    converts back because the absolute value is checked before its sign is restored. *)
Theorem micros_roundtrip micros :
  in_i64 micros →
  ∃ t, micros_from_epoch_to_system_time micros = Ret t ∧ valid_timespec t ∧
    checked_system_time_to_micros_from_epoch t =
      if decide (micros = i64_min) then None else Some micros.
Proof.
  intros Hm. exists (micros * 1000). rewrite checked_to_micros_value, Z.quot_mul by done.
  split; [by apply micros_from_epoch_value|split; [time_range|]].
  repeat case_decide; try done; range.
Qed.

Lemma micros_roundtrip_witness :
  in_i64 i64_min ∧ ∃ t, micros_from_epoch_to_system_time i64_min = Ret t ∧ valid_timespec t ∧
    checked_system_time_to_micros_from_epoch t = None.
Proof. split; [range|]. apply (micros_roundtrip i64_min). range. Defined.

(** Storing a time as microseconds and reading it back rounds it to the microsecond nearer
    the epoch, so it moves by less than one microsecond and never away from the epoch. *)
Theorem stored_time_precision t micros :
  checked_system_time_to_micros_from_epoch t = Some micros →
  ∃ t', micros_from_epoch_to_system_time micros = Ret t' ∧
    t' = Z.quot t 1000 * 1000 ∧ Z.abs (t - t') < 1000 ∧ Z.abs t' ≤ Z.abs t.
Proof.
  rewrite checked_to_micros_value. case_decide; [|done]. intros [= <-].
  exists (Z.quot t 1000 * 1000). pose proof (Z.quot_rem' t 1000).
  pose proof (Z.rem_bound_abs t 1000). pose proof (Z.rem_sign_mul t 1000).
  split; [apply micros_from_epoch_value; range|]. split; [done|]. split; [lia|].
  destruct (decide (0 ≤ t)).
  - pose proof (Z.quot_pos t 1000). pose proof (Z.rem_nonneg t 1000). lia.
  - pose proof (Z.rem_nonpos t 1000). pose proof (Z.quot_pos (- t) 1000).
    rewrite Z.quot_opp_l in * by lia. lia.
Qed.

Lemma stored_time_precision_witness :
  checked_system_time_to_micros_from_epoch (-1999) = Some (-1) ∧
  ∃ t', micros_from_epoch_to_system_time (-1) = Ret t' ∧
    t' = Z.quot (-1999) 1000 * 1000 ∧ Z.abs (-1999 - t') < 1000 ∧ Z.abs t' ≤ Z.abs (-1999).
Proof. split; [reflexivity|]. apply (stored_time_precision (-1999) (-1)). reflexivity. Defined.

(** [truncate_submicrosecond_walltime] rounds a time at or after the epoch down to its
    microsecond, which is what storing it does.  Before the epoch it rounds down too, except
    that a time already on a microsecond moves back by a whole microsecond. *)
Theorem truncate_walltime_spec c :
  valid_timespec (wall c - 1000) → valid_timespec (wall c) →
  truncate_submicrosecond_walltime c =
    Ret (mkComplexTime
      (if decide (wall c < 0 ∧ wall c mod 1000 = 0) then wall c - 1000
       else wall c / 1000 * 1000) (mono c)).
Proof.
  intros Hv Hv'. destruct c as [w m]. unfold truncate_submicrosecond_walltime, wall_duration_since,
    duration_since, as_nanos, from_micros, from_nanos, UNIX_EPOCH in *. simpl in *.
  change (1 * 1000) with 1000. pose proof (Z.div_mod w 1000 ltac:(lia)). pose proof (Z.mod_pos_bound w 1000 ltac:(lia)).
  case_decide.
  - rewrite Z.sub_0_r. unfold wrap_u64. rewrite (Z.mod_small (w mod 1000)) by lia.
    rewrite time_sub_exact by time_range. rewrite ret_bind. rewrite decide_False by lia.
    do 2 f_equal. lia.
  - assert ((0 - w) mod 1000 = if decide (w mod 1000 = 0) then 0 else 1000 - w mod 1000) as ->.
    { symmetry. case_decide; [apply (Z.mod_unique_pos _ _ (- (w / 1000)))
        |apply (Z.mod_unique_pos _ _ (- (w / 1000) - 1))]; lia. }
    unfold wrap_u64. rewrite (Z.mod_small _ (2 ^ 64)) by (case_decide; lia).
    rewrite time_sub_exact by (case_decide; time_range). rewrite ret_bind. do 2 f_equal.
    repeat case_decide; lia.
Qed.

Lemma truncate_walltime_spec_witness :
  (valid_timespec (-2000 - 1000) ∧ valid_timespec (-2000)) ∧
  truncate_submicrosecond_walltime (mkComplexTime (-2000) 7) = Ret (mkComplexTime (-3000) 7).
Proof.
  split; [time_range|]. apply (truncate_walltime_spec (mkComplexTime (-2000) 7)); simpl; time_range.
Defined.

(** [is_after_or_eq_any] holds exactly when some clock the bound mentions has reached it. *)
Theorem is_after_or_eq_any_spec c p :
  is_after_or_eq_any c p = true ↔
    (∃ w, checked_to_system_time p = Some w ∧ w ≤ wall c) ∨
    (∃ m, checked_to_instant p = Some m ∧ m ≤ mono c).
Proof.
  destruct p as [w|m|[w m]]; unfold checked_to_system_time, checked_to_instant; simpl;
    rewrite ?orb_true_iff, ?bool_decide_eq_true; naive_solver.
Qed.

(** Subtracting the duration that was just added gives the time back, on every clock the
    time holds. *)
Theorem partial_add_sub p d p' :
  (∀ w, checked_to_system_time p = Some w → valid_timespec w) →
  (∀ m, checked_to_instant p = Some m → valid_timespec m) →
  partial_add p d = Ret p' → partial_sub p' d = Ret p.
Proof.
  intros Hw Hm. unfold checked_to_system_time, checked_to_instant in *.
  destruct p as [w|m|[w m]]; simpl in *; unfold mbind, outcome_bind, complex_add; simpl.
  - destruct (time_add w d) eqn:E; [|done]. apply time_add_Ret in E as [-> _].
    intros [= <-]. simpl. unfold mbind, outcome_bind. by rewrite checked_sub_back by auto.
  - destruct (time_add m d) eqn:E; [|done]. apply time_add_Ret in E as [-> _].
    intros [= <-]. simpl. unfold mbind, outcome_bind. by rewrite checked_sub_back by auto.
  - unfold mbind, outcome_bind. destruct (time_add w d) eqn:E; [|done].
    destruct (time_add m d) eqn:E'; [|done].
    apply time_add_Ret in E as [-> _]. apply time_add_Ret in E' as [-> _].
    intros [= <-]. simpl. unfold complex_sub, mbind, outcome_bind. simpl.
    rewrite checked_sub_back by auto. simpl. by rewrite checked_sub_back by auto.
Qed.

Lemma partial_add_sub_witness :
  partial_add (Complex (mkComplexTime 5 6)) 10 = Ret (Complex (mkComplexTime 15 16)) ∧
  partial_sub (Complex (mkComplexTime 15 16)) 10 = Ret (Complex (mkComplexTime 5 6)).
Proof.
  split; [reflexivity|]. apply (partial_add_sub (Complex (mkComplexTime 5 6))); [..|reflexivity];
    intros ? [= <-]; time_range.
Defined.

(** Completing a partial time keeps every clock it already has. *)
Lemma complete_with_keeps p c :
  wall (complete_with p c) = unwrap_or (checked_to_system_time p) (wall c) ∧
  mono (complete_with p c) = unwrap_or (checked_to_instant p) (mono c).
Proof. by destruct p. Qed.

(** Advancing a mock clock through one handle is seen through every clone of it and through
    no other clock; a new clock is unrelated to the existing ones. *)
Theorem mock_advance_shared h self d h' :
  mock_advance h self d = Ret h' →
  (∃ t t', mock_now h self = Some t ∧ complex_add t d = Ret t' ∧
     mock_now h' (mock_clone self) = Some t') ∧
  (∀ other, mock_time other ≠ mock_time self → mock_now h' other = mock_now h other) ∧
  (∀ t, mock_now h (mock_new h t).1 = None ∧
     mock_now (mock_new h t).2 self = mock_now h self).
Proof.
  unfold mock_advance, mock_update, mock_now, mock_clone. destruct (h !! mock_time self) as [t|] eqn:E; [|done].
  simpl. unfold mbind, outcome_bind. destruct (complex_add t d) as [t'|] eqn:E'; [|done]. intros [= <-].
  split; [exists t, t'; by rewrite lookup_insert_eq|].
  split; [intros other Hne; by rewrite lookup_insert_ne|].
  intros t0. assert (h !! fresh (dom h) = None) as Hf.
  { apply not_elem_of_dom, is_fresh. }
  split; [done|]. rewrite lookup_insert_ne; [done|]. intros Heq. congruence.
Qed.

Lemma mock_advance_shared_witness :
  let h : gmap cell ComplexTime := {[1%positive := mkComplexTime 1 2]} in
  let src := mkMockTimeSource 1%positive in
  ∃ h', mock_advance h src 5 = Ret h' ∧
  (∃ t t', mock_now h src = Some t ∧ complex_add t 5 = Ret t' ∧
     mock_now h' (mock_clone src) = Some t').
Proof.
  eexists. split; [reflexivity|].
  apply (mock_advance_shared {[1%positive := mkComplexTime 1 2]} (mkMockTimeSource 1%positive) 5).
  reflexivity.
Defined.

(** With the waits it was told to expect, the mock timer lets exactly the requests that match
    them pass, in order, and every later request waits for ever. *)
Theorem mock_timer_expected self requested self' fut :
  handle_wait self requested = Ret (self', fut) →
  match expected_waits self with
  | [] => self' = self ∧ fut = FutPending
  | expected :: rest =>
    expected_waits self' = rest ∧ requested_waits self' = requested_waits self ++ [requested] ∧
    fut = FutReady ∧
    match expected, requested with
    | ExpectUntil t, Until t' => t' = t
    | ExpectFor min max, For d => min ≤ d ≤ max
    | _, _ => False
    end
  end.
Proof.
  unfold handle_wait. destruct (expected_waits self) as [|e rest]; [by intros [= <- <-]|].
  unfold mbind, outcome_bind.
  destruct requested, e; simpl; try done; case_decide; try done; intros [= <- <-]; by simpl.
Qed.

Lemma mock_timer_expected_witness :
  handle_wait (expect_for mock_timer_new 5) (For 5) = Ret (mkMockTimer [] [For 5], FutReady) ∧
  expected_waits (mkMockTimer [] [For 5]) = [].
Proof.
  split; [reflexivity|].
  apply (mock_timer_expected (expect_for mock_timer_new 5) (For 5) _ _ eq_refl).
Defined.
