(* ===== verification/TimeTests.v ===== *)
(** * The tests of [time/complex.rs], [time/time_source.rs] and [time/timers.rs]

    The tests read the clocks of the system: [wall_now] and [mono_now] are what they read.  They pass
    whatever that is, as long as it is a day away from the ends of the clocks' range.  Two tests are
    left out, [test_wait_for_wrong_duration] and [test_readable_system_time]: they look at the text
    that a time or a duration is printed as. *)

From S2P Require Import Prelude Testing Time.
Open Scope Z_scope.

(** [Instant::duration_since], which saturates. *)
Definition instant_duration_since (t earlier : Instant) : Duration :=
  unwrap_or (checked_duration_since t earlier) 0.
(** [SystemTime::duration_since(..).unwrap()]. *)
Definition wall_since (t earlier : SystemTime) : outcome Duration := unwrap_ok (duration_since t earlier).

Section tests.
Context (wall_now : SystemTime) (mono_now : Instant).

Let comp_now : ComplexTime := mkComplexTime wall_now mono_now.
Let an_hour : Duration := from_secs (60 * 60).
(** An [Instant] at least a day from the real one. *)
Let mono_later : outcome Instant := time_add mono_now (from_secs (24 * 60 * 60)).

(** ** [complex_time_impls] *)

Definition test_truncate_submicrosecond_walltime : outcome unit :=
  let time := mkComplexTime wall_now mono_now in
  truncated ← truncate_submicrosecond_walltime time;
  micros ← unwrap (checked_system_time_to_micros_from_epoch (wall time));
  stored ← micros_from_epoch_to_system_time micros;
  assert_eq (wall truncated) stored.

Definition test_wall_duration_since : outcome unit :=
  let early := mkComplexTime wall_now mono_now in
  later ← time_add (wall early) (from_secs 200);
  since ← unwrap_ok (wall_duration_since (mkComplexTime later (mono early)) (wall early));
  assert_eq since (from_secs 200).

Definition test_is_after_or_eq_any : outcome unit :=
  let wall := wall_now in
  let mono := mono_now in
  let comp := mkComplexTime wall mono in
  let dur := from_secs 60 in
  wall_after ← time_add wall dur;
  mono_after ← time_add mono dur;
  comp_after ← complex_add comp dur;
  let comp_wall_after_mono_not := complex_from_pair (wall_after, mono) in
  let comp_mono_after_wall_not := complex_from_pair (wall, mono_after) in
  assert (is_after_or_eq_any comp_after (partial_from_complex comp));;
  assert (is_after_or_eq_any comp_after (Wall wall));;
  assert (is_after_or_eq_any comp_after (Monotonic mono));;
  assert (is_after_or_eq_any comp_after (Complex comp));;
  assert (negb (is_after_or_eq_any comp (partial_from_complex comp_after)));;
  assert (negb (is_after_or_eq_any comp (Wall wall_after)));;
  assert (negb (is_after_or_eq_any comp (Monotonic mono_after)));;
  assert (negb (is_after_or_eq_any comp (Complex comp_after)));;
  assert (is_after_or_eq_any comp_after (partial_from_complex comp_after));;
  assert (is_after_or_eq_any comp_after (Wall wall_after));;
  assert (is_after_or_eq_any comp_after (Monotonic mono_after));;
  assert (is_after_or_eq_any comp_after (Complex comp_after));;
  assert (is_after_or_eq_any comp_wall_after_mono_not (partial_from_complex comp));;
  assert (is_after_or_eq_any comp_mono_after_wall_not (partial_from_complex comp)).

(** The durations from [earlier] to [later] on both clocks are [dur]. *)
Definition both_since (later earlier : ComplexTime) (dur : Duration) : outcome unit :=
  wall_duration ← wall_since (wall later) (wall earlier);
  let mono_duration := instant_duration_since (mono later) (mono earlier) in
  assert_eq wall_duration dur;;
  assert_eq mono_duration dur.
Definition test_complex_time_impl_add : outcome unit :=
  let earlier := mkComplexTime wall_now mono_now in
  let dur := an_hour in
  later ← complex_add earlier dur;
  both_since later earlier dur.
Definition test_complex_time_impl_add_assign : outcome unit :=
  let time := mkComplexTime wall_now mono_now in
  let earlier := time in
  let dur := an_hour in
  time ← complex_add time dur;
  both_since time earlier dur.
Definition test_complex_time_impl_sub : outcome unit :=
  mono ← mono_later;
  let time := mkComplexTime wall_now mono in
  let dur := an_hour in
  earlier ← complex_sub time dur;
  both_since time earlier dur.
Definition test_complex_time_impl_sub_assign : outcome unit :=
  mono ← mono_later;
  let time := mkComplexTime wall_now mono in
  let before_sub := time in
  let dur := an_hour in
  time ← complex_sub time dur;
  both_since before_sub time dur.

(** ** [complex_time_type_conversions] *)

Definition test_from_std_time_tuple_for_complex_time : outcome unit :=
  let system_time := wall_now in
  let instant := mono_now in
  assert_eq (complex_from_pair (system_time, instant)) (mkComplexTime system_time instant).
Definition test_from_complex_time_for_instant : outcome unit :=
  let time := mkComplexTime wall_now mono_now in
  let instant_from_time := instant_from_complex time in
  let time_into_instant := instant_from_complex time in
  assert_eq instant_from_time time_into_instant;;
  assert_eq instant_from_time (mono time);;
  assert_eq time_into_instant (mono time).
Definition test_from_complex_time_for_system_time : outcome unit :=
  let time := mkComplexTime wall_now mono_now in
  let system_from_time := system_time_from_complex time in
  let time_into_system := system_time_from_complex time in
  assert_eq system_from_time time_into_system;;
  assert_eq system_from_time (wall time);;
  assert_eq time_into_system (wall time).

(** ** [partial_complex_time_impls] *)

(** The three [match]es at the end of these tests: each time is of its kind, and [dur] away from the
    one it was made from. *)
Definition each_since (w m c : PartialComplexTime) (since : ComplexTime → outcome unit)
    (since_wall : SystemTime → outcome unit) (since_mono : Instant → outcome unit) : outcome unit :=
  match w with Wall w => since_wall w | _ => Panic "is not a PartialComplexTime::Wall" end;;
  match m with Monotonic m => since_mono m | _ => Panic "is not a PartialComplexTime::Monotonic" end;;
  match c with Complex c => since c | _ => Panic "is not a PartialComplexTime::Complex" end.
Definition each_later (wall mono : Z) (w m c : PartialComplexTime) (dur : Duration) : outcome unit :=
  each_since w m c
    (λ c, both_since c (mkComplexTime wall mono) dur)
    (λ w, d ← wall_since w wall; assert_eq d dur)
    (λ m, assert_eq (instant_duration_since m mono) dur).
Definition each_earlier (wall mono : Z) (w m c : PartialComplexTime) (dur : Duration) : outcome unit :=
  each_since w m c
    (λ c, both_since (mkComplexTime wall mono) c dur)
    (λ w, d ← wall_since wall w; assert_eq d dur)
    (λ m, assert_eq (instant_duration_since mono m) dur).

Definition test_partial_complex_time_impl_add : outcome unit :=
  let wall := wall_now in
  let mono := mono_now in
  let comp := mkComplexTime wall mono in
  let partial_wall := Wall wall in
  let partial_mono := Monotonic mono in
  let partial_comp := Complex comp in
  let dur := an_hour in
  later_partial_wall ← partial_add partial_wall dur;
  later_partial_mono ← partial_add partial_mono dur;
  later_partial_comp ← partial_add partial_comp dur;
  each_later wall mono later_partial_wall later_partial_mono later_partial_comp dur.
Definition test_partial_complex_time_impl_add_assign : outcome unit :=
  let wall := wall_now in
  let mono := mono_now in
  let comp := mkComplexTime wall mono in
  let partial_wall := Wall wall in
  let partial_mono := Monotonic mono in
  let partial_comp := Complex comp in
  let dur := an_hour in
  partial_wall ← partial_add partial_wall dur;
  partial_mono ← partial_add partial_mono dur;
  partial_comp ← partial_add partial_comp dur;
  each_later wall mono partial_wall partial_mono partial_comp dur.
Definition test_partial_complex_time_impl_sub : outcome unit :=
  let wall := wall_now in
  mono ← mono_later;
  let comp := mkComplexTime wall mono in
  let partial_wall := Wall wall in
  let partial_mono := Monotonic mono in
  let partial_comp := Complex comp in
  let dur := an_hour in
  earlier_partial_wall ← partial_sub partial_wall dur;
  earlier_partial_mono ← partial_sub partial_mono dur;
  earlier_partial_comp ← partial_sub partial_comp dur;
  each_earlier wall mono earlier_partial_wall earlier_partial_mono earlier_partial_comp dur.
Definition test_partial_complex_time_impl_sub_assign : outcome unit :=
  let wall := wall_now in
  mono ← mono_later;
  let comp := mkComplexTime wall mono in
  let partial_wall := Wall wall in
  let partial_mono := Monotonic mono in
  let partial_comp := Complex comp in
  let dur := an_hour in
  partial_wall ← partial_sub partial_wall dur;
  partial_mono ← partial_sub partial_mono dur;
  partial_comp ← partial_sub partial_comp dur;
  each_earlier wall mono partial_wall partial_mono partial_comp dur.

(** ** [partial_complex_time_type_conversions] *)

Definition test_from_complex_time_for_partial_complex_time : outcome unit :=
  let complex := comp_now in
  assert_eq (partial_from_complex complex) (Complex complex).
Definition test_from_complex_time_for_option_partial_complex_time : outcome unit :=
  let complex := comp_now in
  assert_eq (option_partial_from_complex complex) (Some (Complex complex)).
Definition test_from_system_time_for_partial_complex_time : outcome unit :=
  let system_time := wall_now in
  assert_eq (partial_from_system_time system_time) (Wall system_time).
Definition test_from_instant_for_partial_complex_time : outcome unit :=
  let instant := mono_now in
  assert_eq (partial_from_instant instant) (Monotonic instant).
Definition test_from_std_time_tuple_for_partial_complex_time : outcome unit :=
  let system_time := wall_now in
  let instant := mono_now in
  assert_eq (partial_from_system_time system_time) (Wall system_time);;
  assert_eq (partial_from_instant instant) (Monotonic instant);;
  assert_eq (partial_from_pair (system_time, instant)) (Complex (mkComplexTime system_time instant)).
Definition test_checked_to_system_time : outcome unit :=
  let system_time := wall_now in
  let instant := mono_now in
  assert_eq (checked_to_system_time (Wall system_time)) (Some system_time);;
  assert_eq (checked_to_system_time (Monotonic instant)) None;;
  assert_eq (checked_to_system_time (Complex (complex_from_pair (system_time, instant)))) (Some system_time).
Definition test_checked_to_micros_from_partial_complex_time : outcome unit :=
  system_time ← time_add UNIX_EPOCH (from_micros 123456789);
  let instant := mono_now in
  micros ← unwrap (checked_to_micros_since_epoch (Wall system_time));
  assert_eq 123456789 micros;;
  micros ← unwrap (checked_to_micros_since_epoch (Complex (complex_from_pair (system_time, instant))));
  assert_eq 123456789 micros;;
  assert_eq None (checked_to_micros_since_epoch (Monotonic instant)).
Definition test_checked_to_micros_from_partial_complex_time_before_epoch : outcome unit :=
  system_time ← time_sub UNIX_EPOCH (from_micros 123456789);
  let instant := mono_now in
  micros ← unwrap (checked_to_micros_since_epoch (Wall system_time));
  assert_eq (-123456789) micros;;
  micros ← unwrap (checked_to_micros_since_epoch (Complex (complex_from_pair (system_time, instant))));
  assert_eq (-123456789) micros;;
  assert_eq None (checked_to_micros_since_epoch (Monotonic instant)).
Definition test_checked_to_micros_from_partial_complex_time_overflow_is_none : outcome unit :=
  system_time ← time_add UNIX_EPOCH (2 * from_micros u64_max);
  assert_eq None (checked_to_micros_since_epoch (Wall system_time)).
Definition test_checked_to_micros_from_partial_complex_time_negative_overflow_is_none : outcome unit :=
  system_time ← time_sub UNIX_EPOCH (2 * from_micros u64_max);
  assert_eq None (checked_to_micros_since_epoch (Wall system_time)).
Definition test_complete_with : outcome unit :=
  system_time ← time_sub UNIX_EPOCH (from_micros 100);
  let instant := mono_now in
  let complex := complex_from_pair (system_time, instant) in
  let wall := Wall system_time in
  let mono := Monotonic instant in
  let comp := Complex complex in
  other ← complex_add complex (from_micros 500);
  assert_eq (complete_with wall other) (complex_from_pair (system_time, Time.mono other));;
  assert_eq (complete_with mono other) (complex_from_pair (Time.wall other, instant));;
  assert_eq (complete_with comp other) complex.
Definition test_destructure : outcome unit :=
  let system_time := wall_now in
  let instant := mono_now in
  let complex := complex_from_pair (system_time, instant) in
  let wall := Wall system_time in
  let mono := Monotonic instant in
  let comp := Complex complex in
  assert_eq (destructure wall) (Some system_time, None);;
  assert_eq (destructure mono) (None, Some instant);;
  assert_eq (destructure comp) (Some system_time, Some instant).

(** ** [system_time_conversion] *)

Definition test_system_time_to_micros : outcome unit :=
  system_time ← time_add UNIX_EPOCH (from_micros 123456789);
  micros ← unwrap (checked_system_time_to_micros_from_epoch system_time);
  assert_eq micros 123456789.
Definition test_system_time_to_micros_negative : outcome unit :=
  system_time ← time_sub UNIX_EPOCH (from_micros 123456789);
  micros ← unwrap (checked_system_time_to_micros_from_epoch system_time);
  assert_eq micros (-123456789).
Definition test_system_time_to_micros_overflow_is_none : outcome unit :=
  system_time ← time_add UNIX_EPOCH (2 * from_micros u64_max);
  assert_eq (checked_system_time_to_micros_from_epoch system_time) None.
Definition test_system_time_to_micros_negative_overflow_is_none : outcome unit :=
  system_time ← time_sub UNIX_EPOCH (2 * from_micros u64_max);
  assert_eq (checked_system_time_to_micros_from_epoch system_time) None.
Definition test_system_time_from_micros : outcome unit :=
  system_time ← time_add UNIX_EPOCH (from_micros 123456789);
  t ← micros_from_epoch_to_system_time 123456789;
  assert_eq t system_time.
Definition test_system_time_from_micros_negative : outcome unit :=
  system_time ← time_sub UNIX_EPOCH (from_micros 123456789);
  t ← micros_from_epoch_to_system_time (-123456789);
  assert_eq t system_time.
Definition test_system_time_from_micros_positive_max : outcome unit :=
  system_time ← time_add UNIX_EPOCH (from_micros i64_max);
  t ← micros_from_epoch_to_system_time i64_max;
  assert_eq t system_time.
Definition test_system_time_from_micros_negative_min : outcome unit :=
  system_time ← time_sub UNIX_EPOCH (from_micros (i64_max + 1));
  t ← micros_from_epoch_to_system_time i64_min;
  assert_eq t system_time.

(** ** [time_source]: [h] are the cells that exist, here none *)

Let source : MockTimeSource * gmap cell ComplexTime := mock_new ∅ comp_now.

Definition test_impl_time_source_for_mock_time_source : outcome unit :=
  let time := comp_now in
  let '(mock_source, h) := mock_new ∅ time in
  t ← unwrap (mock_now h mock_source);
  assert_eq t time;;
  w ← unwrap (mock_now_in_walltime h mock_source);
  assert_eq w (wall time);;
  m ← unwrap (mock_now_in_monotonic h mock_source);
  assert_eq m (mono time).
(** Nothing happens between the readings. *)
Definition test_mock_timesource_doesnt_advance_on_its_own : outcome unit :=
  let '(source, h) := source in
  now ← unwrap (mock_now h source);
  same_as_now ← unwrap (mock_now h source);
  assert_eq same_as_now now.
Definition test_mock_timesource_will_advance : outcome unit :=
  let '(source, h) := source in
  now ← unwrap (mock_now h source);
  let duration := from_secs 60 in
  h ← mock_advance h source duration;
  later ← unwrap (mock_now h source);
  expected ← complex_add now duration;
  assert_eq later expected.
Definition test_cloned_mock_time_source_also_advances : outcome unit :=
  let '(one_mock_source, h) := source in
  initial_time ← unwrap (mock_now h one_mock_source);
  let two_mock_source := mock_clone one_mock_source in
  let one_hour := from_secs 3600 in
  h ← mock_advance h one_mock_source one_hour;
  later_time ← unwrap (mock_now h one_mock_source);
  expected ← complex_add initial_time one_hour;
  assert_eq later_time expected;;
  two_time ← unwrap (mock_now h two_mock_source);
  assert_eq two_time expected.

(** ** [timers]: [block_on] of a wait panics when the wait is never over *)

Definition block_on (r : outcome (MockTimer * WaitFuture)) : outcome MockTimer :=
  '(timer, future) ← r;
  match future with FutReady => Ret timer | FutPending => Panic "the executor is stuck" end.
Definition block_on_future (future : WaitFuture) : outcome unit :=
  match future with FutReady => Ret tt | FutPending => Panic "the executor is stuck" end.

Definition test_wait_always_ready : outcome unit :=
  t ← complex_add comp_now (from_secs 5555);
  block_on_future (stub_wait (Until (partial_from_complex t)));;
  block_on_future (stub_wait (For (from_secs 5555))).
Definition test_wait_until_expected : outcome unit :=
  time ← complex_add comp_now (from_secs 5555);
  let timer := expect_until mock_timer_new (partial_from_complex time) in
  timer ← block_on (mock_wait_until timer (partial_from_complex time));
  mock_timer_drop timer.
Definition test_wait_for_expected : outcome unit :=
  let timer := expect_for mock_timer_new (from_secs 5555) in
  timer ← block_on (mock_wait_for timer (from_secs 5555));
  mock_timer_drop timer.
Definition test_wait_for_twice : outcome unit :=
  let timer := expect_for (expect_for mock_timer_new (from_secs 5555)) (from_secs 6666) in
  timer ← block_on (mock_wait_for timer (from_secs 5555));
  timer ← block_on (mock_wait_for timer (from_secs 6666));
  mock_timer_drop timer.
(** The loop runs until it is stalled: its wait is pending.  Then the pool drops the timer. *)
Fixpoint wait_for_loop (rounds : nat) (i : Z) (timer : MockTimer) : outcome MockTimer :=
  match rounds with
  | O => Panic "the loop is never stalled"
  | S rounds =>
    '(timer, future) ← mock_wait_for timer (from_secs i);
    match future with FutReady => wait_for_loop rounds (i + 1) timer | FutPending => Ret timer end
  end.
Definition test_wait_for_loop : outcome unit :=
  let timer := expect_for (expect_for (expect_for mock_timer_new (from_secs 1)) (from_secs 2)) (from_secs 3) in
  timer ← wait_for_loop 100 1 timer;
  mock_timer_drop timer.
Definition ten_to_twenty : MockTimer := expect_for_range mock_timer_new (from_secs 10) (from_secs 20).
Definition test_wait_for_expected_duration : outcome unit :=
  timer ← block_on (mock_wait_for ten_to_twenty (from_secs 15));
  mock_timer_drop timer.
Definition test_wait_for_expected_duration_out_of_range_low : outcome unit :=
  should_panic "out of range" (block_on (mock_wait_for ten_to_twenty (from_secs 3))).
Definition test_wait_for_expected_duration_out_of_range_high : outcome unit :=
  should_panic "out of range" (block_on (mock_wait_for ten_to_twenty (from_secs 30))).
Definition test_expect_more_wait_for : outcome unit :=
  should_panic "is_empty()" (
    let timer := expect_for (expect_for mock_timer_new (from_secs 5555)) (from_secs 6666) in
    timer ← block_on (mock_wait_for timer (from_secs 5555));
    mock_timer_drop timer).
Definition test_wait_for_wrong_wait : outcome unit :=
  should_panic "Timer called with wrong wait" (
    time ← complex_add comp_now (from_secs 5555);
    let timer := expect_until mock_timer_new (partial_from_complex time) in
    block_on (mock_wait_for timer (from_secs 6666))).

Definition time_tests : list (outcome unit) :=
  [test_wall_duration_since; test_is_after_or_eq_any; test_complex_time_impl_add; test_complex_time_impl_add_assign;
   test_complex_time_impl_sub; test_complex_time_impl_sub_assign;
   test_from_std_time_tuple_for_complex_time; test_from_complex_time_for_instant;
   test_from_complex_time_for_system_time; test_partial_complex_time_impl_add;
   test_partial_complex_time_impl_add_assign; test_partial_complex_time_impl_sub;
   test_partial_complex_time_impl_sub_assign; test_from_complex_time_for_partial_complex_time;
   test_from_complex_time_for_option_partial_complex_time;
   test_from_system_time_for_partial_complex_time; test_from_instant_for_partial_complex_time;
   test_from_std_time_tuple_for_partial_complex_time; test_checked_to_system_time;
   test_checked_to_micros_from_partial_complex_time;
   test_checked_to_micros_from_partial_complex_time_before_epoch;
   test_checked_to_micros_from_partial_complex_time_overflow_is_none;
   test_checked_to_micros_from_partial_complex_time_negative_overflow_is_none; test_complete_with;
   test_destructure; test_system_time_to_micros; test_system_time_to_micros_negative;
   test_system_time_to_micros_overflow_is_none; test_system_time_to_micros_negative_overflow_is_none;
   test_system_time_from_micros; test_system_time_from_micros_negative;
   test_system_time_from_micros_positive_max; test_system_time_from_micros_negative_min;
   test_impl_time_source_for_mock_time_source; test_mock_timesource_doesnt_advance_on_its_own;
   test_mock_timesource_will_advance; test_cloned_mock_time_source_also_advances;
   test_wait_always_ready; test_wait_until_expected; test_wait_for_expected; test_wait_for_twice;
   test_wait_for_loop; test_wait_for_expected_duration;
   test_wait_for_expected_duration_out_of_range_low;
   test_wait_for_expected_duration_out_of_range_high; test_expect_more_wait_for;
   test_wait_for_wrong_wait].
End tests.

(** ** The tests pass at any time *)

Definition a_day : Duration := from_secs (24 * 60 * 60).
(** A reading two days away from the ends of its clock. *)
Definition ordinary (t : Z) : Prop := valid_timespec (t - 2 * a_day) ∧ valid_timespec (t + 2 * a_day).

Lemma ordinary_add t d : ordinary t → 0 ≤ d ≤ a_day → time_add t d = Ret (t + d).
Proof. intros [? ?] ?. unfold a_day in *. apply time_add_exact; time_range. Qed.

Lemma complex_add_exact w m d :
  valid_timespec (w + d) → valid_timespec (m + d) →
  complex_add (mkComplexTime w m) d = Ret (mkComplexTime (w + d) (m + d)).
Proof. intros Hw Hm. unfold complex_add. cbn. by rewrite !time_add_exact. Qed.
Lemma complex_sub_exact w m d :
  valid_timespec (w - d) → valid_timespec (m - d) →
  complex_sub (mkComplexTime w m) d = Ret (mkComplexTime (w - d) (m - d)).
Proof. intros Hw Hm. unfold complex_sub, checked_sub. cbn. by rewrite !decide_True. Qed.
Lemma both_since_exact w m w' m' d :
  0 ≤ d → w' = w + d → m' = m + d → both_since (mkComplexTime w' m') (mkComplexTime w m) d = Ret tt.
Proof.
  intros Hd -> ->. unfold both_since, wall_since, instant_duration_since, duration_since,
    checked_duration_since. cbn. rewrite !decide_True by lia. cbn.
  rewrite !assert_eq_Z by lia. done.
Qed.

Lemma wall_since_exact t t' d : 0 ≤ d → t = t' + d → wall_since t t' = Ret d.
Proof.
  intros Hd ->. unfold wall_since, duration_since. rewrite decide_True by lia. cbn. f_equal. lia.
Qed.
Lemma instant_since_exact t t' d : 0 ≤ d → t = t' + d → instant_duration_since t t' = d.
Proof.
  intros Hd ->. unfold instant_duration_since, checked_duration_since. rewrite decide_True by lia. cbn. lia.
Qed.

Lemma checked_sub_exact t d : valid_timespec (t - d) → checked_sub t d = Some (t - d).
Proof. intros Ht. unfold checked_sub. by rewrite decide_True. Qed.

(** Runs a test that reads the clocks. *)
Ltac run_test :=
  unfold from_secs, from_micros, nanos_per_sec, UNIX_EPOCH;
  repeat first
    [ progress cbn [mbind outcome_bind fmap option_fmap option_map wall mono fst snd unwrap unwrap_ok partial_add partial_sub
        each_since partial_from_complex complex_from_pair]
    | rewrite time_add_exact by time_range | rewrite time_sub_exact by time_range
    | rewrite complex_add_exact by time_range | rewrite complex_sub_exact by time_range
    | rewrite both_since_exact by lia
    | match goal with |- context [assert_eq ?a ?b] =>
        rewrite (assert_eq_refl b : assert_eq a b = Ret tt) end
    | rewrite assert_eq_Z by lia
    | rewrite (wall_since_exact _ _ (60 * 60 * 10 ^ 9)) by lia
    | rewrite (instant_since_exact _ _ (60 * 60 * 10 ^ 9)) by lia
    | rewrite checked_sub_exact by time_range | rewrite lookup_insert_eq
    | rewrite assert_true by (cbn; repeat case_bool_decide; try done; lia) ]; try done.

Lemma truncate_test_passes wall_now mono_now :
  ordinary wall_now → 0 ≤ wall_now → in_i64 (wall_now / 1000) →
  test_truncate_submicrosecond_walltime wall_now mono_now = Ret tt.
Proof.
  intros [Hw1 Hw2] Hpos Hi. unfold a_day, from_secs, nanos_per_sec in *.
  unfold test_truncate_submicrosecond_walltime.
  rewrite truncate_walltime_spec by (cbn; time_range). cbn [wall mono].
  rewrite decide_False by lia. cbn.
  rewrite checked_to_micros_value, Z.quot_div_nonneg by lia.
  rewrite decide_True by (pose proof (Z.div_pos wall_now 1000); range). cbn.
  rewrite micros_from_epoch_value by done. cbn. apply assert_eq_refl.
Qed.

(** ** Properties *)

(** At whatever time they are run, when the clocks of the system are two days away from the ends
    of what they can show, the tests of the times, of the mock clock and of the mock timer pass, but for
    the two that look at how a time is printed; the test of the truncation passes when it is not before the epoch and the microseconds fit in 64 bits. *)
Theorem time_tests_pass wall_now mono_now :
  ordinary wall_now → ordinary mono_now →
  all_pass (time_tests wall_now mono_now) = true ∧
  (0 ≤ wall_now → in_i64 (wall_now / 1000) →
   test_passes (test_truncate_submicrosecond_walltime wall_now mono_now) = true).
Proof.
  intros Hw Hm. split; [|intros ??; by rewrite truncate_test_passes].
  destruct Hw as [Hw1 Hw2], Hm as [Hm1 Hm2]. unfold a_day, from_secs, nanos_per_sec in *.
  apply all_pass_Forall. unfold time_tests.
  repeat (apply Forall_cons; split; [try reflexivity|]); [..|by constructor].
  all: try (unfold test_is_after_or_eq_any, test_complex_time_impl_add, test_complex_time_impl_add_assign,
    test_complex_time_impl_sub, test_complex_time_impl_sub_assign,
    test_from_std_time_tuple_for_complex_time, test_from_complex_time_for_instant,
    test_from_complex_time_for_system_time, test_partial_complex_time_impl_add,
    test_partial_complex_time_impl_add_assign, test_partial_complex_time_impl_sub,
    test_partial_complex_time_impl_sub_assign, test_from_complex_time_for_partial_complex_time,
    test_from_complex_time_for_option_partial_complex_time, test_from_system_time_for_partial_complex_time,
    test_from_instant_for_partial_complex_time, test_from_std_time_tuple_for_partial_complex_time,
    test_checked_to_system_time, test_complete_with, test_destructure, test_wait_always_ready,
    test_wait_until_expected, test_wait_for_wrong_wait,
    each_later, each_earlier; by run_test).
  - unfold test_wall_duration_since. run_test. unfold wall_duration_since, duration_since. cbn.
    rewrite decide_True by lia. cbn. apply assert_eq_Z. lia.
  - unfold test_complete_with, complex_from_pair. run_test.
  - unfold test_impl_time_source_for_mock_time_source, mock_new, mock_now, mock_now_in_walltime,
      mock_now_in_monotonic. run_test.
  - unfold test_mock_timesource_doesnt_advance_on_its_own, mock_new, mock_now. run_test.
  - unfold test_mock_timesource_will_advance, mock_new, mock_now, mock_advance, mock_update. run_test.
  - unfold test_cloned_mock_time_source_also_advances, mock_new, mock_now, mock_advance, mock_update,
      mock_clone. run_test.
  - unfold test_wait_until_expected. run_test. unfold mock_wait_until, handle_wait, partial_from_complex.
    cbn. by rewrite decide_True.
Qed.

Lemma time_tests_pass_witness :
  ordinary (10 ^ 18) ∧ all_pass (time_tests (10 ^ 18) (10 ^ 12)) = true ∧
  test_passes (test_truncate_submicrosecond_walltime (10 ^ 18) (10 ^ 12)) = true.
Proof.
  assert (∀ t, 0 ≤ t ≤ 10 ^ 18 → ordinary t) as Ho.
  { intros t Ht. unfold ordinary, a_day, from_secs, nanos_per_sec. split; time_range. }
  split; [by apply Ho|].
  destruct (time_tests_pass (10 ^ 18) (10 ^ 12)) as [Hall Htrunc]; [apply Ho; lia..|].
  split; [exact Hall|]. apply Htrunc; [lia|]. split; by vm_compute.
Defined.
