(* ===== verification/Serde.v ===== *)
(** * JSON and the derived [Serialize] and [Deserialize]

    [Json] is the tree of a JSON text: an object keeps its members in the order of the text, a
    name that occurs twice included.  [serde_json] turns bytes into such a tree and back; it is
    the class [SerdeJson].  What the derived implementations of the program's types make of a
    tree is modelled: [Deserialize] is the trait, and the definitions of this file are what the
    derive macro composes a reader from.  Of an error only its kind is kept. *)

From S2P Require Import Prelude.
Open Scope Z_scope.

(** ** JSON *)

Unset Elimination Schemes.
Inductive Json : Type :=
| JNull
| JBool (b : bool)
| JNum (n : Z)
| JFloat (text : string)
| JStr (s : string)
| JArr (l : list Json)
| JObj (members : list (string * Json)).
Set Elimination Schemes.

(** Reading a member of an object the way [serde_json::Map] holds it: when a name occurs more
    than once, the last occurrence is the one that stays. *)
Definition member (name : string) (members : list (string * Json)) : option Json :=
  foldl (λ found kv, if decide (kv.1 = name) then Some kv.2 else found) None members.
Definition map_of_members (members : list (string * Json)) : gmap string Json :=
  foldl (λ m kv, <[kv.1 := kv.2]> m) ∅ members.

(** An optional string member, left out when it is [None]
    ([skip_serializing_if = "Option::is_none"]). *)
Definition opt_member (name : string) (o : option Json) : list (string * Json) :=
  match o with Some j => [(name, j)] | None => [] end.

(** [Serialize] of an [Option]. *)
Definition option_json (o : option Json) : Json := match o with Some j => j | None => JNull end.

(** The trees that are printed and read back, with at most [depth] arrays and objects inside one
    another: the numbers are those of [i64] or [u64]. *)
Fixpoint json_wf (depth : nat) (j : Json) : Prop :=
  match j, depth with
  | JNum n, _ => in_i64 n ∨ in_u64 n
  | JArr l, S depth' => Forall (json_wf depth') l
  | JObj m, S depth' => Forall (λ kv, json_wf depth' kv.2) m
  | JArr _, O | JObj _, O | JFloat _, _ => False
  | _, _ => True
  end.

(** How deep [serde_json] reads: its recursion limit of 128 is an error as it is reached. *)
Definition recursion_limit : nat := 127.
Lemma recursion_limit_S : recursion_limit = (13 + 114)%nat.
Proof. reflexivity. Qed.
#[global] Opaque recursion_limit.

(** ** Reading *)

(** [serde::de::Error], by its constructors. *)
Inductive DataError : Type :=
| InvalidType
| InvalidValue
| InvalidLength
| UnknownVariant
| MissingField (name : string)
| DuplicateField (name : string)
| CustomError.

(** [Deserialize]. *)
Class Deserialize (A : Type) := deserialize : Json → result A DataError.

#[export] Instance string_deserialize : Deserialize string := λ j,
  match j with JStr s => Ok s | _ => Err InvalidType end.
#[export] Instance bool_deserialize : Deserialize bool := λ j,
  match j with JBool b => Ok b | _ => Err InvalidType end.
#[export] Instance json_deserialize : Deserialize Json := Ok.
#[export] Instance option_deserialize {A} `{Deserialize A} : Deserialize (option A) := λ j,
  match j with JNull => Ok None | _ => let? a := deserialize j in Ok (Some a) end.
Fixpoint read_all {A} `{Deserialize A} (l : list Json) : result (list A) DataError :=
  match l with
  | [] => Ok []
  | j :: l' => let? a := deserialize j in let? l := read_all l' in Ok (a :: l)
  end.
#[export] Instance list_deserialize {A} `{Deserialize A} : Deserialize (list A) := λ j,
  match j with JArr l => read_all l | _ => Err InvalidType end.

(** [u32] and [u64]. *)
Definition read_u32 : Deserialize Z := λ j,
  match j with
  | JNum n => if decide (in_u32 n) then Ok n else Err InvalidValue
  | _ => Err InvalidType
  end.
Definition read_u64 : Deserialize Z := λ j,
  match j with
  | JNum n => if decide (in_u64 n) then Ok n else Err InvalidValue
  | _ => Err InvalidType
  end.

(** What a derived reader of a struct visits: the members of an object or, unless a field is
    flattened, the elements of an array in the order of the fields. *)
Definition struct_members (names : list string) (j : Json) : result (list (string * Json)) DataError :=
  match j with
  | JObj m => Ok m
  | JArr l => if decide (length l = length names) then Ok (zip names l) else Err InvalidLength
  | _ => Err InvalidType
  end.
Definition flat_members (j : Json) : result (list (string * Json)) DataError :=
  match j with JObj m => Ok m | _ => Err InvalidType end.

(** The value of a field; a field may occur once. *)
Definition occurrences (name : string) (m : list (string * Json)) : list Json :=
  snd <$> filter (λ kv, kv.1 = name) m.
Definition find_field (name : string) (m : list (string * Json)) : result (option Json) DataError :=
  match occurrences name m with
  | [] => Ok None
  | [j] => Ok (Some j)
  | _ => Err (DuplicateField name)
  end.
Definition field {A} (read : Deserialize A) (name : string) (m : list (string * Json))
    : result A DataError :=
  let? o := find_field name m in
  match o with Some j => read j | None => Err (MissingField name) end.
(** A field of an [Option] type, which may be missing. *)
Definition opt_field {A} (read : Deserialize A) (name : string) (m : list (string * Json))
    : result (option A) DataError :=
  let? o := find_field name m in
  match o with Some j => @deserialize _ (@option_deserialize _ read) j | None => Ok None end.
(** A flattened [Map<String, Value>]: the members that no other field took. *)
Definition rest_of (taken : list string) (m : list (string * Json)) : gmap string Json :=
  map_of_members (filter (λ kv, kv.1 ∉ taken) m).

(** The variant an externally tagged enum names, with its content. *)
Definition enum_variant (j : Json) : result (string * option Json) DataError :=
  match j with
  | JStr s => Ok (s, None)
  | JObj [(s, content)] => Ok (s, Some content)
  | _ => Err InvalidType
  end.
Definition unit_variant {A} (a : A) (content : option Json) : result A DataError :=
  match content with None | Some JNull => Ok a | _ => Err InvalidType end.
Definition newtype_variant {A B} (read : Deserialize A) (f : A → B) (content : option Json)
    : result B DataError :=
  match content with Some j => let? a := read j in Ok (f a) | None => Err InvalidType end.

(** ** [serde_json] *)

(** Texts and trees: [serde_data_error] is the error that a reader's error becomes. *)
Class SerdeJson := {
  serde_error : Type;
  serde_data_error : DataError → serde_error;
  json_of_bytes : bytes → result Json serde_error;
  json_to_vec : Json → result bytes serde_error;
}.
(** What is printed is read back, up to the recursion limit, and an object is printed from its brace on. *)
Class SerdeJsonLaws `{SerdeJson} : Prop := {
  json_to_vec_ok j : is_ok (json_to_vec j) = true;
  json_to_vec_brace m b : json_to_vec (JObj m) = Ok b → head b = Some x7b;
  json_of_to_vec j b : json_wf recursion_limit j → json_to_vec j = Ok b → json_of_bytes b = Ok j;
}.

Section serde_json.
Context `{SerdeJson}.

(** [serde_json::from_slice], [serde_json::from_str], [serde_json::to_string]. *)
Definition from_slice {A} `{Deserialize A} (b : bytes) : result A serde_error :=
  let? j := json_of_bytes b in map_err serde_data_error (deserialize j).
Definition from_str {A} `{Deserialize A} (s : string) : result A serde_error :=
  from_slice (String.list_byte_of_string s).
Definition json_to_string (j : Json) : result string serde_error :=
  let? b := json_to_vec j in Ok (String.string_of_list_byte b).
End serde_json.

(** ** Lemmas *)

Lemma member_nil name : member name [] = None.
Proof. done. Qed.

Lemma member_app name l1 l2 :
  member name (l1 ++ l2) =
  match member name l2 with Some v => Some v | None => member name l1 end.
Proof.
  unfold member. rewrite foldl_app. generalize (foldl (λ found (kv : string * Json),
    if decide (kv.1 = name) then Some kv.2 else found) None l1). intros o.
  revert o. induction l2 as [|kv l2 IH]; intros o; [done|]. cbn. case_decide; [|by rewrite IH].
  rewrite IH. symmetry. rewrite IH. by destruct (foldl _ _ _).
Qed.

Lemma member_opt name name' o :
  member name (opt_member name' o) = if decide (name' = name) then o else None.
Proof. destruct o; cbn; by case_decide. Qed.

Lemma member_fresh name l : Forall (λ kv, kv.1 ≠ name) l → member name l = None.
Proof.
  unfold member. induction 1 as [|kv l Hkv _ IH]; [done|]. cbn. by rewrite decide_False.
Qed.

(** A member list with each name used once is looked up like an association list. *)
Lemma member_unique name v l :
  NoDup l.*1 → (name, v) ∈ l → member name l = Some v.
Proof.
  induction l as [|[k w] l IH]; cbn [fmap list_fmap fst]; intros Hnd Hin; [by apply not_elem_of_nil in Hin|].
  apply NoDup_cons in Hnd as [Hk Hnd]. change ((k, w) :: l) with ([(k, w)] ++ l).
  rewrite member_app. apply elem_of_cons in Hin as [[= -> ->]|Hin].
  - rewrite member_fresh; [unfold member; cbn; by rewrite decide_True|].
    apply Forall_forall. intros kv Hin Heq. apply Hk, list_elem_of_fmap. by exists kv.
  - by rewrite IH.
Qed.

#[export] Hint Rewrite member_nil member_app member_opt : omaha_simpl.

(** A field of a member list that is known, by what its name occurs with. *)
Lemma field_once {A} (read : Deserialize A) name m j :
  occurrences name m = [j] → field read name m = read j.
Proof. unfold field, find_field. by intros ->. Qed.
Lemma field_missing {A} (read : Deserialize A) name m :
  occurrences name m = [] → field read name m = Err (MissingField name).
Proof. unfold field, find_field. by intros ->. Qed.
Lemma opt_field_once {A} (read : Deserialize A) name m j :
  occurrences name m = [j] → opt_field read name m = @option_deserialize A read j.
Proof. unfold opt_field, find_field. by intros ->. Qed.
Lemma opt_field_missing {A} (read : Deserialize A) name m :
  occurrences name m = [] → opt_field read name m = Ok None.
Proof. unfold opt_field, find_field. by intros ->. Qed.

(** What a reader's values have in common is had by the fields read with it. *)
Definition all_read {A} (P : A → Prop) (read : Deserialize A) : Prop := ∀ j a, read j = Ok a → P a.
Lemma reads_u32 : all_read in_u32 read_u32.
Proof. intros [| |m| | | |] n; cbn; try done. case_decide; [|done]. by intros [= <-]. Qed.
Lemma reads_u64 : all_read in_u64 read_u64.
Proof. intros [| |m| | | |] n; cbn; try done. case_decide; [|done]. by intros [= <-]. Qed.
Lemma reads_option {A} P (read : Deserialize A) : all_read P read → all_read (opt_in P) (@option_deserialize _ read).
Proof.
  intros Hr j o Ho. destruct j; [by injection Ho as <-|..];
    apply res_bind_Ok in Ho as (a & Ha & [= <-]); by eapply Hr.
Qed.
Lemma reads_list {A} P (read : Deserialize A) : all_read P read → all_read (Forall P) (@list_deserialize _ read).
Proof.
  intros Hr [| | | | |l|] as' Hl; try done. change (@read_all _ read l = Ok as') in Hl. revert as' Hl.
  induction l as [|j l IH]; intros as' Hl; cbn in Hl; [by injection Hl as <-|].
  apply res_bind_Ok in Hl as (a & Ha & Hl). apply res_bind_Ok in Hl as (l' & Hl' & [= <-]).
  constructor; [by eapply Hr|by apply IH].
Qed.
Lemma reads_field {A} P (read : Deserialize A) name m a :
  all_read P read → field read name m = Ok a → P a.
Proof.
  intros Hr Hf. apply res_bind_Ok in Hf as ([j|] & _ & Hj); [by eapply Hr|done].
Qed.
Lemma reads_opt_field {A} P (read : Deserialize A) name m o :
  all_read P read → opt_field read name m = Ok o → opt_in P o.
Proof.
  intros Hr Hf. apply res_bind_Ok in Hf as ([j|] & _ & Hj); [|by injection Hj as <-].
  by eapply (reads_option P).
Qed.

Lemma occurrences_nil name : occurrences name [] = [].
Proof. done. Qed.
Lemma occurrences_cons name k j m :
  occurrences name ((k, j) :: m) = if decide (k = name) then j :: occurrences name m else occurrences name m.
Proof. unfold occurrences. rewrite filter_cons. cbn. by case_decide. Qed.
Lemma occurrences_app name m1 m2 : occurrences name (m1 ++ m2) = occurrences name m1 ++ occurrences name m2.
Proof. unfold occurrences. by rewrite filter_app, fmap_app. Qed.
Lemma occurrences_opt name k o :
  occurrences name (opt_member k o) = if decide (k = name) then option_list o else [].
Proof. destruct o; cbn [opt_member]; [rewrite occurrences_cons|]; by case_decide. Qed.
#[export] Hint Rewrite occurrences_nil occurrences_cons occurrences_app occurrences_opt : omaha_simpl.


Lemma json_wf_arr n l : json_wf (S n) (JArr l) ↔ Forall (json_wf n) l.
Proof. done. Qed.
Lemma json_wf_obj n m : json_wf (S n) (JObj m) ↔ Forall (λ kv, json_wf n kv.2) m.
Proof. done. Qed.
Lemma json_wf_le (n m : nat) j : (n ≤ m)%nat → json_wf n j → json_wf m j.
Proof.
  revert m j. induction n as [|n IH]; intros [|m] j Hle; try lia; destruct j; try done;
    intros Hj; (eapply Forall_impl; [exact Hj|]); intros; apply IH; [lia|done|lia|done].
Qed.

(** What is printed is read back, through text as well. *)
Lemma from_slice_to_vec `{SerdeJsonLaws} {A} `{Deserialize A} j b a :
  json_wf recursion_limit j → json_to_vec j = Ok b → deserialize j = Ok a → from_slice b = Ok a.
Proof.
  intros Hwf Hb Ha. unfold from_slice. erewrite json_of_to_vec by done. cbn. by rewrite Ha.
Qed.
Lemma value_of_to_vec `{SerdeJsonLaws} j b :
  json_wf recursion_limit j → json_to_vec j = Ok b → from_slice (A := Json) b = Ok j.
Proof. intros. by eapply from_slice_to_vec. Qed.
Lemma from_str_to_string `{SerdeJsonLaws} {A} `{Deserialize A} j s a :
  json_wf recursion_limit j → json_to_string j = Ok s → deserialize j = Ok a → from_str s = Ok a.
Proof.
  unfold json_to_string, from_str. intros Hwf Hs Ha.
  destruct (json_to_vec j) as [b|] eqn:Hb; [|done]. injection Hs as <-.
  rewrite String.list_byte_of_string_of_list_byte. by eapply from_slice_to_vec.
Qed.
Lemma json_to_string_ok `{SerdeJsonLaws} j : is_ok (json_to_string j) = true.
Proof. unfold json_to_string. pose proof (json_to_vec_ok j). by destruct (json_to_vec j). Qed.

(** ** An implementation for the examples: a text holds the whole tree *)

Fixpoint json_tree (j : Json) : gen_tree (string + Z) :=
  match j with
  | JNull => GenNode 0 []
  | JBool b => GenNode (if b then 1 else 2) []
  | JNum n => GenLeaf (inr n)
  | JFloat t => GenNode 3 [GenLeaf (inl t)]
  | JStr s => GenLeaf (inl s)
  | JArr l => GenNode 4 (map json_tree l)
  | JObj m => GenNode 5 (map (λ kv, GenNode 6 [GenLeaf (inl kv.1); json_tree kv.2]) m)
  end.
Fixpoint json_of_tree (t : gen_tree (string + Z)) : Json :=
  match t with
  | GenNode 0 _ => JNull
  | GenNode 1 _ => JBool true
  | GenNode 2 _ => JBool false
  | GenLeaf (inr n) => JNum n
  | GenNode 3 [GenLeaf (inl t)] => JFloat t
  | GenLeaf (inl s) => JStr s
  | GenNode 4 l => JArr (map json_of_tree l)
  | GenNode 5 l => JObj (map (λ t,
      match t with
      | GenNode _ [GenLeaf (inl k); t] => (k, json_of_tree t)
      | _ => (EmptyString, JNull)
      end) l)
  | _ => JNull
  end.

Section json_ind.
Context (P : Json → Prop).
Context (Hnull : P JNull) (Hbool : ∀ b, P (JBool b)) (Hnum : ∀ n, P (JNum n))
  (Hfloat : ∀ t, P (JFloat t)) (Hstr : ∀ s, P (JStr s))
  (Harr : ∀ l, Forall P l → P (JArr l)) (Hobj : ∀ m, Forall (λ kv, P kv.2) m → P (JObj m)).
Fixpoint Json_ind (j : Json) : P j :=
  match j with
  | JNull => Hnull
  | JBool b => Hbool b
  | JNum n => Hnum n
  | JFloat t => Hfloat t
  | JStr s => Hstr s
  | JArr l => Harr l ((fix go l : Forall P l :=
      match l with [] => Forall_nil_2 _ | j :: l' => Forall_cons_2 _ _ _ (Json_ind j) (go l') end) l)
  | JObj m => Hobj m ((fix go m : Forall (λ kv, P kv.2) m :=
      match m with
      | [] => Forall_nil_2 _
      | kv :: m' => Forall_cons_2 _ _ _ (Json_ind kv.2) (go m')
      end) m)
  end.
End json_ind.

Lemma json_of_json_tree j : json_of_tree (json_tree j) = j.
Proof.
  induction j as [|[]|n|t|s|l IH|m IH] using Json_ind; try done; cbn; f_equal.
  - induction IH as [|j l Hj _ IHl]; [done|]. cbn. by rewrite Hj, IHl.
  - induction IH as [|[k j] m Hj _ IHm]; [done|]. cbn in *. by rewrite Hj, IHm.
Qed.
#[export] Instance json_tree_inj : Inj (=) (=) json_tree.
Proof. intros j j' Heq. by rewrite <-(json_of_json_tree j), Heq, json_of_json_tree. Qed.
#[export] Instance Json_eq_dec : EqDecision Json.
Proof. intros j j'. refine (cast_if (decide (json_tree j = json_tree j'))); [by apply (inj json_tree)|congruence]. Defined.
#[export] Instance Json_countable : Countable Json :=
  inj_countable' json_tree json_of_tree json_of_json_tree.

Definition example_text (j : Json) : bytes := x7b :: String.list_byte_of_string (to_text j).
Definition example_serde : SerdeJson := {|
  serde_error := unit;
  serde_data_error _ := tt;
  json_of_bytes b :=
    match b with
    | x7b :: b' => ok_or (of_text (String.string_of_list_byte b')) tt
    | _ => Err tt
    end;
  json_to_vec j := Ok (example_text j);
|}.
Lemma example_serde_laws : @SerdeJsonLaws example_serde.
Proof.
  split; [done|by intros m b [= <-]|]. intros j b _ [= <-]. cbn. rewrite String.string_of_list_byte_of_string.
  by rewrite of_to_text.
Qed.
