(* ===== verification/Version.v ===== *)
(** * Omaha versions ([version.rs]): A.B.C.D, A.B.C, A.B or A *)

From S2P Require Import Prelude Serde.
Open Scope Z_scope.

(** [Version([u32; 4])]. *)
Record Version : Type := mkVersion { nums : list Z }.
#[export] Instance Version_eq_dec : EqDecision Version.
Proof. solve_decision. Defined.

(** What the type [[u32; 4]] guarantees. *)
Definition version_wf (v : Version) : Prop := length (nums v) = 4%nat ∧ Forall in_u32 (nums v).
#[export] Instance version_wf_dec v : Decision (version_wf v).
Proof. apply _. Defined.

(** [impl Display]. *)
Definition version_to_string (v : Version) : string := str_join "." (show_uint <$> nums v).

Inductive VersionError : Type := TooManyNumbersError | ParseIntError.

(** The loop of [impl FromStr]: the [i]-th piece goes to [array[i]]. *)
Fixpoint version_fill (i : nat) (pieces : list string) (array : list Z)
    : result (list Z) VersionError :=
  match pieces with
  | [] => Ok array
  | s :: rest =>
    if decide (4 ≤ i)%nat then Err TooManyNumbersError
    else match parse_uint u32_max s with
         | None => Err ParseIntError
         | Some v => version_fill (S i) rest (<[i := v]> array)
         end
  end.
Definition version_from_str (s : string) : result Version VersionError :=
  let? array := version_fill 0 (split_on "." s) (replicate 4 0) in Ok (mkVersion array).

(** [impl_from!]: [From<[u32; N]>] for N up to 4. *)
Definition version_from (v : list Z) : Version := mkVersion (v ++ drop (length v) (replicate 4 0)).

(** The derived [Ord]: the arrays compare lexicographically. *)
Fixpoint nums_cmp (a b : list Z) : comparison :=
  match a, b with
  | [], [] => Eq
  | [], _ :: _ => Lt
  | _ :: _, [] => Gt
  | x :: a', y :: b' => match x ?= y with Eq => nums_cmp a' b' | c => c end
  end.
Definition version_cmp (a b : Version) : comparison := nums_cmp (nums a) (nums b).

(** [impl Serialize], [impl Deserialize]: a version is its text. *)
Definition version_json (v : Version) : Json := JStr (version_to_string v).
#[export] Instance version_deserialize : Deserialize Version := λ j,
  match j with
  | JStr s => map_err (λ _, CustomError) (version_from_str s)
  | _ => Err InvalidType
  end.

(** ** Lemmas *)

Lemma version_fill_spec i pieces array :
  version_fill i pieces array =
  match mapM (parse_uint u32_max) (take (4 - i) pieces) with
  | None => Err ParseIntError
  | Some vs => if decide (length pieces ≤ 4 - i)%nat then Ok (list_inserts i vs array)
               else Err TooManyNumbersError
  end.
Proof.
  revert i array. induction pieces as [|s rest IH]; intros i array.
  - rewrite take_nil. cbn [mapM mret option_ret]. by rewrite decide_True by (cbn; lia).
  - cbn [version_fill length]. case_decide.
    { replace (4 - i)%nat with 0%nat by lia. cbn. by rewrite decide_False by lia. }
    replace (4 - i)%nat with (S (4 - S i)) by lia. cbn [take mapM].
    destruct (parse_uint u32_max s) as [v|]; [|done]. cbn. rewrite IH.
    destruct (mapM _ _) as [vs|]; [|done]. cbn. repeat case_decide; try lia; [|done].
    by rewrite list_insert_inserts_lt by lia.
Qed.

Lemma version_from_wf l : (length l ≤ 4)%nat → Forall in_u32 l → version_wf (version_from l).
Proof.
  intros Hlen Hl. split; cbn [version_from nums].
  - rewrite length_app, length_drop, length_replicate. lia.
  - apply Forall_app. split; [done|]. apply Forall_drop, Forall_replicate. range.
Qed.

Lemma mapM_parse_show l :
  Forall in_u32 l → mapM (parse_uint u32_max) (show_uint <$> l) = Some l.
Proof.
  induction 1 as [|x l Hx _ IH]; [done|]. cbn. rewrite parse_show_uint by done. cbn in *.
  by rewrite IH.
Qed.

Lemma nums_cmp_eq a b : nums_cmp a b = Eq ↔ a = b.
Proof.
  revert b. induction a as [|x a IH]; intros [|y b]; cbn; try done.
  destruct (x ?= y) eqn:E; [apply Z.compare_eq_iff in E as ->|split; [done|]..].
  - rewrite IH. split; [by intros ->|by intros [= ->]].
  - intros [= -> _]. by rewrite Z.compare_refl in E.
  - intros [= -> _]. by rewrite Z.compare_refl in E.
Qed.

Lemma nums_cmp_antisym a b : nums_cmp b a = CompOpp (nums_cmp a b).
Proof.
  revert b. induction a as [|x a IH]; intros [|y b]; cbn; try done.
  rewrite (Z.compare_antisym x y). destruct (x ?= y); cbn; auto.
Qed.

(** ** Properties *)

(** Parsing succeeds exactly on one to four dot-separated [u32]s, which fill the version from
    the left with zeros after them; a piece that is not a [u32] among the first four is reported
    before a fifth piece is. *)
Theorem version_from_str_spec s :
  version_from_str s =
  let pieces := split_on "." s in
  match mapM (parse_uint u32_max) (take 4 pieces) with
  | None => Err ParseIntError
  | Some vs => if decide (length pieces ≤ 4)%nat then Ok (version_from vs)
               else Err TooManyNumbersError
  end.
Proof.
  unfold version_from_str. rewrite version_fill_spec. cbn zeta. change (4 - 0)%nat with 4%nat.
  destruct (mapM _ _) as [vs|] eqn:E; [|done]. case_decide; [|done]. cbn [res_bind].
  unfold version_from. do 2 f_equal. apply mapM_Some_1, Forall2_length in E. rewrite length_take in E.
  replace 4%nat with (length vs + (4 - length vs))%nat at 1 2 by lia.
  rewrite replicate_add, list_inserts_0_r by (by rewrite length_replicate).
  by rewrite drop_app_length' by (by rewrite length_replicate).
Qed.

Lemma version_parse_show v : version_wf v → version_from_str (version_to_string v) = Ok v.
Proof.
  intros [Hlen Hv]. unfold version_from_str, version_to_string.
  assert (split_on "." (str_join "." (show_uint <$> nums v)) = show_uint <$> nums v) as ->.
  { apply split_on_join; [by destruct v as [[]]|]. apply Forall_fmap, Forall_true.
    intros z. apply show_uint_no_dot. }
  rewrite version_fill_spec. change (4 - 0)%nat with 4%nat.
  rewrite take_ge, mapM_parse_show by (rewrite ?length_fmap; (done || lia)).
  rewrite decide_True by (rewrite length_fmap; lia). cbn [res_bind].
  by destruct v as [[|? [|? [|? [|? [|]]]]]].
Qed.

(** C40: Printing a version, of four u32 numbers, and parsing the text gives the version back, and so does writing it to
    JSON and reading it. *)
Theorem version_display_parse v :
  version_wf v →
  version_from_str (version_to_string v) = Ok v ∧ deserialize (version_json v) = Ok v.
Proof.
  intros Hv. pose proof (version_parse_show v Hv) as Hp. split; [done|].
  unfold deserialize, version_deserialize, version_json. by rewrite Hp.
Qed.

Lemma version_display_parse_witness :
  version_to_string (version_from [14; 20230831; 4; 72]) = "14.20230831.4.72" ∧
  version_from_str (version_to_string (version_from [14; 20230831; 4; 72])) =
    Ok (version_from [14; 20230831; 4; 72]).
Proof.
  split; [vm_compute; reflexivity|]. apply version_display_parse.
  split; [reflexivity|]. repeat constructor; cbn; discriminate.
Defined.

(** What parses is a well-formed version, and comparing versions is a total order that agrees
    with equality, so versions written with and without trailing zeros are the same version. *)
Theorem version_order a b :
  (version_cmp a b = Eq ↔ a = b) ∧
  version_cmp b a = CompOpp (version_cmp a b) ∧
  (∀ s, version_from_str s = Ok a → version_wf a).
Proof.
  split; [|split].
  - unfold version_cmp. rewrite nums_cmp_eq. destruct a, b; naive_solver.
  - apply nums_cmp_antisym.
  - intros s. unfold version_from_str. rewrite version_fill_spec. cbn zeta.
    destruct (mapM _ _) as [vs|] eqn:E; [|done]. case_decide; [|done]. cbn. intros [= <-].
    apply mapM_Some_1 in E. split; cbn [nums].
    + by rewrite length_inserts.
    + apply Forall_inserts; [repeat constructor; range|].
      clear -E. induction E as [|p n ? ? H]; constructor; [|done].
      apply parse_uint_bound in H; range.
Qed.
