(* ===== verification/Protocol.v ===== *)
(** * The data both directions of the protocol share ([protocol.rs]) *)

From S2P Require Import Prelude Serde.
Open Scope Z_scope.

Definition PROTOCOL_V3 : string := "3.0".

(** ** Cohorts *)

Record Cohort : Type := mkCohort {
  cohort_id : option string;
  cohort_hint : option string;
  cohort_name : option string;
}.
#[export] Instance Cohort_eq_dec : EqDecision Cohort.
Proof. solve_decision. Defined.

Definition cohort_default : Cohort := mkCohort None None None.

(** [Cohort::new], [Cohort::from_hint]. *)
Definition cohort_new (id : string) : Cohort := mkCohort (Some id) None None.
Definition cohort_from_hint (hint : string) : Cohort := mkCohort None (Some hint) None.

(** [Cohort::update_from_omaha]: only the attributes that were sent are overwritten. *)
Definition cohort_update_from_omaha (self omaha_cohort : Cohort) : Cohort :=
  mkCohort
    (if opt_is_some (cohort_id omaha_cohort) then cohort_id omaha_cohort else cohort_id self)
    (if opt_is_some (cohort_hint omaha_cohort) then cohort_hint omaha_cohort else cohort_hint self)
    (if opt_is_some (cohort_name omaha_cohort) then cohort_name omaha_cohort else cohort_name self).

(** [Cohort::validate_name].  A character outside ASCII is encoded with bytes of at least 128,
    so the test on characters is the test on bytes. *)
Definition validate_name (name : string) : bool :=
  bool_decide (name ≠ EmptyString)
  && bool_decide (Z.of_nat (String.length name) ≤ 1024)
  && str_forall (λ c, bool_decide (32 ≤ Z.of_nat (nat_of_ascii c) ≤ 126)) name.

(** The derived [Serialize] of [Cohort]. *)
Definition cohort_members (c : Cohort) : list (string * Json) :=
  opt_member "cohort" (JStr <$> cohort_id c) ++
  opt_member "cohorthint" (JStr <$> cohort_hint c) ++
  opt_member "cohortname" (JStr <$> cohort_name c).
Definition cohort_json (c : Cohort) : Json := JObj (cohort_members c).

(** The derived [Deserialize], of a struct of its own or flattened into another one. *)
Definition cohort_names : list string := ["cohort"; "cohorthint"; "cohortname"].
Definition cohort_of_members (m : list (string * Json)) : result Cohort DataError :=
  let? id := opt_field string_deserialize "cohort" m in
  let? hint := opt_field string_deserialize "cohorthint" m in
  let? name := opt_field string_deserialize "cohortname" m in
  Ok (mkCohort id hint name).
#[export] Instance cohort_deserialize : Deserialize Cohort := λ j,
  let? m := struct_members cohort_names j in cohort_of_members m.

(** ** Lemmas *)

Lemma cohort_roundtrip c : deserialize (cohort_json c) = Ok c.
Proof. by destruct c as [[] [] []]. Qed.
Lemma cohort_json_wf n c : json_wf (S (S n)) (cohort_json c).
Proof. destruct c as [[] [] []]; repeat constructor. Qed.

(** ** Properties *)

(** After an update from Omaha each cohort attribute is the one Omaha sent, even an empty
    string, and is unchanged when Omaha sent none; applying the same update again changes nothing. *)
Theorem cohort_update_spec self omaha :
  let c := cohort_update_from_omaha self omaha in
  (cohort_id c = match cohort_id omaha with Some s => Some s | None => cohort_id self end) ∧
  (cohort_hint c = match cohort_hint omaha with Some s => Some s | None => cohort_hint self end) ∧
  (cohort_name c = match cohort_name omaha with Some s => Some s | None => cohort_name self end) ∧
  cohort_update_from_omaha c omaha = c.
Proof. destruct self, omaha as [[] [] []]; by cbn. Qed.
