(* ===== verification/Request.v ===== *)
(** * Omaha requests ([protocol/request.rs])

    The records are the structs of the file; the [_json] functions are their derived [Serialize]
    implementations, following the [serde] attributes ([rename], [skip_serializing_if],
    [flatten]) and the order of the fields. *)

From S2P Require Import Prelude Serde Protocol.
Open Scope Z_scope.

Definition HEADER_UPDATER_NAME : string := "X-Goog-Update-Updater".
Definition HEADER_INTERACTIVITY : string := "X-Goog-Update-Interactivity".
Definition HEADER_APP_ID : string := "X-Goog-Update-AppId".

(** [InstallSource]: who started the update check. *)
Inductive InstallSource : Type := OnDemand | ScheduledTask.
#[global] Instance InstallSource_eq_dec : EqDecision InstallSource.
Proof. solve_decision. Defined.
Definition install_source_default : InstallSource := ScheduledTask.

Record OS : Type := mkOS {
  platform : string;
  os_version : string;
  service_pack : string;
  arch : string;
}.
#[global] Instance OS_eq_dec : EqDecision OS.
Proof. solve_decision. Defined.

(** The 128 bits of a UUID. *)
Record GUID : Type := mkGUID { uuid : Z }.
#[global] Instance GUID_eq_dec : EqDecision GUID.
Proof. solve_decision. Defined.

(** [UpdateCheck]. *)
Record UpdateCheck : Type := mkUpdateCheck {
  disabled : bool;
  offer_update_if_same_version : bool;
}.
#[global] Instance UpdateCheck_eq_dec : EqDecision UpdateCheck.
Proof. solve_decision. Defined.
Definition update_check_disabled : UpdateCheck := mkUpdateCheck true false.

Record Ping : Type := mkPing {
  date_last_active : option Z;
  date_last_roll_call : option Z;
}.
#[global] Instance Ping_eq_dec : EqDecision Ping.
Proof. solve_decision. Defined.

(** ** Events *)

Inductive EventType : Type :=
| Unknown | DownloadComplete | InstallComplete | UpdateComplete | UpdateDownloadStarted
| UpdateDownloadFinished | RebootedAfterUpdate.
#[global] Instance EventType_eq_dec : EqDecision EventType.
Proof. solve_decision. Defined.
(** The [repr(u8)] discriminants. *)
Definition event_type_repr (t : EventType) : Z :=
  match t with
  | Unknown => 0
  | DownloadComplete => 1
  | InstallComplete => 2
  | UpdateComplete => 3
  | UpdateDownloadStarted => 13
  | UpdateDownloadFinished => 14
  | RebootedAfterUpdate => 54
  end.

Inductive EventResult : Type :=
| Error | Success | SuccessAndRestartRequired | SuccessAndAppRestartRequired | Cancelled
| ErrorInSystemInstaller | UpdateDeferred.
#[global] Instance EventResult_eq_dec : EqDecision EventResult.
Proof. solve_decision. Defined.
Definition event_result_repr (r : EventResult) : Z :=
  match r with
  | Error => 0
  | Success => 1
  | SuccessAndRestartRequired => 2
  | SuccessAndAppRestartRequired => 3
  | Cancelled => 4
  | ErrorInSystemInstaller => 8
  | UpdateDeferred => 9
  end.

Inductive EventErrorCode : Type :=
| ParseResponse | ConstructInstallPlan | Installation | DeniedByPolicy.
#[global] Instance EventErrorCode_eq_dec : EqDecision EventErrorCode.
Proof. solve_decision. Defined.
Definition event_error_code_repr (c : EventErrorCode) : Z :=
  match c with
  | ParseResponse => 0
  | ConstructInstallPlan => 1
  | Installation => 2
  | DeniedByPolicy => 3
  end.

Record Event : Type := mkEvent {
  event_type : EventType;
  event_result : EventResult;
  errorcode : option EventErrorCode;
  previous_version : option string;
  next_version : option string;
  download_time_ms : option Z;
}.
#[global] Instance Event_eq_dec : EqDecision Event.
Proof. solve_decision. Defined.

Definition event_default : Event := mkEvent Unknown Error None None None None.
(** [Event::success], [Event::error]. *)
Definition event_success (t : EventType) : Event := mkEvent t Success None None None None.
Definition event_error (c : EventErrorCode) : Event :=
  mkEvent UpdateComplete Error (Some c) None None None.

(** ** Apps and requests *)

(** [request::App]; [extra_fields] is a hash map, listed in the order it iterates. *)
Record App : Type := mkApp {
  id : string;
  version : string;
  fingerprint : option string;
  cohort : option Cohort;
  update_check : option UpdateCheck;
  events : list Event;
  ping : option Ping;
  extra_fields : list (string * string);
}.
#[global] Instance App_eq_dec : EqDecision App.
Proof. solve_decision. Defined.

Record Request : Type := mkRequest {
  protocol_version : string;
  updater : string;
  updater_version : string;
  install_source : InstallSource;
  is_machine : bool;
  request_id : option GUID;
  session_id : option GUID;
  os : OS;
  apps : list App;
}.
#[global] Instance Request_eq_dec : EqDecision Request.
Proof. solve_decision. Defined.

Record RequestWrapper : Type := mkRequestWrapper { request : Request }.
#[global] Instance RequestWrapper_eq_dec : EqDecision RequestWrapper.
Proof. solve_decision. Defined.

(** ** Serialization *)

(** A boolean member, left out when it is false ([skip_serializing_if = "std::ops::Not::not"]). *)
Definition flag_member (name : string) (b : bool) : list (string * Json) :=
  if b then [(name, JBool true)] else [].

Definition update_check_json (u : UpdateCheck) : Json := JObj (
  flag_member "updatedisabled" (disabled u) ++
  flag_member "sameversionupdate" (offer_update_if_same_version u)).

Definition ping_json (p : Ping) : Json := JObj (
  opt_member "ad" (JNum <$> date_last_active p) ++
  opt_member "rd" (JNum <$> date_last_roll_call p)).

Definition event_json (e : Event) : Json := JObj (
  [("eventtype", JNum (event_type_repr (event_type e)));
   ("eventresult", JNum (event_result_repr (event_result e)))] ++
  opt_member "errorcode" (JNum ∘ event_error_code_repr <$> errorcode e) ++
  opt_member "previousversion" (JStr <$> previous_version e) ++
  opt_member "nextversion" (JStr <$> next_version e) ++
  opt_member "download_time_ms" (JNum <$> download_time_ms e)).

Definition os_json (o : OS) : Json := JObj
  [("platform", JStr (platform o)); ("version", JStr (os_version o));
   ("sp", JStr (service_pack o)); ("arch", JStr (arch o))].

Definition install_source_json (s : InstallSource) : Json :=
  JStr match s with OnDemand => "ondemand" | ScheduledTask => "scheduledtask" end.

(** The members of an app that come from its named fields. *)
Definition app_own_members (a : App) : list (string * Json) :=
  [("appid", JStr (id a)); ("version", JStr (version a))] ++
  opt_member "fp" (JStr <$> fingerprint a) ++
  match cohort a with Some c => cohort_members c | None => [] end ++
  opt_member "updatecheck" (update_check_json <$> update_check a) ++
  match events a with [] => [] | evs => [("event", JArr (event_json <$> evs))] end ++
  opt_member "ping" (ping_json <$> ping a).

(** The flattened [extra_fields] come last. *)
Definition app_members (a : App) : list (string * Json) :=
  app_own_members a ++ ((λ kv, (kv.1, JStr kv.2)) <$> extra_fields a).
Definition app_json (a : App) : Json := JObj (app_members a).

(** How the [uuid] crate prints a UUID between braces. *)
Class UuidCrate := as_braced : Z → string.

Section serialize.
Context {uuid_crate : UuidCrate}.

Definition guid_json (g : GUID) : Json := JStr (as_braced (uuid g)).

Definition request_members (r : Request) : list (string * Json) :=
  [("protocol", JStr (protocol_version r)); ("updater", JStr (updater r));
   ("updaterversion", JStr (updater_version r));
   ("installsource", install_source_json (install_source r));
   ("ismachine", JBool (is_machine r))] ++
  opt_member "requestid" (guid_json <$> request_id r) ++
  opt_member "sessionid" (guid_json <$> session_id r) ++
  [("os", os_json (os r)); ("app", JArr (app_json <$> apps r))].
Definition request_json (r : Request) : Json := JObj (request_members r).
Definition request_wrapper_json (w : RequestWrapper) : Json :=
  JObj [("request", request_json (request w))].
End serialize.

(** The numbers of a request in their types: dates of [u32], milliseconds of [u64]. *)
Definition ping_typed (p : Ping) : Prop :=
  opt_in in_u32 (date_last_active p) ∧ opt_in in_u32 (date_last_roll_call p).
Definition event_typed (e : Event) : Prop := opt_in in_u64 (download_time_ms e).
Definition app_typed (a : App) : Prop :=
  Forall event_typed (events a) ∧ opt_in ping_typed (ping a).
Definition request_typed (r : Request) : Prop := Forall app_typed (apps r).

(** ** Lemmas: requests can be printed *)

Lemma opt_member_wf n k o :
  match o with Some j => json_wf n j | None => True end → Forall (λ kv, json_wf n kv.2) (opt_member k o).
Proof. destruct o; by repeat constructor. Qed.
Lemma opt_num_wf n k o : opt_in (λ z, in_i64 z ∨ in_u64 z) o →
  Forall (λ kv, json_wf (S n) kv.2) (opt_member k (JNum <$> o)).
Proof. intros Ho. apply opt_member_wf. by destruct o. Qed.
Lemma opt_str_wf n k (o : option string) : Forall (λ kv, json_wf (S n) kv.2) (opt_member k (JStr <$> o)).
Proof. apply opt_member_wf. by destruct o. Qed.

Lemma ping_json_wf n p : ping_typed p → json_wf (S (S n)) (ping_json p).
Proof.
  destruct p as [[a|] [r|]]; intros [Ha Hr]; cbn in *; rewrite ?Forall_cons, ?Forall_nil; cbn;
    split_and?; try done; right; range.
Qed.
Lemma event_json_wf n e : event_typed e → json_wf (S (S n)) (event_json e).
Proof.
  intros Ht. apply json_wf_obj. rewrite !Forall_app. split_and!; try apply opt_str_wf.
  - rewrite !Forall_cons. cbn. split_and!; [right..|done];
      [destruct (event_type e)|destruct (event_result e)]; cbn; range.
  - apply opt_member_wf. destruct (errorcode e) as [[]|]; cbn; try done; right; range.
  - apply opt_num_wf. unfold event_typed in Ht. destruct (download_time_ms e); cbn in *; auto.
Qed.
Lemma app_json_wf n a : app_typed a → json_wf (4 + n)%nat (app_json a).
Proof.
  intros [He Hp]. apply json_wf_obj. unfold app_members, app_own_members, cohort_members.
  rewrite !Forall_app. split_and!; try apply opt_str_wf.
  - by repeat constructor.
  - destruct (cohort a); [|done]. rewrite !Forall_app. split_and!; apply opt_str_wf.
  - apply opt_member_wf. destruct (update_check a) as [[[] []]|]; [repeat constructor..|done].
  - destruct (events a) as [|e l]; [done|]. constructor; [|done]. apply json_wf_arr, Forall_fmap.
    eapply Forall_impl; [exact He|]. apply event_json_wf.
  - apply opt_member_wf. destruct (ping a); [by apply ping_json_wf|done].
  - apply Forall_fmap, Forall_true. done.
Qed.
Lemma request_wrapper_json_wf {uuid_crate : UuidCrate} r :
  request_typed r → json_wf recursion_limit (request_wrapper_json (mkRequestWrapper r)).
Proof.
  intros Ht. apply (json_wf_le 7); [rewrite recursion_limit_S; lia|]. constructor; [|done]. apply json_wf_obj.
  unfold request_members. rewrite !Forall_app.
  split_and!.
  - by repeat constructor.
  - apply opt_member_wf. cbn [request]. destruct (request_id r); repeat constructor.
  - apply opt_member_wf. cbn [request]. destruct (session_id r); repeat constructor.
  - rewrite !Forall_cons. split_and!; [repeat constructor| |done]. apply json_wf_arr, Forall_fmap.
    eapply Forall_impl; [exact Ht|]. apply app_json_wf.
Qed.

(** ** Properties *)

(** In the JSON object of an app, an extra field overrides the member of the same name,
    whatever that is; every other member is the one of the app's own fields, and the optional
    ones are there exactly when the field is set. *)
Theorem app_json_members a :
  (∀ k v, NoDup (extra_fields a).*1 → (k, v) ∈ extra_fields a →
     member k (app_members a) = Some (JStr v)) ∧
  (∀ k, k ∉ (extra_fields a).*1 → member k (app_members a) = member k (app_own_members a)) ∧
  member "appid" (app_own_members a) = Some (JStr (id a)) ∧
  member "version" (app_own_members a) = Some (JStr (version a)) ∧
  member "updatecheck" (app_own_members a) = update_check_json <$> update_check a ∧
  member "ping" (app_own_members a) = ping_json <$> ping a ∧
  (member "event" (app_own_members a) = None ↔ events a = []).
Proof.
  assert (∀ k, member k ((λ kv : string * string, (kv.1, JStr kv.2)) <$> extra_fields a) = None
    ∨ k ∈ (extra_fields a).*1) as Hk.
  { intros k. destruct (decide (k ∈ (extra_fields a).*1)); [by right|left].
    apply member_fresh, Forall_fmap, Forall_forall. intros kv Hin Heq.
    apply n, list_elem_of_fmap. by exists kv. }
  split; [|split].
  - intros k v Hnd Hin. unfold app_members. rewrite member_app.
    rewrite (member_unique k (JStr v)); [done|..].
    + by rewrite <-list_fmap_compose.
    + apply list_elem_of_fmap. by exists (k, v).
  - intros k Hn. unfold app_members. rewrite member_app. by destruct (Hk k) as [->|].
  - unfold app_own_members, cohort_members.
    destruct (cohort a) as [[[] [] []]|], (events a), (fingerprint a), (update_check a), (ping a);
      cbn; naive_solver.
Qed.
