(* ===== verification/Response.v ===== *)
(** * Omaha responses ([protocol/response.rs])

    The records are the structs of the file, with their derived [Deserialize] implementations,
    following the [serde] attributes ([rename], [flatten], [field_identifier]).  The prefix that
    protects against cross-site script inclusion is taken off by the code itself. *)

From S2P Require Import Prelude Serde Protocol.
Open Scope Z_scope.

Inductive OmahaStatus : Type :=
| StatusOk
| Restricted
| NoUpdate
| StatusError (msg : string).
#[global] Instance OmahaStatus_eq_dec : EqDecision OmahaStatus.
Proof. solve_decision. Defined.

Record DayStart : Type := mkDayStart { elapsed_days : option Z; elapsed_seconds : option Z }.

Record Ping : Type := mkPing { ping_status : OmahaStatus }.
Record Event : Type := mkEvent { event_status : OmahaStatus }.

Record URL : Type := mkURL { codebase : string }.
Record URLs : Type := mkURLs { url : list URL }.

Record Action : Type := mkAction {
  action_event : option string;
  run : option string;
  action_extra_attributes : gmap string Json;
}.
Record Actions : Type := mkActions { action : list Action }.

Record Package : Type := mkPackage {
  package_name : string;
  required : bool;
  size : option Z;
  hash : option string;
  hash_sha256 : option string;
  package_fingerprint : string;
  package_extra_attributes : gmap string Json;
}.
Record Packages : Type := mkPackages { package : list Package }.

Record Manifest : Type := mkManifest {
  manifest_version : string;
  actions : Actions;
  packages : Packages;
}.

Record UpdateCheck : Type := mkUpdateCheck {
  status : OmahaStatus;
  info : option string;
  urls : option URLs;
  manifest : option Manifest;
  uc_extra_attributes : gmap string Json;
}.

Record App : Type := mkApp {
  id : string;
  app_status : OmahaStatus;
  cohort : Cohort;
  app_ping : option Ping;
  update_check : option UpdateCheck;
  events : option (list Event);
  extra_attributes : gmap string Json;
}.

Record Response : Type := mkResponse {
  protocol_version : string;
  server : option string;
  daystart : option DayStart;
  apps : list App;
}.

(** The derived [PartialEq]. *)
#[global] Instance DayStart_eq_dec : EqDecision DayStart.
Proof. solve_decision. Defined.
#[global] Instance Ping_eq_dec : EqDecision Ping.
Proof. solve_decision. Defined.
#[global] Instance Event_eq_dec : EqDecision Event.
Proof. solve_decision. Defined.
#[global] Instance URL_eq_dec : EqDecision URL.
Proof. solve_decision. Defined.
#[global] Instance URLs_eq_dec : EqDecision URLs.
Proof. solve_decision. Defined.
#[global] Instance Action_eq_dec : EqDecision Action.
Proof. solve_decision. Defined.
#[global] Instance Actions_eq_dec : EqDecision Actions.
Proof. solve_decision. Defined.
#[global] Instance Package_eq_dec : EqDecision Package.
Proof. solve_decision. Defined.
#[global] Instance Packages_eq_dec : EqDecision Packages.
Proof. solve_decision. Defined.
#[global] Instance Manifest_eq_dec : EqDecision Manifest.
Proof. solve_decision. Defined.
#[global] Instance UpdateCheck_eq_dec : EqDecision UpdateCheck.
Proof. solve_decision. Defined.
#[global] Instance App_eq_dec : EqDecision App.
Proof. solve_decision. Defined.
#[global] Instance Response_eq_dec : EqDecision Response.
Proof. solve_decision. Defined.

(** ** Deserialization *)

(** [rename_all = "lowercase"]; any other name is an error the server reports. *)
#[export] Instance omaha_status_deserialize : Deserialize OmahaStatus := λ j,
  match j with
  | JStr s => Ok (
      if decide (s = "ok"%string) then StatusOk
      else if decide (s = "restricted"%string) then Restricted
      else if decide (s = "noupdate"%string) then NoUpdate
      else StatusError s)
  | _ => Err InvalidType
  end.

#[export] Instance daystart_deserialize : Deserialize DayStart := λ j,
  let? m := struct_members ["elapsed_days"; "elapsed_seconds"]%string j in
  let? days := opt_field read_u32 "elapsed_days" m in
  let? seconds := opt_field read_u32 "elapsed_seconds" m in
  Ok (mkDayStart days seconds).

#[export] Instance ping_deserialize : Deserialize Ping := λ j,
  let? m := struct_members ["status"]%string j in
  let? status := field omaha_status_deserialize "status" m in
  Ok (mkPing status).
#[export] Instance event_deserialize : Deserialize Event := λ j,
  let? m := struct_members ["status"]%string j in
  let? status := field omaha_status_deserialize "status" m in
  Ok (mkEvent status).

#[export] Instance url_deserialize : Deserialize URL := λ j,
  let? m := struct_members ["codebase"]%string j in
  let? codebase := field string_deserialize "codebase" m in
  Ok (mkURL codebase).
#[export] Instance urls_deserialize : Deserialize URLs := λ j,
  let? m := struct_members ["url"]%string j in
  let? url := field list_deserialize "url" m in
  Ok (mkURLs url).

#[export] Instance action_deserialize : Deserialize Action := λ j,
  let? m := flat_members j in
  let? event := opt_field string_deserialize "event" m in
  let? run := opt_field string_deserialize "run" m in
  Ok (mkAction event run (rest_of ["event"; "run"]%string m)).
#[export] Instance actions_deserialize : Deserialize Actions := λ j,
  let? m := struct_members ["action"]%string j in
  let? action := field list_deserialize "action" m in
  Ok (mkActions action).

Definition package_names : list string := ["name"; "required"; "size"; "hash"; "hash_sha256"; "fp"].
#[export] Instance package_deserialize : Deserialize Package := λ j,
  let? m := flat_members j in
  let? name := field string_deserialize "name" m in
  let? req := field bool_deserialize "required" m in
  let? size := opt_field read_u64 "size" m in
  let? hash := opt_field string_deserialize "hash" m in
  let? hash_sha256 := opt_field string_deserialize "hash_sha256" m in
  let? fingerprint := field string_deserialize "fp" m in
  Ok (mkPackage name req size hash hash_sha256 fingerprint (rest_of package_names m)).
#[export] Instance packages_deserialize : Deserialize Packages := λ j,
  let? m := struct_members ["package"]%string j in
  let? package := field list_deserialize "package" m in
  Ok (mkPackages package).

#[export] Instance manifest_deserialize : Deserialize Manifest := λ j,
  let? m := struct_members ["version"; "actions"; "packages"]%string j in
  let? version := field string_deserialize "version" m in
  let? actions := field actions_deserialize "actions" m in
  let? packages := field packages_deserialize "packages" m in
  Ok (mkManifest version actions packages).

#[export] Instance update_check_deserialize : Deserialize UpdateCheck := λ j,
  let? m := flat_members j in
  let? status := field omaha_status_deserialize "status" m in
  let? info := opt_field string_deserialize "info" m in
  let? urls := opt_field urls_deserialize "urls" m in
  let? manifest := opt_field manifest_deserialize "manifest" m in
  Ok (mkUpdateCheck status info urls manifest (rest_of ["status"; "info"; "urls"; "manifest"]%string m)).

(** The flattened cohort takes its members before the extra attributes take what is left. *)
Definition app_names : list string := ["appid"; "status"; "ping"; "updatecheck"; "event"].
#[export] Instance app_deserialize : Deserialize App := λ j,
  let? m := flat_members j in
  let? id := field string_deserialize "appid" m in
  let? status := field omaha_status_deserialize "status" m in
  let? ping := opt_field ping_deserialize "ping" m in
  let? update_check := opt_field update_check_deserialize "updatecheck" m in
  let? events := opt_field list_deserialize "event" m in
  let? cohort := cohort_of_members m in
  Ok (mkApp id status cohort ping update_check events (rest_of (app_names ++ cohort_names) m)).

#[export] Instance response_deserialize : Deserialize Response := λ j,
  let? m := struct_members ["protocol"; "server"; "daystart"; "app"]%string j in
  let? protocol := field string_deserialize "protocol" m in
  let? server := opt_field string_deserialize "server" m in
  let? daystart := opt_field daystart_deserialize "daystart" m in
  let? apps := field list_deserialize "app" m in
  Ok (mkResponse protocol server daystart apps).

(** The wrapper object's only member is the response. *)
Record ResponseWrapper : Type := mkResponseWrapper { response : Response }.
#[export] Instance response_wrapper_deserialize : Deserialize ResponseWrapper := λ j,
  let? m := struct_members ["response"]%string j in
  let? response := field response_deserialize "response" m in
  Ok (mkResponseWrapper response).

Definition omaha_status_default : OmahaStatus := StatusOk.
Definition update_check_default : UpdateCheck :=
  mkUpdateCheck omaha_status_default None None None ∅.
Definition package_default : Package := mkPackage EmptyString false None None None EmptyString ∅.
Definition response_default : Response := mkResponse EmptyString None None [].

(** [App::get_manifest_version]. *)
Definition get_manifest_version (self : App) : option string :=
  match update_check self with
  | Some uc => manifest_version <$> manifest uc
  | None => None
  end.

(** [URLs::new], [UpdateCheck::ok], [UpdateCheck::no_update], [Package::with_name],
    [Packages::new]. *)
Definition urls_new (l : list string) : URLs := mkURLs (mkURL <$> l).
Definition update_check_ok (l : list string) : UpdateCheck :=
  mkUpdateCheck omaha_status_default None (Some (urls_new l)) None ∅.
Definition update_check_no_update : UpdateCheck := mkUpdateCheck NoUpdate None None None ∅.
Definition package_with_name (name : string) : Package :=
  mkPackage name false None None None EmptyString ∅.
Definition packages_new (l : list Package) : Packages := mkPackages l.

(** The iterators of [UpdateCheck]. *)
Definition get_all_url_codebases (self : UpdateCheck) : list string :=
  codebase <$> match urls self with Some u => url u | None => [] end.
Definition get_all_packages (self : UpdateCheck) : list Package :=
  match manifest self with Some m => package (packages m) | None => [] end.
Definition get_all_full_urls (self : UpdateCheck) : list string :=
  cb ← get_all_url_codebases self;
  (λ p, cb +:+ package_name p) <$> get_all_packages self.

(** The bytes of [)]}'] and a line feed. *)
Definition safety_prefix : bytes := [x29; x5d; x7d; x27; x0a].

(** [slice::starts_with]. *)
Fixpoint starts_with (prefix raw : bytes) : bool :=
  match prefix, raw with
  | [], _ => true
  | _ :: _, [] => false
  | p :: prefix', b :: raw' => bool_decide (p = b) && starts_with prefix' raw'
  end.

Section parse.
Context `{SerdeJson}.

(** [parse_safe_json]. *)
Definition parse_safe_json {T} `{Deserialize T} (raw : bytes) : result T serde_error :=
  if starts_with safety_prefix raw then from_slice (drop (length safety_prefix) raw)
  else from_slice raw.

(** [parse_json_response]. *)
Definition parse_json_response (json : bytes) : result Response serde_error :=
  let? wrapper := parse_safe_json (T := ResponseWrapper) json in Ok (response wrapper).
End parse.

(** The numbers of a response in their types. *)
Definition daystart_typed (d : DayStart) : Prop :=
  opt_in in_u32 (elapsed_days d) ∧ opt_in in_u32 (elapsed_seconds d).
Definition update_check_typed (uc : UpdateCheck) : Prop :=
  opt_in (λ m, Forall (λ p, opt_in in_u64 (size p)) (package (packages m))) (manifest uc).
Definition response_typed (r : Response) : Prop :=
  opt_in daystart_typed (daystart r) ∧ Forall (λ a, opt_in update_check_typed (update_check a)) (apps r).

(** ** Lemmas *)

(** Takes a reader apart: [H] says that it gave a value. *)
Ltac read_inv H :=
  repeat (let a := fresh "x" in let Ha := fresh "Hx" in apply res_bind_Ok in H as (a & Ha & H));
  injection H as <-; cbn.

Lemma reads_daystart : all_read daystart_typed daystart_deserialize.
Proof. intros j d Hd. read_inv Hd. split; cbn; eapply reads_opt_field; eauto using reads_u32. Qed.
Lemma reads_package : all_read (λ p, opt_in in_u64 (size p)) package_deserialize.
Proof. intros j p Hp. read_inv Hp. eapply reads_opt_field; eauto using reads_u64. Qed.
Lemma reads_manifest :
  all_read (λ m, Forall (λ p, opt_in in_u64 (size p)) (package (packages m))) manifest_deserialize.
Proof.
  intros j m Hm. read_inv Hm. revert select (field packages_deserialize _ _ = _).
  apply (reads_field (λ ps, Forall (λ p, opt_in in_u64 (size p)) (package ps))). clear.
  intros j ps Hps. read_inv Hps. eapply reads_field; [|done]. apply reads_list, reads_package.
Qed.
Lemma reads_update_check : all_read update_check_typed update_check_deserialize.
Proof. intros j uc Huc. read_inv Huc. eapply reads_opt_field; [apply reads_manifest|done]. Qed.
Lemma reads_response : all_read response_typed response_deserialize.
Proof.
  intros j r Hr. read_inv Hr. split; cbn.
  - eapply reads_opt_field; [apply reads_daystart|done].
  - eapply (reads_field (Forall (λ a, opt_in update_check_typed (update_check a)))); [|done].
    apply reads_list. intros j' a Ha. read_inv Ha. eapply reads_opt_field; [apply reads_update_check|done].
Qed.

Lemma parse_json_response_typed `{SerdeJson} b r : parse_json_response b = Ok r → response_typed r.
Proof.
  intros Hr. unfold parse_json_response, parse_safe_json, from_slice in Hr.
  assert (∃ j w, response_wrapper_deserialize j = Ok w ∧ r = response w) as (j & w & Hw & ->).
  { destruct (starts_with _ _); apply res_bind_Ok in Hr as (w & Hw & [= <-]);
      apply res_bind_Ok in Hw as (j & _ & Hw); apply map_err_Ok in Hw; by exists j, w. }
  read_inv Hw. eapply reads_field; [apply reads_response|done].
Qed.

(** ** Properties *)

Lemma starts_with_app p l : starts_with p (p ++ l) = true.
Proof. induction p as [|b p IH]; [done|]. cbn. by rewrite bool_decide_true. Qed.

Lemma starts_with_spec p l : starts_with p l = true ↔ ∃ l', l = p ++ l'.
Proof.
  split; [|intros [l' ->]; apply starts_with_app].
  revert l. induction p as [|b p IH]; intros l; [by exists l|]. destruct l as [|c l]; [done|].
  cbn. intros [->%bool_decide_eq_true [l' ->]%IH]%andb_true_iff. by exists l'.
Qed.

(** A body with the safety prefix parses as the body without it; one prefix is taken off, not
    two, and a body that does not start with the whole prefix is parsed as it is. *)
Theorem parse_safe_json_prefix `{SerdeJson} {T} `{Deserialize T} raw :
  parse_safe_json (T := T) (safety_prefix ++ raw) = from_slice raw ∧
  ((∀ raw', raw ≠ safety_prefix ++ raw') → parse_safe_json (T := T) raw = from_slice raw).
Proof.
  unfold parse_safe_json. split.
  - by rewrite starts_with_app, drop_app_length.
  - intros Hn. destruct (starts_with safety_prefix raw) eqn:E; [|done].
    apply starts_with_spec in E as [l ->]. by destruct (Hn l).
Qed.

(** The full URLs of an update check are exactly the codebases each joined with each package
    name, codebase by codebase. *)
Theorem full_urls_spec uc :
  (∀ u, u ∈ get_all_full_urls uc ↔
     ∃ cb p, cb ∈ get_all_url_codebases uc ∧ p ∈ get_all_packages uc ∧ u = cb +:+ package_name p) ∧
  length (get_all_full_urls uc) =
    (length (get_all_url_codebases uc) * length (get_all_packages uc))%nat.
Proof.
  unfold get_all_full_urls. split.
  - intros u. rewrite list_elem_of_bind. setoid_rewrite list_elem_of_fmap. naive_solver.
  - induction (get_all_url_codebases uc) as [|cb l IH]; [done|].
    cbn. rewrite length_app, length_fmap. by f_equal.
Qed.
