(* ===== verification/Storage.v ===== *)
(** * Persistent storage ([storage.rs], [storage/memory.rs], [storage/stub.rs])

    The trait is the class [Storage]; [StorageSpec] is what its documentation promises.  The
    clients of a storage are proved against [StorageSpec], and [MemStorage] is shown to meet it. *)

From S2P Require Import Prelude Time.
Open Scope Z_scope.

Class Storage (ST : Type) := {
  storage_error : Type;
  get_string : ST → string → option string;
  get_int : ST → string → option Z;
  get_bool : ST → string → option bool;
  set_string : ST → string → string → result unit storage_error * ST;
  set_int : ST → string → Z → result unit storage_error * ST;
  set_bool : ST → string → bool → result unit storage_error * ST;
  remove : ST → string → result unit storage_error * ST;
  commit : ST → result unit storage_error * ST;
}.

(** What a storage holds for a key, through the three typed reads: a value read at a type other
    than its own is absent. *)
Inductive Value : Type :=
| VString (s : string)
| VInt (i : Z)
| VBool (b : bool).
#[export] Instance Value_eq_dec : EqDecision Value.
Proof. solve_decision. Defined.

Definition reads {ST} `{Storage ST} (st : ST) (k : string) (v : option Value) : Prop :=
  get_string st k = match v with Some (VString s) => Some s | _ => None end ∧
  get_int st k = match v with Some (VInt i) => Some i | _ => None end ∧
  get_bool st k = match v with Some (VBool b) => Some b | _ => None end.

(** The contract of the trait: the storage shows an abstract map [view]; a write that reports
    success changes the written key alone, and is visible before it is committed; removing a key
    that has no value is not an error; committing changes nothing that can be read. *)
Class StorageSpec (ST : Type) `{Storage ST} := {
  view : ST → gmap string Value;
  view_reads st k : reads st k (view st !! k);
  view_set_string st k s : is_ok (set_string st k s).1 = true →
    view (set_string st k s).2 = <[k := VString s]> (view st);
  view_set_int st k i : is_ok (set_int st k i).1 = true →
    view (set_int st k i).2 = <[k := VInt i]> (view st);
  view_set_bool st k b : is_ok (set_bool st k b).1 = true →
    view (set_bool st k b).2 = <[k := VBool b]> (view st);
  view_remove st k : is_ok (remove st k).1 = true → view (remove st k).2 = delete k (view st);
  view_commit st : view (commit st).2 = view st;
}.

(** ** [StorageExt] *)

Section storage_ext.
Context {ST : Type} `{Storage ST}.

Definition set_option_int (st : ST) (key : string) (value : option Z)
    : result unit storage_error * ST :=
  match value with
  | Some value => set_int st key value
  | None => remove st key
  end.

Definition get_time (st : ST) (key : string) : outcome (option SystemTime) :=
  match get_int st key with
  | Some micros => t ← micros_from_epoch_to_system_time micros; Ret (Some t)
  | None => Ret None
  end.

Definition set_time (st : ST) (key : string) (value : SystemTime)
    : result unit storage_error * ST :=
  set_option_int st key (checked_system_time_to_micros_from_epoch value).

(** The error is logged and dropped. *)
Definition remove_or_log (st : ST) (key : string) : ST := (remove st key).2.
Definition commit_or_log (st : ST) : ST := (commit st).2.
End storage_ext.

(** ** [MemStorage] *)

Record MemStorage : Type := mkMemStorage {
  data : gmap string Value;
  committed : bool;
}.

Inductive StorageErrors : Type := StorageUnknown.

Definition mem_new : MemStorage := mkMemStorage ∅ true.
Definition mem_committed (self : MemStorage) : bool := committed self.
Definition mem_len (self : MemStorage) : nat := size (data self).
Definition mem_is_empty (self : MemStorage) : bool := bool_decide (data self = ∅).

Definition mem_get_string (self : MemStorage) (key : string) : option string :=
  match data self !! key with Some (VString s) => Some s | _ => None end.
Definition mem_get_int (self : MemStorage) (key : string) : option Z :=
  match data self !! key with Some (VInt i) => Some i | _ => None end.
Definition mem_get_bool (self : MemStorage) (key : string) : option bool :=
  match data self !! key with Some (VBool b) => Some b | _ => None end.
Definition mem_set_string (self : MemStorage) (key value : string)
    : result unit StorageErrors * MemStorage :=
  (Ok tt, mkMemStorage (<[key := VString value]> (data self)) false).
Definition mem_set_int (self : MemStorage) (key : string) (value : Z)
    : result unit StorageErrors * MemStorage :=
  (Ok tt, mkMemStorage (<[key := VInt value]> (data self)) false).
Definition mem_set_bool (self : MemStorage) (key : string) (value : bool)
    : result unit StorageErrors * MemStorage :=
  (Ok tt, mkMemStorage (<[key := VBool value]> (data self)) false).
Definition mem_remove (self : MemStorage) (key : string) : result unit StorageErrors * MemStorage :=
  (Ok tt, mkMemStorage (delete key (data self)) false).
Definition mem_commit (self : MemStorage) : result unit StorageErrors * MemStorage :=
  (Ok tt, mkMemStorage (data self) true).

#[export] Instance mem_storage : Storage MemStorage := {|
  storage_error := StorageErrors;
  get_string := mem_get_string;
  get_int := mem_get_int;
  get_bool := mem_get_bool;
  set_string := mem_set_string;
  set_int := mem_set_int;
  set_bool := mem_set_bool;
  remove := mem_remove;
  commit := mem_commit;
|}.

(** ** [StubStorage]: every read gives [None] and every write fails. *)

Inductive StubStorage : Type := mkStubStorage.
Inductive StubErrors : Type := Intentional.
Definition stub_fail (self : StubStorage) : result unit StubErrors * StubStorage :=
  (Err Intentional, self).
#[export] Instance stub_storage : Storage StubStorage := {|
  storage_error := StubErrors;
  get_string _ _ := None;
  get_int _ _ := None;
  get_bool _ _ := None;
  set_string st _ _ := stub_fail st;
  set_int st _ _ := stub_fail st;
  set_bool st _ _ := stub_fail st;
  remove st _ := stub_fail st;
  commit st := stub_fail st;
|}.

(** ** Sequences of operations *)

(** What a client may do to a [MemStorage]. *)
Inductive mem_op : Type :=
| OpSet (key : string) (v : Value)
| OpRemove (key : string)
| OpCommit.
Definition mem_run_op (st : MemStorage) (op : mem_op) : MemStorage :=
  match op with
  | OpSet k (VString s) => (set_string st k s).2
  | OpSet k (VInt i) => (set_int st k i).2
  | OpSet k (VBool b) => (set_bool st k b).2
  | OpRemove k => (remove st k).2
  | OpCommit => (commit st).2
  end.
(** The abstract storage the client has in mind: a map of values. *)
Definition map_run_op (m : gmap string Value) (op : mem_op) : gmap string Value :=
  match op with
  | OpSet k v => <[k := v]> m
  | OpRemove k => delete k m
  | OpCommit => m
  end.

(** ** Lemmas *)

Lemma mem_reads (st : MemStorage) k : reads st k (data st !! k).
Proof.
  unfold reads; cbn; unfold mem_get_string, mem_get_int, mem_get_bool.
  by destruct (data st !! k) as [[]|].
Qed.

#[export] Instance mem_storage_spec : StorageSpec MemStorage.
Proof. by refine {| view := data; view_reads := mem_reads |}. Defined.

Lemma stub_reads (st : StubStorage) k : reads st k ((∅ : gmap string Value) !! k).
Proof. unfold reads. by rewrite lookup_empty. Qed.

(** The stub meets the contract too: it never reports a success. *)
#[export] Instance stub_storage_spec : StorageSpec StubStorage.
Proof. by refine {| view _ := ∅; view_reads := stub_reads |}. Defined.

Section spec_lemmas.
Context {ST : Type} `{StorageSpec ST}.

Lemma get_int_view (st : ST) k :
  get_int st k = match view st !! k with Some (VInt i) => Some i | _ => None end.
Proof. apply view_reads. Qed.
Lemma get_string_view (st : ST) k :
  get_string st k = match view st !! k with Some (VString s) => Some s | _ => None end.
Proof. apply view_reads. Qed.

Lemma view_set_option_int (st : ST) k v :
  is_ok (set_option_int st k v).1 = true →
  view (set_option_int st k v).2 =
    match v with Some i => <[k := VInt i]> (view st) | None => delete k (view st) end.
Proof. destruct v; [apply view_set_int|apply view_remove]. Qed.

Lemma get_int_set_option (st : ST) k k' v :
  is_ok (set_option_int st k v).1 = true →
  get_int (set_option_int st k v).2 k' = if decide (k = k') then v else get_int st k'.
Proof.
  intros Hok. rewrite !get_int_view, view_set_option_int by done. destruct v as [i|].
  - case_decide as E; [subst; by rewrite lookup_insert_eq|by rewrite lookup_insert_ne].
  - case_decide as E; [subst; by rewrite lookup_delete_eq|by rewrite lookup_delete_ne].
Qed.

Lemma view_commit_or_log (st : ST) : view (commit_or_log st) = view st.
Proof. apply view_commit. Qed.
End spec_lemmas.

#[export] Hint Rewrite @view_commit_or_log : omaha_simpl.

(** ** Properties *)

(** A time that was stored under a key is read back from every storage that keeps the trait's
    contract, rounded to the microsecond nearer the epoch; a time too far away to be counted in
    [i64] microseconds removes the key instead; other keys keep their value. *)
Theorem set_time_get_time {ST} `{StorageSpec ST} (st : ST) k t :
  is_ok (set_time st k t).1 = true →
  get_time (set_time st k t).2 k =
    Ret (if decide (Z.abs (Z.quot t 1000) ≤ i64_max) then Some (Z.quot t 1000 * 1000) else None) ∧
  (∀ k', k' ≠ k → get_time (set_time st k t).2 k' = get_time st k').
Proof.
  unfold set_time, get_time. intros Hok. split.
  - rewrite get_int_set_option, decide_True by done. rewrite checked_to_micros_value.
    case_decide; [|done]. by rewrite micros_from_epoch_value by range.
  - intros k' Hk. by rewrite get_int_set_option, decide_False by done.
Qed.

Lemma set_time_get_time_witness :
  is_ok (set_time mem_new "update_finish_time" 1234567).1 = true ∧
  get_time (set_time mem_new "update_finish_time" 1234567).2 "update_finish_time" = Ret (Some 1234000).
Proof.
  split; [reflexivity|].
  apply (set_time_get_time mem_new "update_finish_time" 1234567). reflexivity.
Defined.

(** C37: [MemStorage] implements a map of typed values: after any sequence of operations each key
    reads as in the map the same operations give, at its own type only, and [committed] tells
    whether a commit came after the last write. *)
Theorem mem_storage_refines_map ops st :
  let st' := foldl mem_run_op st ops in
  (∀ k, reads st' k (foldl map_run_op (data st) ops !! k)) ∧
  mem_committed st' = match last ops with Some OpCommit => true | Some _ => false | None => committed st end.
Proof.
  cbn zeta. assert (data (foldl mem_run_op st ops) = foldl map_run_op (data st) ops) as Hd.
  { revert st. induction ops as [|op ops IH]; intros st; [done|]. cbn. rewrite IH.
    by destruct op as [k []|k|]. }
  split; [intros k; rewrite <-Hd; apply mem_reads|].
  destruct ops as [|op ops _] using rev_ind; [done|].
  rewrite last_snoc, foldl_snoc. by destruct op as [k []|k|].
Qed.
