(* ===== verification/Common.v ===== *)
(** * Types common to the library ([common.rs], [unless.rs]) *)

From S2P Require Import Prelude Serde Time Version Protocol Storage.
From S2P Require Request Response.
Open Scope Z_scope.

(** [UserCounting]: the date of the last contact with Omaha, as the server counts days. *)
Inductive UserCounting : Type := ClientRegulatedByDate (days : option Z).
#[export] Instance UserCounting_eq_dec : EqDecision UserCounting.
Proof. solve_decision. Defined.

(** [impl From<Option<DayStart>> for UserCounting]. *)
Definition user_counting_from (opt_day_start : option Response.DayStart) : UserCounting :=
  match opt_day_start with
  | Some day_start => ClientRegulatedByDate (Response.elapsed_days day_start)
  | None => ClientRegulatedByDate None
  end.

Record App : Type := mkApp {
  app_id : string;
  app_version : Version;
  app_fingerprint : option string;
  app_cohort : Cohort;
  app_user_counting : UserCounting;
  app_extra_fields : gmap string string;
}.
#[export] Instance App_eq_dec : EqDecision App.
Proof. solve_decision. Defined.

(** Assignments to the fields of an app. *)
Definition set_app_id (i : string) (a : App) : App :=
  mkApp i (app_version a) (app_fingerprint a) (app_cohort a) (app_user_counting a) (app_extra_fields a).
Definition set_app_cohort (c : Cohort) (a : App) : App :=
  mkApp (app_id a) (app_version a) (app_fingerprint a) c (app_user_counting a) (app_extra_fields a).
Definition set_app_user_counting (u : UserCounting) (a : App) : App :=
  mkApp (app_id a) (app_version a) (app_fingerprint a) (app_cohort a) u (app_extra_fields a).

(** [App::builder]: the defaults of the optional fields. *)
Definition app_new (id : string) (version : Version) : App :=
  mkApp id version None cohort_default (ClientRegulatedByDate None) ∅.

(** An app as it is created before anything is loaded into it. *)
Definition app_fresh (a : App) : App :=
  mkApp (app_id a) (app_version a) (app_fingerprint a) cohort_default (ClientRegulatedByDate None)
    (app_extra_fields a).

(** The days of a user counting are a [u32]. *)
Definition user_counting_typed (u : UserCounting) : Prop :=
  let '(ClientRegulatedByDate days) := u in opt_in in_u32 days.
#[export] Instance user_counting_typed_dec u : Decision (user_counting_typed u).
Proof. destruct u as [[]]; apply _. Defined.
Definition app_typed (a : App) : Prop := user_counting_typed (app_user_counting a).
#[export] Instance app_typed_dec a : Decision (app_typed a) := _.

Record PersistedApp : Type := mkPersistedApp {
  persisted_cohort : Cohort;
  persisted_user_counting : UserCounting;
}.
#[export] Instance PersistedApp_eq_dec : EqDecision PersistedApp.
Proof. solve_decision. Defined.

(** [impl From<&App> for PersistedApp]. *)
Definition persisted_from_app (app : App) : PersistedApp :=
  mkPersistedApp (app_cohort app) (app_user_counting app).

(** The derived [Serialize] and [Deserialize]: an externally tagged enum is an object of one
    member. *)
Definition user_counting_json (u : UserCounting) : Json :=
  let '(ClientRegulatedByDate days) := u in
  JObj [("ClientRegulatedByDate"%string, option_json (JNum <$> days))].
#[export] Instance user_counting_deserialize : Deserialize UserCounting := λ j,
  let? (variant, content) := enum_variant j in
  if decide (variant = "ClientRegulatedByDate"%string)
  then newtype_variant (@option_deserialize _ read_u32) ClientRegulatedByDate content
  else Err UnknownVariant.
Definition persisted_app_json (p : PersistedApp) : Json := JObj [
  ("cohort", cohort_json (persisted_cohort p));
  ("user_counting", user_counting_json (persisted_user_counting p))]%string.
#[export] Instance persisted_app_deserialize : Deserialize PersistedApp := λ j,
  let? m := struct_members ["cohort"; "user_counting"]%string j in
  let? cohort := field cohort_deserialize "cohort" m in
  let? user_counting := field user_counting_deserialize "user_counting" m in
  Ok (mkPersistedApp cohort user_counting).

Section app.
Context {ST : Type} `{Storage ST} `{SerdeJson}.

(** [App::load]: only overwrite fields that are unset. *)
Definition app_load (storage : ST) (self : App) : App :=
  match get_string storage (app_id self) with
  | Some app_json =>
    match from_str (A := PersistedApp) app_json with
    | Ok persisted_app =>
      let c := app_cohort self in
      let pc := persisted_cohort persisted_app in
      let self := set_app_cohort (mkCohort
        (if opt_is_some (cohort_id c) then cohort_id c else cohort_id pc)
        (if opt_is_some (cohort_hint c) then cohort_hint c else cohort_hint pc)
        (if opt_is_some (cohort_name c) then cohort_name c else cohort_name pc)) self in
      if decide (app_user_counting self = ClientRegulatedByDate None)
      then set_app_user_counting (persisted_user_counting persisted_app) self
      else self
    | Err _ => self
    end
  | None => self
  end.

(** [App::persist]: an error is logged and dropped. *)
Definition app_persist (self : App) (storage : ST) : ST :=
  match json_to_string (persisted_app_json (persisted_from_app self)) with
  | Ok json => (set_string storage (app_id self) json).2
  | Err _ => storage
  end.
End app.

(** [App::get_current_channel], [App::get_target_channel], [App::set_target_channel]. *)
Definition get_current_channel (self : App) : string :=
  unwrap_or (cohort_name (app_cohort self)) EmptyString.
Definition get_target_channel (self : App) : string :=
  match cohort_hint (app_cohort self) with
  | Some hint => hint
  | None => get_current_channel self
  end.
Definition set_target_channel (self : App) (channel new_id : option string) : App :=
  let c := app_cohort self in
  let self := set_app_cohort (mkCohort (cohort_id c) channel (cohort_name c)) self in
  match new_id with Some i => set_app_id i self | None => self end.

(** [App::valid]. *)
Definition app_valid (self : App) : bool :=
  negb (bool_decide (app_id self = EmptyString))
  && negb (bool_decide (app_version self = version_from [0])).

(** ** Scheduling and protocol state *)

Record CheckOptions : Type := mkCheckOptions { source : Request.InstallSource }.
#[export] Instance CheckOptions_eq_dec : EqDecision CheckOptions.
Proof. solve_decision. Defined.
Definition check_options_default : CheckOptions := mkCheckOptions Request.install_source_default.

Record CheckTiming : Type := mkCheckTiming {
  time : PartialComplexTime;
  minimum_wait : option Duration;
}.
#[export] Instance CheckTiming_eq_dec : EqDecision CheckTiming.
Proof. solve_decision. Defined.

Record UpdateCheckSchedule : Type := mkUpdateCheckSchedule {
  last_update_time : option PartialComplexTime;
  last_update_check_time : option PartialComplexTime;
  next_update_time : option CheckTiming;
}.
#[export] Instance UpdateCheckSchedule_eq_dec : EqDecision UpdateCheckSchedule.
Proof. solve_decision. Defined.
Definition schedule_default : UpdateCheckSchedule := mkUpdateCheckSchedule None None None.

Record ProtocolState : Type := mkProtocolState {
  server_dictated_poll_interval : option Duration;
  consecutive_failed_update_checks : Z;
  consecutive_proxied_requests : Z;
}.
#[export] Instance ProtocolState_eq_dec : EqDecision ProtocolState.
Proof. solve_decision. Defined.
Definition protocol_state_default : ProtocolState := mkProtocolState None 0 0.

(** [Unless::unless] ([unless.rs]). *)
Definition unless {T} (self : T) (option : option T) : T := unwrap_or option self.

(** ** Texts *)

(** [PrettyOptionDisplay]: its [Display], which is its [Debug] too. *)
Definition pretty_option_display {T} (display : T → string) (self : option T) : string :=
  match self with None => "None" | Some value => display value end.

Section display.
Context `{TimeFormats}.

(** [impl Display for CheckTiming]. *)
Definition check_timing_display (self : CheckTiming) : string :=
  match minimum_wait self with
  | None => partial_display (time self)
  | Some wait => partial_display (time self) +:+ " wait: " +:+ debug_duration wait
  end.
(** [impl Debug for UpdateCheckSchedule]: a [debug_struct] of two of the fields. *)
Definition schedule_debug (self : UpdateCheckSchedule) : string :=
  "UpdateCheckSchedule { last_update_time: " +:+
  pretty_option_display partial_display (last_update_time self) +:+
  ", next_update_time: " +:+
  pretty_option_display check_timing_display (next_update_time self) +:+ " }".
End display.

(** ** Lemmas *)

Lemma persisted_app_roundtrip p :
  user_counting_typed (persisted_user_counting p) → deserialize (persisted_app_json p) = Ok p.
Proof.
  destruct p as [c [days]]. intros Hd. unfold deserialize, persisted_app_deserialize, persisted_app_json.
  cbn [struct_members res_bind persisted_cohort persisted_user_counting].
  rewrite (field_once _ "cohort" _ (cohort_json c)) by done.
  rewrite (field_once _ "user_counting" _ (user_counting_json (ClientRegulatedByDate days))) by done.
  pose proof (cohort_roundtrip c) as Hc. unfold deserialize in Hc. rewrite Hc. cbn.
  destruct days as [d|]; [|done]. cbn. unfold read_u32. by rewrite (decide_True _ _ Hd).
Qed.
Lemma persisted_app_json_wf p :
  user_counting_typed (persisted_user_counting p) → json_wf recursion_limit (persisted_app_json p).
Proof.
  intros Hd. apply (json_wf_le 3); [rewrite recursion_limit_S; lia|].
  destruct p as [c [[d|]]]; (constructor; [apply cohort_json_wf|]); repeat constructor.
  all: cbn in Hd; range.
Qed.
Lemma persisted_app_reads `{SerdeJsonLaws} a json :
  app_typed a → json_to_string (persisted_app_json (persisted_from_app a)) = Ok json →
  from_str json = Ok (persisted_from_app a).
Proof.
  intros Ht Hs. apply (from_str_to_string _ _ _ (persisted_app_json_wf (persisted_from_app a) Ht) Hs).
  by apply persisted_app_roundtrip.
Qed.

(** ** Properties *)

(** After an app was persisted, a fresh app with the same id that is loaded from the storage
    gets the cohort and user counting that were persisted for each field it does not set itself,
    and keeps the fields it sets. *)
Theorem app_persist_load {ST} `{StorageSpec ST} `{SerdeJsonLaws} (st : ST) old new json :
  app_id new = app_id old → app_typed old →
  json_to_string (persisted_app_json (persisted_from_app old)) = Ok json →
  is_ok (set_string st (app_id old) json).1 = true →
  app_load (app_persist old st) new =
  mkApp (app_id new) (app_version new) (app_fingerprint new)
    (mkCohort
      (match cohort_id (app_cohort new) with Some x => Some x | None => cohort_id (app_cohort old) end)
      (match cohort_hint (app_cohort new) with Some x => Some x | None => cohort_hint (app_cohort old) end)
      (match cohort_name (app_cohort new) with Some x => Some x | None => cohort_name (app_cohort old) end))
    (if decide (app_user_counting new = ClientRegulatedByDate None) then app_user_counting old
     else app_user_counting new)
    (app_extra_fields new).
Proof.
  intros Hid Hty Hjson Hok. unfold app_load, app_persist. rewrite <-Hid in *. rewrite Hjson, get_string_view.
  rewrite view_set_string, lookup_insert_eq by done. erewrite persisted_app_reads by done.
  cbn. destruct new as [i v f [[] [] []] u x]; cbn; by case_decide.
Qed.

#[local] Existing Instance example_serde.
#[local] Existing Instance example_serde_laws.

Lemma app_persist_load_witness :
  let old := set_app_cohort (cohort_new "stable-channel") (app_new "app" (version_from [1; 2])) in
  let new := app_new "app" (version_from [1; 3]) in
  let st := mem_new in
  app_load (app_persist old st) new = set_app_cohort (cohort_new "stable-channel") new.
Proof.
  cbn zeta. set (old := set_app_cohort _ _).
  apply (app_persist_load mem_new old (app_new "app" (version_from [1; 3]))
    (String "{" (to_text (persisted_app_json (persisted_from_app old))))); [reflexivity|done|reflexivity|reflexivity].
Defined.
