(* ===== verification/UpdateCheck.v ===== *)
(** * The context of an update check ([state_machine/update_check.rs]) *)

From S2P Require Import Prelude Time Protocol Storage Common.
Open Scope Z_scope.

Definition CONSECUTIVE_FAILED_UPDATE_CHECKS : string := "consecutive_failed_update_checks".
Definition LAST_UPDATE_TIME : string := "last_update_time".
Definition SERVER_DICTATED_POLL_INTERVAL : string := "server_dictated_poll_interval".

Record Context : Type := mkContext {
  schedule : UpdateCheckSchedule;
  state : ProtocolState;
}.
#[export] Instance Context_eq_dec : EqDecision Context.
Proof. solve_decision. Defined.

Section context.
Context {ST : Type} `{Storage ST}.

(** [Context::load]. *)
Definition context_load (storage : ST) : outcome Context :=
  last_update_time ← get_time storage LAST_UPDATE_TIME;
  let last_update_time := Wall <$> last_update_time in
  let server_dictated_poll_interval :=
    from_micros <$> (t ← get_int storage SERVER_DICTATED_POLL_INTERVAL; try_u64 t) in
  let consecutive_failed_update_checks :=
    unwrap_or (try_u32 (unwrap_or (get_int storage CONSECUTIVE_FAILED_UPDATE_CHECKS) 0)) 0 in
  Ret (mkContext
    (mkUpdateCheckSchedule last_update_time last_update_time None)
    (mkProtocolState server_dictated_poll_interval consecutive_failed_update_checks
       (consecutive_proxied_requests protocol_state_default))).

(** [Context::persist]: the three writes are all tried, an error of one is logged and dropped. *)
Definition context_persist (self : Context) (storage : ST) : ST :=
  let storage := (set_option_int storage LAST_UPDATE_TIME
    (t ← last_update_time (schedule self); checked_to_micros_since_epoch t)).2 in
  let storage := (set_option_int storage SERVER_DICTATED_POLL_INTERVAL
    (t ← as_micros <$> server_dictated_poll_interval (state self); try_i64 t)).2 in
  let consecutive_failed_update_checks_option :=
    if decide (consecutive_failed_update_checks (state self) = 0) then None
    else Some (consecutive_failed_update_checks (state self)) in
  (set_option_int storage CONSECUTIVE_FAILED_UPDATE_CHECKS
    consecutive_failed_update_checks_option).2.
End context.

(** ** The result of an update check *)

(** [update_check::Action]. *)
Inductive Action : Type :=
| ActionNoUpdate
| ActionDeferredByPolicy
| ActionDeniedByPolicy
| ActionInstallPlanExecutionError
| ActionUpdated.
#[export] Instance Action_eq_dec : EqDecision Action.
Proof. solve_decision. Defined.

Record AppResponse : Type := mkAppResponse {
  response_app_id : string;
  response_cohort : Cohort;
  response_user_counting : UserCounting;
  response_result : Action;
}.
#[export] Instance AppResponse_eq_dec : EqDecision AppResponse.
Proof. solve_decision. Defined.

(** [update_check::Response]. *)
Record Response : Type := mkResponse { app_responses : list AppResponse }.
#[export] Instance Response_eq_dec : EqDecision Response.
Proof. solve_decision. Defined.

(** ** What is left of a context after it is stored *)

(** A storage whose writes never fail. *)
Class StorageInfallible (ST : Type) `{Storage ST} : Prop := {
  set_string_ok st k s : is_ok (set_string st k s).1 = true;
  set_int_ok st k i : is_ok (set_int st k i).1 = true;
  remove_ok st k : is_ok (remove st k).1 = true;
}.
#[export] Instance mem_storage_infallible : StorageInfallible MemStorage.
Proof. by split. Qed.

(** The durable part of a context: wall-clock times in whole microseconds, the poll interval in
    whole microseconds when it fits in an [i64], and the number of failed checks. *)
Definition stored_time (p : PartialComplexTime) : option PartialComplexTime :=
  t ← checked_to_system_time p;
  if decide (Z.abs (Z.quot t 1000) ≤ i64_max) then Some (Wall (Z.quot t 1000 * 1000)) else None.
Definition stored_context (c : Context) : Context :=
  let t := p ← last_update_time (schedule c); stored_time p in
  mkContext (mkUpdateCheckSchedule t t None)
    (mkProtocolState
      (d ← server_dictated_poll_interval (state c);
       if decide (as_micros d ≤ i64_max) then Some (as_micros d * 1000) else None)
      (consecutive_failed_update_checks (state c)) 0).

Definition context_valid (c : Context) : Prop :=
  in_u32 (consecutive_failed_update_checks (state c)) ∧
  (∀ d, server_dictated_poll_interval (state c) = Some d → valid_duration d).

(** ** Lemmas *)

Lemma set_option_int_ok {ST} `{StorageInfallible ST} (st : ST) k v :
  is_ok (set_option_int st k v).1 = true.
Proof. destruct v; [apply set_int_ok|apply remove_ok]. Qed.

(** What each key holds after [Context::persist]. *)
Lemma get_int_context_persist {ST} `{Storage ST, !StorageSpec ST, !StorageInfallible ST} c (st : ST) k :
  get_int (context_persist c st) k =
  if decide (k = CONSECUTIVE_FAILED_UPDATE_CHECKS) then
    if decide (consecutive_failed_update_checks (state c) = 0) then None
    else Some (consecutive_failed_update_checks (state c))
  else if decide (k = SERVER_DICTATED_POLL_INTERVAL) then
    t ← as_micros <$> server_dictated_poll_interval (state c); try_i64 t
  else if decide (k = LAST_UPDATE_TIME) then
    t ← last_update_time (schedule c); checked_to_micros_since_epoch t
  else get_int st k.
Proof.
  unfold context_persist. rewrite !get_int_set_option by apply set_option_int_ok.
  repeat case_decide; congruence.
Qed.

Lemma get_time_context_persist {ST} `{Storage ST, !StorageSpec ST, !StorageInfallible ST} c (st : ST) :
  get_time (context_persist c st) LAST_UPDATE_TIME =
  Ret (p ← last_update_time (schedule c); t ← checked_to_system_time p;
       if decide (Z.abs (Z.quot t 1000) ≤ i64_max) then Some (Z.quot t 1000 * 1000) else None).
Proof.
  unfold get_time. rewrite get_int_context_persist.
  rewrite decide_False, decide_False, decide_True by done.
  destruct (last_update_time (schedule c)) as [p|]; [|done]. cbn.
  unfold checked_to_micros_since_epoch. destruct (checked_to_system_time p) as [t|]; [|done].
  cbn. rewrite checked_to_micros_value. case_decide; [|done].
  by rewrite micros_from_epoch_value by range.
Qed.

Lemma stored_time_wall (o : option PartialComplexTime) :
  Wall <$> (p ← o; t ← checked_to_system_time p;
            if decide (Z.abs (Z.quot t 1000) ≤ i64_max) then Some (Z.quot t 1000 * 1000) else None) =
  o ≫= stored_time.
Proof.
  destruct o as [p|]; [|done]. unfold stored_time. cbn.
  destruct (checked_to_system_time p) as [t|]; [|done]. cbn. by case_decide.
Qed.

Lemma get_string_set_option_int {ST} `{StorageSpec ST} (st : ST) k k' v :
  is_ok (set_option_int st k v).1 = true → k ≠ k' →
  get_string (set_option_int st k v).2 k' = get_string st k'.
Proof.
  intros Hok Hne. rewrite !get_string_view, view_set_option_int by done.
  destruct v; by rewrite ?lookup_insert_ne, ?lookup_delete_ne by done.
Qed.

Lemma context_persist_loads {ST} `{Storage ST, !StorageSpec ST, !StorageInfallible ST} c (st : ST) :
  context_valid c → context_load (context_persist c st) = Ret (stored_context c).
Proof.
  intros [Hf Hd]. unfold context_load. rewrite get_time_context_persist, !get_int_context_persist.
  rewrite (decide_True (P := CONSECUTIVE_FAILED_UPDATE_CHECKS = _)) by done.
  rewrite (decide_False (P := SERVER_DICTATED_POLL_INTERVAL = CONSECUTIVE_FAILED_UPDATE_CHECKS)),
    (decide_True (P := SERVER_DICTATED_POLL_INTERVAL = _)) by done.
  destruct c as [[lut lct nut] [sdpi cf cp]]. cbn in *. unfold stored_context. cbn.
  rewrite stored_time_wall. do 3 f_equal.
  - destruct sdpi as [d|]; [|done]. specialize (Hd d eq_refl). cbn.
    pose proof (Z.div_pos d 1000). unfold try_i64, in_i64. case_decide; case_decide; cbn;
      try (exfalso; time_range); [|done]. unfold try_u64. by rewrite decide_True by time_range.
  - case_decide; cbn; [by subst|]. by rewrite try_u32_in.
Qed.

(** Loading a context never panics when the stored integers are [i64]s; a missing or negative poll
    interval is no interval, and a failure count that is missing or is not a [u32] is 0. *)
Lemma context_load_total {ST} `{Storage ST} (st : ST) :
  (∀ k i, get_int st k = Some i → in_i64 i) →
  ∃ c, context_load st = Ret c ∧ context_valid c ∧
    last_update_time (schedule c) = (λ i, Wall (i * 1000)) <$> get_int st LAST_UPDATE_TIME ∧
    last_update_check_time (schedule c) = last_update_time (schedule c) ∧
    next_update_time (schedule c) = None ∧
    server_dictated_poll_interval (state c) =
      (i ← get_int st SERVER_DICTATED_POLL_INTERVAL; if decide (0 ≤ i) then Some (i * 1000) else None) ∧
    consecutive_failed_update_checks (state c) =
      match get_int st CONSECUTIVE_FAILED_UPDATE_CHECKS with
      | Some i => if decide (in_u32 i) then i else 0
      | None => 0
      end ∧
    consecutive_proxied_requests (state c) = 0.
Proof.
  intros Hty. unfold context_load, get_time.
  assert (∀ i, in_i64 i → try_u64 i = if decide (0 ≤ i) then Some i else None) as Hu64.
  { intros i Hi. unfold try_u64. repeat case_decide; done || range. }
  destruct (get_int st LAST_UPDATE_TIME) as [i|] eqn:Hl;
    [rewrite micros_from_epoch_value by eauto|]; eexists; (split; [reflexivity|]); cbn;
    destruct (get_int st SERVER_DICTATED_POLL_INTERVAL) as [j|] eqn:Hj; cbn;
    destruct (get_int st CONSECUTIVE_FAILED_UPDATE_CHECKS) as [n|] eqn:Hn; cbn;
    rewrite ?Hu64 by eauto; unfold try_u32; repeat case_decide; cbn;
    (split; [split; cbn; [range|intros d [= <-] || intros d [=]]|done]);
    try (apply Hty in Hj); time_range.
Qed.

(** ** Properties *)

(** Persisting a context and loading it back, from any storage that keeps its contract and
    whose writes succeed, gives the durable part of the context: the last update time on the wall
    clock to the microsecond (nothing when it is only monotonic), which also stands in for the
    last check time, the poll interval to the microsecond and the number of failed checks. *)
Theorem context_persist_load {ST} `{Storage ST, !StorageSpec ST, !StorageInfallible ST} c (st : ST) :
  context_valid c → context_load (context_persist c st) = Ret (stored_context c).
Proof. apply context_persist_loads. Qed.

Lemma context_persist_load_witness :
  let c := mkContext
    (mkUpdateCheckSchedule (Some (Complex (mkComplexTime 1500 9))) None None)
    (mkProtocolState (Some 86400000000001) 3 1) in
  context_load (context_persist c mem_new) = Ret (mkContext
    (mkUpdateCheckSchedule (Some (Wall 1000)) (Some (Wall 1000)) None)
    (mkProtocolState (Some 86400000000000) 3 0)).
Proof.
  cbn zeta. apply (context_persist_load (mkContext
    (mkUpdateCheckSchedule (Some (Complex (mkComplexTime 1500 9))) None None)
    (mkProtocolState (Some 86400000000001) 3 1)) mem_new).
  split; cbn; [range|intros d [= <-]; time_range].
Defined.
