(* ===== verification/StorageTests.v ===== *)
(** * The tests a storage should pass ([storage.rs], [storage::tests])

    The crate gives the implementors of its trait a set of tests.  Each is a program over any
    storage, which panics when the storage does not act as expected; every storage that keeps the
    contract [StorageSpec], and never fails, passes them all. *)

From S2P Require Import Prelude Testing Time Storage UpdateCheck.
Open Scope Z_scope.

(** A write that must succeed ([.await.unwrap()]). *)
Definition unwrap_write {ST E} (r : result unit E * ST) : outcome ST :=
  match r.1 with
  | Ok _ => Ret r.2
  | Err _ => Panic "called `Result::unwrap()` on an `Err` value"
  end.

(** A storage that never fails. *)
Class StorageReliable (ST : Type) `{Storage ST} : Prop := {
  reliable_infallible :: StorageInfallible ST;
  set_bool_ok st k b : is_ok (set_bool st k b).1 = true;
  commit_ok st : is_ok (commit st).1 = true;
}.
#[export] Instance mem_storage_reliable : StorageReliable MemStorage.
Proof. split; [apply _|done..]. Qed.

Section tests.
Context {ST : Type} `{Storage ST}.

Definition do_test_set_get_remove_string (st : ST) : outcome ST :=
  let key := "some key"%string in
  assert_eq None (get_string st key);;
  st ← unwrap_write (set_string st key "some value"%string);
  st ← unwrap_write (commit st);
  assert_eq (Some "some value"%string) (get_string st key);;
  st ← unwrap_write (set_string st key "some other value"%string);
  st ← unwrap_write (commit st);
  assert_eq (Some "some other value"%string) (get_string st key);;
  st ← unwrap_write (remove st key);
  st ← unwrap_write (commit st);
  assert_eq None (get_string st key);;
  Ret st.
Definition do_test_set_get_remove_int (st : ST) : outcome ST :=
  let key := "some int key"%string in
  assert_eq None (get_int st key);;
  st ← unwrap_write (set_int st key 42);
  st ← unwrap_write (commit st);
  assert_eq (Some 42) (get_int st key);;
  st ← unwrap_write (set_int st key 1);
  st ← unwrap_write (commit st);
  assert_eq (Some 1) (get_int st key);;
  st ← unwrap_write (remove st key);
  st ← unwrap_write (commit st);
  assert_eq None (get_int st key);;
  Ret st.
Definition do_test_set_option_int (st : ST) : outcome ST :=
  let key := "some int key"%string in
  assert_eq None (get_int st key);;
  st ← unwrap_write (set_option_int st key (Some 42));
  st ← unwrap_write (commit st);
  assert_eq (Some 42) (get_int st key);;
  st ← unwrap_write (set_option_int st key None);
  st ← unwrap_write (commit st);
  assert_eq None (get_int st key);;
  Ret st.
Definition do_test_set_get_remove_bool (st : ST) : outcome ST :=
  let key := "some bool key"%string in
  assert_eq None (get_bool st key);;
  st ← unwrap_write (set_bool st key false);
  st ← unwrap_write (commit st);
  assert_eq (Some false) (get_bool st key);;
  st ← unwrap_write (set_bool st key true);
  st ← unwrap_write (commit st);
  assert_eq (Some true) (get_bool st key);;
  st ← unwrap_write (remove st key);
  st ← unwrap_write (commit st);
  assert_eq None (get_bool st key);;
  Ret st.
(** [get_time] may panic itself. *)
Definition assert_time (expected : option SystemTime) (key : string) (st : ST) : outcome unit :=
  t ← get_time st key;
  assert_eq expected t.
Definition do_test_set_get_remove_time (st : ST) : outcome ST :=
  let key := "some time key"%string in
  assert_time None key st;;
  st ← unwrap_write (set_time st key UNIX_EPOCH);
  st ← unwrap_write (commit st);
  assert_time (Some UNIX_EPOCH) key st;;
  time ← time_add UNIX_EPOCH (from_secs 1234);
  st ← unwrap_write (set_time st key time);
  st ← unwrap_write (commit st);
  assert_time (Some time) key st;;
  st ← unwrap_write (remove st key);
  st ← unwrap_write (commit st);
  assert_time None key st;;
  Ret st.
Definition do_return_none_for_wrong_value_type (st : ST) : outcome ST :=
  let key := "some int key"%string in
  st ← unwrap_write (set_int st key 42);
  assert_eq None (get_string st key);;
  Ret st.
Definition do_ensure_no_error_remove_nonexistent_key (st : ST) : outcome ST :=
  let key := "some key"%string in
  st ← unwrap_write (set_string st key "some value"%string);
  st ← unwrap_write (commit st);
  st ← unwrap_write (remove st key);
  st ← unwrap_write (remove st key);
  Ret st.

Definition storage_tests : list (ST → outcome ST) :=
  [do_test_set_get_remove_string; do_test_set_get_remove_int; do_test_set_option_int;
   do_test_set_get_remove_bool; do_test_set_get_remove_time; do_return_none_for_wrong_value_type;
   do_ensure_no_error_remove_nonexistent_key].
End tests.

Definition passes {ST} (st : ST) (test : ST → outcome ST) : bool :=
  match test st with Ret _ => true | Panic _ => false end.

(** ** Lemmas *)

Section passing.
Context {ST : Type} `{StorageSpec ST, !StorageReliable ST}.

(** What a storage holds is all that counts: [m] goes on to return, from the values [v]. *)
Definition goes_on (v : gmap string Value) (k : ST → outcome ST) : Prop :=
  ∀ st, view st = v → ∃ st', k st = Ret st'.

Lemma test_goes_on_ret v : goes_on v (λ st, Ret st).
Proof. intros st _. by exists st. Qed.
Lemma goes_on_pure {A} v (o : outcome A) a (k : A → ST → outcome ST) :
  o = Ret a → goes_on v (k a) → goes_on v (λ st, o ≫= λ x, k x st).
Proof. by intros ->. Qed.
Lemma goes_on_write v v' (w : ST → result unit storage_error * ST) (k : ST → outcome ST) :
  (∀ st, view st = v → is_ok (w st).1 = true ∧ view (w st).2 = v') → goes_on v' k →
  goes_on v (λ st, st ← unwrap_write (w st); k st).
Proof.
  intros Hw Hk st Hst. destruct (Hw st Hst) as [Hok Hv]. unfold unwrap_write.
  destruct (w st) as [[[]|e] st']; [|done]. by apply Hk.
Qed.
Lemma goes_on_assert {A} `{EqDecision A} v (x : A) (read : ST → A) (k : ST → outcome ST) :
  (∀ st, view st = v → x = read st) → goes_on v k → goes_on v (λ st, assert_eq x (read st);; k st).
Proof.
  intros Hx Hk st Hst. unfold assert_eq. rewrite decide_True by by apply Hx. by apply Hk.
Qed.
Lemma goes_on_assert_time v x key (k : ST → outcome ST) :
  (∀ st, view st = v → get_time st key = Ret x) → goes_on v k →
  goes_on v (λ st, assert_time x key st;; k st).
Proof.
  intros Hx Hk st Hst. unfold assert_time, assert_eq. rewrite Hx by done. cbn.
  rewrite decide_True by done. by apply Hk.
Qed.

Lemma write_string k s (v : gmap string Value) (st : ST) :
  view st = v → is_ok (set_string st k s).1 = true ∧ view (set_string st k s).2 = <[k := VString s]> v.
Proof. intros <-. split; [|apply view_set_string]; apply set_string_ok. Qed.
Lemma write_int k i (v : gmap string Value) (st : ST) :
  view st = v → is_ok (set_int st k i).1 = true ∧ view (set_int st k i).2 = <[k := VInt i]> v.
Proof. intros <-. split; [|apply view_set_int]; apply set_int_ok. Qed.
Lemma write_bool k b (v : gmap string Value) (st : ST) :
  view st = v → is_ok (set_bool st k b).1 = true ∧ view (set_bool st k b).2 = <[k := VBool b]> v.
Proof. intros <-. split; [|apply view_set_bool]; apply set_bool_ok. Qed.
Lemma write_option k o (v : gmap string Value) (st : ST) :
  view st = v → is_ok (set_option_int st k o).1 = true ∧
  view (set_option_int st k o).2 = match o with Some i => <[k := VInt i]> v | None => delete k v end.
Proof. intros <-. split; [|apply view_set_option_int]; apply set_option_int_ok. Qed.
Lemma write_time k t micros (v : gmap string Value) (st : ST) :
  checked_system_time_to_micros_from_epoch t = Some micros → view st = v →
  is_ok (set_time st k t).1 = true ∧ view (set_time st k t).2 = <[k := VInt micros]> v.
Proof. unfold set_time. intros ->. apply write_option. Qed.
Lemma write_remove k (v : gmap string Value) (st : ST) :
  view st = v → is_ok (remove st k).1 = true ∧ view (remove st k).2 = delete k v.
Proof. intros <-. split; [|apply view_remove]; apply remove_ok. Qed.
Lemma write_commit (v : gmap string Value) (st : ST) :
  view st = v → is_ok (commit st).1 = true ∧ view (commit st).2 = v.
Proof. intros <-. split; [apply commit_ok|apply view_commit]. Qed.

Lemma get_bool_view (st : ST) k :
  get_bool st k = match view st !! k with Some (VBool b) => Some b | _ => None end.
Proof. apply view_reads. Qed.

(** Looks a key up in the values that were written. *)
Ltac look :=
  let st := fresh "st" in let Hst := fresh "Hst" in
  intros st Hst; unfold get_time; rewrite ?get_string_view, ?get_int_view, ?get_bool_view, Hst;
  rewrite ?lookup_delete_eq, ?lookup_insert_eq, ?lookup_empty; reflexivity.
Ltac test_step :=
  lazymatch goal with
  | |- goes_on _ Ret => apply test_goes_on_ret
  | |- goes_on _ (λ st, assert_eq _ _;; _) => apply goes_on_assert; [look|]
  | |- goes_on _ (λ st, assert_time _ _ _;; _) => apply goes_on_assert_time; [look|]
  | |- goes_on _ (λ st, st ← unwrap_write _; _) =>
    eapply goes_on_write;
      [first [apply write_string|apply write_int|apply write_bool|by eapply write_time|apply write_option
         |apply write_remove|apply write_commit]|]
  | |- goes_on _ (λ st, time_add _ _ ≫= _) => eapply goes_on_pure; [reflexivity|]
  end.

(** ** Properties *)

(** Every storage that keeps the contract of the trait, never fails and is empty passes each of
    the tests the crate has for its implementors. *)
Theorem storage_passes_tests (st : ST) test :
  view st = ∅ → test ∈ storage_tests → passes st test = true.
Proof.
  intros Hst Ht. assert (goes_on ∅ test) as Hgo; [|by unfold passes; destruct (Hgo st Hst) as [st' ->]].
  unfold storage_tests in Ht. rewrite !elem_of_cons in Ht.
  destruct Ht as [->|[->|[->|[->|[->|[->|[->|[]%not_elem_of_nil]]]]]]];
    cbv beta zeta delta
      [do_test_set_get_remove_string do_test_set_get_remove_int do_test_set_option_int
      do_test_set_get_remove_bool do_test_set_get_remove_time do_return_none_for_wrong_value_type
      do_ensure_no_error_remove_nonexistent_key]; repeat test_step.
Qed.
End passing.

Lemma storage_passes_tests_witness :
  do_test_set_get_remove_time ∈ storage_tests (ST := MemStorage) ∧
  passes mem_new do_test_set_get_remove_time = true.
Proof.
  assert (do_test_set_get_remove_time ∈ storage_tests (ST := MemStorage)) as Ht by set_solver.
  split; [exact Ht|]. exact (storage_passes_tests mem_new _ eq_refl Ht).
Defined.
