(* ===== verification/AppSet.v ===== *)
(** * The set of apps an updater looks after ([app_set.rs])

    The trait is the class [AppSet]; [iter_mut_apps] is what a loop over the mutable iterator does:
    it runs the body on every app.  [AppSetSpec] is what the callers rely on, and [VecAppSet]
    meets it. *)

From S2P Require Import Prelude Serde Version Protocol Storage Common UpdateCheck.
Open Scope Z_scope.

Class AppSet (AS : Type) := {
  get_apps : AS → list App;
  iter_mut_apps : (App → App) → AS → AS;
  get_system_app_id : AS → outcome string;
}.

(** A loop over the mutable iterator visits each app that [get_apps] shows once, in the same
    order, and does not change which app is the system app while the ids stay. *)
Class AppSetSpec (AS : Type) `{AppSet AS} : Prop := {
  get_apps_iter_mut f s : get_apps (iter_mut_apps f s) = f <$> get_apps s;
  get_system_app_id_iter_mut f s :
    (∀ a, app_id (f a) = app_id a) → get_system_app_id (iter_mut_apps f s) = get_system_app_id s;
}.

(** The body of the outer loop of [update_from_omaha]: the first response for the app counts. *)
Fixpoint app_update_from_omaha (app_responses : list AppResponse) (app : App) : App :=
  match app_responses with
  | [] => app
  | app_response :: rest =>
    if decide (app_id app = response_app_id app_response) then
      set_app_user_counting (response_user_counting app_response)
        (set_app_cohort (cohort_update_from_omaha (app_cohort app) (response_cohort app_response)) app)
    else app_update_from_omaha rest app
  end.

Section app_set_ext.
Context {AS : Type} `{AppSet AS}.

(** [AppSetExt]. *)
Definition all_valid (self : AS) : bool := forallb app_valid (get_apps self).
Definition update_from_omaha (app_responses : list AppResponse) (self : AS) : AS :=
  iter_mut_apps (app_update_from_omaha app_responses) self.

Context {ST : Type} `{Storage ST} `{SerdeJson}.
Definition app_set_load (storage : ST) (self : AS) : AS := iter_mut_apps (app_load storage) self.
Definition app_set_persist (self : AS) (storage : ST) : ST :=
  foldl (λ storage app, app_persist app storage) storage (get_apps self).
End app_set_ext.

(** ** [VecAppSet] *)

Record VecAppSet : Type := mkVecAppSet { vec_apps : list App }.

(** [VecAppSet::new]. *)
Definition vec_app_set_new (apps : list App) : outcome VecAppSet :=
  match apps with
  | [] => Panic "assertion failed: !apps.is_empty()"
  | _ => Ret (mkVecAppSet apps)
  end.

#[export] Instance vec_app_set : AppSet VecAppSet := {|
  get_apps := vec_apps;
  iter_mut_apps f s := mkVecAppSet (f <$> vec_apps s);
  get_system_app_id s :=
    match vec_apps s with
    | app :: _ => Ret (app_id app)
    | [] => Panic "index out of bounds"
    end;
|}.

#[export] Instance vec_app_set_spec : AppSetSpec VecAppSet.
Proof. split; [done|]. intros f [[|a l]] Hf; [done|]. cbn. by rewrite Hf. Qed.

(** ** Lemmas *)

Lemma app_update_from_omaha_id rs a : app_id (app_update_from_omaha rs a) = app_id a.
Proof. induction rs as [|r rs IH]; [done|]. cbn. by case_decide. Qed.
Lemma app_load_id {ST} `{Storage ST} `{SerdeJson} (st : ST) a :
  app_id (app_load st a) = app_id a.
Proof.
  unfold app_load. destruct (get_string st (app_id a)) as [j|]; [|done].
  destruct (from_str j); [|done]. by case_decide.
Qed.
Lemma app_load_version {ST} `{Storage ST} `{SerdeJson} (st : ST) a :
  app_version (app_load st a) = app_version a.
Proof.
  unfold app_load. destruct (get_string st (app_id a)) as [j|]; [|done].
  destruct (from_str j); [|done]. by case_decide.
Qed.
#[export] Hint Rewrite app_update_from_omaha_id @app_load_id @app_load_version : omaha_simpl.

Section persist.
Context {ST : Type} `{Storage ST} {spec : StorageSpec ST} `{!StorageInfallible ST}.
Context `{SerdeJsonLaws}.

(** The text an app is persisted as. *)
Lemma persisted_text a : ∃ json, json_to_string (persisted_app_json (persisted_from_app a)) = Ok json.
Proof.
  pose proof (json_to_string_ok (persisted_app_json (persisted_from_app a))) as Hok.
  destruct (json_to_string _) as [s|]; [by eexists|done].
Qed.

Lemma get_string_app_persist a (st : ST) k json :
  json_to_string (persisted_app_json (persisted_from_app a)) = Ok json →
  get_string (app_persist a st) k = if decide (app_id a = k) then Some json else get_string st k.
Proof.
  intros Hj. unfold app_persist. rewrite Hj, !get_string_view, view_set_string by apply set_string_ok.
  case_decide; [subst; by rewrite lookup_insert_eq|by rewrite lookup_insert_ne].
Qed.

(** Persisting a list of apps leaves each id with the text of the last app that has it, here with
    distinct ids. *)
Lemma get_string_persist_all apps (st : ST) a json :
  NoDup (app_id <$> apps) → a ∈ apps →
  json_to_string (persisted_app_json (persisted_from_app a)) = Ok json →
  get_string (foldl (λ st app, app_persist app st) st apps) (app_id a) = Some json.
Proof.
  induction apps as [|b apps IH] using rev_ind; [by intros _ ?%not_elem_of_nil|].
  rewrite foldl_snoc, fmap_app, NoDup_app. intros (Hnd & Hfresh & _) Hin Hj.
  destruct (persisted_text b) as [j Hb].
  rewrite (get_string_app_persist _ _ _ j) by done. apply elem_of_app in Hin as [Hin|Hin].
  - rewrite decide_False; [by apply IH|].
    intros Heq. apply (Hfresh (app_id a)); [by apply list_elem_of_fmap_2|]. cbn. set_solver.
  - apply list_elem_of_singleton in Hin as ->. rewrite decide_True by done. congruence.
Qed.

Lemma app_load_persist_all apps (st : ST) a :
  NoDup (app_id <$> apps) → a ∈ apps → app_typed a →
  app_load (foldl (λ st app, app_persist app st) st apps) (app_fresh a) = a.
Proof.
  intros Hnd Ha Ht. destruct (persisted_text a) as [j Hj].
  unfold app_load. cbn [app_id app_fresh]. rewrite (get_string_persist_all _ _ _ j) by done.
  rewrite (persisted_app_reads _ _ Ht Hj). cbn. by destruct a as [? ? ? [] ? ?].
Qed.
End persist.

(** ** Properties *)

(** Updating an app set from the server's answers changes the cohort and the user counting of
    the apps that were answered, from the first answer for each; the other apps, and every app's
    id, version and other data, stay, and the same app is the system app. *)
Theorem update_from_omaha_spec {AS} `{AppSetSpec AS} rs (s : AS) :
  get_system_app_id (update_from_omaha rs s) = get_system_app_id s ∧
  get_apps (update_from_omaha rs s) =
    (λ a, match find_first (λ r, bool_decide (app_id a = response_app_id r)) rs with
          | Some r => mkApp (app_id a) (app_version a) (app_fingerprint a)
              (cohort_update_from_omaha (app_cohort a) (response_cohort r))
              (response_user_counting r) (app_extra_fields a)
          | None => a
          end) <$> get_apps s.
Proof.
  unfold update_from_omaha. split.
  - apply get_system_app_id_iter_mut, app_update_from_omaha_id.
  - rewrite get_apps_iter_mut. apply list_fmap_ext. intros _ a _. clear.
    induction rs as [|r rs IH]; [done|]. cbn. case_decide.
    + by rewrite bool_decide_true.
    + by rewrite bool_decide_false.
Qed.

(** C36: an app set that was persisted comes back whole: apps created afresh with the same distinct
    ids, versions and other data load the cohorts and user countings that were stored, each its
    own, and are the old apps again. *)
Theorem app_set_persist_load {AS} `{AppSetSpec AS} {ST} `{Storage ST, !StorageSpec ST, !StorageInfallible ST}
    `{SerdeJsonLaws} (old new : AS) (st : ST) :
  NoDup (app_id <$> get_apps old) → Forall app_typed (get_apps old) →
  get_apps new = app_fresh <$> get_apps old →
  get_apps (app_set_load (app_set_persist old st) new) = get_apps old.
Proof.
  intros Hnd Hok Hnew. unfold app_set_load. rewrite get_apps_iter_mut, Hnew, <-list_fmap_compose.
  rewrite <-(list_fmap_id (get_apps old)) at 2. apply list_fmap_ext. intros i a Hi%list_elem_of_lookup_2.
  apply app_load_persist_all; [done..|]. by eapply Forall_forall in Hok.
Qed.

#[local] Existing Instance example_serde.
#[local] Existing Instance example_serde_laws.

Lemma app_set_persist_load_witness :
  let a := set_app_cohort (cohort_new "1:2:3") (app_new "system" (version_from [1])) in
  let b := set_app_user_counting (ClientRegulatedByDate (Some 5000)) (app_new "package" (version_from [2])) in
  vec_apps (app_set_load (app_set_persist (mkVecAppSet [a; b]) mem_new)
    (mkVecAppSet [app_new "system" (version_from [1]); app_new "package" (version_from [2])])) = [a; b].
Proof.
  cbn zeta. set (a := set_app_cohort _ _). set (b := set_app_user_counting _ _).
  pose proof (app_set_persist_load (mkVecAppSet [a; b]) (mkVecAppSet
    [app_new "system" (version_from [1]); app_new "package" (version_from [2])]) mem_new) as Hp.
  apply Hp.
  - by apply (bool_decide_unpack _).
  - by apply (bool_decide_unpack _).
  - done.
Defined.

Lemma update_from_omaha_spec_witness :
  let a := app_new "system" (version_from [1]) in
  let b := app_new "package" (version_from [2]) in
  let r := mkAppResponse "package" (cohort_new "1:2:3") (ClientRegulatedByDate (Some 5000)) ActionNoUpdate in
  get_apps (update_from_omaha [r] (mkVecAppSet [a; b])) =
    [a; set_app_user_counting (ClientRegulatedByDate (Some 5000)) (set_app_cohort (cohort_new "1:2:3") b)].
Proof.
  cbn zeta. etrans; [apply (update_from_omaha_spec (AS := VecAppSet))|]. reflexivity.
Defined.
