(* ===== verification/UriExt.v ===== *)
(** * Changing a URI ([http_uri_ext.rs])

    The [http] crate's [Uri], its [Parts] and its [PathAndQuery] are the class [UriCrate];
    [UriLaws] is what its documentation says of them: a path and query text is split at its first
    [?], and a URI made from parts has these parts. *)

From S2P Require Import Prelude.
Open Scope Z_scope.

(** [http::uri::Parts]. *)
Record Parts (S A P : Type) : Type := mkParts {
  scheme : option S;
  authority : option A;
  path_and_query : option P;
}.
Arguments mkParts {S A P} scheme authority path_and_query.
Arguments scheme {S A P} p.
Arguments authority {S A P} p.
Arguments path_and_query {S A P} p.

Class UriCrate := {
  Uri : Type;
  Scheme : Type;
  Authority : Type;
  PathAndQuery : Type;
  InvalidUri : Type;
  InvalidUriParts : Type;
  uri_parse : string → result Uri InvalidUri;
  uri_to_string : Uri → string;
  into_parts : Uri → Parts Scheme Authority PathAndQuery;
  from_parts : Parts Scheme Authority PathAndQuery → result Uri InvalidUriParts;
  pq_path : PathAndQuery → string;
  pq_query : PathAndQuery → option string;
  pq_parse : string → result PathAndQuery InvalidUri;
}.

Class UriLaws `{UriCrate} : Prop := {
  pq_path_clean pq : str_in "?" (pq_path pq) = false ∧ str_in "#" (pq_path pq) = false;
  pq_query_clean pq q : pq_query pq = Some q → str_in "#" q = false;
  pq_parse_query t pq p q : pq_parse t = Ok pq → str_in "#" t = false →
    split_once "?" t = Some (p, q) → p ≠ EmptyString → pq_path pq = p ∧ pq_query pq = Some q;
  pq_parse_path t pq : pq_parse t = Ok pq → str_in "#" t = false →
    split_once "?" t = None → t ≠ EmptyString → pq_path pq = t ∧ pq_query pq = None;
  parts_from_parts s a t pq u : pq_parse t = Ok pq → t ≠ EmptyString →
    from_parts (mkParts s a (Some pq)) = Ok u → into_parts u = mkParts s a (Some pq);
}.

(** The text of a URI, made from the scheme and authority of one that was read and a path from the
    root, reads back. *)
Class UriTextLaws `{UriCrate} : Prop :=
  uri_reread t v p pq u :
    uri_parse t = Ok v → pq_parse (String "/" p) = Ok pq →
    from_parts (mkParts (scheme (into_parts v)) (authority (into_parts v)) (Some pq)) = Ok u →
    ∃ u', uri_parse (uri_to_string u) = Ok u' ∧ into_parts u' = into_parts u.

(** [http_uri_ext::Error]. *)
Inductive UriExtError `{UriCrate} : Type :=
| UriExtInvalidUri (e : InvalidUri)
| UriExtInvalidUriParts (e : InvalidUriParts).

Section uri_ext.
Context `{UriCrate}.

(** Both methods end this way: the new text is parsed and put in place of the old one. *)
Definition with_path_and_query (base_parts : Parts Scheme Authority PathAndQuery)
    (new_path_and_query : string) : result Uri UriExtError :=
  let? pq := map_err UriExtInvalidUri (pq_parse new_path_and_query) in
  map_err UriExtInvalidUriParts
    (from_parts (mkParts (scheme base_parts) (authority base_parts) (Some pq))).

(** [extend_dir_with_path]. *)
Definition extend_dir_with_path (self : Uri) (path : string) : result Uri UriExtError :=
  if decide (path = EmptyString) then Ok self
  else
    let base_parts := into_parts self in
    let '(base_path, query) :=
      match path_and_query base_parts with
      | Some pq => (if decide (pq_path pq = EmptyString) then "/"%string else pq_path pq, pq_query pq)
      | None => ("/"%string, None)
      end in
    let new_path_and_query :=
      if opt_is_some (strip_last "/" base_path) then
        match query with
        | Some query => base_path +:+ path +:+ "?" +:+ query
        | None => base_path +:+ path
        end
      else
        match query with
        | Some query => base_path +:+ "/" +:+ path +:+ "?" +:+ query
        | None => base_path +:+ "/" +:+ path
        end in
    with_path_and_query base_parts new_path_and_query.

(** [append_query_parameter]. *)
Definition append_query_parameter (self : Uri) (key value : string) : result Uri UriExtError :=
  let base_parts := into_parts self in
  let new_path_and_query :=
    match path_and_query base_parts with
    | Some pq =>
      let path := if decide (pq_path pq = EmptyString) then "/"%string else pq_path pq in
      match pq_query pq with
      | Some query => path +:+ "?" +:+ query +:+ "&" +:+ key +:+ "=" +:+ value
      | None => path +:+ "?" +:+ key +:+ "=" +:+ value
      end
    | None => "/?" +:+ key +:+ "=" +:+ value
    end in
  with_path_and_query base_parts new_path_and_query.

(** The path and the query of a URI, an empty path standing for the root. *)
Definition uri_path (u : Uri) : string :=
  match path_and_query (into_parts u) with
  | Some pq => if decide (pq_path pq = EmptyString) then "/"%string else pq_path pq
  | None => "/"%string
  end.
Definition uri_query (u : Uri) : option string := path_and_query (into_parts u) ≫= pq_query.
End uri_ext.

(** ** A URI crate for the examples: [scheme://authority/path?query] *)

Definition example_pq_clean (pq : string * option string) : Prop :=
  str_in "?" pq.1 = false ∧ str_in "#" pq.1 = false ∧
  str_in "#" (unwrap_or pq.2 EmptyString) = false.
Definition ExamplePQ : Type := dsig example_pq_clean.
Definition example_pq_split (t : string) : string * option string :=
  match split_once "?" t with Some (p, q) => (p, Some q) | None => (t, None) end.
Definition example_pq_parse (t : string) : result ExamplePQ unit :=
  match decide (example_pq_clean (example_pq_split t)) with
  | left Hc => Ok (dexist _ Hc)
  | right _ => Err tt
  end.
Definition example_uri_parse (s : string) : result (Parts string string ExamplePQ) unit :=
  match split_once ":" s with
  | Some (sch, String "/" (String "/" rest)) =>
    let '(auth, path) :=
      match split_once "/" rest with Some (a, p) => (a, p) | None => (rest, EmptyString) end in
    let? pq := example_pq_parse (String "/" path) in Ok (mkParts (Some sch) (Some auth) (Some pq))
  | _ => Err tt
  end.
Definition example_uri_to_string (u : Parts string string ExamplePQ) : string :=
  match scheme u with Some s => s +:+ "://" | None => EmptyString end +:+
  unwrap_or (authority u) EmptyString +:+
  match path_and_query u with
  | Some pq => (`pq).1 +:+ match (`pq).2 with Some q => "?" +:+ q | None => EmptyString end
  | None => EmptyString
  end.
Definition example_uri : UriCrate := {|
  Uri := Parts string string ExamplePQ;
  uri_parse := example_uri_parse;
  uri_to_string := example_uri_to_string;
  into_parts u := u;
  from_parts p := Ok (E := unit) p;
  pq_path pq := (`pq).1;
  pq_query pq := (`pq).2;
  pq_parse := example_pq_parse;
|}.
Definition example_url : @Uri example_uri :=
  unwrap_or (res_ok (example_uri_parse "http://example.com/dir?a=b")) (mkParts None None None).

Lemma example_uri_laws : @UriLaws example_uri.
Proof.
  split; cbn.
  - intros pq. destruct (proj2_dsig pq) as (? & ? & ?). done.
  - intros pq q Hq. destruct (proj2_dsig pq) as (_ & _ & Hc). by rewrite Hq in Hc.
  - intros t pq p q Ht _ Hs _. unfold example_pq_parse in Ht. case_decide as E; [|done].
    injection Ht as <-. cbn. unfold example_pq_split. by rewrite Hs.
  - intros t pq Ht _ Hs _. unfold example_pq_parse in Ht. case_decide as E; [|done].
    injection Ht as <-. cbn. unfold example_pq_split. by rewrite Hs.
  - by intros s a t pq u _ _ [= <-].
Qed.

Lemma example_uri_parse_parts t v :
  example_uri_parse t = Ok v →
  ∃ s a, scheme v = Some s ∧ authority v = Some a ∧ str_in ":" s = false ∧ str_in "/" a = false.
Proof.
  unfold example_uri_parse. destruct (split_once ":" t) as [[s rest]|] eqn:Hs; [|done].
  apply split_once_Some in Hs as [_ Hs].
  assert (∀ r, (let '(auth, path) :=
      match split_once "/" r with Some (a, p) => (a, p) | None => (r, EmptyString) end in
    let? pq := example_pq_parse (String "/" path) in Ok (mkParts (Some s) (Some auth) (Some pq))) = Ok v →
    ∃ s a, scheme v = Some s ∧ authority v = Some a ∧ str_in ":" s = false ∧ str_in "/" a = false) as Hr.
  { intros r. destruct (split_once "/" r) as [[a p]|] eqn:Ha;
      [apply split_once_Some in Ha as [_ Ha]|apply split_once_none in Ha];
      (destruct (example_pq_parse _); [|done]); intros [= <-]; eauto 10. }
  repeat case_match; simplify_eq; try done;
    match goal with Hr' : split_once "/" ?r = _ |- _ => intros Hv; apply (Hr r); by rewrite Hr' end.
Qed.
Lemma example_uri_text_laws : @UriTextLaws example_uri.
Proof.
  intros t v p pq u Hv Hpq Hu. cbn in *. injection Hu as <-.
  destruct (example_uri_parse_parts t v Hv) as (s & a & -> & -> & Hs & Ha).
  exists (mkParts (Some s) (Some a) (Some pq)). split; [|done].
  assert ((`pq).1 +:+ match (`pq).2 with Some q => "?" +:+ q | None => EmptyString end = String "/" p) as Htext.
  { unfold example_pq_parse in Hpq. case_decide; [|done]. injection Hpq as <-.
    cbn [proj1_sig dexist]. unfold example_pq_split.
    destruct (split_once "?" (String "/" p)) as [[p' q]|] eqn:Hq; cbn.
    - by apply split_once_Some in Hq as [-> _].
    - by rewrite str_app_nil_r. }
  unfold example_uri_to_string. cbn [scheme authority path_and_query unwrap_or]. rewrite Htext.
  unfold example_uri_parse. rewrite str_app_assoc.
  change (s +:+ "://" +:+ ?r) with (s +:+ String ":" ("//" +:+ r)).
  rewrite split_once_app by done.
  change ("//" +:+ ?r) with (String "/" (String "/" r)). cbv beta iota.
  by rewrite split_once_app, Hpq.
Qed.

(** ** Lemmas *)

Section lemmas.
Context `{UriLaws}.

Lemma uri_path_clean u : str_in "?" (uri_path u) = false ∧ str_in "#" (uri_path u) = false.
Proof.
  unfold uri_path. destruct (path_and_query _) as [pq|]; [|done].
  case_decide; [done|]. apply pq_path_clean.
Qed.
Lemma uri_path_nonempty u : uri_path u ≠ EmptyString.
Proof. unfold uri_path. destruct (path_and_query _); [|done]. by case_decide. Qed.
Lemma uri_query_clean u q : uri_query u = Some q → str_in "#" q = false.
Proof. unfold uri_query. destruct (path_and_query _); [|done]. apply pq_query_clean. Qed.

(** What the two methods leave in place, and what the new path and query are. *)
Lemma with_path_and_query_query base p q u :
  with_path_and_query base (p +:+ "?" +:+ q) = Ok u →
  str_in "?" p = false → str_in "#" p = false → str_in "#" q = false → p ≠ EmptyString →
  scheme (into_parts u) = scheme base ∧ authority (into_parts u) = authority base ∧
  uri_path u = p ∧ uri_query u = Some q.
Proof.
  intros Hu Hp Hp' Hq Hne. unfold with_path_and_query in Hu.
  destruct (pq_parse (p +:+ "?" +:+ q)) as [pq|] eqn:Hpq; [|done]. cbn in Hu.
  destruct (from_parts _) as [u'|] eqn:Hfrom; [|done]. injection Hu as <-.
  apply (parts_from_parts _ _ (p +:+ "?" +:+ q)) in Hfrom; [|done|by destruct p].
  destruct (pq_parse_query _ pq p q Hpq) as [Hp1 Hq1]; [|by apply split_once_app|done|].
  - rewrite !str_in_app, Hp', Hq. done.
  - unfold uri_path, uri_query. rewrite Hfrom. cbn. rewrite Hp1, Hq1. by rewrite decide_False.
Qed.

Lemma with_path_and_query_path base p u :
  with_path_and_query base p = Ok u →
  str_in "?" p = false → str_in "#" p = false → p ≠ EmptyString →
  scheme (into_parts u) = scheme base ∧ authority (into_parts u) = authority base ∧
  uri_path u = p ∧ uri_query u = None.
Proof.
  intros Hu Hp Hp' Hne. unfold with_path_and_query in Hu.
  destruct (pq_parse p) as [pq|] eqn:Hpq; [|done]. cbn in Hu.
  destruct (from_parts _) as [u'|] eqn:Hfrom; [|done]. injection Hu as <-.
  apply (parts_from_parts _ _ p) in Hfrom; [|done..].
  destruct (pq_parse_path _ pq Hpq) as [Hp1 Hq1]; [done|by apply split_once_none|done|].
  unfold uri_path, uri_query. rewrite Hfrom. cbn. rewrite Hp1, Hq1. by rewrite decide_False.
Qed.

(** A URI with a query parameter appended reads back from its text. *)
Lemma append_reread `{!UriTextLaws} t v path key value u :
  uri_parse t = Ok v → uri_path v = String "/" path → append_query_parameter v key value = Ok u →
  ∃ u', uri_parse (uri_to_string u) = Ok u' ∧ uri_path u' = uri_path u ∧ uri_query u' = uri_query u.
Proof.
  intros Hv Hpath Hu. unfold append_query_parameter, with_path_and_query in Hu.
  set (text := match path_and_query (into_parts v) with Some _ => _ | None => _ end) in Hu.
  assert (∃ p, text = String "/" p) as [p Hp].
  { subst text. unfold uri_path in Hpath. destruct (path_and_query (into_parts v)) as [pq|]; [|by eexists].
    rewrite Hpath. destruct (pq_query pq); by eexists. }
  rewrite Hp in Hu. destruct (pq_parse (String "/" p)) as [pq|] eqn:Hpq; [|done]. cbn in Hu.
  destruct (from_parts _) as [w|] eqn:Hfrom; [|done]. injection Hu as <-.
  destruct (uri_reread t v p pq w Hv Hpq Hfrom) as (u' & Hu' & Hparts).
  exists u'. unfold uri_path, uri_query. by rewrite Hparts.
Qed.
End lemmas.

(** ** Properties *)

(** Appending a query parameter without a fragment mark gives a URI with the same scheme and
    authority, the same path (an empty one becomes the root), and the old query followed by the
    parameter. *)
Theorem append_query_parameter_spec `{UriLaws} u key value u' :
  append_query_parameter u key value = Ok u' →
  str_in "#" key = false → str_in "#" value = false →
  scheme (into_parts u') = scheme (into_parts u) ∧
  authority (into_parts u') = authority (into_parts u) ∧
  uri_path u' = uri_path u ∧
  uri_query u' = Some (match uri_query u with
    | Some q => q +:+ "&" +:+ key +:+ "=" +:+ value
    | None => key +:+ "=" +:+ value
    end).
Proof.
  intros Hu Hk Hv. destruct (uri_path_clean u) as [Hp Hp']. pose proof (uri_path_nonempty u) as Hne.
  assert (with_path_and_query (into_parts u) (uri_path u +:+ "?" +:+ match uri_query u with
    | Some q => q +:+ "&" +:+ key +:+ "=" +:+ value
    | None => key +:+ "=" +:+ value
    end) = Ok u') as Hw.
  { rewrite <-Hu. unfold append_query_parameter, uri_path, uri_query. f_equal.
    destruct (path_and_query (into_parts u)) as [pq|]; [|done]. cbn. by destruct (pq_query pq). }
  apply with_path_and_query_query in Hw; [done|done|done| |done].
  destruct (uri_query u) as [q|] eqn:Hq; rewrite !str_in_app, Hk, Hv; [|done].
  by rewrite (uri_query_clean u q).
Qed.

(** Extending the directory path of a URI with a path that has no query and no fragment mark
    gives a URI with the same scheme, authority and query, whose path is the old one (with one
    [/] at its end) followed by the new; an empty path changes nothing. *)
Theorem extend_dir_with_path_spec `{UriLaws} u path u' :
  extend_dir_with_path u path = Ok u' →
  str_in "?" path = false → str_in "#" path = false →
  scheme (into_parts u') = scheme (into_parts u) ∧
  authority (into_parts u') = authority (into_parts u) ∧
  uri_query u' = uri_query u ∧
  uri_path u' =
    (if decide (path = EmptyString) then uri_path u
     else match strip_last "/" (uri_path u) with
          | Some dir => dir +:+ "/" +:+ path
          | None => uri_path u +:+ "/" +:+ path
          end).
Proof.
  intros Hu Hk Hk'. destruct (uri_path_clean u) as [Hp Hp']. pose proof (uri_path_nonempty u) as Hne.
  pose proof (uri_query_clean u) as Hq. unfold extend_dir_with_path in Hu.
  case_decide as Hpath; [by injection Hu as <-|].
  assert (match path_and_query (into_parts u) with
          | Some pq => (if decide (pq_path pq = EmptyString) then "/"%string else pq_path pq, pq_query pq)
          | None => ("/"%string, None)
          end = (uri_path u, uri_query u)) as Heq.
  { unfold uri_path, uri_query. by destruct (path_and_query _). }
  rewrite Heq in Hu. cbn zeta iota in Hu.
  set (dir := match strip_last "/" (uri_path u) with
              | Some dir => dir +:+ "/" +:+ path
              | None => uri_path u +:+ "/" +:+ path
              end).
  assert (str_in "?" dir = false ∧ str_in "#" dir = false ∧ dir ≠ EmptyString) as (Hd & Hd' & Hdne).
  { unfold dir. destruct (strip_last "/" (uri_path u)) as [i|] eqn:Hi.
    - apply strip_last_Some in Hi. rewrite Hi, str_in_app in Hp, Hp'.
      apply orb_false_iff in Hp as [Hp _], Hp' as [Hp' _].
      rewrite !str_in_app, Hp, Hp', Hk, Hk'. by destruct i.
    - rewrite !str_in_app, Hp, Hp', Hk, Hk'. by destruct (uri_path u). }
  assert (with_path_and_query (into_parts u)
    (match uri_query u with Some q => dir +:+ "?" +:+ q | None => dir end) = Ok u') as Hw.
  { rewrite <-Hu. f_equal. unfold dir. destruct (strip_last "/" (uri_path u)) as [i|] eqn:Hi; cbn.
    - apply strip_last_Some in Hi. rewrite Hi. destruct (uri_query u); by rewrite ?str_app_assoc.
    - destruct (uri_query u); by rewrite ?str_app_assoc. }
  destruct (uri_query u) as [q|] eqn:Hquery.
  - apply with_path_and_query_query in Hw; [naive_solver|done..|by apply Hq|done].
  - apply with_path_and_query_path in Hw; [naive_solver|done..].
Qed.

#[local] Existing Instance example_uri.
#[local] Existing Instance example_uri_laws.

Lemma append_query_parameter_spec_witness :
  ∃ u', append_query_parameter example_url "cup2key" "7:00ff" = Ok u' ∧
    uri_query u' = Some "a=b&cup2key=7:00ff"%string.
Proof.
  destruct (append_query_parameter example_url "cup2key" "7:00ff") as [u'|] eqn:E;
    [|apply (f_equal is_ok) in E; vm_compute in E; discriminate E].
  exists u'. split; [done|].
  destruct (append_query_parameter_spec _ _ _ _ E) as (_ & _ & _ & ->); reflexivity.
Defined.

Lemma extend_dir_with_path_spec_witness :
  ∃ u', extend_dir_with_path example_url "blob" = Ok u' ∧ uri_path u' = "/dir/blob"%string.
Proof.
  destruct (extend_dir_with_path example_url "blob") as [u'|] eqn:E;
    [|apply (f_equal is_ok) in E; vm_compute in E; discriminate E].
  exists u'. split; [done|].
  destruct (extend_dir_with_path_spec _ _ _ E) as (_ & _ & _ & ->); reflexivity.
Defined.
