(* ===== verification/Http.v ===== *)
(** * HTTP requests ([http_request.rs], [http_request/mock.rs])

    The message types come from the [http] crate; [HttpCrate] holds what the code uses of them.
    The trait [HttpRequest] is the class [HttpTransport], with the state of the client threaded
    through.  The mock answers from a queue, and asserts what its last request was. *)

From S2P Require Import Prelude.
Open Scope Z_scope.

(** [http::Request<Body>], [http::Response<Vec<u8>>] and their accessors; [hyper::Error]. *)
Class HttpCrate := {
  HttpReq : Type;
  HttpResp : Type;
  http_error : Type;
  HeaderValue : Type;
  ToStrError : Type;
  StatusCode : Type;
  request_post : string → list (string * string) → bytes → result HttpReq http_error;
  headers_get : HttpResp → string → option HeaderValue;
  header_to_str : HeaderValue → result string ToStrError;
  resp_status : HttpResp → StatusCode;
  is_success : StatusCode → bool;
  resp_body : HttpResp → bytes;
  response_500 : HttpResp;
  response_empty : HttpResp;
  hyper_error : Type;
  hyper_is_user : hyper_error → bool;
  ErrorSource : Type;
  boxed_hyper_error : hyper_error → ErrorSource;
}.

(** [ErrorKind]. *)
Inductive ErrorKind : Type := User | Transport | Timeout.
#[export] Instance ErrorKind_eq_dec : EqDecision ErrorKind.
Proof. solve_decision. Defined.

(** [http_request::Error]. *)
Record HttpRequestError `{HttpCrate} : Type := mkHttpRequestError {
  kind : ErrorKind;
  error_source : option ErrorSource;
}.

Section error.
Context `{HttpCrate}.

Definition new_timeout : HttpRequestError := mkHttpRequestError _ Timeout None.
Definition is_user (self : HttpRequestError) : bool := bool_decide (kind self = User).
Definition is_timeout (self : HttpRequestError) : bool := bool_decide (kind self = Timeout).
Definition new_transport (error : ErrorSource) : HttpRequestError :=
  mkHttpRequestError _ Transport (Some error).
(** [impl From<hyper::Error> for Error]. *)
Definition http_request_error_from (error : hyper_error) : HttpRequestError :=
  mkHttpRequestError _ (if hyper_is_user error then User else Transport)
    (Some (boxed_hyper_error error)).
(** [mock_errors]. *)
Definition make_user_error : HttpRequestError := mkHttpRequestError _ User None.
Definition make_transport_error : HttpRequestError := mkHttpRequestError _ Transport None.
End error.

(** ** Bodies

    [http_body::Body], collected to its end, and the types of the [http] crates that have or are a
    body. *)

Class HttpBody (B : Type) := {
  body_error : Type;
  body_collect : B → result bytes body_error;
}.
Class HttpBodies := {
  Full : Type;
  full_new : bytes → Full;
  EmptyBody : Type;
  Incoming : Type;
  full_body :: HttpBody Full;
  empty_http_body :: HttpBody EmptyBody;
  incoming_body :: HttpBody Incoming;
  RequestOf : Type → Type;
  ResponseOf : Type → Type;
  request_into_body : ∀ B, RequestOf B → B;
  response_into_body : ∀ B, ResponseOf B → B;
}.

Section bodies.
Context `{HttpBodies}.

(** [Body], [empty_body] ([Body::default()]), [body_from]. *)
Definition Body : Type := Full.
Definition empty_body : Body := full_new [].
Definition body_from {T} (into_bytes : T → bytes) (data : T) : Body := full_new (into_bytes data).

(** The trait [IntoBody] and its implementations. *)
Class IntoBody (I B : Type) := into_body : I → B.
#[export] Instance request_has_body B : IntoBody (RequestOf B) B := request_into_body B.
#[export] Instance response_has_body B : IntoBody (ResponseOf B) B := response_into_body B.
#[export] Instance full_is_body : IntoBody Full Full := λ self, self.
#[export] Instance empty_is_body : IntoBody EmptyBody EmptyBody := λ self, self.
#[export] Instance incoming_is_body : IntoBody Incoming Incoming := λ self, self.

(** [to_bytes]. *)
Definition to_bytes {I B} `{IntoBody I B, HttpBody B} (item : I) : result bytes body_error :=
  body_collect (into_body item).
End bodies.

(** [HttpRequest::request]. *)
Class HttpTransport `{HttpCrate} (HR : Type) :=
  http_request : HttpReq → HR → result HttpResp HttpRequestError * HR.

(** ** Messages for the examples *)

Record ExampleReq : Type := mkExampleReq {
  req_uri : string;
  req_headers : list (string * string);
  req_body : bytes;
}.
Record ExampleResp : Type := mkExampleResp {
  status_code : Z;
  resp_headers : list (string * string);
  body : bytes;
}.
Definition example_http : HttpCrate := {|
  HttpReq := ExampleReq;
  HttpResp := ExampleResp;
  HeaderValue := string;
  ToStrError := unit;
  StatusCode := Z;
  request_post u h b := Ok (E := unit) (mkExampleReq u h b);
  headers_get r name := snd <$> find_first (λ kv, bool_decide (kv.1 = name)) (resp_headers r);
  header_to_str v := Ok v;
  resp_status := status_code;
  is_success s := bool_decide (200 ≤ s < 300);
  resp_body := body;
  response_500 := mkExampleResp 500 [] [];
  response_empty := mkExampleResp 200 [] [];
  hyper_is_user (e : unit) := false;
  boxed_hyper_error (e : unit) := e;
|}.

(** ** [http_request/mock.rs]: a client that answers from a queue and records the requests *)

Section mock.
Context `{HttpCrate}.

(** [StubHttpRequest] answers every request with [Response::default()]. *)
Inductive StubHttpRequest : Type := mkStubHttpRequest.
#[export] Instance stub_http_request : HttpTransport StubHttpRequest := λ _ self,
  (Ok response_empty, self).

(** The cell of requests is shared with the test that holds the client; here it is part of the
    client's state. *)
Record MockHttpRequest : Type := mkMockHttpRequest {
  mock_requests : list HttpReq;
  mock_responses : list (result HttpResp HttpRequestError);
}.

Definition mock_http_new (res : HttpResp) : MockHttpRequest := mkMockHttpRequest [] [Ok res].
Definition mock_http_empty : MockHttpRequest := mkMockHttpRequest [] [].
(** [from_request_cell], [get_request_cell]: the cell by its contents. *)
Definition mock_from_request_cell (request : list HttpReq) : MockHttpRequest :=
  mkMockHttpRequest request [].
Definition mock_get_request_cell (self : MockHttpRequest) : list HttpReq := mock_requests self.
Definition mock_add_response (res : HttpResp) (self : MockHttpRequest) : MockHttpRequest :=
  mkMockHttpRequest (mock_requests self) (mock_responses self ++ [Ok res]).
Definition mock_add_error (error : HttpRequestError) (self : MockHttpRequest) : MockHttpRequest :=
  mkMockHttpRequest (mock_requests self) (mock_responses self ++ [Err error]).

#[export] Instance mock_http_request : HttpTransport MockHttpRequest := λ req self,
  let requests := mock_requests self ++ [req] in
  match mock_responses self with
  | resp :: responses => (resp, mkMockHttpRequest requests responses)
  | [] => (Ok response_500, mkMockHttpRequest requests [])
  end.

(** What the assertions look at of a request; [from_utf8_lossy] is the standard library's. *)
Class RequestView := {
  Method : Type;
  Method_eq_dec :: EqDecision Method;
  request_method : HttpReq → Method;
  RequestUri : Type;
  RequestUri_eq_dec :: EqDecision RequestUri;
  parse_request_uri : string → option RequestUri;
  request_uri : HttpReq → RequestUri;
  request_header : HttpReq → string → option HeaderValue;
  header_eq_str : HeaderValue → string → bool;
  request_bytes : HttpReq → option bytes;
  from_utf8_lossy : bytes → string;
}.

Section assertions.
Context `{RequestView}.

Definition last_request (self : MockHttpRequest) : outcome HttpReq := unwrap (last (mock_requests self)).
Definition assert_method (method : Method) (self : MockHttpRequest) : outcome unit :=
  request ← last_request self;
  assert (bool_decide (method = request_method request)).
Definition assert_uri (uri : string) (self : MockHttpRequest) : outcome unit :=
  uri ← unwrap (parse_request_uri uri);
  request ← last_request self;
  assert (bool_decide (uri = request_uri request)).
Definition assert_header (key value : string) (self : MockHttpRequest) : outcome unit :=
  request ← last_request self;
  assert (opt_is_some (request_header request key));;
  header ← unwrap (request_header request key);
  assert (header_eq_str header value).

(** [take_request] takes the request off the record: the record is what is left. *)
Definition take_request (self : MockHttpRequest) : outcome (HttpReq * MockHttpRequest) :=
  request ← last_request self;
  Ret (request, mkMockHttpRequest (removelast (mock_requests self)) (mock_responses self)).
Definition assert_body (body : bytes) (self : MockHttpRequest) : outcome MockHttpRequest :=
  '(request, self) ← take_request self;
  bytes ← unwrap (request_bytes request);
  assert (bool_decide (body = bytes));;
  Ret self.
Definition assert_body_str (body : string) (self : MockHttpRequest) : outcome MockHttpRequest :=
  '(request, self) ← take_request self;
  bytes ← unwrap (request_bytes request);
  assert (bool_decide (body = from_utf8_lossy bytes));;
  Ret self.
End assertions.

(** A client that makes requests one after the other. *)
Fixpoint mock_run (reqs : list HttpReq) (self : MockHttpRequest)
    : list (result HttpResp HttpRequestError) * MockHttpRequest :=
  match reqs with
  | [] => ([], self)
  | req :: reqs =>
    let '(resp, self) := http_request req self in
    let '(resps, self) := mock_run reqs self in (resp :: resps, self)
  end.
End mock.

(** ** Lemmas *)

Section lemmas.
Context `{HttpCrate}.

Lemma is_user_from e : is_user (http_request_error_from e) = hyper_is_user e.
Proof. unfold is_user, http_request_error_from. cbn. by destruct (hyper_is_user e). Qed.
Lemma is_user_not_timeout e : is_user e = true → is_timeout e = false.
Proof. unfold is_user, is_timeout. destruct (kind e); by rewrite ?bool_decide_eq_true. Qed.

(** The mock answers with its queue, in order, and with a status 500 from its end on; it records
    every request, in order. *)
Theorem mock_answers_queue reqs (self : MockHttpRequest) :
  let '(resps, self') := mock_run reqs self in
  resps = imap (λ i _, default (Ok response_500) (mock_responses self !! i)) reqs ∧
  mock_requests self' = mock_requests self ++ reqs ∧
  mock_responses self' = drop (length reqs) (mock_responses self).
Proof.
  revert self. induction reqs as [|req reqs IH]; intros [rs ps]; cbn [mock_run].
  { by rewrite app_nil_r. }
  destruct (http_request req (mkMockHttpRequest rs ps)) as [resp self'] eqn:E. specialize (IH self').
  destruct (mock_run reqs self') as [resps self'']. destruct IH as (-> & -> & ->).
  destruct ps as [|p ps]; injection E as <- <-; cbn; rewrite <-app_assoc, ?drop_nil; split_and!; try done.
Qed.

(** Whatever was asked before, the assertions look at the last request, and the ones of the body
    take it off the record. *)
Theorem mock_asserts_last `{!RequestView} req reqs ps :
  let self := mkMockHttpRequest (reqs ++ [req]) ps in
  (∀ m, assert_method m self = assert (bool_decide (m = request_method req))) ∧
  (∀ k v, assert_header k v self =
     assert (match request_header req k with Some h => header_eq_str h v | None => false end)) ∧
  (∀ bytes, request_bytes req = Some bytes →
     assert_body bytes self = Ret (mkMockHttpRequest reqs ps) ∧
     assert_body_str (from_utf8_lossy bytes) self = Ret (mkMockHttpRequest reqs ps)).
Proof.
  unfold assert_method, assert_header, assert_body, assert_body_str, take_request, last_request.
  cbn. rewrite last_snoc, removelast_last. cbn. split_and!; [done| |].
  - intros k v. by destruct (request_header req k).
  - intros bytes ->. cbn. by rewrite !bool_decide_eq_true_2.
Qed.
End lemmas.
