(* ===== verification/Cup.v ===== *)
(** * The Client Update Protocol ([cup_ecdsa.rs])

    A request is decorated with a key id and a fresh nonce; the response must carry, in its
    [ETag], the hash of the request and a signature over request, response, key id and nonce.

    SHA-256, hexadecimal text and the P-256 signatures come from crates: the classes [Sha2Crate],
    [HexCrate] and [EcdsaCrate].  [HexLaws] is what the documentation of [hex] says. *)

From Stdlib Require Import Strings.String.
From S2P Require Import Prelude Serde UriExt Http.
Open Scope Z_scope.

Class Sha2Crate := sha256 : bytes → bytes.

Class HexCrate := {
  FromHexError : Type;
  hex_encode : bytes → string;
  hex_decode : string → result bytes FromHexError;
}.
(** A lower-case hexadecimal digit. *)
Definition is_hex_digit (c : ascii) : bool :=
  let n := nat_of_ascii c in ((48 <=? n) && (n <=? 57) || (97 <=? n) && (n <=? 102))%nat.
Class HexLaws `{HexCrate} : Prop := {
  hex_decode_encode b : hex_decode (hex_encode b) = Ok b;
  hex_encode_digits b : str_forall is_hex_digit (hex_encode b) = true;
}.

(** [p256::ecdsa]: [DerSignature] is a signature in its DER form, [Signature] the one the
    verification works on. *)
Class EcdsaCrate := {
  VerifyingKey : Type;
  DerSignature : Type;
  Signature : Type;
  ecdsa_error : Type;
  der_from_bytes : bytes → result DerSignature ecdsa_error;
  der_as_ref : DerSignature → bytes;
  signature_from_der : DerSignature → result Signature ecdsa_error;
  key_verify : VerifyingKey → bytes → Signature → result unit ecdsa_error;
}.

(** The signing half of [p256]. *)
Class EcdsaSign `{EcdsaCrate} := {
  SigningKey : Type;
  verifying_key : SigningKey → VerifyingKey;
  sign : SigningKey → bytes → Signature;
  to_der : Signature → DerSignature;
}.
Class EcdsaSignLaws `{EcdsaSign} : Prop := {
  verify_sign k m : key_verify (verifying_key k) m (sign k m) = Ok tt;
  signature_from_to_der s : signature_from_der (to_der s) = Ok s;
  der_bytes d : der_from_bytes (der_as_ref d) = Ok d;
}.

(** ** Errors *)

Inductive CupDecorationError `{UriCrate, SerdeJson} : Type :=
| SerializationError (e : serde_error)
| ParseError (e : InvalidUri)
| AppendQueryParameterError (e : UriExtError).

Inductive CupVerificationError `{HttpCrate, EcdsaCrate} : Type :=
| EtagHeaderMissing
| EtagNotString (e : ToStrError)
| EtagMalformed
| RequestHashMalformed
| RequestHashMismatch
| SignatureMalformed
| SpecifiedPublicKeyIdMissing
| SignatureError (e : ecdsa_error).

(** ** Keys, nonces and requests *)

Definition PublicKeyId : Type := Z.

Section data.
Context `{EcdsaCrate}.

Definition PublicKey : Type := VerifyingKey.
Record PublicKeyAndId : Type := mkPublicKeyAndId {
  key : PublicKey;
  key_id : PublicKeyId;
}.
Record PublicKeys : Type := mkPublicKeys {
  latest : PublicKeyAndId;
  historical : list PublicKeyAndId;
}.

(** [StandardCupv2Handler]. *)
Record StandardCupv2Handler : Type := mkStandardCupv2Handler {
  parameters_by_id : gmap PublicKeyId PublicKey;
  latest_public_key_id : PublicKeyId;
}.

(** [StandardCupv2Handler::new]: a later key of the chain replaces an earlier one with its id. *)
Definition standard_cupv2_handler_new (public_keys : PublicKeys) : StandardCupv2Handler :=
  mkStandardCupv2Handler
    (foldl (λ m k, <[key_id k := key k]> m) ∅ (latest public_keys :: historical public_keys))
    (key_id (latest public_keys)).
End data.

(** [Nonce]: its 32 bytes. *)
Record Nonce : Type := mkNonce { nonce_bytes : bytes }.
#[export] Instance Nonce_eq_dec : EqDecision Nonce.
Proof. solve_decision. Defined.
Definition nonce_display `{HexCrate} (n : Nonce) : string := hex_encode (nonce_bytes n).

Record RequestMetadata : Type := mkRequestMetadata {
  request_body : bytes;
  public_key_id : PublicKeyId;
  nonce : Nonce;
}.
#[export] Instance RequestMetadata_eq_dec : EqDecision RequestMetadata.
Proof. solve_decision. Defined.

(** The trait [CupRequest]. *)
Class CupRequest `{SerdeJson} (R : Type) := {
  get_uri : R → string;
  set_uri : string → R → R;
  get_serialized_body : R → result bytes serde_error;
}.

(** The traits [Cupv2RequestHandler] and [Cupv2Verifier].  [decorate_request] takes the nonce it
    draws and returns the request it wrote to. *)
Class Cupv2Handler `{UriCrate, SerdeJson, HttpCrate, EcdsaCrate} (CH : Type) := {
  decorate_request {R} `{!CupRequest R} :
    CH → Nonce → R → result RequestMetadata CupDecorationError * R;
  verify_response : CH → RequestMetadata → HttpResp → PublicKeyId →
    result DerSignature CupVerificationError;
  verify_response_with_signature : CH → DerSignature → bytes → bytes → PublicKeyId → Nonce →
    result unit CupVerificationError;
}.

(** ** The standard handler *)

Definition ETAG : string := "etag".

(** [parse_etag]: the text between the quotes, after an optional weak mark. *)
Definition parse_etag (etag : string) : string :=
  match etag with
  | String w (String s (String q inner)) =>
    if decide (w = "W"%char ∧ s = "/"%char ∧ q = dquote) then
      match strip_last dquote inner with Some i => i | None => etag end
    else if decide (w = dquote) then
      match strip_last dquote (String s (String q inner)) with Some i => i | None => etag end
    else etag
  | String w inner =>
    if decide (w = dquote) then
      match strip_last dquote inner with Some i => i | None => etag end
    else etag
  | EmptyString => etag
  end.

Section handler.
Context `{UriCrate, SerdeJson, HttpCrate, EcdsaCrate, HexCrate, Sha2Crate}.

(** The value of the [cup2key] parameter. *)
Definition cup2_urlparam (id : PublicKeyId) (nonce : Nonce) : string :=
  show_uint id +:+ ":" +:+ nonce_display nonce.

Definition make_transaction_hash (request_body response_body : bytes) (public_key_id : PublicKeyId)
    (nonce : Nonce) : bytes :=
  let request_hash := sha256 request_body in
  let response_hash := sha256 response_body in
  sha256 (request_hash ++ response_hash ++ list_byte_of_string (cup2_urlparam public_key_id nonce)).

Definition standard_decorate_request {R} `{!CupRequest R} (self : StandardCupv2Handler) (nonce : Nonce)
    (request : R) : result RequestMetadata CupDecorationError * R :=
  let public_key_id := latest_public_key_id self in
  match uri_parse (get_uri request) with
  | Err e => (Err (ParseError e), request)
  | Ok uri =>
    match append_query_parameter uri "cup2key" (cup2_urlparam public_key_id nonce) with
    | Err e => (Err (AppendQueryParameterError e), request)
    | Ok uri =>
      let request := set_uri (uri_to_string uri) request in
      match get_serialized_body request with
      | Err e => (Err (SerializationError e), request)
      | Ok body => (Ok (mkRequestMetadata body public_key_id nonce), request)
      end
    end
  end.

Definition standard_verify_response_with_signature (self : StandardCupv2Handler)
    (ecdsa_signature : DerSignature) (request_body response_body : bytes)
    (public_key_id : PublicKeyId) (nonce : Nonce) : result unit CupVerificationError :=
  let transaction_hash := make_transaction_hash request_body response_body public_key_id nonce in
  let? public_key := ok_or (parameters_by_id self !! public_key_id) SpecifiedPublicKeyIdMissing in
  let? der_signature := map_err SignatureError (der_from_bytes (der_as_ref ecdsa_signature)) in
  let? signature := map_err SignatureError (signature_from_der der_signature) in
  map_err SignatureError (key_verify public_key transaction_hash signature).

Definition standard_verify_response (self : StandardCupv2Handler)
    (request_metadata : RequestMetadata) (resp : HttpResp) (public_key_id : PublicKeyId)
    : result DerSignature CupVerificationError :=
  let? header := ok_or (headers_get resp ETAG) EtagHeaderMissing in
  let? etag := map_err EtagNotString (header_to_str header) in
  let etag_header := parse_etag etag in
  let? (encoded_signature, hex_hash) := ok_or (split_once ":" etag_header) EtagMalformed in
  let? actual_hash := map_err (λ _, RequestHashMalformed) (hex_decode hex_hash) in
  let request_body_hash := sha256 (request_body request_metadata) in
  if negb (bool_decide (request_body_hash = actual_hash)) then Err RequestHashMismatch
  else
    let? raw_signature := map_err (λ _, SignatureMalformed) (hex_decode encoded_signature) in
    let? signature := map_err SignatureError (der_from_bytes raw_signature) in
    let? _ := standard_verify_response_with_signature self signature
      (request_body request_metadata) (resp_body resp) public_key_id (nonce request_metadata) in
    Ok signature.

#[export] Instance standard_handler : Cupv2Handler StandardCupv2Handler := {|
  decorate_request R _ := standard_decorate_request;
  verify_response := standard_verify_response;
  verify_response_with_signature := standard_verify_response_with_signature;
|}.
End handler.

(** ** The crates of the examples *)

Definition hex_digit (n : nat) : ascii := ascii_of_nat (if (n <? 10)%nat then 48 + n else 87 + n)%nat.
Definition hex_value (c : ascii) : option nat :=
  let n := nat_of_ascii c in
  if ((48 <=? n) && (n <=? 57))%nat then Some (n - 48)%nat
  else if ((97 <=? n) && (n <=? 102))%nat then Some (n - 87)%nat
  else if ((65 <=? n) && (n <=? 70))%nat then Some (n - 55)%nat
  else None.
Fixpoint example_hex_encode (b : bytes) : string :=
  match b with
  | [] => EmptyString
  | x :: b' =>
    let n := Byte.to_nat x in
    String (hex_digit (n / 16)) (String (hex_digit (n mod 16)) (example_hex_encode b'))
  end.
Fixpoint example_hex_decode (s : string) : result bytes unit :=
  match s with
  | EmptyString => Ok []
  | String c (String d s') =>
    let? x := ok_or (h ← hex_value c; l ← hex_value d; Byte.of_nat (16 * h + l)) tt in
    let? b := example_hex_decode s' in Ok (x :: b)
  | _ => Err tt
  end.
Definition example_hex : HexCrate := {|
  FromHexError := unit;
  hex_encode := example_hex_encode;
  hex_decode := example_hex_decode;
|}.

(** A digest of 32 bytes, and signatures that name their key. *)
Definition example_sha2 : Sha2Crate := λ b, take 32 (rev b ++ replicate 32 x00).
Definition example_der (s : Z * bytes) : bytes := unwrap_or (Byte.of_nat (Z.to_nat s.1)) x00 :: s.2.
Definition example_ecdsa (signed : list bytes) : EcdsaCrate := {|
  VerifyingKey := Z;
  DerSignature := bytes;
  Signature := bytes;
  ecdsa_error := unit;
  der_from_bytes b := Ok b;
  der_as_ref b := b;
  signature_from_der b := Ok b;
  key_verify k h s := if decide (h ∈ signed ∧ s = example_der (k, h)) then Ok tt else Err tt;
|}.

(** Signatures that hold their key and their message. *)
Definition example_signing : EcdsaCrate := {|
  VerifyingKey := Z;
  DerSignature := bytes;
  Signature := bytes;
  ecdsa_error := unit;
  der_from_bytes b := Ok b;
  der_as_ref b := b;
  signature_from_der b := Ok b;
  key_verify k m s := if decide (s = example_der (k, m)) then Ok tt else Err tt;
|}.
Definition example_sign : @EcdsaSign example_signing :=
  @Build_EcdsaSign example_signing Z (λ k, k) (λ k m, example_der (k, m)) (λ s, s).

(** A request of a uri and a body. *)
Definition example_cup_request : @CupRequest example_serde (string * bytes) := {|
  get_uri := fst;
  set_uri u r := (u, r.2);
  get_serialized_body r := Ok r.2;
|}.

(** One exchange: the request, the response and the signature over both. *)
Definition example_md : RequestMetadata := mkRequestMetadata [x31; x32] 42 (mkNonce [x01; xff]).
Definition example_body : bytes := [x33].
Definition example_hash : bytes :=
  @make_transaction_hash example_hex example_sha2 (request_body example_md) example_body 42
    (nonce example_md).
Definition example_keys : @PublicKeys (example_ecdsa [example_hash]) :=
  @mkPublicKeys (example_ecdsa [example_hash])
    (@mkPublicKeyAndId (example_ecdsa [example_hash]) 7 42) [].

(** The two members of a server's ETag. *)
Definition etag_text `{HexCrate, Sha2Crate} (signature request_body : bytes) : string :=
  hex_encode signature +:+ ":" +:+ hex_encode (sha256 request_body).

(** The ETag of the exchange, quoted. *)
Definition example_etag : string :=
  String dquote (@etag_text example_hex example_sha2 (example_der (7, example_hash))
    (request_body example_md) +:+ String dquote EmptyString).
Definition example_cup_resp : @HttpResp example_http := mkExampleResp 200 [(ETAG, example_etag)] example_body.

(** A text as it is, between quotes, or between quotes after the weak mark. *)
Definition etag_forms (s : string) : list string :=
  [s; String dquote (s +:+ String dquote EmptyString);
   "W/" +:+ String dquote (s +:+ String dquote EmptyString)].

(** What the transaction hash is taken over. *)
Definition transaction_text `{HexCrate, Sha2Crate} (request_body response_body : bytes)
    (public_key_id : PublicKeyId) (nonce : Nonce) : bytes :=
  sha256 request_body ++ sha256 response_body ++
  list_byte_of_string (cup2_urlparam public_key_id nonce).

(** SHA-256 has 32 bytes, and no collision among the texts of [hashed]. *)
Definition sha_binds `{Sha2Crate} (hashed : bytes → Prop) : Prop :=
  (∀ b, length (sha256 b) = 32%nat) ∧
  (∀ a b, hashed a → hashed b → sha256 a = sha256 b → a = b).

(** The texts that are hashed for one transaction. *)
Definition transaction_hashed `{HexCrate, Sha2Crate} (req rsp : bytes) (id : PublicKeyId) (n : Nonce)
    (b : bytes) : Prop :=
  b = req ∨ b = rsp ∨ b = transaction_text req rsp id n.

(** ** Lemmas *)

Lemma example_sign_laws : @EcdsaSignLaws example_signing example_sign.
Proof. split; [|done..]. intros k m. cbn. by rewrite decide_True. Qed.
Lemma example_hex_laws : @HexLaws example_hex.
Proof.
  split; cbn.
  - induction b as [|x b IH]; [done|]. cbn [example_hex_encode example_hex_decode].
    rewrite IH. by destruct x.
  - induction b as [|x b IH]; [done|]. cbn [example_hex_encode str_forall].
    rewrite IH. by destruct x.
Qed.

Lemma hex_not_in `{HexLaws} c b : is_hex_digit c = false → str_in c (hex_encode b) = false.
Proof. apply str_forall_not_in, hex_encode_digits. Qed.

(** The quotes, and the weak mark before them, come off. *)
Lemma parse_etag_quoted s : parse_etag (String dquote (s +:+ String dquote EmptyString)) = s.
Proof.
  destruct s as [|c [|d s]].
  - done.
  - change (parse_etag (String dquote (String c (String dquote ""))) = String c "").
    cbn [parse_etag]. rewrite decide_False, decide_True by (done || by intros (? & ? & ?)).
    by rewrite (strip_last_app (String c "") dquote : strip_last dquote (String c (String dquote "")) = _).
  - rewrite !str_app_cons. cbn [parse_etag].
    rewrite decide_False, decide_True by (done || by intros (? & ? & ?)).
    by rewrite <-!str_app_cons, strip_last_app.
Qed.
Lemma parse_etag_weak s :
  parse_etag ("W/" +:+ String dquote (s +:+ String dquote EmptyString)) = s.
Proof.
  change (parse_etag (String "W" (String "/" (String dquote (s +:+ String dquote EmptyString)))) = s).
  cbn [parse_etag]. by rewrite decide_True, strip_last_app.
Qed.
Lemma parse_etag_plain s c s' : s = String c s' → c ≠ dquote → c ≠ "W"%char → parse_etag s = s.
Proof.
  intros -> Hc Hw. cbn. destruct s' as [|d [|e s]]; rewrite ?decide_False by naive_solver; done.
Qed.

(** Splitting a decimal number from what follows a colon. *)
Lemma urlparam_inj `{HexLaws} id id' n n' :
  0 ≤ id → 0 ≤ id' → cup2_urlparam id n = cup2_urlparam id' n' → id = id' ∧ n = n'.
Proof.
  intros Hid Hid' Heq. unfold cup2_urlparam in Heq.
  assert (split_once ":" (show_uint id +:+ ":" +:+ nonce_display n) =
          split_once ":" (show_uint id' +:+ ":" +:+ nonce_display n')) as Hs by congruence.
  rewrite !str_app_cons, !str_app_nil_l, !split_once_app in Hs by auto with omaha.
  injection Hs as Hshow Hn. split.
  - apply (f_equal (parse_uint (Z.max id id'))) in Hshow. rewrite !parse_show_uint in Hshow by lia.
    by injection Hshow.
  - unfold nonce_display in Hn. apply (f_equal hex_decode) in Hn. rewrite !hex_decode_encode in Hn.
    destruct n, n'. cbn in Hn. by injection Hn as ->.
Qed.

Lemma list_byte_of_string_inj s t : list_byte_of_string s = list_byte_of_string t → s = t.
Proof.
  intros Heq. apply (f_equal string_of_list_byte) in Heq.
  by rewrite !string_of_list_byte_of_string in Heq.
Qed.

(** Which key an id selects: the last one of the chain that has it. *)
Lemma new_lookup `{EcdsaCrate} ks id :
  parameters_by_id (standard_cupv2_handler_new ks) !! id =
  key <$> find_first (λ k, bool_decide (key_id k = id)) (rev (latest ks :: historical ks)).
Proof.
  unfold standard_cupv2_handler_new. cbn [parameters_by_id].
  induction (latest ks :: historical ks) as [|k l IH] using rev_ind; [apply lookup_empty|].
  rewrite foldl_snoc, rev_unit. cbn [find_first]. case_bool_decide as E.
  - by rewrite E, lookup_insert_eq.
  - by rewrite lookup_insert_ne, IH.
Qed.

Lemma new_lookup_latest `{EcdsaCrate} ks :
  Forall (λ k, key_id k ≠ key_id (latest ks)) (historical ks) →
  parameters_by_id (standard_cupv2_handler_new ks) !! key_id (latest ks) = Some (key (latest ks)).
Proof.
  intros Hhist. rewrite new_lookup. cbn [rev]. fold (rev (historical ks)).
  assert (find_first (λ k, bool_decide (key_id k = key_id (latest ks)))
    (rev (historical ks) ++ [latest ks]) = Some (latest ks)) as ->; [|done].
  assert (Forall (λ k, key_id k ≠ key_id (latest ks)) (rev (historical ks))) as Hr.
  { rewrite Forall_forall in *. intros k Hk. apply Hhist. by apply list_elem_of_In, in_rev, list_elem_of_In. }
  induction Hr as [|k l Hk _ IH]; cbn [find_first app].
  - by rewrite bool_decide_true.
  - by rewrite bool_decide_false.
Qed.

Lemma urlparam_no_fragment `{HexLaws} id n : str_in "#" (cup2_urlparam id n) = false.
Proof.
  unfold cup2_urlparam, nonce_display. rewrite !str_in_app, hex_not_in by done.
  rewrite show_uint_free; [done|]. intros d Hd.
  assert (d = 0 ∨ d = 1 ∨ d = 2 ∨ d = 3 ∨ d = 4 ∨ d = 5 ∨ d = 6 ∨ d = 7 ∨ d = 8 ∨ d = 9)%N
    as Hn by lia. by repeat destruct Hn as [->|Hn]; subst.
Qed.

Section handler_lemmas.
Context `{UriCrate, SerdeJson, HttpCrate, EcdsaCrate, HexCrate, !HexLaws, Sha2Crate}.

(** The transaction hash determines the transaction. *)
Lemma transaction_hash_inj hashed req rsp id n req' rsp' id' n' :
  sha_binds hashed →
  (∀ b, transaction_hashed req rsp id n b → hashed b) →
  (∀ b, transaction_hashed req' rsp' id' n' b → hashed b) →
  0 ≤ id → 0 ≤ id' →
  make_transaction_hash req rsp id n = make_transaction_hash req' rsp' id' n' →
  req = req' ∧ rsp = rsp' ∧ id = id' ∧ n = n'.
Proof.
  unfold transaction_hashed. intros [Hlen Hinj] Hh Hh' Hid Hid' Heq.
  change (sha256 (transaction_text req rsp id n) = sha256 (transaction_text req' rsp' id' n')) in Heq.
  apply Hinj in Heq; [|by auto..]. unfold transaction_text in Heq.
  apply app_inj_1 in Heq as [Hreq Heq]; [|by rewrite !Hlen].
  apply app_inj_1 in Heq as [Hrsp Heq]; [|by rewrite !Hlen].
  apply Hinj in Hreq; [|by auto..]. apply Hinj in Hrsp; [|by auto..].
  apply list_byte_of_string_inj, urlparam_inj in Heq as [-> ->]; done.
Qed.

Lemma parse_etag_form s c s' e :
  s = String c s' → c ≠ dquote → c ≠ "W"%char → e ∈ etag_forms s → parse_etag e = s.
Proof.
  intros Hs Hc Hw. unfold etag_forms. rewrite !elem_of_cons.
  intros [->|[->|[->|Hn]]].
  - by eapply parse_etag_plain.
  - apply parse_etag_quoted.
  - apply parse_etag_weak.
  - by apply not_elem_of_nil in Hn.
Qed.

(** An encoded signature never looks like a quote or a weak mark. *)
Lemma etag_text_head sig req :
  ∃ c s', etag_text sig req = String c s' ∧ c ≠ dquote ∧ c ≠ "W"%char.
Proof.
  unfold etag_text. pose proof (hex_encode_digits sig) as Hd.
  destruct (hex_encode sig) as [|c s].
  - rewrite !str_app_nil_l, str_app_cons. by eexists _, _.
  - rewrite !str_app_cons. cbn in Hd. apply andb_true_iff in Hd as [Hc _].
    eexists c, _. split; [done|]. split; intros ->; by vm_compute in Hc.
Qed.

(** When the standard handler accepts a response. *)
Lemma standard_verify_response_Ok (h : StandardCupv2Handler) md resp id sig :
  standard_verify_response h md resp id = Ok sig ↔
  ∃ hv etag sigtext hash raw pk d s,
    headers_get resp ETAG = Some hv ∧ header_to_str hv = Ok etag ∧
    split_once ":" (parse_etag etag) = Some (sigtext, hash) ∧
    hex_decode hash = Ok (sha256 (request_body md)) ∧
    hex_decode sigtext = Ok raw ∧ der_from_bytes raw = Ok sig ∧
    parameters_by_id h !! id = Some pk ∧
    der_from_bytes (der_as_ref sig) = Ok d ∧ signature_from_der d = Ok s ∧
    key_verify pk (make_transaction_hash (request_body md) (resp_body resp) id (nonce md)) s = Ok tt.
Proof.
  unfold standard_verify_response, standard_verify_response_with_signature.
  repeat setoid_rewrite res_bind_Ok. repeat setoid_rewrite ok_or_Ok.
  repeat setoid_rewrite map_err_Ok. split.
  - intros (hv & Hhv & etag & Hetag & [st hash] & Hsp & Hk).
    rewrite res_bind_Ok in Hk. destruct Hk as (actual & Hact & Hk). apply map_err_Ok in Hact.
    case_bool_decide as E; [|done]. cbn in Hk. rewrite res_bind_Ok in Hk.
    destruct Hk as (raw & Hraw & Hk); apply map_err_Ok in Hraw; rewrite res_bind_Ok in Hk.
    destruct Hk as (sg & Hsg & Hk); apply map_err_Ok in Hsg. rewrite res_bind_Ok in Hk.
    destruct Hk as ([] & Hv & [= <-]). repeat setoid_rewrite res_bind_Ok in Hv.
    repeat setoid_rewrite ok_or_Ok in Hv. repeat setoid_rewrite map_err_Ok in Hv.
    destruct Hv as (pk & Hpk & d & Hd & s & Hs & Hver). subst actual. naive_solver.
  - intros (hv & etag & st & hash & raw & pk & d & s & Hhv & Hetag & Hsp & Hhash & Hraw & Hsig & Hpk & Hd & Hs & Hv).
    exists hv. split; [done|]. exists etag. split; [done|]. exists (st, hash). split; [done|].
    rewrite Hhash. cbn. rewrite bool_decide_true by done. cbn.
    rewrite Hraw. cbn. rewrite Hsig. cbn. rewrite Hpk. cbn. rewrite Hd. cbn. rewrite Hs. cbn.
    by rewrite Hv.
Qed.
End handler_lemmas.

(** ** Properties *)

(** C6: a response the standard handler accepts is authentic.  If the P-256 signatures that verify
    under a known key are those of the server, over the transactions it [served], and SHA-256 has
    no collision among the texts at hand, then the server served this very response to this very
    request body, under this key id and this nonce: neither was changed or replayed in transit. *)
Theorem accepted_response_authentic
    `{UriCrate, SerdeJson, HttpCrate, EcdsaCrate, HexCrate, !HexLaws, Sha2Crate}
    (h : StandardCupv2Handler) md resp id sig
    (served : bytes → bytes → PublicKeyId → Nonce → Prop) (hashed : bytes → Prop) :
  verify_response h md resp id = Ok sig →
  (∀ id pk hash s, parameters_by_id h !! id = Some pk → key_verify pk hash s = Ok tt →
     ∃ req rsp id' n, served req rsp id' n ∧ 0 ≤ id' ∧ hash = make_transaction_hash req rsp id' n) →
  sha_binds hashed →
  (∀ b, transaction_hashed (request_body md) (resp_body resp) id (nonce md) b → hashed b) →
  (∀ req rsp id' n b, served req rsp id' n → transaction_hashed req rsp id' n b → hashed b) →
  0 ≤ id →
  served (request_body md) (resp_body resp) id (nonce md).
Proof.
  intros Hok Hserver Hsha Hh Hserved Hid. apply standard_verify_response_Ok in Hok.
  destruct Hok as (_ & _ & _ & _ & _ & pk & _ & s & _ & _ & _ & _ & _ & _ & Hpk & _ & _ & Hv).
  destruct (Hserver id pk _ s Hpk Hv) as (req & rsp & id' & n & Hsv & Hid' & Heq).
  destruct (transaction_hash_inj hashed _ _ _ _ req rsp id' n Hsha Hh) as (-> & -> & -> & ->);
    eauto.
Qed.

(** C21: a server that signs the transaction with the key the handler prefers is accepted, whatever
    form its ETag has, as long as no historical key reuses the id of the latest one. *)
Theorem honest_response_accepted
    `{UriCrate, SerdeJson, HttpCrate, EcdsaCrate, HexCrate, !HexLaws, Sha2Crate}
    ks md resp hv e raw sig d s :
  let h := standard_cupv2_handler_new ks in
  Forall (λ k, key_id k ≠ key_id (latest ks)) (historical ks) →
  public_key_id md = key_id (latest ks) →
  headers_get resp ETAG = Some hv → header_to_str hv = Ok e →
  e ∈ etag_forms (etag_text raw (request_body md)) →
  der_from_bytes raw = Ok sig → der_from_bytes (der_as_ref sig) = Ok d →
  signature_from_der d = Ok s →
  key_verify (key (latest ks))
    (make_transaction_hash (request_body md) (resp_body resp) (public_key_id md) (nonce md)) s = Ok tt →
  verify_response h md resp (public_key_id md) = Ok sig.
Proof.
  intros h Hhist Hid Hhv He Hform Hsig Hd Hs Hv. apply standard_verify_response_Ok.
  destruct (etag_text_head raw (request_body md)) as (c & s' & Ht & Hc & Hw).
  exists hv, e, (hex_encode raw), (hex_encode (sha256 (request_body md))), raw, (key (latest ks)), d, s.
  rewrite (parse_etag_form _ _ _ _ Ht Hc Hw Hform), !hex_decode_encode. repeat split; try done.
  - unfold etag_text. rewrite str_app_cons, str_app_nil_l. by apply split_once_app, hex_not_in.
  - unfold h. rewrite Hid. by apply new_lookup_latest.
Qed.

(** Decorating a request leaves its scheme, authority and path, appends [cup2key] with the
    latest key id and the nonce to its query, and remembers the body the decorated request has. *)
Theorem decorate_request_spec
    `{UriCrate, !UriLaws, SerdeJson, HttpCrate, EcdsaCrate, HexCrate, !HexLaws, Sha2Crate}
    {R} `{!CupRequest R} (h : StandardCupv2Handler) n (r r' : R) md :
  decorate_request h n r = (Ok md, r') →
  md = mkRequestMetadata (request_body md) (latest_public_key_id h) n ∧
  get_serialized_body r' = Ok (request_body md) ∧
  ∃ u u', uri_parse (get_uri r) = Ok u ∧ r' = set_uri (uri_to_string u') r ∧
    scheme (into_parts u') = scheme (into_parts u) ∧
    authority (into_parts u') = authority (into_parts u) ∧ uri_path u' = uri_path u ∧
    uri_query u' = Some (match uri_query u with
      | Some q => q +:+ "&cup2key=" +:+ cup2_urlparam (latest_public_key_id h) n
      | None => "cup2key=" +:+ cup2_urlparam (latest_public_key_id h) n
      end).
Proof.
  cbn. unfold standard_decorate_request. intros Hr.
  destruct (uri_parse (get_uri r)) as [u|] eqn:Hu; [|done].
  destruct (append_query_parameter _ _ _) as [u'|] eqn:Hu'; [|done].
  destruct (get_serialized_body _) as [b|] eqn:Hb; [|done]. injection Hr as <- <-.
  split; [done|]. split; [done|]. exists u, u'. split; [done|]. split; [done|].
  apply append_query_parameter_spec in Hu' as (? & ? & ? & ->); [|done|apply urlparam_no_fragment].
  split_and!; [done..|]. by destruct (uri_query u).
Qed.

(** The instances the witnesses run with. *)
#[local] Existing Instance example_uri.
#[local] Existing Instance example_uri_laws.
#[local] Existing Instance example_http.
#[local] Existing Instance example_hex.
#[local] Existing Instance example_hex_laws.
#[local] Existing Instance example_sha2.
#[local] Existing Instance example_serde.
#[local] Existing Instance example_cup_request.
#[local] Instance example_signed_ecdsa : EcdsaCrate := example_ecdsa [example_hash].

Lemma honest_response_accepted_witness :
  verify_response (standard_cupv2_handler_new example_keys) example_md example_cup_resp 42 =
    Ok (example_der (7, example_hash)).
Proof.
  apply (honest_response_accepted example_keys example_md example_cup_resp example_etag example_etag
    (example_der (7, example_hash)) (example_der (7, example_hash))
    (example_der (7, example_hash)) (example_der (7, example_hash)));
    [constructor|reflexivity|reflexivity|reflexivity| |reflexivity|reflexivity|reflexivity|reflexivity].
  right. left.
Defined.

Lemma accepted_response_authentic_witness :
  (λ req rsp id n, (req, rsp, id, n) = ([x31; x32], [x33], 42, mkNonce [x01; xff]))
    (request_body example_md) (resp_body example_cup_resp) 42 (nonce example_md).
Proof.
  apply (accepted_response_authentic (standard_cupv2_handler_new example_keys) example_md
    example_cup_resp 42 (example_der (7, example_hash))
    (λ req rsp id n, (req, rsp, id, n) = ([x31; x32], [x33], 42, mkNonce [x01; xff]))
    (λ b, b ∈ [[x31; x32]; [x33]; transaction_text [x31; x32] [x33] 42 (mkNonce [x01; xff])])).
  - reflexivity.
  - intros id pk hash s _ Hv. cbn in Hv. case_decide as Hd; [|discriminate Hv].
    destruct Hd as [Hd _]. apply list_elem_of_singleton in Hd as ->.
    exists [x31; x32], [x33], 42, (mkNonce [x01; xff]). by split_and!.
  - split.
    + intros b. unfold sha256, example_sha2. rewrite length_take, length_app, length_replicate. lia.
    + intros a b Ha Hb. repeat setoid_rewrite elem_of_cons in Ha.
      repeat setoid_rewrite elem_of_cons in Hb. setoid_rewrite elem_of_nil in Ha.
      setoid_rewrite elem_of_nil in Hb.
      destruct Ha as [->|[->|[->|[]]]], Hb as [->|[->|[->|[]]]]; intros Heq; try reflexivity;
        vm_compute in Heq; discriminate Heq.
  - intros b [->|[->| ->]]; set_solver.
  - intros req rsp id' n b [= -> -> -> ->] [->|[->| ->]]; set_solver.
  - lia.
Defined.

Lemma decorate_request_spec_witness :
  ∃ md r', decorate_request (standard_cupv2_handler_new example_keys) (mkNonce [x01; xff])
      ("http://example.com/dir?a=b"%string, [x31; x32]) = (Ok md, r') ∧
    r'.1 = "http://example.com/dir?a=b&cup2key=42:01ff"%string ∧ public_key_id md = 42.
Proof.
  destruct (decorate_request (standard_cupv2_handler_new example_keys) (mkNonce [x01; xff])
      ("http://example.com/dir?a=b"%string, [x31; x32])) as [[md|e] r'] eqn:E.
  - exists md, r'. destruct (decorate_request_spec _ _ _ _ _ E) as (-> & _ & _).
    split; [reflexivity|]. split; [|reflexivity].
    apply (f_equal (λ x, x.2.1)) in E. vm_compute in E. exact (eq_sym E).
  - apply (f_equal (λ x, is_ok x.1)) in E. vm_compute in E. discriminate E.
Defined.
