(* ===== verification/RequestBuilder.v ===== *)
(** * Building requests ([configuration.rs], [request_builder.rs])

    A [RequestBuilder] collects what to say about each app, and builds the protocol request, the
    HTTP headers and, through a CUP handler, the decorated URI. *)

From S2P Require Import Prelude Serde Version Protocol Common UriExt Http Cup.
From S2P Require Request.
Open Scope Z_scope.

(** ** [configuration.rs] *)

Record Updater : Type := mkUpdater {
  updater_name : string;
  updater_version : Version;
}.
Record Config `{EcdsaCrate} : Type := mkConfig {
  updater : Updater;
  os : Request.OS;
  service_url : string;
  omaha_public_keys : option PublicKeys;
}.
Arguments mkConfig {_} updater os service_url omaha_public_keys.

(** ** Parameters and entries *)

Record RequestParams : Type := mkRequestParams {
  params_source : Request.InstallSource;
  use_configured_proxies : bool;
  disable_updates : bool;
  offer_update_if_same_version : bool;
}.
#[export] Instance RequestParams_eq_dec : EqDecision RequestParams.
Proof. solve_decision. Defined.
Definition request_params_default : RequestParams :=
  mkRequestParams Request.install_source_default false false false.

Record AppEntry : Type := mkAppEntry {
  entry_app : App;
  entry_update_check : option Request.UpdateCheck;
  entry_ping : bool;
  entry_events : list Request.Event;
}.
(** [AppEntry::new]. *)
Definition app_entry_new (app : App) : AppEntry := mkAppEntry app None false [].

(** [impl From<AppEntry> for ProtocolApp]; the extra fields come in the order the map iterates. *)
Definition protocol_app_from (entry : AppEntry) : Request.App :=
  let app := entry_app entry in
  let ping :=
    if entry_ping entry then
      let '(ClientRegulatedByDate days) := app_user_counting app in
      Some (Request.mkPing days days)
    else None in
  Request.mkApp (app_id app) (version_to_string (app_version app)) (app_fingerprint app)
    (Some (app_cohort app)) (entry_update_check entry) (entry_events entry) ping
    (map_to_list (app_extra_fields app)).

(** ** The builder *)

Section builder.
Context `{EcdsaCrate}.

Record RequestBuilder : Type := mkRequestBuilder {
  rb_config : Config;
  rb_params : RequestParams;
  app_entries : list AppEntry;
  rb_request_id : option Request.GUID;
  rb_session_id : option Request.GUID;
}.

(** [RequestBuilder::new]. *)
Definition request_builder_new (config : Config) (params : RequestParams) : RequestBuilder :=
  mkRequestBuilder config params [] None None.

Definition set_app_entries (l : list AppEntry) (self : RequestBuilder) : RequestBuilder :=
  mkRequestBuilder (rb_config self) (rb_params self) l (rb_request_id self) (rb_session_id self).

(** The search of [insert_and_modify_entry]: the closure runs on the first entry with the app's id,
    or on a new entry at the end. *)
Fixpoint modify_or_push (app : App) (modify : AppEntry → AppEntry) (l : list AppEntry) : list AppEntry :=
  match l with
  | [] => [modify (app_entry_new app)]
  | e :: l' =>
    if decide (app_id (entry_app e) = app_id app) then modify e :: l'
    else e :: modify_or_push app modify l'
  end.
Definition insert_and_modify_entry (app : App) (modify : AppEntry → AppEntry)
    (self : RequestBuilder) : RequestBuilder :=
  set_app_entries (modify_or_push app modify (app_entries self)) self.

Definition add_update_check (app : App) (self : RequestBuilder) : RequestBuilder :=
  let update_check := Request.mkUpdateCheck (disable_updates (rb_params self))
    (offer_update_if_same_version (rb_params self)) in
  insert_and_modify_entry app (λ e,
    mkAppEntry (entry_app e) (Some update_check) (entry_ping e) (entry_events e)) self.
Definition add_ping (app : App) (self : RequestBuilder) : RequestBuilder :=
  insert_and_modify_entry app (λ e,
    mkAppEntry (entry_app e) (entry_update_check e) true (entry_events e)) self.
Definition add_event (app : App) (event : Request.Event) (self : RequestBuilder) : RequestBuilder :=
  insert_and_modify_entry app (λ e,
    mkAppEntry (entry_app e) (entry_update_check e) (entry_ping e) (entry_events e ++ [event])) self.
Definition set_request_id (request_id : Request.GUID) (self : RequestBuilder) : RequestBuilder :=
  mkRequestBuilder (rb_config self) (rb_params self) (app_entries self) (Some request_id)
    (rb_session_id self).
Definition set_session_id (session_id : Request.GUID) (self : RequestBuilder) : RequestBuilder :=
  mkRequestBuilder (rb_config self) (rb_params self) (app_entries self) (rb_request_id self)
    (Some session_id).
End builder.

(** ** The request *)

(** [Intermediate]. *)
Record Intermediate : Type := mkIntermediate {
  uri : string;
  headers : list (string * string);
  ibody : Request.RequestWrapper;
}.

(** [request_builder::Error]. *)
Inductive BuilderError `{UriCrate, SerdeJson, HttpCrate} : Type :=
| BuilderJson (e : serde_error)
| BuilderHttp (e : http_error)
| BuilderCup (e : CupDecorationError).

(** [{:#}] of a [serde_json::Value]. *)
Class JsonPretty := json_pretty : Json → string.
Definition newline : string := String (Ascii.ascii_of_nat 10) EmptyString.

Definition CONTENT_TYPE : string := "content-type".

Section build.
Context `{UriCrate, SerdeJson, HttpCrate, EcdsaCrate}.
Context {uuid_crate : Request.UuidCrate}.

(** [Intermediate::serialize_body]. *)
Definition serialize_body (self : Intermediate) : result bytes serde_error :=
  json_to_vec (Request.request_wrapper_json (ibody self)).

#[export] Instance intermediate_cup_request : CupRequest Intermediate := {|
  get_uri := uri;
  set_uri u self := mkIntermediate u (headers self) (ibody self);
  get_serialized_body := serialize_body;
|}.

(** [impl Display for Intermediate]. *)
Definition intermediate_display `{JsonPretty} (self : Intermediate) : string :=
  "uri: " +:+ uri self +:+ " " +:+ newline +:+
  foldr (λ nv s, "header: " +:+ nv.1 +:+ "=" +:+ nv.2 +:+ newline +:+ s)
    ("body: " +:+ json_pretty (Request.request_wrapper_json (ibody self)) +:+ newline) (headers self).

(** [impl From<Intermediate> for Result<http::Request<Body>>]. *)
Definition http_request_from (intermediate : Intermediate) : result HttpReq BuilderError :=
  let? body := map_err BuilderJson (serialize_body intermediate) in
  map_err BuilderHttp (request_post (uri intermediate) (headers intermediate) body).

(** The headers and the body of [build_intermediate]. *)
Definition builder_headers (self : RequestBuilder) : list (string * string) :=
  [(CONTENT_TYPE, "application/json");
   (Request.HEADER_UPDATER_NAME, updater_name (updater (rb_config self)));
   (Request.HEADER_INTERACTIVITY,
    match params_source (rb_params self) with
    | Request.OnDemand => "fg"
    | Request.ScheduledTask => "bg"
    end)] ++
  match app_entries self with
  | main_app :: _ => [(Request.HEADER_APP_ID, app_id (entry_app main_app))]
  | [] => []
  end%string.
Definition builder_request (self : RequestBuilder) : Request.Request :=
  Request.mkRequest PROTOCOL_V3 (updater_name (updater (rb_config self)))
    (version_to_string (updater_version (updater (rb_config self))))
    (params_source (rb_params self)) true (rb_request_id self) (rb_session_id self)
    (os (rb_config self)) (protocol_app_from <$> app_entries self).

Context {CH : Type} `{!Cupv2Handler CH}.

(** [build_intermediate]; [nonce] is the one the handler draws, when there is a handler. *)
Definition build_intermediate (cup_handler : option CH) (nonce : Nonce) (self : RequestBuilder)
    : result (Intermediate * option RequestMetadata) BuilderError :=
  let intermediate := mkIntermediate (service_url (rb_config self)) (builder_headers self)
    (Request.mkRequestWrapper (builder_request self)) in
  match cup_handler with
  | Some handler =>
    let '(request_metadata, intermediate) := decorate_request handler nonce intermediate in
    let? request_metadata := map_err BuilderCup request_metadata in
    Ok (intermediate, Some request_metadata)
  | None => Ok (intermediate, None)
  end.

(** [RequestBuilder::build]. *)
Definition build (cup_handler : option CH) (nonce : Nonce) (self : RequestBuilder)
    : result (HttpReq * option RequestMetadata) BuilderError :=
  let? (intermediate, request_metadata) := build_intermediate cup_handler nonce self in
  let? request := http_request_from intermediate in
  Ok (request, request_metadata).
End build.

(** ** The reference behaviour *)

(** What can be asked of a builder. *)
Inductive rb_op : Type :=
| OpUpdateCheck (a : App)
| OpPing (a : App)
| OpEvent (a : App) (e : Request.Event).
Definition rb_op_app (o : rb_op) : App :=
  match o with OpUpdateCheck a => a | OpPing a => a | OpEvent a _ => a end.
Definition rb_run `{EcdsaCrate} (b : RequestBuilder) (o : rb_op) : RequestBuilder :=
  match o with
  | OpUpdateCheck a => add_update_check a b
  | OpPing a => add_ping a b
  | OpEvent a e => add_event a e b
  end.

(** The first app of each id, in order. *)
Definition first_apps (l : list App) : list App :=
  foldl (λ acc a, if decide (app_id a ∈ app_id <$> acc) then acc else acc ++ [a]) [] l.

(** What the operations say about one app. *)
Definition app_summary (uc : Request.UpdateCheck) (ops : list rb_op) (a : App) : AppEntry :=
  let mine := filter (λ o, app_id (rb_op_app o) = app_id a) ops in
  mkAppEntry a
    (if existsb (λ o, match o with OpUpdateCheck _ => true | _ => false end) mine then Some uc else None)
    (existsb (λ o, match o with OpPing _ => true | _ => false end) mine)
    (omap (λ o, match o with OpEvent _ e => Some e | _ => None end) mine).
(** The update check of the parameters. *)
Definition params_update_check (params : RequestParams) : Request.UpdateCheck :=
  Request.mkUpdateCheck (disable_updates params) (offer_update_if_same_version params).

(** The closure an operation runs on its entry. *)
Definition rb_op_modify (uc : Request.UpdateCheck) (o : rb_op) (e : AppEntry) : AppEntry :=
  match o with
  | OpUpdateCheck _ => mkAppEntry (entry_app e) (Some uc) (entry_ping e) (entry_events e)
  | OpPing _ => mkAppEntry (entry_app e) (entry_update_check e) true (entry_events e)
  | OpEvent _ ev =>
    mkAppEntry (entry_app e) (entry_update_check e) (entry_ping e) (entry_events e ++ [ev])
  end.

(** ** The examples *)

Definition example_uuid : Request.UuidCrate := λ z, "{" +:+ show_uint z +:+ "}".
Definition example_config `{EcdsaCrate} : Config :=
  mkConfig (mkUpdater "updater" (version_from [1; 2; 3; 4]))
    (Request.mkOS "platform" "0.1.2.3" "sp" "arch") "http://example.com/" None.

(** ** Lemmas *)

Lemma first_apps_snoc l a :
  first_apps (l ++ [a]) =
  if decide (app_id a ∈ app_id <$> first_apps l) then first_apps l else first_apps l ++ [a].
Proof. unfold first_apps. by rewrite foldl_snoc. Qed.

Lemma first_apps_ids l i : i ∈ app_id <$> first_apps l ↔ i ∈ app_id <$> l.
Proof.
  induction l as [|a l IH] using rev_ind; [done|]. rewrite first_apps_snoc, fmap_app, elem_of_app, <-IH.
  case_decide as E.
  - cbn. rewrite list_elem_of_singleton. split; [by left|]. by intros [? | ->].
  - by rewrite fmap_app, elem_of_app.
Qed.

Lemma first_apps_NoDup l : NoDup (app_id <$> first_apps l).
Proof.
  induction l as [|a l IH] using rev_ind; [constructor|]. rewrite first_apps_snoc.
  case_decide as E; [done|]. rewrite fmap_app. apply NoDup_app. split; [done|].
  split; [|apply NoDup_singleton]. intros i Hi. cbn. rewrite list_elem_of_singleton. by intros ->.
Qed.

Lemma modify_or_push_fmap (f : App → AppEntry) m a l :
  (∀ x, entry_app (f x) = x) → NoDup (app_id <$> l) →
  modify_or_push a m (f <$> l) =
  if decide (app_id a ∈ app_id <$> l)
  then (λ x, if decide (app_id x = app_id a) then m (f x) else f x) <$> l
  else (f <$> l) ++ [m (app_entry_new a)].
Proof.
  intros Hf. induction l as [|x l IH].
  - intros _. rewrite decide_False by apply not_elem_of_nil. done.
  - rewrite fmap_cons, NoDup_cons. intros [Hx Hnd]. cbn [fmap list_fmap modify_or_push].
    rewrite Hf. destruct (decide (app_id x = app_id a)) as [E|E].
    + rewrite decide_True by (rewrite E; left). f_equal. apply list_fmap_ext.
      intros _ y Hy%list_elem_of_lookup_2. rewrite decide_False; [done|].
      intros Hya. apply Hx. rewrite E, <-Hya. by apply list_elem_of_fmap_2.
    + change (f x :: modify_or_push a m (f <$> l) = if decide (app_id a ∈ app_id x :: (app_id <$> l))
        then f x :: ((λ x, if decide (app_id x = app_id a) then m (f x) else f x) <$> l)
        else (f x :: (f <$> l)) ++ [m (app_entry_new a)]).
      rewrite IH by done. destruct (decide (app_id a ∈ app_id <$> l)) as [Ein|Ein].
      * by rewrite decide_True by (by right).
      * by rewrite decide_False by (by rewrite elem_of_cons; intros [? | ?]).
Qed.

Lemma app_summary_snoc uc ops o x :
  app_summary uc (ops ++ [o]) x =
  if decide (app_id x = app_id (rb_op_app o)) then rb_op_modify uc o (app_summary uc ops x)
  else app_summary uc ops x.
Proof.
  unfold app_summary. rewrite filter_app, filter_cons, filter_nil. case_decide as E.
  - rewrite decide_True by done. rewrite !existsb_app, omap_app.
    destruct o; cbn; rewrite ?orb_false_r, ?orb_true_r, ?app_nil_r; done.
  - rewrite decide_False by congruence. by rewrite app_nil_r.
Qed.

Lemma app_summary_fresh uc ops a :
  app_id a ∉ app_id <$> (rb_op_app <$> ops) → app_summary uc ops a = app_entry_new a.
Proof.
  intros Hn. unfold app_summary.
  assert (filter (λ o, app_id (rb_op_app o) = app_id a) ops = []) as ->; [|done].
  induction ops as [|o ops IH]; [done|]. cbn in Hn. apply not_elem_of_cons in Hn as [Ho Hn].
  rewrite filter_cons, decide_False by congruence. by apply IH.
Qed.

Section builder_lemmas.
Context `{EcdsaCrate}.

Lemma rb_run_eq b o :
  rb_run b o = insert_and_modify_entry (rb_op_app o)
    (rb_op_modify (params_update_check (rb_params b)) o) b.
Proof. by destruct o. Qed.

Lemma rb_run_rest ops b :
  rb_config (foldl rb_run b ops) = rb_config b ∧ rb_params (foldl rb_run b ops) = rb_params b ∧
  rb_request_id (foldl rb_run b ops) = rb_request_id b ∧
  rb_session_id (foldl rb_run b ops) = rb_session_id b.
Proof. revert b. induction ops as [|o ops IH]; intros b; [done|]. cbn.
  destruct (IH (rb_run b o)) as (-> & -> & -> & ->). by destruct o. Qed.
End builder_lemmas.

Lemma builder_entries_eq `{EcdsaCrate} config params ops :
  app_entries (foldl rb_run (request_builder_new config params) ops) =
  app_summary (params_update_check params) ops <$> first_apps (rb_op_app <$> ops).
Proof.
  induction ops as [|o ops IH] using rev_ind; [done|].
  rewrite foldl_snoc, rb_run_eq, fmap_app. cbn [fmap list_fmap].
  destruct (rb_run_rest ops (request_builder_new config params)) as (_ & -> & _ & _).
  cbn [insert_and_modify_entry set_app_entries app_entries rb_params request_builder_new].
  rewrite IH, modify_or_push_fmap by (done || apply first_apps_NoDup).
  rewrite first_apps_snoc. case_decide as E.
  - apply list_fmap_ext. intros _ x _. by rewrite app_summary_snoc.
  - rewrite fmap_app. cbn. f_equal.
    + apply list_fmap_ext. intros _ x Hx%list_elem_of_lookup_2. rewrite app_summary_snoc.
      rewrite decide_False; [done|]. intros Heq. apply E. rewrite <-Heq. by apply list_elem_of_fmap_2.
    + rewrite app_summary_snoc, decide_True by done. rewrite app_summary_fresh; [done|].
      by rewrite <-first_apps_ids.
Qed.

(** ** Properties *)

(** C22: whatever is added to a builder, in whatever order, the request has one entry for each app
    id, in the order the ids first came, with the app of that first time; an entry has an update
    check, or a ping, exactly when one was added for its id, and all the events added for it in
    order. *)
Theorem builder_entries `{EcdsaCrate} config params ops :
  let b := foldl rb_run (request_builder_new config params) ops in
  app_entries b = app_summary (params_update_check params) ops <$> first_apps (rb_op_app <$> ops) ∧
  NoDup (app_id ∘ entry_app <$> app_entries b).
Proof.
  cbn zeta. rewrite builder_entries_eq. split; [done|]. rewrite <-list_fmap_compose. apply first_apps_NoDup.
Qed.

(** C23: the HTTP request of a builder carries exactly the body whose hash and signature CUP is
    about: the metadata remembers the bytes that are sent, although the builder serializes the
    request twice and the handler changes the URI between.  Without a handler the request goes to
    the service URL of the configuration and there is no metadata. *)
Theorem build_sends_signed_body
    `{UriCrate, SerdeJson, HttpCrate, EcdsaCrate, HexCrate, Sha2Crate}
    {uuid_crate : Request.UuidCrate} (ch : option StandardCupv2Handler) n b req md :
  build ch n b = Ok (req, md) →
  ∃ u body, request_post u (builder_headers b) body = Ok req ∧
    json_to_vec (Request.request_wrapper_json (Request.mkRequestWrapper (builder_request b))) = Ok body ∧
    match ch, md with
    | Some h, Some md => request_body md = body ∧ public_key_id md = latest_public_key_id h ∧ nonce md = n
    | None, None => u = service_url (rb_config b)
    | _, _ => False
    end.
Proof.
  unfold build, build_intermediate, http_request_from.
  destruct (json_to_vec (Request.request_wrapper_json (Request.mkRequestWrapper (builder_request b))))
    as [body|] eqn:Hb; (destruct ch as [h|]; cbn -[builder_headers];
      [unfold standard_decorate_request; cbn -[builder_headers];
       destruct (uri_parse _) as [u|]; [|done];
       destruct (append_query_parameter _ _ _) as [u'|]; [|done]|];
      unfold serialize_body; cbn -[builder_headers]; rewrite Hb; cbn -[builder_headers]; try done;
      rewrite ?Hb; cbn -[builder_headers];
      (destruct (request_post _ _ _) as [req'|] eqn:Hp; [|done]); intros [= <- <-]); eauto 10.
Qed.

#[local] Existing Instance example_uri.
#[local] Existing Instance example_serde.
#[local] Existing Instance example_http.
#[local] Existing Instance example_hex.
#[local] Existing Instance example_sha2.
#[local] Existing Instance example_uuid.
#[local] Instance builder_example_ecdsa : EcdsaCrate := example_ecdsa [].

Lemma build_sends_signed_body_witness :
  let h := mkStandardCupv2Handler {[42 := 7]} 42 in
  let b := add_ping (app_new "app" (version_from [1]))
    (request_builder_new example_config request_params_default) in
  ∃ req md, build (Some h) (mkNonce [x01]) b = Ok (req, Some md) ∧ req_body req = request_body md.
Proof.
  cbn zeta. set (h := mkStandardCupv2Handler _ _). set (b := add_ping _ _).
  destruct (build (Some h) (mkNonce [x01]) b) as [[req [md|]]|e] eqn:E.
  - exists req, md. split; [done|].
    destruct (build_sends_signed_body _ _ _ _ _ E) as (u & body & Hp & _ & -> & _).
    injection Hp as <-. reflexivity.
  - destruct (build_sends_signed_body _ _ _ _ _ E) as (u & body & _ & _ & []).
  - apply (f_equal is_ok) in E. vm_compute in E. discriminate E.
Defined.

(** The request says what the builder was told: the protocol version, the updater and the
    system of the configuration, the source, which the interactivity header repeats, and the id of
    the first app in the app-id header, which is left out of a request without apps. *)
Theorem builder_request_spec `{EcdsaCrate} config params ops :
  let b := foldl rb_run (request_builder_new config params) ops in
  let r := builder_request b in
  Request.protocol_version r = "3.0"%string ∧ Request.updater r = updater_name (updater config) ∧
  Request.os r = os config ∧ Request.install_source r = params_source params ∧
  Request.id <$> Request.apps r = app_id <$> first_apps (rb_op_app <$> ops) ∧
  (∀ v, (Request.HEADER_INTERACTIVITY, v) ∈ builder_headers b ↔
     v = match params_source params with Request.OnDemand => "fg" | Request.ScheduledTask => "bg" end%string) ∧
  (∀ v, (Request.HEADER_APP_ID, v) ∈ builder_headers b ↔
     head (Request.id <$> Request.apps r) = Some v).
Proof.
  cbn zeta. destruct (rb_run_rest ops (request_builder_new config params)) as (Hc & Hp & _ & _).
  pose proof (builder_entries_eq config params ops) as He.
  unfold builder_request, builder_headers. rewrite Hc, Hp, He.
  cbn [rb_config rb_params request_builder_new Request.apps].
  split_and!; try done.
  - by rewrite <-!list_fmap_compose.
  - intros v. destruct (first_apps _); cbn; set_solver.
  - intros v. destruct (first_apps _); cbn; set_solver.
Qed.
