(* ===== verification/CupKeys.v ===== *)
(** * Keys of the Client Update Protocol as text, and its support for tests ([cup_ecdsa.rs])

    Public keys are configured as JSON, each key in its PEM form.  [test_support] has keys and
    handlers for tests: a handler that fails as it is told, and the signature an honest server
    makes. *)

From S2P Require Import Prelude Serde UriExt Http Cup RequestBuilder.
From S2P Require Request.
Open Scope Z_scope.

(** [FromStr] and [EncodePublicKey] of [p256]'s keys. *)
Class PemCrate `{EcdsaSign} := {
  pem_error : Type;
  public_key_from_str : string → result PublicKey pem_error;
  to_public_key_pem : PublicKey → result string pem_error;
  signing_key_from_str : string → result SigningKey pem_error;
}.
Class PemLaws `{PemCrate} : Prop := {
  pem_roundtrip k s : to_public_key_pem k = Ok s → public_key_from_str s = Ok k;
}.

(** ** [Serialize] and [Deserialize] *)

Section json.
Context `{PemCrate}.

(** [from_pem], [to_pem]. *)
Definition from_pem : Deserialize PublicKey := λ j,
  let? s := string_deserialize j in map_err (λ _, CustomError) (public_key_from_str s).
Definition to_pem (public_key : PublicKey) : result Json DataError :=
  let? s := map_err (λ _, CustomError) (to_public_key_pem public_key) in Ok (JStr s).

Definition public_key_and_id_json (k : PublicKeyAndId) : result Json DataError :=
  let? pem := to_pem (key k) in Ok (JObj [("key", pem); ("id", JNum (key_id k))]%string).
#[export] Instance public_key_and_id_deserialize : Deserialize PublicKeyAndId := λ j,
  let? m := struct_members ["key"; "id"]%string j in
  let? key := field from_pem "key" m in
  let? id := field read_u64 "id" m in
  Ok (mkPublicKeyAndId key id).

Fixpoint public_key_list_json (l : list PublicKeyAndId) : result (list Json) DataError :=
  match l with
  | [] => Ok []
  | k :: l' =>
    let? j := public_key_and_id_json k in let? js := public_key_list_json l' in Ok (j :: js)
  end.
Definition public_keys_json (ks : PublicKeys) : result Json DataError :=
  let? latest := public_key_and_id_json (latest ks) in
  let? historical := public_key_list_json (historical ks) in
  Ok (JObj [("latest", latest); ("historical", JArr historical)]%string).
#[export] Instance public_keys_deserialize : Deserialize PublicKeys := λ j,
  let? m := struct_members ["latest"; "historical"]%string j in
  let? latest := field public_key_and_id_deserialize "latest" m in
  let? historical := field list_deserialize "historical" m in
  Ok (mkPublicKeys latest historical).

(** The ids are [u64]s. *)
Definition public_keys_typed (ks : PublicKeys) : Prop :=
  in_u64 (key_id (latest ks)) ∧ Forall (λ k, in_u64 (key_id k)) (historical ks).
End json.

(** ** [test_support] *)

Section test_support.
Context `{UriCrate, SerdeJson, HttpCrate, HexCrate, Sha2Crate, EcdsaSign, !PemCrate}.

(** The two PEM files of the repository. *)
Context (RAW_PRIVATE_KEY_FOR_TEST RAW_PUBLIC_KEY_FOR_TEST : string).

Definition make_default_public_key_id_for_test : PublicKeyId := 123456789.
Definition make_default_private_key_for_test : outcome SigningKey :=
  unwrap_ok (signing_key_from_str RAW_PRIVATE_KEY_FOR_TEST).
Definition make_default_public_key_for_test : outcome PublicKey :=
  unwrap_ok (public_key_from_str RAW_PUBLIC_KEY_FOR_TEST).
Definition make_keys_for_test : outcome (SigningKey * PublicKey) :=
  sk ← make_default_private_key_for_test;
  pk ← make_default_public_key_for_test;
  Ret (sk, pk).
Definition make_public_keys_for_test (public_key_id : PublicKeyId) (public_key : PublicKey)
    : PublicKeys :=
  mkPublicKeys (mkPublicKeyAndId public_key public_key_id) [].
Definition make_default_public_keys_for_test : outcome PublicKeys :=
  '(_, public_key) ← make_keys_for_test;
  Ret (make_public_keys_for_test make_default_public_key_id_for_test public_key).
Definition make_default_json_public_keys_for_test : Json := JObj [
  ("historical", JArr []);
  ("latest", JObj [("id", JNum make_default_public_key_id_for_test);
     ("key", JStr RAW_PUBLIC_KEY_FOR_TEST)])]%string.
Definition make_cup_handler_for_test : outcome StandardCupv2Handler :=
  '(_, public_key) ← make_keys_for_test;
  Ret (standard_cupv2_handler_new
    (make_public_keys_for_test make_default_public_key_id_for_test public_key)).

(** The signature of an honest server. *)
Definition make_expected_signature_for_test (signing_key : SigningKey)
    (request_metadata : RequestMetadata) (response_body : bytes) : bytes :=
  der_as_ref (to_der (sign signing_key
    (make_transaction_hash (request_body request_metadata) response_body
      (public_key_id request_metadata) (nonce request_metadata)))).

(** [MockCupv2Handler]: the two functions by what they return; [generated] is the key that
    [SigningKey::generate] draws. *)
Record MockCupv2Handler : Type := mkMockCupv2Handler {
  decoration_error : option CupDecorationError;
  verification_error : option CupVerificationError;
  generated : SigningKey;
}.
Definition mock_cup_new (generated : SigningKey) : MockCupv2Handler :=
  mkMockCupv2Handler None None generated.
Definition set_decoration_error (e : option CupDecorationError) (self : MockCupv2Handler)
    : MockCupv2Handler :=
  mkMockCupv2Handler e (verification_error self) (generated self).
Definition set_verification_error (e : option CupVerificationError) (self : MockCupv2Handler)
    : MockCupv2Handler :=
  mkMockCupv2Handler (decoration_error self) e (generated self).

Definition mock_cup_decorate_request {R} (self : MockCupv2Handler) (drawn : Nonce) (request : R)
    : result RequestMetadata CupDecorationError * R :=
  match decoration_error self with
  | Some e => (Err e, request)
  | None => (Ok (mkRequestMetadata [] 0 (mkNonce (replicate 32 x00))), request)
  end.
Definition mock_cup_verify_with_signature (self : MockCupv2Handler) (ecdsa_signature : DerSignature)
    (request_body response_body : bytes) (public_key_id : PublicKeyId) (nonce : Nonce)
    : result unit CupVerificationError :=
  match verification_error self with Some e => Err e | None => Ok tt end.
(** The signature is made on the spot, and is not looked at. *)
Definition mock_cup_verify_response (self : MockCupv2Handler) (request_metadata : RequestMetadata)
    (resp : HttpResp) (public_key_id : PublicKeyId)
    : outcome (result DerSignature CupVerificationError) :=
  signature ← unwrap_ok (der_from_bytes
    (make_expected_signature_for_test (generated self) request_metadata (resp_body resp)));
  Ret (let? _ := mock_cup_verify_with_signature self signature (request_body request_metadata)
         (resp_body resp) public_key_id (nonce request_metadata) in
       Ok signature).

(** [impl Cupv2RequestHandler], [impl Cupv2Verifier]: as the DER form of a signature is read back, the
    [unwrap] of it returns the signature. *)
#[export] Instance mock_cup_handler : Cupv2Handler MockCupv2Handler | 100 := {|
  decorate_request R _ := mock_cup_decorate_request;
  verify_response self md resp id :=
    let signature := to_der (sign (generated self)
      (make_transaction_hash (request_body md) (resp_body resp) (public_key_id md) (nonce md))) in
    let? _ := mock_cup_verify_with_signature self signature (request_body md) (resp_body resp) id
      (nonce md) in
    Ok signature;
  verify_response_with_signature := mock_cup_verify_with_signature;
|}.

Definition make_standard_intermediate_for_test (request : Request.Request) : Intermediate :=
  mkIntermediate "http://fuchsia.dev" [] (Request.mkRequestWrapper request).
End test_support.

(** ** Lemmas *)

Section roundtrip.
Context `{PemLaws}.

Lemma public_key_and_id_roundtrip k j :
  in_u64 (key_id k) → public_key_and_id_json k = Ok j →
  public_key_and_id_deserialize j = Ok k ∧ json_wf 1%nat j.
Proof.
  destruct k as [k i]. intros Hi Hj. apply res_bind_Ok in Hj as (p & Hp & [= <-]).
  apply res_bind_Ok in Hp as (s & Hs%map_err_Ok & [= <-]). cbn in Hi.
  split; [|constructor; [done|constructor; [by right|done]]].
  unfold public_key_and_id_deserialize. cbn [struct_members res_bind].
  rewrite (field_once _ _ _ (JStr s)) by reflexivity. unfold from_pem. cbn [string_deserialize res_bind].
  rewrite (pem_roundtrip _ _ Hs). cbn [map_err res_bind].
  rewrite (field_once _ _ _ (JNum i)) by reflexivity. cbn. by rewrite decide_True.
Qed.
Lemma public_key_list_roundtrip l js :
  Forall (λ k, in_u64 (key_id k)) l → public_key_list_json l = Ok js →
  read_all js = Ok l ∧ Forall (json_wf 1%nat) js.
Proof.
  intros Hl. revert js. induction Hl as [|k l Hk _ IH]; intros js Hj; [by injection Hj as <-|].
  apply res_bind_Ok in Hj as (j & Hj & Hjs). apply res_bind_Ok in Hjs as (js' & Hjs & [= <-]).
  destruct (public_key_and_id_roundtrip k j Hk Hj) as [Hr Hwf]. destruct (IH js' Hjs) as [Hrs Hwfs].
  split; [|by constructor]. cbn [read_all]. unfold deserialize. by rewrite Hr, Hrs.
Qed.
Lemma public_keys_read ks j :
  public_keys_typed ks → public_keys_json ks = Ok j → deserialize j = Ok ks ∧ json_wf 3%nat j.
Proof.
  intros [Hl Hh] Hj. apply res_bind_Ok in Hj as (jl & Hjl & Hj).
  apply res_bind_Ok in Hj as (jh & Hjh & [= <-]).
  destruct (public_key_and_id_roundtrip _ _ Hl Hjl) as [Hrl Hwl].
  destruct (public_key_list_roundtrip _ _ Hh Hjh) as [Hrh Hwh]. split.
  - unfold deserialize, public_keys_deserialize. cbn [struct_members res_bind].
    rewrite (field_once _ _ _ jl) by reflexivity. rewrite Hrl. cbn [res_bind].
    rewrite (field_once _ _ _ (JArr jh)) by reflexivity. cbn [list_deserialize]. rewrite Hrh. by destruct ks.
  - repeat constructor; [by apply (json_wf_le 1); [lia|]|done].
Qed.
End roundtrip.

Lemma mock_cup_verify_returns
    `{UriCrate, SerdeJson, HttpCrate, HexCrate, Sha2Crate, EcdsaSign, !EcdsaSignLaws} self md resp id :
  mock_cup_verify_response self md resp id = Ret (verify_response self md resp id).
Proof. unfold mock_cup_verify_response, make_expected_signature_for_test. by rewrite der_bytes. Qed.

Lemma default_json_read `{PemCrate} raw :
  deserialize (make_default_json_public_keys_for_test raw) =
  match public_key_from_str raw with
  | Ok k => Ok (make_public_keys_for_test make_default_public_key_id_for_test k)
  | Err _ => Err CustomError
  end.
Proof.
  transitivity (let? latest := (let? key := map_err (λ _, CustomError) (public_key_from_str raw) in
    Ok (mkPublicKeyAndId key make_default_public_key_id_for_test)) in Ok (mkPublicKeys latest []));
    [reflexivity|]. by destruct (public_key_from_str raw).
Qed.

(** ** Properties *)

(** C38: public keys survive their JSON.  Keys that were written, with their PEM texts and ids that
    are [u64]s, are read back as they were, through bytes too; and the JSON that the tests are
    configured with reads as the keys that the tests make. *)
Theorem public_keys_roundtrip `{PemLaws} `{SerdeJsonLaws} ks j b raw :
  public_keys_typed ks → public_keys_json ks = Ok j → json_to_vec j = Ok b →
  from_slice b = Ok ks ∧
  deserialize (make_default_json_public_keys_for_test raw) =
    match public_key_from_str raw with
    | Ok k => Ok (make_public_keys_for_test make_default_public_key_id_for_test k)
    | Err _ => Err CustomError
    end.
Proof.
  intros Hty Hj Hb. destruct (public_keys_read ks j Hty Hj) as [Hr Hwf].
  split; [eapply from_slice_to_vec; [|done..]; by apply (json_wf_le 3); [rewrite recursion_limit_S; lia|]|]. apply default_json_read.
Qed.

(** A signature that is made with a key is accepted by the handler that is configured with the
    key, for the request, response and nonce it was made for; and the mock handler's answer does
    not depend on the signature: it accepts every response, or fails as it was told. *)
Theorem expected_signature_accepted
    `{UriCrate, SerdeJson, HttpCrate, HexCrate, Sha2Crate, EcdsaSign, !EcdsaSignLaws} sk id md rsp mock :
  public_key_id md = id →
  (∃ d, der_from_bytes (make_expected_signature_for_test sk md rsp) = Ok d ∧
    verify_response_with_signature
      (standard_cupv2_handler_new (make_public_keys_for_test id (verifying_key sk))) d
      (request_body md) rsp id (nonce md) = Ok tt) ∧
  ∀ resp, match verification_error mock with
          | Some e => mock_cup_verify_response mock md resp id = Ret (Err e)
          | None => ∃ d, mock_cup_verify_response mock md resp id = Ret (Ok d)
          end.
Proof.
  intros <-. split.
  - eexists. split; [apply der_bytes|]. cbn. unfold standard_verify_response_with_signature.
    cbn [parameters_by_id standard_cupv2_handler_new make_public_keys_for_test latest historical foldl
      key key_id]. rewrite lookup_insert_eq. cbn [ok_or res_bind]. rewrite der_bytes. cbn [map_err res_bind].
    rewrite signature_from_to_der. cbn [map_err res_bind]. by rewrite verify_sign.
  - intros resp. rewrite mock_cup_verify_returns. cbn. unfold mock_cup_verify_with_signature.
    destruct (verification_error mock); cbn; eauto.
Qed.

#[local] Existing Instance example_uri.
#[local] Existing Instance example_serde.
#[local] Existing Instance example_serde_laws.
#[local] Existing Instance example_http.
#[local] Existing Instance example_hex.
#[local] Existing Instance example_sha2.
#[local] Existing Instance example_signing.
#[local] Existing Instance example_sign.
#[local] Existing Instance example_sign_laws.
(** A key as a text. *)
#[local] Instance example_pem : PemCrate := {|
  pem_error := unit;
  public_key_from_str s := ok_or (of_text (A := Z) s) tt;
  to_public_key_pem k := Ok (to_text (A := Z) k);
  signing_key_from_str s := ok_or (of_text (A := Z) s) tt;
|}.
#[local] Instance example_pem_laws : PemLaws.
Proof. split. intros k s [= <-]. cbn. by rewrite of_to_text. Qed.

Definition example_key_chain : PublicKeys :=
  mkPublicKeys (mkPublicKeyAndId (7 : Z) 42) [mkPublicKeyAndId (8 : Z) 41].
Definition example_key_chain_json : Json :=
  unwrap_or (res_ok (public_keys_json example_key_chain)) JNull.

Lemma public_keys_roundtrip_witness :
  from_slice (example_text example_key_chain_json) = Ok example_key_chain.
Proof.
  refine (proj1 (public_keys_roundtrip example_key_chain example_key_chain_json
    (example_text example_key_chain_json) EmptyString _ eq_refl eq_refl)).
  split; [split; discriminate|]. repeat constructor; discriminate.
Defined.

Definition example_signing_key : SigningKey := (9 : Z).
Lemma expected_signature_accepted_witness :
  (∃ d, der_from_bytes (make_expected_signature_for_test example_signing_key example_md example_body) = Ok d ∧
    verify_response_with_signature (CH := StandardCupv2Handler)
      (standard_cupv2_handler_new (make_public_keys_for_test 42 (verifying_key example_signing_key))) d
      (request_body example_md) example_body 42 (nonce example_md) = Ok tt) ∧
  mock_cup_verify_response (set_verification_error (Some EtagMalformed) (mock_cup_new example_signing_key)) example_md
    example_cup_resp 42 = Ret (Err EtagMalformed).
Proof.
  destruct (expected_signature_accepted example_signing_key 42 example_md example_body
    (set_verification_error (Some EtagMalformed) (mock_cup_new example_signing_key)) eq_refl) as [Hd Hm].
  split; [exact Hd|]. exact (Hm example_cup_resp).
Defined.
