(* ===== verification/CupTests.v ===== *)
(** * The tests of [cup_ecdsa.rs]

    [nonce] is the nonce that a handler draws.  Keys, signatures, digests and PEM texts are those of
    the example crates; a header whose text is not visible ASCII is not a string. *)

From S2P Require Import Prelude Testing Serde UriExt Http Cup RequestBuilder CupKeys.
From S2P Require Request.
Open Scope Z_scope.

#[local] Existing Instance example_uri.
#[local] Existing Instance example_serde.
#[local] Existing Instance example_hex.
(** A digest of 32 bytes on which every byte of the text has a bearing. *)
Definition digest_byte (n : Z) : byte := unwrap_or (Byte.of_nat (Z.to_nat n)) x00.
#[local] Instance cup_test_sha2 : Sha2Crate := λ b,
  let h := foldl (λ h c, (h * 31 + Z.of_nat (Byte.to_nat c) + 1) mod 65521) 7 b in
  digest_byte (h / 256) :: digest_byte (h mod 256) :: replicate 30 x00.
#[local] Existing Instance example_signing.
#[local] Existing Instance example_sign.
#[local] Instance cup_test_uuid : Request.UuidCrate := example_uuid.
#[local] Instance cup_test_http : HttpCrate := {|
  HttpReq := ExampleReq;
  HttpResp := ExampleResp;
  HeaderValue := string;
  ToStrError := unit;
  StatusCode := Z;
  request_post u h b := Ok (E := unit) (mkExampleReq u h b);
  headers_get r name := snd <$> find_first (λ kv, bool_decide (kv.1 = name)) (resp_headers r);
  header_to_str v :=
    if str_forall (λ c, bool_decide (32 ≤ Z.of_nat (nat_of_ascii c) ≤ 126)) v then Ok v else Err tt;
  resp_status := status_code;
  is_success s := bool_decide (200 ≤ s < 300);
  resp_body := body;
  response_500 := mkExampleResp 500 [] [];
  response_empty := mkExampleResp 200 [] [];
  hyper_is_user (e : unit) := false;
  boxed_hyper_error (e : unit) := e;
|}.
#[local] Instance cup_test_pem : PemCrate := {|
  pem_error := unit;
  public_key_from_str s := ok_or (of_text (A := Z) s) tt;
  to_public_key_pem k := Ok (to_text (A := Z) k);
  signing_key_from_str s := ok_or (of_text (A := Z) s) tt;
|}.
Definition raw_key : string := to_text (9 : Z).
Definition keys_for_test : outcome (SigningKey * PublicKey) := make_keys_for_test raw_key raw_key.

(** The default request. *)
Definition request_default : Request.Request :=
  Request.mkRequest EmptyString EmptyString EmptyString Request.install_source_default false None None
    (Request.mkOS EmptyString EmptyString EmptyString EmptyString) [].
Definition zero_nonce : Nonce := mkNonce (replicate 32 x00).

(** Which error it is ([impl PartialEq for CupVerificationError]: the errors by their texts). *)
Definition error_code (e : CupVerificationError) : nat :=
  match e with
  | EtagHeaderMissing => 0
  | EtagNotString _ => 1
  | EtagMalformed => 2
  | RequestHashMalformed => 3
  | RequestHashMismatch => 4
  | SignatureMalformed => 5
  | SpecifiedPublicKeyIdMissing => 6
  | SignatureError _ => 7
  end.
Definition error_of (r : result DerSignature CupVerificationError) : option nat :=
  match r with Ok _ => None | Err e => Some (error_code e) end.

(** The value of a parameter of the query of a URI. *)
Definition query_value (name : string) (uri : string) : option string :=
  u ← res_ok (uri_parse uri);
  q ← uri_query u;
  find_first (λ kv, bool_decide (kv.1 = name)) (omap (split_once "=") (split_on "&" q)) ≫= λ kv, Some kv.2.

(** The handler with the key of the tests, and an intermediate that it decorates. *)
Definition handler_of (id : PublicKeyId) : outcome StandardCupv2Handler :=
  '(_, public_key) ← keys_for_test;
  Ret (standard_cupv2_handler_new (make_public_keys_for_test id public_key)).
Definition decorated (nonce : Nonce) (cup_handler : StandardCupv2Handler) (intermediate : Intermediate)
    : outcome (RequestMetadata * Intermediate) :=
  match decorate_request cup_handler nonce intermediate with
  | (Ok request_metadata, intermediate) => Ret (request_metadata, intermediate)
  | (Err _, _) => Panic "the test returns an error"
  end.
Definition intermediate_for_test : Intermediate := make_standard_intermediate_for_test request_default.

Section tests.
Context (nonce : Nonce).

Definition test_standard_cup_handler_decorate : outcome unit :=
  let public_key_id := 42 in
  cup_handler ← handler_of public_key_id;
  '(request_metadata, intermediate) ← decorated nonce cup_handler intermediate_for_test;
  cup2key_value ← unwrap (query_value "cup2key" (uri intermediate));
  '(public_key_decimal, nonce_hex) ← unwrap (split_once ":" cup2key_value);
  assert_eq public_key_decimal (show_uint public_key_id);;
  assert_eq nonce_hex (nonce_display (Cup.nonce request_metadata));;
  assert_ne (Cup.nonce request_metadata) zero_nonce.

Definition test_standard_cup_handler_decorate_ipv6_link_local : outcome unit :=
  let public_key_id := 42 in
  cup_handler ← handler_of public_key_id;
  let intermediate := mkIntermediate "http://[::1%eth0]" [] (Request.mkRequestWrapper request_default) in
  '(request_metadata, intermediate) ← decorated nonce cup_handler intermediate;
  assert_eq (uri intermediate) ("http://[::1%eth0]/?cup2key=" +:+ show_uint public_key_id +:+ ":" +:+
    nonce_display (Cup.nonce request_metadata));;
  assert_ne (Cup.nonce request_metadata) zero_nonce.

(** The answer to a response with these headers. *)
Definition foo_body : bytes := String.list_byte_of_string "foo".
Definition verified (headers : list (string * string)) : outcome (option nat) :=
  let public_key_id := 12345 in
  cup_handler ← handler_of public_key_id;
  '(request_metadata, _) ← decorated nonce cup_handler intermediate_for_test;
  let response := mkExampleResp 200 headers foo_body in
  Ret (error_of (verify_response (CH := StandardCupv2Handler) cup_handler request_metadata response public_key_id)).
Definition test_verify_response_missing_etag_header : outcome unit :=
  e ← verified []; assert_eq e (Some (error_code EtagHeaderMissing)).
(** The bytes of the character [U+FEFF]. *)
Definition test_verify_response_malformed_etag_header : outcome unit :=
  e ← verified [(ETAG, String.string_of_list_byte [xef; xbb; xbf])];
  assert_eq e (Some (error_code (EtagNotString tt))).

Definition test_verify_cached_signature_against_message : outcome unit :=
  '(priv_key, public_key) ← keys_for_test;
  let response_body := String.list_byte_of_string "bar" in
  let correct_public_key_id := 24682468 in
  let wrong_public_key_id := 12341234 in
  let cup_handler :=
    standard_cupv2_handler_new (make_public_keys_for_test correct_public_key_id public_key) in
  '(request_metadata, intermediate) ← decorated nonce cup_handler intermediate_for_test;
  body ← unwrap_ok (serialize_body intermediate);
  let expected_request_metadata := mkRequestMetadata body correct_public_key_id (Cup.nonce request_metadata) in
  let expected_hash_hex := hex_encode (sha256 (request_body request_metadata)) in
  let expected_signature :=
    hex_encode (make_expected_signature_for_test priv_key expected_request_metadata response_body) in
  foldl (λ passed case,
    passed;;
    let '(etag, public_key_id, expected_err) := case in
    let response := mkExampleResp 200 [(ETAG, etag)] response_body in
    assert_eq (error_of (verify_response (CH := StandardCupv2Handler) cup_handler request_metadata response public_key_id))
      (error_code <$> expected_err)) (Ret tt)
    [("bar", correct_public_key_id, Some EtagMalformed);
     ("foo:bar", correct_public_key_id, Some RequestHashMalformed);
     ("foo:" +:+ hex_encode (replicate 32 x01), correct_public_key_id, Some RequestHashMismatch);
     ("foo:" +:+ expected_hash_hex, correct_public_key_id, Some SignatureMalformed);
     (hex_encode (replicate 64 x01) +:+ ":" +:+ expected_hash_hex, correct_public_key_id,
       Some (SignatureError tt));
     (expected_signature +:+ ":" +:+ expected_hash_hex, wrong_public_key_id,
       Some SpecifiedPublicKeyIdMissing);
     (expected_signature +:+ ":" +:+ expected_hash_hex, correct_public_key_id, None)]%string.

(** A request that is decorated, and the response to it that is signed. *)
Definition make_verify_response_arguments (request_handler : StandardCupv2Handler)
    (drawn : Nonce) (private_key : SigningKey) (response_body : string) : outcome (RequestMetadata * HttpResp) :=
  '(request_metadata, _) ← decorated drawn request_handler intermediate_for_test;
  let signature := hex_encode (make_expected_signature_for_test private_key request_metadata
    (String.list_byte_of_string response_body)) in
  let etag := signature +:+ ":" +:+ hex_encode (sha256 (request_body request_metadata)) in
  Ret (request_metadata, mkExampleResp 200 [(ETAG, etag)] (String.list_byte_of_string response_body)).

(** Each request draws a nonce of its own. *)
Definition test_historical_verification (nonce_b : Nonce) : outcome unit :=
  '(private_key_a, public_key_a) ← keys_for_test;
  let public_key_id_a := 24682468 in
  let cup_handler := standard_cupv2_handler_new
    (mkPublicKeys (mkPublicKeyAndId public_key_a public_key_id_a) []) in
  '(request_metadata_a, response_a) ← make_verify_response_arguments cup_handler nonce private_key_a "foo";
  assert_matches (is_ok (verify_response (CH := StandardCupv2Handler) cup_handler request_metadata_a response_a public_key_id_a));;
  '(private_key_b, public_key_b) ← keys_for_test;
  let public_key_id_b := 12341234 in
  let cup_handler := standard_cupv2_handler_new
    (mkPublicKeys (mkPublicKeyAndId public_key_b public_key_id_b)
       [mkPublicKeyAndId public_key_a public_key_id_a]) in
  '(request_metadata_b, response_b) ← make_verify_response_arguments cup_handler nonce_b private_key_b "bar";
  assert_matches (is_ok (verify_response (CH := StandardCupv2Handler) cup_handler request_metadata_b response_b public_key_id_b));;
  assert_matches (is_ok (verify_response (CH := StandardCupv2Handler) cup_handler request_metadata_a response_a public_key_id_a));;
  assert (negb (is_ok (verify_response (CH := StandardCupv2Handler) cup_handler request_metadata_a response_a public_key_id_b)));;
  assert (negb (is_ok (verify_response (CH := StandardCupv2Handler) cup_handler request_metadata_a response_b public_key_id_a)));;
  assert (negb (is_ok (verify_response (CH := StandardCupv2Handler) cup_handler request_metadata_b response_a public_key_id_a))).

Definition nonce_tests (nonce_b : Nonce) : list (outcome unit) :=
  [test_standard_cup_handler_decorate; test_standard_cup_handler_decorate_ipv6_link_local;
   test_verify_response_missing_etag_header; test_verify_response_malformed_etag_header;
   test_verify_cached_signature_against_message; test_historical_verification nonce_b].
End tests.

Definition test_deserialize_public_keys : outcome unit :=
  let* public_key_and_id := unwrap_ok (deserialize (A := PublicKeyAndId)
    (JObj [("id", JNum 123); ("key", JStr raw_key)]%string)) in
  let* expected := make_default_public_key_for_test raw_key in
  assert_eq (A := Z) (key public_key_and_id) expected.

Definition test_publickeys_roundtrip : outcome unit :=
  let* public_keys := make_default_public_keys_for_test raw_key raw_key in
  let* json := unwrap_ok (public_keys_json public_keys) in
  let* serialized := unwrap_ok (json_to_string json) in
  let* reconstituted := unwrap_ok (from_str (A := PublicKeys) serialized) in
  assert_eq (A := (Z * Z) * list (Z * Z))
    ((key (latest public_keys), key_id (latest public_keys)),
     (λ k, (key k, key_id k)) <$> historical public_keys)
    ((key (latest reconstituted), key_id (latest reconstituted)),
     (λ k, (key k, key_id k)) <$> historical reconstituted).

(** A text in which [`] stands for the double quote. *)
Fixpoint quoted (s : string) : string :=
  match s with
  | EmptyString => EmptyString
  | String c s => String (if decide (c = "`"%char) then dquote else c) (quoted s)
  end.
Definition test_parse_etag : outcome unit :=
  assert_eq (parse_etag (quoted "W/`foo`")) "foo"%string;;
  assert_eq (parse_etag (quoted "W/`thing-`with`-quotes`")) (quoted "thing-`with`-quotes");;
  assert_eq (parse_etag (quoted "W/``")) ""%string;;
  assert_eq (parse_etag (quoted "`foo`")) "foo"%string;;
  assert_eq (parse_etag (quoted "`thing-`with`-quotes`")) (quoted "thing-`with`-quotes");;
  assert_eq (parse_etag (quoted "``")) ""%string;;
  foldl (λ passed v, passed;; assert_eq (parse_etag (quoted v)) (quoted v)) (Ret tt)
    ["foo"; "1"; "W"; "W`"; "W/`"; "W/"; "w/`bar`"; "W/'bar'"; ""]%string.

(** The nonces that the tests draw are not zero, and differ. *)
Definition cup_tests : list (outcome unit) :=
  nonce_tests (mkNonce (replicate 32 x07)) (mkNonce (replicate 32 x08)) ++
  [test_deserialize_public_keys; test_publickeys_roundtrip; test_parse_etag].
Lemma cup_tests_pass : all_pass cup_tests = true.
Proof. vm_compute. reflexivity. Qed.
