(* ===== verification/Server.v ===== *)
(** * The mock server ([mock-omaha-server/src/lib.rs])

    A server that answers the client's requests as it is configured, and signs what it serves.  A
    [serde_json::Value] is a [Json], and its accessors are the projections of that type.  The
    objects that [json!] makes have their members in the order of their names, as a
    [serde_json::Map] keeps them. *)

From Stdlib Require Import Strings.String.
From S2P Require Import Prelude Serde Time Version Protocol Storage Common UriExt Http Cup RequestBuilder.
From S2P Require Request.
Open Scope Z_scope.

(** ** Third-party code *)

(** The [url] crate: parsing, and the pairs of the query, percent-decoded. *)
Class UrlCrate := {
  Url : Type;
  url_error : Type;
  url_parse : string → result Url url_error;
  query_pairs : Url → list (string * string);
}.
(** Characters that stand for themselves in a pair of a query. *)
Definition is_plain (c : ascii) : bool := is_hex_digit c || bool_decide (c = ":"%char).
(** An absolute URL with a host parses whatever its path is, and a plain pair is itself. *)
Class UrlLaws `{UrlCrate} : Prop := {
  first_pair path value :
    str_in "?" path = false → str_in "#" path = false → str_forall is_plain value = true →
    ∃ u l, url_parse ("https://example.com/" +:+ path +:+ "?cup2key=" +:+ value) = Ok u ∧
      query_pairs u = ("cup2key", value)%string :: l;
}.

(** The [http] crate's test of a header value; what is plain is one. *)
Class HeaderCrate := valid_header_value : string → bool.

(** ** Data *)

Inductive OmahaResponse : Type := NoUpdate | Update | UrgentUpdate | InvalidResponse | InvalidURL.
#[export] Instance OmahaResponse_eq_dec : EqDecision OmahaResponse.
Proof. solve_decision. Defined.

Inductive UpdateCheckAssertion : Type := UpdatesEnabled | UpdatesDisabled.

Record ResponseAndMetadata : Type := mkResponseAndMetadata {
  rm_response : OmahaResponse;
  check_assertion : UpdateCheckAssertion;
  rm_version : option string;
  cohort_assertion : option string;
  codebase : string;
  package_name : string;
}.
Definition response_and_metadata_default : ResponseAndMetadata :=
  mkResponseAndMetadata NoUpdate UpdatesEnabled (Some "0.1.2.3") None
    "fuchsia-pkg://integration.test.fuchsia.com/"
    "update?hash=deadbeefdeadbeefdeadbeefdeadbeefdeadbeefdeadbeefdeadbeefdeadbeef".

Definition ResponseMap : Type := gmap string ResponseAndMetadata.

(** The derived [Deserialize] of a configuration; a [HashMap] is read from an object. *)
#[export] Instance omaha_response_deserialize : Deserialize OmahaResponse := λ j,
  let? (variant, content) := enum_variant j in
  if decide (variant = "NoUpdate"%string) then unit_variant NoUpdate content
  else if decide (variant = "Update"%string) then unit_variant Update content
  else if decide (variant = "UrgentUpdate"%string) then unit_variant UrgentUpdate content
  else if decide (variant = "InvalidResponse"%string) then unit_variant InvalidResponse content
  else if decide (variant = "InvalidURL"%string) then unit_variant InvalidURL content
  else Err UnknownVariant.
#[export] Instance assertion_deserialize : Deserialize UpdateCheckAssertion := λ j,
  let? (variant, content) := enum_variant j in
  if decide (variant = "UpdatesEnabled"%string) then unit_variant UpdatesEnabled content
  else if decide (variant = "UpdatesDisabled"%string) then unit_variant UpdatesDisabled content
  else Err UnknownVariant.
#[export] Instance response_and_metadata_deserialize : Deserialize ResponseAndMetadata := λ j,
  let? m := struct_members
    ["response"; "check_assertion"; "version"; "cohort_assertion"; "codebase"; "package_name"]%string j in
  let? response := field omaha_response_deserialize "response" m in
  let? check_assertion := field assertion_deserialize "check_assertion" m in
  let? version := opt_field string_deserialize "version" m in
  let? cohort_assertion := opt_field string_deserialize "cohort_assertion" m in
  let? codebase := field string_deserialize "codebase" m in
  let? package_name := field string_deserialize "package_name" m in
  Ok (mkResponseAndMetadata response check_assertion version cohort_assertion codebase package_name).
Fixpoint read_response_map (m : list (string * Json)) (acc : ResponseMap) : result ResponseMap DataError :=
  match m with
  | [] => Ok acc
  | (id, j) :: m' => let? r := response_and_metadata_deserialize j in read_response_map m' (<[id := r]> acc)
  end.
#[export] Instance response_map_deserialize : Deserialize ResponseMap := λ j,
  match j with JObj m => read_response_map m ∅ | _ => Err InvalidType end.

Section data.
Context `{EcdsaSign}.

Record PrivateKeyAndId : Type := mkPrivateKeyAndId {
  private_key_id : PublicKeyId;
  private_key : SigningKey;
}.
Record PrivateKeys : Type := mkPrivateKeys {
  latest_key : PrivateKeyAndId;
  historical_keys : list PrivateKeyAndId;
}.

(** [PrivateKeys::find]. *)
Definition private_keys_find (self : PrivateKeys) (id : PublicKeyId) : option SigningKey :=
  if decide (private_key_id (latest_key self) = id) then Some (private_key (latest_key self))
  else private_key <$> find_first (λ pair, bool_decide (private_key_id pair = id)) (historical_keys self).

Record OmahaServer : Type := mkOmahaServer {
  responses_by_appid : ResponseMap;
  private_keys : PrivateKeys;
  etag_override : option string;
  require_cup : bool;
}.

(** [set_all_update_check_assertions], [set_all_cohort_assertions]. *)
Definition set_all_update_check_assertions (value : UpdateCheckAssertion) (self : OmahaServer)
    : OmahaServer :=
  mkOmahaServer ((λ r, mkResponseAndMetadata (rm_response r) value (rm_version r)
      (cohort_assertion r) (codebase r) (package_name r)) <$> responses_by_appid self)
    (private_keys self) (etag_override self) (require_cup self).
Definition set_all_cohort_assertions (value : option string) (self : OmahaServer) : OmahaServer :=
  mkOmahaServer ((λ r, mkResponseAndMetadata (rm_response r) (check_assertion r) (rm_version r)
      value (codebase r) (package_name r)) <$> responses_by_appid self)
    (private_keys self) (etag_override self) (require_cup self).
End data.

(** What the handlers see of an HTTP request, and what they make of the response.  The body may
    fail to arrive. *)
Record ServerRequest : Type := mkServerRequest {
  is_post : bool;
  request_path : string;
  request_uri : string;
  received_body : option bytes;
}.
Record ServerResponse : Type := mkServerResponse {
  response_status : Z;
  content_length : Z;
  response_etag : option string;
  response_body : bytes;
}.
Inductive ServerError : Type := FailedToReadBody.

(** ** [serde_json::Value] *)

Definition json_get (key : string) (v : Json) : option Json :=
  match v with JObj members => member key members | _ => None end.
Definition as_str (v : Json) : option string := match v with JStr s => Some s | _ => None end.
Definition as_bool (v : Json) : option bool := match v with JBool b => Some b | _ => None end.
Definition as_array (v : Json) : option (list Json) := match v with JArr l => Some l | _ => None end.

(** ** The answer to an app *)

Section server.
Context `{SerdeJson, HttpCrate, HexCrate, Sha2Crate, EcdsaSign, UrlCrate, HeaderCrate}.

(** The [updatecheck] of an answer. *)
Definition manifest_json (package : string) : Json := JObj [
  ("actions", JObj [("action", JArr [
     JObj [("event", JStr "install"); ("run", JStr package)];
     JObj [("event", JStr "postinstall")]])]);
  ("packages", JObj [("package", JArr [
     JObj [("fp", JStr "2.0.1.2.3"); ("name", JStr package); ("required", JBool true)]])]);
  ("version", JStr "0.1.2.3")]%string.
Definition update_json (codebase package : string) : list (string * Json) := [
  ("manifest", manifest_json package);
  ("status", JStr "ok");
  ("urls", JObj [("url", JArr [JObj [("codebase", JStr codebase)]])])]%string.
Definition updatecheck_json (expected : ResponseAndMetadata) : Json :=
  match rm_response expected with
  | Update => JObj (update_json (codebase expected) (package_name expected))
  | UrgentUpdate => JObj (("_urgent_update", JBool true) ::
      update_json (codebase expected) (package_name expected))
  | NoUpdate => JObj [("status", JStr "noupdate")]
  | InvalidResponse => JObj [("invalid_status", JStr "invalid")]
  | InvalidURL => JObj (update_json "http://integration.test.fuchsia.com/" (package_name expected))
  end%string.
Definition app_answer_members (appid : Json) : list (string * Json) := [
  ("appid", appid); ("cohort", JStr "1:1:"); ("cohorthint", JStr "integration-test");
  ("cohortname", JStr "integration-test"); ("status", JStr "ok")]%string.

(** Whether the request has updates disabled, and what is asserted of that. *)
Definition updates_disabled (update_check : Json) : outcome bool :=
  match json_get "updatedisabled" update_check with
  | Some v => unwrap (as_bool v)
  | None => Ret false
  end.
Definition assertion_holds (a : UpdateCheckAssertion) (updatedisabled : bool) : bool :=
  match a with UpdatesEnabled => negb updatedisabled | UpdatesDisabled => updatedisabled end.

(** The closure that answers one app of a request. *)
Definition answer_app (responses : ResponseMap) (app : Json) : outcome Json :=
  appid ← unwrap (json_get "appid" app);
  id ← unwrap (as_str appid);
  expected ← unwrap (responses !! id);
  match rm_version expected with
  | Some expected_version =>
    version ← unwrap (json_get "version" app);
    assert (match version with JStr s => bool_decide (s = expected_version) | _ => false end)
  | None => Ret tt
  end;;
  match json_get "updatecheck" app with
  | Some update_check =>
    updatedisabled ← updates_disabled update_check;
    assert (assertion_holds (check_assertion expected) updatedisabled);;
    match cohort_assertion expected with
    | Some cohort_assertion =>
      cohort ← unwrap (json_get "cohort" app);
      cohort ← unwrap (as_str cohort);
      assert (bool_decide (cohort = cohort_assertion))
    | None => Ret tt
    end;;
    Ret (JObj (app_answer_members appid ++ [("updatecheck"%string, updatecheck_json expected)]))
  | None =>
    assert (opt_is_some (json_get "event" app));;
    Ret (JObj (app_answer_members appid))
  end.

(** The response to a request, with the answers to its apps. *)
Definition response_json (apps : list Json) : Json := JObj [
  ("response", JObj [
     ("app", JArr apps);
     ("daystart", JObj [("elapsed_days", JNum 4775); ("elapsed_seconds", JNum 48810)]);
     ("protocol", JStr "3.0"); ("server", JStr "prod")])]%string.

(** ** The signature *)

(** [make_etag]. *)
Definition make_etag (request_body : bytes) (uri : string) (private_keys : PrivateKeys)
    (response_data : bytes) : outcome (option string) :=
  if decide (uri = "/"%string) then Ret None
  else
    parsed_uri ← unwrap (res_ok (url_parse ("https://example.com" +:+ uri)));
    '(cup2key_key, cup2key_val) ← unwrap (head (query_pairs parsed_uri));
    assert (bool_decide (cup2key_key = "cup2key"%string));;
    '(public_key_id_str, _) ← unwrap (split_once ":" cup2key_val);
    public_key_id ← unwrap (parse_uint u64_max public_key_id_str);
    match private_keys_find private_keys public_key_id with
    | Some private_key =>
      let request_hash := sha256 request_body in
      let response_hash := sha256 response_data in
      let transaction_hash :=
        sha256 (request_hash ++ response_hash ++ list_byte_of_string cup2key_val) in
      let sig := sign private_key transaction_hash in
      Ret (Some (hex_encode (der_as_ref (to_der sig)) +:+ ":" +:+ hex_encode request_hash))
    | None => Ret None
    end.

(** ** The handlers *)

(** The apps of a request. *)
Definition request_apps (req_json : Json) : outcome (list Json) :=
  request ← unwrap (json_get "request" req_json);
  apps ← unwrap (json_get "app" request);
  unwrap (as_array apps).

(** The number of apps with an update check must be that of the configured ones, if there is one. *)
Definition count_matches (responses : ResponseMap) (apps : list Json) : bool :=
  let x := length (filter (λ app, opt_is_some (json_get "updatecheck" app) = true) apps) in
  bool_decide (x = 0%nat) || bool_decide (x = size responses).

(** The end of [handle_omaha_request]: the ETag and the response. *)
Definition sign_response (self : OmahaServer) (uri : string) (req_body response_data : bytes)
    : outcome ServerResponse :=
  induced_etag ← make_etag req_body uri (private_keys self) response_data;
  assert (negb (require_cup self && negb (opt_is_some induced_etag)));;
  let etag := match etag_override self with Some e => Some e | None => induced_etag end in
  assert (match etag with Some e => valid_header_value e | None => true end);;
  Ret (mkServerResponse 200 (Z.of_nat (length response_data)) etag response_data).

(** The part of it that has the body of the request: the answer, signed. *)
Definition answer_request (self : OmahaServer) (uri : string) (req_body : bytes)
    : outcome ServerResponse :=
  req_json ← unwrap (res_ok (from_slice (A := Json) req_body));
  apps ← request_apps req_json;
  assert (count_matches (responses_by_appid self) apps);;
  apps ← mapM (answer_app (responses_by_appid self)) apps;
  response_data ← unwrap (res_ok (json_to_vec (response_json apps)));
  sign_response self uri req_body response_data.

(** [handle_omaha_request]; without a configuration the answer is an empty one. *)
Definition handle_omaha_request (self : OmahaServer) (req : ServerRequest)
    : outcome (result ServerResponse ServerError) :=
  assert (is_post req);;
  if decide (responses_by_appid self = ∅) then Ret (Ok (mkServerResponse 500 0 None []))
  else
    match received_body req with
    | None => Ret (Err FailedToReadBody)
    | Some req_body => response ← answer_request self (request_uri req) req_body; Ret (Ok response)
    end.

(** [handle_set_responses]: the new configuration replaces the old one. *)
Definition handle_set_responses (self : OmahaServer) (req : ServerRequest)
    : outcome (result ServerResponse ServerError * OmahaServer) :=
  assert (is_post req);;
  match received_body req with
  | None => Ret (Err FailedToReadBody, self)
  | Some req_body =>
    responses ← unwrap (res_ok (from_slice (A := ResponseMap) req_body));
    Ret (Ok (mkServerResponse 200 0 None []),
         mkOmahaServer responses (private_keys self) (etag_override self) (require_cup self))
  end.

(** [handle_request]. *)
Definition handle_request (self : OmahaServer) (req : ServerRequest)
    : outcome (result ServerResponse ServerError * OmahaServer) :=
  if decide (request_path req = "/set_responses_by_appid"%string) then handle_set_responses self req
  else response ← handle_omaha_request self req; Ret (response, self).
End server.

(** ** The reference behaviour *)

(** The members the server reads of an app. *)
Definition read_members : list string := ["appid"; "version"; "updatecheck"; "event"; "cohort"].
(** An app whose extra fields leave them alone. *)
Definition plain_app (a : Request.App) : Prop :=
  Forall (λ kv : string * string, kv.1 ∉ read_members) (Request.extra_fields a).

(** The apps that the configuration has an answer for. *)
Definition app_accepted (responses : ResponseMap) (a : Request.App) : bool :=
  match responses !! Request.id a with
  | None => false
  | Some expected =>
    match rm_version expected with Some v => bool_decide (Request.version a = v) | None => true end
    && match Request.update_check a with
       | Some uc =>
         assertion_holds (check_assertion expected) (Request.disabled uc)
         && match cohort_assertion expected with
            | Some c => bool_decide (Request.cohort a ≫= cohort_id = Some c)
            | None => true
            end
       | None => negb (bool_decide (Request.events a = []))
       end
  end.

(** The answer to an app. *)
Definition app_answer (responses : ResponseMap) (a : Request.App) : Json :=
  JObj (app_answer_members (JStr (Request.id a)) ++
    match Request.update_check a, responses !! Request.id a with
    | Some _, Some expected => [("updatecheck"%string, updatecheck_json expected)]
    | _, _ => []
    end).

(** The requests that the server is configured for, by their apps. *)
Definition well_configured (responses : ResponseMap) (apps : list Request.App) : bool :=
  let x := length (filter (λ a, opt_is_some (Request.update_check a) = true) apps) in
  (bool_decide (x = 0%nat) || bool_decide (x = size responses))
  && forallb (app_accepted responses) apps.

(** The path and the query of a URI, as a server gets them. *)
Definition origin_form `{UriCrate} (u : Uri) : string :=
  uri_path u +:+ match uri_query u with Some q => "?" +:+ q | None => EmptyString end.

(** The server signs with the key that the client prefers. *)
Definition has_key_of `{EcdsaSign} (ks : Cup.PublicKeys) (server : OmahaServer) : Prop :=
  in_u64 (key_id (latest ks)) ∧ Forall (λ k, key_id k ≠ key_id (latest ks)) (historical ks) ∧
  ∃ sk, private_keys_find (private_keys server) (key_id (latest ks)) = Some sk ∧
    verifying_key sk = key (latest ks).

(** What the server receives of a request to a URI, and the client of a response. *)
Definition delivered `{UriCrate} (u : Uri) (body : bytes) (req : ServerRequest) : Prop :=
  request_uri req = origin_form u ∧ received_body req = Some body.
Definition sent_back `{HttpCrate} (rsp : ServerResponse) (resp : HttpResp) : Prop :=
  resp_body resp = response_body rsp ∧
  ∀ e, response_etag rsp = Some e →
    ∃ hv, headers_get resp ETAG = Some hv ∧ header_to_str hv = Ok e.

(** ** The crates of the examples *)

(** The query of a URL, and its pairs. *)
Definition example_pair (t : string) : string * string :=
  match split_once "=" t with Some kv => kv | None => (t, EmptyString) end.
Definition example_url_crate : UrlCrate := {|
  Url := string;
  url_error := unit;
  url_parse s := Ok match split_once "?" s with Some (_, q) => q | None => EmptyString end;
  query_pairs q := example_pair <$> split_on "&" q;
|}.

(** An app, a request about it and its text; a server that reads this text, and what it serves. *)
Definition example_request_app : Request.App :=
  Request.mkApp "app" "1.2.3.4" None None (Some (Request.mkUpdateCheck false false)) [] None
    [("brand", "fuchsia")]%string.
Definition example_request : Request.Request :=
  Request.mkRequest PROTOCOL_V3 "updater" "1.2.3.4" Request.OnDemand true None None
    (Request.mkOS "platform" "0.1.2.3" "sp" "arch") [example_request_app].
Definition example_request_json : Json :=
  @Request.request_wrapper_json example_uuid (Request.mkRequestWrapper example_request).
Definition example_request_body : bytes := example_text example_request_json.
Definition example_server : @OmahaServer example_signing example_sign :=
  @mkOmahaServer example_signing example_sign
    {["app"%string := mkResponseAndMetadata UrgentUpdate UpdatesEnabled (Some "1.2.3.4") None
        "fuchsia-pkg://example.com/" "update?hash=00"]}%string
    (@mkPrivateKeys example_signing example_sign (@mkPrivateKeyAndId example_signing example_sign 42 7) [])
    None true.
Definition example_client_keys : @PublicKeys example_signing :=
  @mkPublicKeys example_signing (@mkPublicKeyAndId example_signing 7 42) [].
Definition example_service : @Uri example_uri :=
  unwrap_or (res_ok (example_uri_parse "http://example.com/")) (mkParts None None None).
Definition example_decorated : @Uri example_uri :=
  unwrap_or (res_ok (example_uri_parse "http://example.com/?cup2key=42:01ff")) (mkParts None None None).
Definition example_served_json : Json :=
  response_json [app_answer (responses_by_appid example_server) example_request_app].
Definition example_served : bytes := example_text example_served_json.

(** ** Lemmas *)

Lemma unwrap_Ret {A} (o : option A) a : unwrap o = Ret a ↔ o = Some a.
Proof. destruct o; cbn; naive_solver. Qed.
Lemma bind_Ret {A B} (o : outcome A) (k : A → outcome B) b :
  (o ≫= k) = Ret b ↔ ∃ a, o = Ret a ∧ k a = Ret b.
Proof. destruct o; cbn; naive_solver. Qed.
Lemma assert_Ret b x : assert b = Ret x ↔ b = true.
Proof. destruct b, x; cbn; naive_solver. Qed.

(** What the server reads of an app of the client. *)
Lemma json_get_app a k :
  plain_app a → k ∈ read_members → json_get k (Request.app_json a) = member k (Request.app_own_members a).
Proof.
  intros Hp Hk. unfold json_get, Request.app_json, Request.app_members.
  rewrite member_app, member_fresh; [done|].
  apply Forall_fmap. eapply Forall_impl; [exact Hp|]. intros [x v] Hx Heq. cbn in *. by subst.
Qed.

Lemma read_app a :
  plain_app a →
  json_get "appid" (Request.app_json a) = Some (JStr (Request.id a)) ∧
  json_get "version" (Request.app_json a) = Some (JStr (Request.version a)) ∧
  json_get "updatecheck" (Request.app_json a) = Request.update_check_json <$> Request.update_check a ∧
  opt_is_some (json_get "event" (Request.app_json a)) = negb (bool_decide (Request.events a = [])) ∧
  json_get "cohort" (Request.app_json a) = JStr <$> (Request.cohort a ≫= cohort_id).
Proof.
  intros Hp. rewrite !json_get_app by (done || by repeat constructor).
  unfold Request.app_own_members, cohort_members.
  destruct (Request.cohort a) as [[[] [] []]|], (Request.events a), (Request.fingerprint a),
    (Request.update_check a), (Request.ping a); cbn; by split_and!.
Qed.

Lemma read_disabled uc : updates_disabled (Request.update_check_json uc) = Ret (Request.disabled uc).
Proof. by destruct uc as [[] []]. Qed.

(** The closure answers exactly the accepted apps. *)
Lemma answer_app_spec responses a :
  plain_app a →
  match answer_app responses (Request.app_json a) with
  | Ret j => app_accepted responses a = true ∧ j = app_answer responses a
  | Panic _ => app_accepted responses a = false
  end.
Proof.
  intros Hp. destruct (read_app a Hp) as (Hid & Hv & Hu & He & Hc).
  set (j := Request.app_json a) in *. clearbody j.
  unfold answer_app, app_accepted, app_answer. rewrite Hid. cbn.
  destruct (responses !! Request.id a) as [e|]; [|done]. cbn. rewrite Hv, Hu, Hc. cbn.
  destruct (rm_version e) as [v|]; cbn;
    [destruct (bool_decide (Request.version a = v)); cbn; [|done]|];
    (destruct (Request.update_check a) as [uc|]; cbn;
      [rewrite read_disabled; cbn; destruct (assertion_holds _ _); cbn; [|done];
       destruct (cohort_assertion e) as [c|]; cbn; [|by split];
       destruct (Request.cohort a ≫= cohort_id) as [c'|]; cbn; [|done]|
       rewrite He; by case_bool_decide]);
  (destruct (decide (c' = c)) as [->|Hne];
    [rewrite !bool_decide_true by done; by split|rewrite !bool_decide_false by congruence; done]).
Qed.

(** What the server reads of a request of the client. *)
Lemma read_request `{Request.UuidCrate} r :
  request_apps (Request.request_wrapper_json (Request.mkRequestWrapper r)) =
    Ret (Request.app_json <$> Request.apps r).
Proof.
  unfold request_apps, Request.request_wrapper_json, Request.request_json. cbn [json_get].
  change (member "request" [("request"%string, ?x)]) with (Some x). cbn [unwrap mbind outcome_bind].
  assert (member "app" (Request.request_members r) = Some (JArr (Request.app_json <$> Request.apps r)))
    as Ha by (unfold Request.request_members; by rewrite !member_app).
  cbn [json_get Request.request]. by rewrite Ha.
Qed.

Lemma count_filter (l : list Request.App) :
  Forall plain_app l →
  length (filter (λ app, opt_is_some (json_get "updatecheck" app) = true) (Request.app_json <$> l)) =
  length (filter (λ a, opt_is_some (Request.update_check a) = true) l).
Proof.
  induction 1 as [|a l Hp _ IH]; [done|]. rewrite fmap_cons, !filter_cons.
  destruct (read_app a Hp) as (_ & _ & -> & _).
  destruct (Request.update_check a); cbn [fmap option_fmap option_map opt_is_some].
  - rewrite !decide_True by done. cbn. by rewrite IH.
  - by rewrite !decide_False by done.
Qed.

Lemma answer_apps responses (l : list Request.App) js :
  Forall plain_app l →
  mapM (answer_app responses) (Request.app_json <$> l) = Ret js ↔
  forallb (app_accepted responses) l = true ∧ js = app_answer responses <$> l.
Proof.
  intros Hl. revert js. induction Hl as [|a l Hp _ IH]; intros js;
    [split; [by intros [= <-]|by intros [_ ->]]|].
  cbn [fmap list_fmap mapM forallb]. pose proof (answer_app_spec responses a Hp) as Ha.
  destruct (answer_app responses (Request.app_json a)) as [j|msg]; cbn [mbind outcome_bind].
  - destruct Ha as [-> ->]. destruct (mapM (answer_app responses) _) as [js'|msg].
    + destruct (proj1 (IH js') eq_refl) as [-> ->]. split; [by intros [= <-]|by intros [_ ->]].
    + split; [done|]. intros [Hall ->]. by specialize (proj2 (IH _) (conj Hall eq_refl)).
  - rewrite Ha. split; [done|by intros [[=] _]].
Qed.

(** When a response is signed. *)
Lemma sign_response_Ret
    `{UriCrate, SerdeJson, HexCrate, Sha2Crate, EcdsaSign, UrlCrate, HeaderCrate} self uri body data rsp :
  sign_response self uri body data = Ret rsp ↔
  ∃ induced, make_etag body uri (private_keys self) data = Ret induced ∧
    (require_cup self = true → is_Some induced) ∧
    let etag := match etag_override self with Some e => Some e | None => induced end in
    (∀ e, etag = Some e → valid_header_value e = true) ∧
    rsp = mkServerResponse 200 (Z.of_nat (length data)) etag data.
Proof.
  unfold sign_response. generalize (make_etag body uri (private_keys self) data). intros etag.
  generalize (etag_override self) (require_cup self). intros over cup.
  split.
  - destruct etag as [induced|]; [|done]. cbn.
    destruct (cup && negb (opt_is_some induced)) eqn:Hc; [done|]. cbn.
    destruct (match over with Some e => Some e | None => induced end) as [e|] eqn:He; cbn.
    + destruct (valid_header_value e) eqn:Hv; [|done]. intros [= <-]. exists induced.
      rewrite He. split_and!; try done; [|by intros x [= <-]].
      intros ->. by destruct induced; [eexists|].
    + intros [= <-]. exists induced. rewrite He. split_and!; try done.
      intros ->. by destruct induced; [eexists|].
  - intros (induced & -> & Hc & Hv & ->). cbn.
    assert (cup && negb (opt_is_some induced) = false) as ->.
    { destruct cup; [|done]. by destruct (Hc eq_refl) as [x ->]. }
    cbn. destruct (match over with Some e => Some e | None => induced end) as [e|]; [|done].
    by rewrite (Hv e eq_refl).
Qed.

(** What is answered to a request, once there is a configuration, is signed. *)
Lemma handle_omaha_request_signs
    `{UriCrate, SerdeJson, HexCrate, Sha2Crate, EcdsaSign, UrlCrate, HeaderCrate}
    self req body rsp :
  handle_omaha_request self req = Ret (Ok rsp) → responses_by_appid self ≠ ∅ →
  received_body req = Some body → ∃ data, sign_response self (request_uri req) body data = Ret rsp.
Proof.
  unfold handle_omaha_request, answer_request. intros Hrsp Hne Hbody.
  destruct (is_post req); [|done]. cbn [assert mbind outcome_bind] in Hrsp.
  rewrite decide_False, Hbody in Hrsp by done. apply bind_Ret in Hrsp as (rsp' & Hans & [= ->]).
  do 4 apply bind_Ret in Hans as (? & _ & Hans). apply bind_Ret in Hans as (data & _ & Hans). eauto.
Qed.

(** Which requests are answered, and with what. *)
Lemma answer_request_Ret
    `{UriCrate, SerdeJson, !SerdeJsonLaws, HexCrate, Sha2Crate, EcdsaSign, UrlCrate, HeaderCrate,
      Request.UuidCrate} self uri body r rsp :
  json_to_vec (Request.request_wrapper_json (Request.mkRequestWrapper r)) = Ok body →
  Request.request_typed r →
  Forall plain_app (Request.apps r) →
  answer_request self uri body = Ret rsp ↔
  well_configured (responses_by_appid self) (Request.apps r) = true ∧
  ∃ data induced,
    json_to_vec (response_json (app_answer (responses_by_appid self) <$> Request.apps r)) = Ok data ∧
    make_etag body uri (private_keys self) data = Ret induced ∧
    (require_cup self = true → is_Some induced) ∧
    let etag := match etag_override self with Some e => Some e | None => induced end in
    (∀ e, etag = Some e → valid_header_value e = true) ∧
    rsp = mkServerResponse 200 (Z.of_nat (length data)) etag data.
Proof.
  intros Hbody Htyped Hplain. unfold answer_request.
  rewrite (value_of_to_vec _ _ (Request.request_wrapper_json_wf r Htyped) Hbody).
  cbn [res_ok unwrap mbind outcome_bind].
  rewrite read_request. cbn [mbind outcome_bind]. unfold well_configured, count_matches.
  rewrite count_filter by done. set (ok := bool_decide _ || bool_decide _).
  destruct ok; [|by split; [|intros [[=] _]]]. cbn [assert mbind outcome_bind andb].
  pose proof (answer_apps (responses_by_appid self) (Request.apps r)) as Happs.
  destruct (mapM _ _) as [js|msg].
  2: { split; [done|]. intros [Hall _]. by specialize (proj2 (Happs _ Hplain) (conj Hall eq_refl)). }
  destruct (proj1 (Happs js Hplain) eq_refl) as [-> ->]. cbn [mbind outcome_bind].
  destruct (json_to_vec (response_json _)) as [data|e]; cbn [res_ok unwrap mbind outcome_bind].
  - rewrite sign_response_Ret. split.
    + intros (induced & H'). split; [done|]. by exists data, induced.
    + intros (_ & data' & induced & [= <-] & H'). by exists induced.
  - by split; [|intros (_ & ? & ? & [=] & _)].
Qed.

(** The value of the CUP parameter stands for itself in a URL. *)
Lemma urlparam_plain `{HexCrate, !HexLaws} id n : str_forall is_plain (cup2_urlparam id n) = true.
Proof.
  unfold cup2_urlparam, nonce_display. rewrite !str_forall_app.
  assert (str_forall is_plain (hex_encode (nonce_bytes n)) = true) as ->.
  { eapply str_forall_impl, hex_encode_digits. intros c Hc. unfold is_plain. by rewrite Hc. }
  assert (∀ d, (d < 10)%N → is_plain (pretty_N_char d) = true) as Hd.
  { intros d Hd. assert (d = 0 ∨ d = 1 ∨ d = 2 ∨ d = 3 ∨ d = 4 ∨ d = 5 ∨ d = 6 ∨ d = 7 ∨ d = 8 ∨ d = 9)%N
      as Hn by lia. by repeat destruct Hn as [->|Hn]; subst. }
  by rewrite show_uint_forall.
Qed.

(** The signature of a request that carries the CUP parameter alone. *)
Lemma make_etag_signs
    `{UriCrate, HexCrate, !HexLaws, Sha2Crate, EcdsaSign, UrlCrate, !UrlLaws} body path id n keys data sk :
  str_in "?" path = false → str_in "#" path = false → in_u64 id → private_keys_find keys id = Some sk →
  make_etag body ("/" +:+ path +:+ "?cup2key=" +:+ cup2_urlparam id n) keys data =
    Ret (Some (etag_text (der_as_ref (to_der (sign sk (make_transaction_hash body data id n)))) body)).
Proof.
  intros Hq Hf Hid Hsk. unfold make_etag. rewrite decide_False by (intros Heq; by destruct path).
  destruct (first_pair path (cup2_urlparam id n) Hq Hf (urlparam_plain id n)) as (u & l & Hu & Hl).
  assert ("https://example.com" +:+ "/" +:+ path +:+ "?cup2key=" +:+ cup2_urlparam id n =
    "https://example.com/" +:+ path +:+ "?cup2key=" +:+ cup2_urlparam id n) as -> by done.
  rewrite Hu. cbn [res_ok unwrap mbind outcome_bind]. rewrite Hl.
  cbn [head unwrap mbind outcome_bind]. rewrite bool_decide_true by done. cbn [assert mbind outcome_bind].
  assert (split_once ":" (cup2_urlparam id n) = Some (show_uint id, nonce_display n)) as ->.
  { unfold cup2_urlparam. rewrite str_app_cons, str_app_nil_l. apply split_once_app. auto with omaha. }
  cbn [unwrap mbind outcome_bind]. rewrite parse_show_uint by done.
  cbn [unwrap mbind outcome_bind]. by rewrite Hsk.
Qed.

(** What the server signs, the client accepts. *)
Lemma signed_is_accepted
    `{UriCrate, !UriLaws, SerdeJson, HttpCrate, HexCrate, !HexLaws, Sha2Crate, EcdsaSign, !EcdsaSignLaws,
      UrlCrate, !UrlLaws, HeaderCrate} {R} `{!CupRequest R}
    ks (server : OmahaServer) n (request request' : R) md u u' path sreq rsp resp :
  let h := standard_cupv2_handler_new ks in
  has_key_of ks server → etag_override server = None → responses_by_appid server ≠ ∅ →
  uri_parse (get_uri request) = Ok u → uri_path u = String "/" path → uri_query u = None →
  decorate_request h n request = (Ok md, request') →
  append_query_parameter u "cup2key" (cup2_urlparam (latest_public_key_id h) n) = Ok u' →
  delivered u' (request_body md) sreq →
  handle_omaha_request server sreq = Ret (Ok rsp) →
  sent_back rsp resp →
  ∃ sig, verify_response h md resp (public_key_id md) = Ok sig.
Proof.
  intros h (Hid & Hhist & sk & Hsk & Hvk) Hover Hne Hu Hpath Hquery Hdec Happ [Huri Hbody] Hrsp [Hb He].
  (* What the server got. *)
  assert (md = mkRequestMetadata (request_body md) (key_id (latest ks)) n) as Hmd.
  { cbn in Hdec. unfold standard_decorate_request in Hdec. rewrite Hu, Happ in Hdec.
    destruct (get_serialized_body _) in Hdec; by simplify_eq. }
  assert (origin_form u' = "/" +:+ path +:+ "?cup2key=" +:+ cup2_urlparam (key_id (latest ks)) n) as Hform.
  { destruct (append_query_parameter_spec u "cup2key" _ u' Happ) as (_ & _ & Hp & Hq);
      [done|apply urlparam_no_fragment|]. unfold origin_form. by rewrite Hp, Hq, Hpath, Hquery. }
  destruct (uri_path_clean u) as [Hq Hf]. rewrite Hpath in Hq, Hf. cbn in Hq, Hf.
  (* What it made of it. *)
  apply handle_omaha_request_signs with (body := request_body md) in Hrsp as (data & Hsign); [|done..].
  rewrite Huri, Hform in Hsign. apply sign_response_Ret in Hsign as (ind & Hind & _ & _ & ->).
  rewrite (make_etag_signs _ _ _ _ _ _ sk) in Hind by done. injection Hind as <-.
  rewrite Hover in He. destruct (He _ eq_refl) as (hv & Hhv & Hstr).
  (* What the client makes of that. *)
  rewrite Hmd. set (raw := der_as_ref _) in *. set (body := request_body md) in *.
  destruct (etag_text_head raw body) as (c & s' & Ht & Hc & Hw).
  eexists. apply standard_verify_response_Ok.
  exists hv, (etag_text raw body), (hex_encode raw), (hex_encode (sha256 body)), raw, (key (latest ks)).
  eexists _, _. cbn [public_key_id nonce request_body].
  rewrite (parse_etag_plain _ _ _ Ht Hc Hw), !hex_decode_encode, Hb, <-Hvk. unfold raw.
  split_and!; try done; try apply der_bytes; try apply signature_from_to_der; try apply verify_sign.
  - unfold etag_text. rewrite str_app_cons, str_app_nil_l. by apply split_once_app, hex_not_in.
  - unfold h. rewrite Hvk. by apply new_lookup_latest.
Qed.

(** The crates of the examples keep the laws. *)
Lemma example_url_laws : @UrlLaws example_url_crate.
Proof.
  split. intros path value Hq _ Hv. cbn.
  assert ("https://example.com/" +:+ path +:+ "?cup2key=" +:+ value =
    ("https://example.com/" +:+ path) +:+ String "?" ("cup2key=" +:+ value)) as ->
    by (rewrite str_app_assoc; done).
  eexists _, []. split; [by rewrite split_once_app by by rewrite str_in_app, Hq|].
  rewrite split_on_none; [done|]. rewrite str_in_app. by eapply str_forall_not_in.
Qed.

(** ** Properties *)

(** C18: a client gets along with the mock server.  When the server has the key the client prefers,
    a response for some app and no ETag that overrides the signature, and the client decorates a
    request to a service URL without a query, then whatever response the server sends to it, the
    client accepts as authentic: the body it sent back, signed for this request, this key id and
    this nonce. *)
Theorem client_accepts_mock_server
    `{UriCrate, !UriLaws, SerdeJson, HttpCrate, HexCrate, !HexLaws, Sha2Crate, EcdsaSign, !EcdsaSignLaws,
      UrlCrate, !UrlLaws, HeaderCrate} {R} `{!CupRequest R}
    ks (server : OmahaServer) n (request request' : R) md u u' path sreq rsp resp :
  let h := standard_cupv2_handler_new ks in
  has_key_of ks server → etag_override server = None → responses_by_appid server ≠ ∅ →
  uri_parse (get_uri request) = Ok u → uri_path u = String "/" path → uri_query u = None →
  decorate_request h n request = (Ok md, request') →
  append_query_parameter u "cup2key" (cup2_urlparam (latest_public_key_id h) n) = Ok u' →
  delivered u' (request_body md) sreq →
  handle_omaha_request server sreq = Ret (Ok rsp) →
  sent_back rsp resp →
  ∃ sig, verify_response h md resp (public_key_id md) = Ok sig.
Proof. apply signed_is_accepted. Qed.


#[local] Existing Instance example_uri.
#[local] Existing Instance example_uri_laws.
#[local] Existing Instance example_http.
#[local] Existing Instance example_hex.
#[local] Existing Instance example_hex_laws.
#[local] Existing Instance example_sha2.
#[local] Existing Instance example_serde.
#[local] Existing Instance example_uuid.
#[local] Existing Instance example_cup_request.
#[local] Existing Instance example_signing.
#[local] Existing Instance example_sign.
#[local] Existing Instance example_sign_laws.
#[local] Existing Instance example_url_crate.
#[local] Existing Instance example_url_laws.
#[local] Existing Instance example_serde_laws.
#[local] Instance example_header : HeaderCrate := λ _, true.


Lemma client_accepts_mock_server_witness :
  ∃ rsp sig,
    handle_omaha_request example_server
      (mkServerRequest true "/" "/?cup2key=42:01ff" (Some example_request_body)) = Ret (Ok rsp) ∧
    verify_response (standard_cupv2_handler_new example_client_keys)
      (mkRequestMetadata example_request_body 42 (mkNonce [x01; xff]))
      (mkExampleResp 200 [(ETAG, unwrap_or (response_etag rsp) EmptyString)] (response_body rsp)) 42 = Ok sig.
Proof.
  set (sreq := mkServerRequest _ _ _ _). set (md := mkRequestMetadata _ _ _).
  assert (match handle_omaha_request example_server sreq with Ret (Ok _) => true | _ => false end = true)
    as Hok by (vm_compute; reflexivity).
  destruct (handle_omaha_request example_server sreq) as [[rsp|e]|m] eqn:Hrsp; [|discriminate Hok..].
  clear Hok.
  exists rsp. set (resp := mkExampleResp _ _ _).
  assert (sent_back rsp resp) as Hback.
  { split; [reflexivity|]. intros e He. exists e. unfold resp. rewrite He. by split. }
  clearbody resp.
  refine (match client_accepts_mock_server example_client_keys example_server (mkNonce [x01; xff])
    ("http://example.com/"%string, example_request_body)
    ("http://example.com/?cup2key=42:01ff"%string, example_request_body)
    md example_service example_decorated EmptyString sreq rsp resp
    _ eq_refl _ _ _ _ _ _ _ Hrsp Hback with ex_intro _ sig Hsig => ex_intro _ sig (conj eq_refl Hsig) end).
  - split; [vm_compute; split; discriminate|]. split; [constructor|]. exists 7. split; reflexivity.
  - discriminate.
  - reflexivity.
  - reflexivity.
  - reflexivity.
  - reflexivity.
  - reflexivity.
  - split; reflexivity.
Defined.
