(* ===== verification/ServerProgram.v ===== *)
(** * The mock server as a program ([mock-omaha-server]: [OmahaServer::start], [main.rs])

    [start] serves each connection in a task of its own, and the tasks share the server through a
    mutex.  A handler holds the lock for one statement at most: [handle_omaha_request] takes a copy
    of the server before it reads the body and works on the copy, [handle_set_responses] writes the
    configuration when it has the body.  So handlers interleave; the relation [serves] has their
    steps.  A panic ends the task of one connection; none happens under the lock, so the mutex is
    never poisoned. *)

From S2P Require Import Prelude Serde UriExt Http Cup CupKeys Server.
From S2P Require Request.
Open Scope Z_scope.

(** ** The program's arguments *)

(** [parse_responses_by_appid]; of the error only that there is one. *)
Definition parse_responses_by_appid `{SerdeJson} (value : string) : result ResponseMap unit :=
  map_err (λ _, tt) (from_str (A := ResponseMap) value).

Definition DEFAULT_PRIVATE_KEY_ID : Z := 42.

(** [Args], as [main] uses them. *)
Record Args : Type := mkArgs {
  arg_responses_by_appid : ResponseMap;
  arg_key_id : PublicKeyId;
  arg_key_path : string;
  arg_require_cup : bool;
}.

(** The server that [main] builds; [read_to_string] is the file system, [parse_key] is the crate's
    parser of keys. *)
Definition main_server `{EcdsaSign} (read_to_string : string → option string)
    (parse_key : string → option SigningKey) (args : Args) : outcome OmahaServer :=
  text ← (match read_to_string (arg_key_path args) with
          | Some text => Ret text
          | None => Panic "read from key_path failed"
          end);
  key ← (match parse_key text with
         | Some key => Ret key
         | None => Panic "failed to parse key"
         end);
  Ret (mkOmahaServer (arg_responses_by_appid args)
    (mkPrivateKeys (mkPrivateKeyAndId (arg_key_id args) key) []) None (arg_require_cup args)).

(** [make_default_private_keys_for_test]. *)
Definition make_default_private_keys_for_test `{EcdsaSign, !PemCrate} (RAW_PRIVATE_KEY_FOR_TEST : string)
    : outcome PrivateKeys :=
  key ← make_default_private_key_for_test RAW_PRIVATE_KEY_FOR_TEST;
  Ret (mkPrivateKeys (mkPrivateKeyAndId make_default_public_key_id_for_test key) []).

(** ** Handlers at work *)

Section program.
Context `{SerdeJson, HttpCrate, HexCrate, Sha2Crate, EcdsaSign, UrlCrate, HeaderCrate}.

Definition Served : Type := outcome (result ServerResponse ServerError).

(** What a handler waits with for the body: the copy of the server, or nothing of it. *)
Inductive Handler : Type :=
| Answering (omaha_server : OmahaServer) (req : ServerRequest)
| Setting (req : ServerRequest).
Inductive ServerEvent : Type :=
| Arrived (id : nat) (req : ServerRequest)
| Responded (id : nat) (r : Served).

(** A handler up to the body, and from there. *)
Definition begin_handler (self : OmahaServer) (req : ServerRequest) : Handler :=
  if decide (request_path req = "/set_responses_by_appid"%string) then Setting req
  else Answering self req.
Definition finish_handler (h : Handler) (self : OmahaServer) : Served * OmahaServer :=
  match h with
  | Answering omaha_server req => (handle_omaha_request omaha_server req, self)
  | Setting req =>
    match handle_set_responses self req with
    | Ret (r, self') => (Ret r, self')
    | Panic msg => (Panic msg, self)
    end
  end.

(** The requests that are served, by the number of the request. *)
Inductive serves (s0 : OmahaServer) : list ServerEvent → OmahaServer → gmap nat Handler → Prop :=
| serves_start : serves s0 [] s0 ∅
| serves_arrive l s hs id req :
    serves s0 l s hs → hs !! id = None →
    serves s0 (l ++ [Arrived id req]) s (<[id := begin_handler s req]> hs)
| serves_finish l s hs id h r s' :
    serves s0 l s hs → hs !! id = Some h → finish_handler h s = (r, s') →
    serves s0 (l ++ [Responded id r]) s' (delete id hs).

(** ** The specification: a server that does each request at one moment *)

(** A request as a whole. *)
Definition serve_atomically (self : OmahaServer) (req : ServerRequest) : Served * OmahaServer :=
  match handle_request self req with
  | Ret (r, self') => (Ret r, self')
  | Panic msg => (Panic msg, self)
  end.

(** A request that arrived, before and after its moment. *)
Inductive Pending : Type :=
| Waiting (req : ServerRequest)
| Done (r : Served).
(** [points] has the requests in the order of their moments. *)
Inductive serves_atomically (s0 : OmahaServer)
    : list ServerEvent → list (ServerRequest * Served) → OmahaServer → gmap nat Pending → Prop :=
| atomic_start : serves_atomically s0 [] [] s0 ∅
| atomic_arrive l points s ps id req :
    serves_atomically s0 l points s ps → ps !! id = None →
    serves_atomically s0 (l ++ [Arrived id req]) points s (<[id := Waiting req]> ps)
| atomic_point l points s ps id req r s' :
    serves_atomically s0 l points s ps → ps !! id = Some (Waiting req) →
    serve_atomically s req = (r, s') →
    serves_atomically s0 l (points ++ [(req, r)]) s' (<[id := Done r]> ps)
| atomic_respond l points s ps id r :
    serves_atomically s0 l points s ps → ps !! id = Some (Done r) →
    serves_atomically s0 (l ++ [Responded id r]) points s (delete id ps).

(** The requests done one after the other. *)
Fixpoint serve_in_turn (self : OmahaServer) (reqs : list ServerRequest) : list Served * OmahaServer :=
  match reqs with
  | [] => ([], self)
  | req :: reqs' =>
    let '(r, self) := serve_atomically self req in
    let '(rs, self) := serve_in_turn self reqs' in
    (r :: rs, self)
  end.

(** What a waiting handler is for the specification. *)
Definition pending_of (h : Handler) : Pending :=
  match h with
  | Answering omaha_server req => Done (handle_omaha_request omaha_server req)
  | Setting req => Waiting req
  end.

(** ** Lemmas *)

Lemma serve_set self req :
  request_path req = "/set_responses_by_appid"%string →
  serve_atomically self req = finish_handler (Setting req) self.
Proof. intros Hp. unfold serve_atomically, handle_request. by rewrite decide_True. Qed.
Lemma serve_omaha self req :
  request_path req ≠ "/set_responses_by_appid"%string →
  serve_atomically self req = (handle_omaha_request self req, self).
Proof.
  intros Hp. unfold serve_atomically, handle_request. rewrite decide_False by done.
  by destruct (handle_omaha_request self req).
Qed.

Lemma serve_in_turn_snoc self reqs req rs s r s' :
  serve_in_turn self reqs = (rs, s) → serve_atomically s req = (r, s') →
  serve_in_turn self (reqs ++ [req]) = (rs ++ [r], s').
Proof.
  revert self rs. induction reqs as [|x reqs IH]; intros self rs; cbn.
  - intros [= <- <-] Hr. by rewrite Hr.
  - destruct (serve_atomically self x) as [rx sx]. destruct (serve_in_turn sx reqs) as [rs' s''] eqn:E.
    intros [= <- <-] Hr. by rewrite (IH sx rs' E Hr).
Qed.

Lemma atomic_in_turn s0 l points s ps :
  serves_atomically s0 l points s ps → serve_in_turn s0 points.*1 = (points.*2, s).
Proof.
  induction 1 as [|l points s ps id req _ IH _|l points s ps id req r s' _ IH _ Hr|l points s ps id r _ IH _];
    [done|done| |done].
  rewrite !fmap_app. by eapply serve_in_turn_snoc.
Qed.

(** The handlers at work are requests for one path each. *)
Lemma serves_settings s0 l s hs id req :
  serves s0 l s hs → hs !! id = Some (Setting req) → request_path req = "/set_responses_by_appid"%string.
Proof.
  induction 1 as [|l s hs id' req' _ IH Hid|l s hs id' h r s' _ IH Hid Hr]; [by rewrite lookup_empty| |].
  - destruct (decide (id' = id)) as [->|Hne].
    + rewrite lookup_insert_eq. unfold begin_handler. intros [= Heq]. case_decide; congruence.
    + by rewrite lookup_insert_ne.
  - destruct (decide (id' = id)) as [->|Hne]; [by rewrite lookup_delete_eq|by rewrite lookup_delete_ne].
Qed.

(** The forward simulation: an answer's moment is its arrival, a configuration's its end. *)
Lemma serves_simulated s0 l s hs :
  serves s0 l s hs → ∃ points, serves_atomically s0 l points s (pending_of <$> hs).
Proof.
  induction 1 as [|l s hs id req Hs [points IH] Hid|l s hs id h r s' Hs [points IH] Hid Hr].
  - exists []. rewrite fmap_empty. constructor.
  - rewrite fmap_insert. assert ((pending_of <$> hs) !! id = None) as Hnone by by rewrite lookup_fmap, Hid.
    pose proof (atomic_arrive _ _ _ _ _ id req IH Hnone) as Ha. unfold begin_handler.
    case_decide as Hp; cbn [pending_of]; [by exists points|]. eexists.
    replace (<[id:=Done (handle_omaha_request s req)]> (pending_of <$> hs))
      with (<[id:=Done (handle_omaha_request s req)]> (<[id:=Waiting req]> (pending_of <$> hs)))
      by apply insert_insert_eq.
    eapply atomic_point; [exact Ha|by rewrite lookup_insert_eq|by apply serve_omaha].
  - rewrite fmap_delete. assert ((pending_of <$> hs) !! id = Some (pending_of h)) as Hpend
      by by rewrite lookup_fmap, Hid. destruct h as [srv req|req]; cbn [pending_of] in Hpend.
    + injection Hr as <- <-. exists points. by apply atomic_respond.
    + exists (points ++ [(req, r)]).
      replace (delete id (pending_of <$> hs)) with (delete id (<[id:=Done r]> (pending_of <$> hs)))
        by apply delete_insert_eq.
      apply atomic_respond; [|by rewrite lookup_insert_eq]. eapply atomic_point; [done..|].
      rewrite <-Hr. apply serve_set. by eapply serves_settings.
Qed.

(** ** Properties *)

(** C20: the server serves concurrently what it would serve one request at a time.  However the
    handlers interleave, what is seen of the requests and responses is seen of a server that does
    each request as a whole, at one moment between its arrival and its response: there is an order
    of the requests in which doing them one after the other gives these responses and this
    configuration.  A request that panics changes nothing of the server, and whatever requests are
    still being served, each can be finished at once. *)
Theorem server_linearizable s0 l s hs :
  serves s0 l s hs →
  (∃ points, serves_atomically s0 l points s (pending_of <$> hs) ∧
     serve_in_turn s0 points.*1 = (points.*2, s)) ∧
  (∀ id h, hs !! id = Some h →
     ∃ r s', serves s0 (l ++ [Responded id r]) s' (delete id hs) ∧
       ((∃ msg, r = Panic msg) → s' = s)).
Proof.
  intros Hs. split.
  - destruct (serves_simulated _ _ _ _ Hs) as [points Ha]. exists points. split; [done|].
    by eapply atomic_in_turn.
  - intros id h Hid. destruct (finish_handler h s) as [r s'] eqn:Hr. exists r, s'.
    split; [by eapply serves_finish|]. intros [msg ->]. destruct h as [srv req|req]; cbn in Hr.
    + by injection Hr.
    + destruct (handle_set_responses s req) as [[r' s'']|m]; [done|]. by injection Hr.
Qed.
End program.

#[local] Existing Instance example_http.
#[local] Existing Instance example_hex.
#[local] Existing Instance example_sha2.
#[local] Existing Instance example_serde.
#[local] Existing Instance example_signing.
#[local] Existing Instance example_sign.
#[local] Existing Instance example_url_crate.
#[local] Instance example_header : HeaderCrate := λ _, true.

(** While an update check is answered the configuration is taken away, and a third request, which
    is not a POST, panics. *)
Definition example_check : ServerRequest :=
  mkServerRequest true "/" "/?cup2key=42:01ff" (Some example_request_body).
Definition example_reset : ServerRequest :=
  mkServerRequest true "/set_responses_by_appid" "/set_responses_by_appid" (Some (example_text (JObj []))).
Definition example_get : ServerRequest := mkServerRequest false "/" "/" None.

Definition example_check_served : Served := (finish_handler (begin_handler example_server example_check)
  example_server).1.
Definition example_reset_served : Served * OmahaServer :=
  finish_handler (begin_handler example_server example_reset) example_server.

Definition example_events : list ServerEvent :=
  [Arrived 1 example_check; Arrived 2 example_reset; Responded 2 example_reset_served.1;
   Responded 1 example_check_served; Arrived 3 example_get].

Lemma example_serves :
  serves example_server example_events example_reset_served.2
    (<[3%nat := begin_handler example_reset_served.2 example_get]>
       (delete 1%nat (delete 2%nat (<[2%nat := begin_handler example_server example_reset]>
          (<[1%nat := begin_handler example_server example_check]> ∅))))).
Proof.
  apply (serves_arrive _ [_; _; _; _]);
    [|by rewrite !lookup_delete_ne, !lookup_insert_ne, lookup_empty by done].
  apply (serves_finish _ [_; _; _] example_reset_served.2 _ 1 (begin_handler example_server example_check)).
  - apply (serves_finish _ [_; _] example_server _ 2 (begin_handler example_server example_reset)).
    + apply (serves_arrive _ [_]); [|by rewrite lookup_insert_ne].
      apply (serves_arrive _ []); [constructor|by rewrite lookup_empty].
    + by rewrite lookup_insert_eq.
    + by destruct (finish_handler (begin_handler example_server example_reset) example_server) eqn:E;
        unfold example_reset_served; rewrite E.
  - by rewrite lookup_delete_ne, lookup_insert_ne, lookup_insert_eq.
  - unfold example_check_served, begin_handler. by rewrite !decide_False.
Qed.

Lemma server_linearizable_witness :
  ∃ l s hs, serves example_server l s hs ∧ length l = 5%nat ∧ responses_by_appid s = ∅ ∧
    ∃ points, serves_atomically example_server l points s (pending_of <$> hs) ∧
      serve_in_turn example_server points.*1 = (points.*2, s).
Proof.
  eexists _, _, _. split; [exact example_serves|]. split; [reflexivity|]. split; [reflexivity|].
  exact (proj1 (server_linearizable _ _ _ _ example_serves)).
Defined.
