(* ===== verification/ServerTests.v ===== *)
(** * The tests of [mock-omaha-server/src/lib.rs] and of [http_request/mock.rs]

    The tests of the server are generic in how it is started and in the client; here it listens at
    [server_url], a request is served as a whole, and a client whose connection is dropped, because
    the task that served it panicked, has the error of [hyper]'s that the tests expect. *)

From Stdlib Require Import Strings.String.
From S2P Require Import Prelude Testing Serde UriExt Http Cup RequestBuilder CupKeys CupTests Server.
From S2P Require Import ServerProgram.
Open Scope Z_scope.

(** ** The mock server *)

Module ServerTests.
#[local] Open Scope string_scope.
#[local] Existing Instance example_http.
#[local] Existing Instance example_uri.
#[local] Existing Instance example_serde.
#[local] Existing Instance example_hex.
#[local] Existing Instance cup_test_sha2.
#[local] Existing Instance example_signing.
#[local] Existing Instance example_sign.
#[local] Existing Instance cup_test_pem.
#[local] Existing Instance example_url_crate.
#[local] Instance test_header : HeaderCrate := λ _, true.

(** [OmahaServerBuilder]: what the derived builder makes of the fields that are given. *)
Definition build_server (responses : list (string * ResponseAndMetadata)) (require_cup : bool)
    : outcome OmahaServer :=
  let* private_keys := make_default_private_keys_for_test raw_key in
  Ret (mkOmahaServer (list_to_map responses) private_keys None require_cup).

Definition origin : string := "http://127.0.0.1:8080".
Definition server_url : string := origin +:+ "/".
(** The request that arrives for a URL of the server. *)
Definition post (uri : string) (body : Json) : outcome ServerRequest :=
  let target := String.substring (String.length origin) (String.length uri) uri in
  let path := match split_once "?" target with Some (path, _) => path | None => target end in
  let* body := unwrap_ok (json_to_vec body) in
  Ret (mkServerRequest true path target (Some body)).
Definition client_request (server : OmahaServer) (request : ServerRequest)
    : result ServerResponse string * OmahaServer :=
  match serve_atomically server request with
  | (Ret (Ok response), server) => (Ok response, server)
  | (_, server) => (Err "hyper::Error(IncompleteMessage)", server)
  end.
(** A request that must be answered; an error ends the test. *)
Definition served (server : OmahaServer) (uri : string) (body : Json)
    : outcome (ServerResponse * OmahaServer) :=
  let* request := post uri body in
  match client_request server request with
  | (Ok response, server) => Ret (response, server)
  | (Err e, _) => Panic ("called `Result::unwrap()` on an `Err` value: " +:+ e)
  end.

Definition app_of_request (appid version : string) : Json := JObj [
  ("appid", JStr appid); ("updatecheck", JObj [("updatedisabled", JBool false)]);
  ("version", JStr version)].
Definition request_of (apps : list (string * string)) : Json := JObj [("request",
  JObj [("app", JArr ((λ a, app_of_request a.1 a.2) <$> apps))])].
Definition no_update (version : option string) : ResponseAndMetadata :=
  let d := response_and_metadata_default in
  mkResponseAndMetadata NoUpdate (check_assertion d) version (cohort_assertion d) (codebase d)
    (package_name d).

(** The statuses in the answer to the apps. *)
Definition apps_of_response (response : ServerResponse) : outcome (list Json) :=
  let* obj := unwrap_ok (from_slice (A := Json) (response_body response)) in
  let* response := unwrap (json_get "response" obj) in
  let* apps := unwrap (json_get "app" response) in
  unwrap (as_array apps).
Definition status_of_app (app : Json) : outcome string :=
  let* updatecheck := unwrap (json_get "updatecheck" app) in
  let* status := unwrap (json_get "status" updatecheck) in
  unwrap (as_str status).
Definition assert_statuses (response : ServerResponse) (expected : list string) : outcome unit :=
  assert_eq (response_status response) 200;;
  let* apps := apps_of_response response in
  assert_eq (length apps) (length expected);;
  let* statuses := mapM status_of_app apps in
  assert_eq statuses expected.

(** Without a version that is expected there is no check of it. *)
Definition test_no_validate_version : outcome unit :=
  let* server := build_server [("integration-test-appid-1", no_update None)] false in
  let* (response, _) := served server server_url (request_of [("integration-test-appid-1", "9.9.9.9")]) in
  assert_statuses response ["noupdate"].

Definition test_server_replies : outcome unit :=
  let* server := build_server
    [("integration-test-appid-1", no_update (Some "0.0.0.1"));
     ("integration-test-appid-2", no_update (Some "0.0.0.2"))] false in
  let* (response, server) := served server server_url
    (request_of [("integration-test-appid-1", "0.0.0.1"); ("integration-test-appid-2", "0.0.0.2")]) in
  assert_statuses response ["noupdate"; "noupdate"];;
  let body := JObj [("integration-test-appid-1", JObj [
    ("check_assertion", JStr "UpdatesEnabled");
    ("codebase", JStr "fuchsia-pkg://integration.test.fuchsia.com/");
    ("package_name",
      JStr "update?hash=deadbeefdeadbeefdeadbeefdeadbeefdeadbeefdeadbeefdeadbeefdeadbeef");
    ("response", JStr "Update");
    ("version", JStr "0.0.0.1")])] in
  let* (response, server) := served server (server_url +:+ "set_responses_by_appid") body in
  assert_eq (response_status response) 200;;
  let* (response, _) := served server server_url (request_of [("integration-test-appid-1", "0.0.0.1")]) in
  assert_statuses response ["ok"].

Definition test_no_configured_responses : outcome unit :=
  let* server := build_server [] false in
  let* (response, _) := served server server_url (request_of [("integration-test-appid-1", "0.1.2.3")]) in
  assert_eq (response_status response) 500.

Definition test_server_expect_cup_nopanic : outcome unit :=
  let* server := build_server [("integration-test-appid-1", no_update (Some "0.0.0.1"))] true in
  let* (response, _) := served server
    (server_url +:+ "?cup2key=" +:+ show_uint make_default_public_key_id_for_test +:+ ":nonce")
    (request_of [("integration-test-appid-1", "0.0.0.1")]) in
  assert_eq (response_status response) 200.

Definition test_server_expect_cup_panic : outcome unit :=
  should_panic "hyper::Error(IncompleteMessage)" (
    let* server := build_server [("integration-test-appid-1", no_update (Some "0.0.0.1"))] true in
    served server server_url (request_of [("integration-test-appid-1", "0.0.0.1")])).

Definition server_tests : list (outcome unit) :=
  [test_no_validate_version; test_server_replies; test_no_configured_responses;
   test_server_expect_cup_nopanic; test_server_expect_cup_panic].
End ServerTests.

Lemma server_tests_pass : all_pass ServerTests.server_tests = true.
Proof. vm_compute. reflexivity. Qed.

(** ** The mock of the client *)

Module MockTests.
#[local] Open Scope string_scope.

(** Requests with their methods. *)
Inductive TestMethod : Type := GET | POST.
#[local] Instance method_eq_dec : EqDecision TestMethod.
Proof. solve_decision. Defined.
Record TestReq : Type := mkTestReq {
  test_method : TestMethod;
  test_uri : string;
  test_headers : list (string * string);
  test_bytes : bytes;
}.
Definition request_default : TestReq := mkTestReq GET "/" [] [].
#[local] Instance mock_test_http : HttpCrate := {|
  HttpReq := TestReq;
  HttpResp := ExampleResp;
  HeaderValue := string;
  ToStrError := unit;
  StatusCode := Z;
  request_post u h b := Ok (E := unit) (mkTestReq POST u h b);
  headers_get r name := snd <$> find_first (λ kv, bool_decide (kv.1 = name)) (resp_headers r);
  header_to_str v := Ok v;
  resp_status := status_code;
  is_success s := bool_decide (200 ≤ s < 300);
  resp_body := body;
  response_500 := mkExampleResp 500 [] [];
  response_empty := mkExampleResp 200 [] [];
  hyper_is_user (e : unit) := false;
  boxed_hyper_error (e : unit) := e;
|}.
#[local] Instance mock_test_view : RequestView := {|
  Method := TestMethod;
  request_method := test_method;
  RequestUri := string;
  parse_request_uri := Some;
  Http.request_uri := test_uri;
  request_header r name := snd <$> find_first (λ kv, bool_decide (kv.1 = name)) (test_headers r);
  header_eq_str v s := bool_decide (v = s);
  request_bytes r := Some (test_bytes r);
  from_utf8_lossy := String.string_of_list_byte;
|}.

Definition response_new (body : bytes) : ExampleResp := mkExampleResp 200 [] body.
(** [mock.request(req).await.unwrap()]. *)
Definition requested (req : TestReq) (mock : MockHttpRequest) : outcome (ExampleResp * MockHttpRequest) :=
  let '(response, mock) := http_request req mock in
  let* response := unwrap_ok response in
  Ret (response, mock).

Definition test_mock : outcome unit :=
  let res_body := [x01; x02; x03] in
  let mock := mock_http_new (response_new res_body) in
  let req_body := [x04; x05; x06] in
  let uri := "https://mock.uri/" in
  let req := mkTestReq GET uri [("X-Custom-Foo", "Bar")] req_body in
  let* (response, mock) := requested req mock in
  assert_eq res_body (body response);;
  assert_method (H := mock_test_http) GET mock;;
  assert_uri uri mock;;
  assert_header "X-Custom-Foo" "Bar" mock;;
  let* _ := assert_body req_body mock in
  Ret tt.

Definition test_missing_response : outcome unit :=
  let res_body := [x01; x02; x03] in
  let mock := mock_http_new (response_new res_body) in
  let* (response, mock) := requested request_default mock in
  assert_eq res_body (body response);;
  let* (response2, _) := requested request_default mock in
  assert_eq (status_code response2) 500.

Definition test_multiple_responses : outcome unit :=
  let res_body := [x01; x02; x03] in
  let mock := mock_http_new (response_new res_body) in
  let res_body2 := [x04; x05; x06] in
  let mock := mock_add_response (response_new res_body2) mock in
  let* (response, mock) := requested request_default mock in
  assert_eq res_body (body response);;
  let* (response2, _) := requested request_default mock in
  assert_eq res_body2 (body response2).

Definition mock_tests : list (outcome unit) :=
  [test_mock; test_missing_response; test_multiple_responses].
End MockTests.

Lemma mock_tests_pass : all_pass MockTests.mock_tests = true.
Proof. vm_compute. reflexivity. Qed.
