(* ===== verification/Metrics.v ===== *)
(** * Metrics ([metrics.rs], [metrics/stub.rs], [metrics/mock.rs]) *)

From S2P Require Import Prelude Time.
From S2P Require Request.
Open Scope Z_scope.

Inductive ClockType : Type := ClockMonotonic | ClockWall.
#[export] Instance ClockType_eq_dec : EqDecision ClockType.
Proof. solve_decision. Defined.

Inductive UpdateCheckFailureReason : Type :=
| FailureOmaha | FailureNetwork | FailureProxy | FailureConfiguration | FailureInternal.
#[export] Instance UpdateCheckFailureReason_eq_dec : EqDecision UpdateCheckFailureReason.
Proof. solve_decision. Defined.
(** The discriminants. *)
Definition failure_reason_repr (r : UpdateCheckFailureReason) : Z :=
  match r with
  | FailureOmaha => 0
  | FailureNetwork => 1
  | FailureProxy => 2
  | FailureConfiguration => 3
  | FailureInternal => 4
  end.

Inductive Metrics : Type :=
| UpdateCheckResponseTime (response_time : Duration) (successful : bool)
| UpdateCheckInterval (interval : Duration) (clock : ClockType)
    (install_source : Request.InstallSource)
| SuccessfulUpdateDuration (d : Duration)
| SuccessfulUpdateFromFirstSeen (d : Duration)
| FailedUpdateDuration (d : Duration)
| UpdateCheckFailure (reason : UpdateCheckFailureReason)
| RequestsPerCheck (count : Z) (successful : bool)
| AttemptsToSuccessfulCheck (count : Z)
| AttemptsToSuccessfulInstall (count : Z) (successful : bool)
| WaitedForRebootDuration (d : Duration)
| OmahaEventLost (e : Request.Event).
#[export] Instance Metrics_eq_dec : EqDecision Metrics.
Proof. solve_decision. Defined.

(** [anyhow::Error]. *)
Class Anyhow := anyhow_error : Type.

(** The trait [MetricsReporter]; a [&mut T] and an [Rc<RefCell<T>>] pass the call on, so they are
    the same state here. *)
Class MetricsReporter `{Anyhow} (MR : Type) :=
  report : Metrics → MR → result unit anyhow_error * MR.

Section reporters.
Context `{Anyhow}.

Inductive StubMetricsReporter : Type := mkStubMetricsReporter.
#[export] Instance stub_metrics_reporter : MetricsReporter StubMetricsReporter :=
  λ _ self, (Ok tt, self).

(** [MockMetricsReporter] keeps what it is told, whether or not it then fails. *)
Record MockMetricsReporter : Type := mkMockMetricsReporter {
  should_fail : bool;
  metrics : list Metrics;
}.
Definition mock_metrics_new : MockMetricsReporter := mkMockMetricsReporter false [].
Definition mock_metrics_new_failing : MockMetricsReporter := mkMockMetricsReporter true [].
Definition mock_report (should_fail_error : anyhow_error) (m : Metrics) (self : MockMetricsReporter)
    : result unit anyhow_error * MockMetricsReporter :=
  (if should_fail self then Err should_fail_error else Ok tt,
   mkMockMetricsReporter (should_fail self) (metrics self ++ [m])).
End reporters.
