(* ===== verification/Installer.v ===== *)
(** * Installers ([installer.rs], [installer/stub.rs]) and the progress they report
    ([state_machine/observer.rs]) *)

From S2P Require Import Prelude Http Cup RequestBuilder Metrics.
From S2P Require Response.
Open Scope Z_scope.

(** The trait [Plan]. *)
Class Plan (PL : Type) := plan_id : PL → string.

Inductive AppInstallResult (E : Type) : Type :=
| Installed
| Deferred
| Failed (e : E).
Arguments Installed {E}.
Arguments Deferred {E}.
Arguments Failed {E} e.
(** [impl From<Result<(), E>> for AppInstallResult<E>]. *)
Definition app_install_result_from {E} (r : result unit E) : AppInstallResult E :=
  match r with Ok _ => Installed | Err e => Failed e end.

(** One call of [ProgressObserver::receive_progress]; an [f32] is its 32 bits. *)
Definition f32 : Type := Z.
Record ProgressCall : Type := mkProgressCall {
  operation : option string;
  progress_of_call : f32;
  total_size : option Z;
  size_so_far : option Z;
}.
Record InstallProgress : Type := mkInstallProgress { progress : f32 }.
#[export] Instance InstallProgress_eq_dec : EqDecision InstallProgress.
Proof. solve_decision. Defined.
(** [StateMachineProgressObserver::receive_progress]: what goes into the channel. *)
Definition receive_progress (c : ProgressCall) : InstallProgress :=
  mkInstallProgress (progress_of_call c).

(** The trait [Installer].  [perform_install] gives the calls it made to its observer, in order. *)
Class Installer `{Anyhow} (IN IR PL : Type) := {
  installer_error : Type;
  perform_install : PL → IN → list ProgressCall * (IR * list (AppInstallResult installer_error)) * IN;
  perform_reboot : IN → result unit anyhow_error * IN;
  try_create_install_plan : RequestParams → option RequestMetadata → Response.Response → bytes →
    option bytes → IN → result PL installer_error;
}.

(** ** The stub *)

Inductive StubInstallErrors : Type := StubFailed.
#[export] Instance StubInstallErrors_eq_dec : EqDecision StubInstallErrors.
Proof. solve_decision. Defined.
Inductive StubPlan : Type := mkStubPlan.
#[export] Instance stub_plan : Plan StubPlan := λ _, EmptyString.
Record StubInstaller : Type := mkStubInstaller { installer_should_fail : bool }.

#[export] Instance stub_installer `{Anyhow} : Installer StubInstaller unit StubPlan := {|
  installer_error := StubInstallErrors;
  perform_install _ self :=
    ([], (tt, if installer_should_fail self then [Failed StubFailed] else [Installed]), self);
  perform_reboot self := (Ok tt, self);
  try_create_install_plan _ _ response _ _ _ :=
    if decide (Response.protocol_version response = "3.0"%string) then Ok mkStubPlan
    else Err StubFailed;
|}.
