(* ===== verification/Policy.v ===== *)
(** * Policies ([policy.rs], [policy/stub.rs], [policy/mock.rs])

    The trait [PolicyEngine] is the class the state machine is written against; [Policy] is the
    stateless half of it, which an engine calls with the data it gathered.  Computing the next
    update time may panic: the engines add to times and unwrap options there. *)

From S2P Require Import Prelude Time Common RequestBuilder Metrics Installer.
From S2P Require Request.
Open Scope Z_scope.

Record PolicyData : Type := mkPolicyData { current_time : ComplexTime }.

Inductive CheckDecision : Type :=
| CheckOk (rp : RequestParams)
| CheckOkUpdateDeferred (rp : RequestParams)
| TooSoon
| ThrottledByPolicy
| CheckDeniedByPolicy.
#[export] Instance CheckDecision_eq_dec : EqDecision CheckDecision.
Proof. solve_decision. Defined.

Inductive UpdateDecision : Type :=
| UpdateOk
| UpdateDeferredByPolicy
| UpdateDeniedByPolicy.
#[export] Instance UpdateDecision_eq_dec : EqDecision UpdateDecision.
Proof. solve_decision. Defined.

(** The [Default]s. *)
Definition check_decision_default : CheckDecision := CheckOk request_params_default.
Definition update_decision_default : UpdateDecision := UpdateOk.

(** The trait [Policy]; [D1] to [D4] are its associated types of policy data. *)
Class Policy (P PL D1 D2 D3 D4 : Type) := {
  policy_compute_next_update_time : D1 → list App → UpdateCheckSchedule → ProtocolState →
    outcome CheckTiming;
  policy_update_check_allowed : D2 → list App → UpdateCheckSchedule → ProtocolState → CheckOptions →
    CheckDecision;
  policy_update_can_start : D3 → PL → UpdateDecision;
  policy_reboot_allowed : D4 → CheckOptions → bool;
  policy_reboot_needed : PL → bool;
}.

(** The trait [PolicyEngine]. *)
Class PolicyEngine (PE TS IR PL : Type) := {
  policy_time_source : PE → TS;
  compute_next_update_time : list App → UpdateCheckSchedule → ProtocolState → PE →
    outcome CheckTiming * PE;
  update_check_allowed : list App → UpdateCheckSchedule → ProtocolState → CheckOptions → PE →
    CheckDecision * PE;
  update_can_start : PL → PE → UpdateDecision * PE;
  reboot_allowed : CheckOptions → IR → PE → bool * PE;
  reboot_needed : PL → PE → bool * PE;
}.

(** ** The stub: everything is allowed, at once *)

Inductive StubPolicy : Type := mkStubPolicy.
#[export] Instance stub_policy PL : Policy StubPolicy PL PolicyData unit unit unit := {|
  policy_compute_next_update_time policy_data _ _ _ :=
    Ret (mkCheckTiming (partial_from_complex (current_time policy_data)) None);
  policy_update_check_allowed _ _ _ _ check_options :=
    CheckOk (mkRequestParams (source check_options) true
      (disable_updates request_params_default)
      (offer_update_if_same_version request_params_default));
  policy_update_can_start _ _ := UpdateOk;
  policy_reboot_allowed _ _ := true;
  policy_reboot_needed _ := true;
|}.

Record StubPolicyEngine (TS : Type) : Type := mkStubPolicyEngine { stub_time_source : TS }.
Arguments mkStubPolicyEngine {TS} stub_time_source.
Arguments stub_time_source {TS} s.

Definition stub_compute_next_update_time {TS} `{TimeSource TS} (PL : Type) (apps : list App)
    (scheduling : UpdateCheckSchedule) (protocol_state : ProtocolState) (self : StubPolicyEngine TS)
    : outcome CheckTiming * StubPolicyEngine TS :=
  let '(t, ts) := now (stub_time_source self) in
  (policy_compute_next_update_time (Policy := stub_policy PL) (mkPolicyData t) apps scheduling
     protocol_state, mkStubPolicyEngine ts).

#[export] Instance stub_policy_engine {TS} `{TimeSource TS} PL :
    PolicyEngine (StubPolicyEngine TS) TS unit PL := {|
  policy_time_source := stub_time_source;
  compute_next_update_time := stub_compute_next_update_time PL;
  update_check_allowed apps scheduling protocol_state check_options self :=
    (policy_update_check_allowed (Policy := stub_policy PL) tt apps scheduling protocol_state
       check_options, self);
  update_can_start plan self := (policy_update_can_start (Policy := stub_policy PL) tt plan, self);
  reboot_allowed check_options _ self :=
    (policy_reboot_allowed (Policy := stub_policy PL) tt check_options, self);
  reboot_needed plan self := (policy_reboot_needed (Policy := stub_policy PL) plan, self);
|}.

(** ** The mock: it answers what it is told to, and keeps the options of the reboot queries

    The cells [reboot_allowed], [reboot_needed] and [reboot_check_options_received] are shared with
    the test that holds the engine; here they are part of the engine's state.  The time source is
    any, the mock's own is [MockTimeSource]. *)

Record MockPolicyEngine (TS : Type) : Type := mkMockPolicyEngine {
  check_timing : option CheckTiming;
  check_decision : CheckDecision;
  update_decision : UpdateDecision;
  time_source : TS;
  mock_reboot_allowed : bool;
  mock_reboot_needed : bool;
  reboot_check_options_received : list CheckOptions;
}.
Arguments mkMockPolicyEngine {TS}.
Arguments check_timing {TS} m.
Arguments check_decision {TS} m.
Arguments update_decision {TS} m.
Arguments time_source {TS} m.
Arguments mock_reboot_allowed {TS} m.
Arguments mock_reboot_needed {TS} m.
Arguments reboot_check_options_received {TS} m.

(** [impl Default for MockPolicyEngine], with the new time source. *)
Definition mock_policy_engine_default {TS} (new_from_now : TS) : MockPolicyEngine TS :=
  mkMockPolicyEngine None check_decision_default update_decision_default new_from_now true true [].

Definition mock_push_options {TS} (check_options : CheckOptions) (self : MockPolicyEngine TS)
    : MockPolicyEngine TS :=
  mkMockPolicyEngine (check_timing self) (check_decision self) (update_decision self)
    (time_source self) (mock_reboot_allowed self) (mock_reboot_needed self)
    (reboot_check_options_received self ++ [check_options]).

#[export] Instance mock_policy_engine TS : PolicyEngine (MockPolicyEngine TS) TS unit StubPlan := {|
  policy_time_source := time_source;
  compute_next_update_time _ _ _ self := (unwrap (check_timing self), self);
  update_check_allowed _ _ _ _ self := (check_decision self, self);
  update_can_start _ self := (update_decision self, self);
  reboot_allowed check_options _ self :=
    (mock_reboot_allowed self, mock_push_options check_options self);
  reboot_needed _ self := (mock_reboot_needed self, self);
|}.
