(* ===== verification/DataTests.v ===== *)
(** * The tests of the data types

    The tests of [version.rs], [protocol.rs], [common.rs], [unless.rs], [app_set.rs],
    [http_uri_ext.rs], [state_machine/update_check.rs], [storage/memory.rs], [storage/stub.rs] and
    [policy/stub.rs], one module each.  A text of JSON is [serde_json]'s text of the tree it denotes;
    the tests run on the examples of the crates.  [now] is what the mock clock of a test starts
    from. *)

From S2P Require Import Prelude Testing Serde Time TimeTests Version Protocol Storage Common UpdateCheck AppSet.
From S2P Require Import UriExt StorageTests RequestBuilder Metrics Installer Policy.
From S2P Require Request.
Open Scope Z_scope.

#[local] Existing Instance example_serde.
#[local] Existing Instance example_uri.

(** ** [version.rs] *)
Module VersionTests.

Definition test_version_display : outcome unit :=
  assert_eq "1.2.3.4"%string (version_to_string (version_from [1; 2; 3; 4]));;
  assert_eq "0.6.4.7"%string (version_to_string (version_from [0; 6; 4; 7])).

(** [Debug] is [Display]. *)
Definition test_version_debug : outcome unit :=
  assert_eq "1.2.3.4"%string (version_to_string (version_from [1; 2; 3; 4]));;
  assert_eq "0.6.4.7"%string (version_to_string (version_from [0; 6; 4; 7])).

(** [text.parse::<Version>().unwrap()]. *)
Definition parse (text : string) : outcome Version := unwrap_ok (version_from_str text).
Definition assert_parses (text : string) (nums : list Z) : outcome unit :=
  v ← parse text; assert_eq v (version_from nums).

Definition test_version_parse : outcome unit :=
  assert_parses "1.2.3.4" [1; 2; 3; 4];;
  assert_parses "6.4.7" [6; 4; 7];;
  assert_parses "999" [999].

Definition test_version_parse_leading_zeros : outcome unit :=
  assert_parses "1.02.003.0004" [1; 2; 3; 4];;
  assert_parses "06.4.07" [6; 4; 7];;
  assert_parses "0000999" [999].

Definition parse_is_err (text : string) : bool := negb (is_ok (version_from_str text)).
Definition test_version_parse_error : outcome unit :=
  assert (parse_is_err "1.2.3.4.5");;
  assert (parse_is_err "1.2.");;
  assert (parse_is_err ".1.2");;
  assert (parse_is_err "-1");;
  assert (parse_is_err "abc");;
  assert (parse_is_err ".");;
  assert (parse_is_err "");;
  assert (parse_is_err "999999999999999999999999").

Definition assert_prints (text printed : string) : outcome unit :=
  v ← parse text; assert_eq (version_to_string v) printed.
Definition test_version_to_string : outcome unit :=
  assert_prints "1.2" "1.2.0.0";;
  assert_prints "1.2.3.4" "1.2.3.4";;
  assert_prints "1" "1.0.0.0";;
  assert_prints "3.2.1" "3.2.1.0".

(** The operators of the derived [Ord] and [PartialEq]. *)
Definition assert_cmp (a : list Z) (op : comparison → bool) (b : list Z) : outcome unit :=
  assert (op (version_cmp (version_from a) (version_from b))).
Definition lt (c : comparison) : bool := match c with Lt => true | _ => false end.
Definition gt (c : comparison) : bool := match c with Gt => true | _ => false end.
Definition test_version_compare : outcome unit :=
  assert_cmp [1; 2; 3; 4] lt [2; 0; 3];;
  assert_cmp [1; 2; 3] lt [1; 2; 3; 4];;
  assert (bool_decide (version_from [1; 0] = version_from [1; 0; 0]));;
  assert_cmp [1; 0] (λ c, negb (gt c)) [1; 0; 0];;
  assert_cmp [1; 0] (λ c, negb (lt c)) [1; 0; 0];;
  assert (bool_decide (version_from [1] = version_from [1; 0; 0; 0]));;
  assert (bool_decide (version_from [0] = version_from [0; 0; 0; 0]));;
  assert_cmp [0; 1; 0] gt [0; 0; 1; 0];;
  assert_cmp [0] lt [0; 0; 1; 0];;
  assert_cmp [1] lt [1; 0; 1; 0];;
  assert_cmp [1; 0] lt [1; 0; 0; 1];;
  assert_cmp [1; 0; 0] gt [0; 1; 2; 0].

Definition test_version_deserialize : outcome unit :=
  text ← unwrap_ok (json_to_string (JStr "1.2.3.4"));
  v ← unwrap_ok (from_str (A := Version) text);
  assert_eq v (version_from [1; 2; 3; 4]);;
  text ← unwrap_ok (json_to_string (JStr "1.2.3"));
  v ← unwrap_ok (from_str (A := Version) text);
  assert_eq v (version_from [1; 2; 3]);;
  text ← unwrap_ok (json_to_string (JStr "1.2.3.4.5"));
  assert (negb (is_ok (from_str (A := Version) text))).

Definition test_version_serialize : outcome unit :=
  assert_eq (json_to_string (version_json (version_from [1; 2; 3; 4]))) (json_to_string (JStr "1.2.3.4"));;
  assert_eq (json_to_string (version_json (version_from [1; 2; 3]))) (json_to_string (JStr "1.2.3.0")).

Definition tests : list (outcome unit) :=
  [test_version_display; test_version_debug; test_version_parse; test_version_parse_leading_zeros;
   test_version_parse_error; test_version_to_string; test_version_compare; test_version_deserialize;
   test_version_serialize].
End VersionTests.

(** ** [protocol.rs], [unless.rs] *)
Module ProtocolTests.
#[local] Open Scope string_scope.

Definition test_cohort_new : outcome unit :=
  let cohort := cohort_new "my_cohort" in
  assert_eq (Some "my_cohort") (cohort_id cohort);;
  assert_eq None (cohort_hint cohort);;
  assert_eq None (cohort_name cohort).

Definition test_cohort_update_from_omaha : outcome unit :=
  let cohort := cohort_from_hint "hint" in
  let omaha_cohort := cohort_new "my_cohort" in
  let cohort := cohort_update_from_omaha cohort omaha_cohort in
  assert_eq (Some "my_cohort") (cohort_id cohort);;
  assert_eq (Some "hint") (cohort_hint cohort);;
  assert_eq None (cohort_name cohort).

Definition test_cohort_update_from_omaha_none : outcome unit :=
  let cohort := mkCohort (Some "id") (Some "hint") (Some "name") in
  let expected_cohort := cohort in
  let cohort := cohort_update_from_omaha cohort cohort_default in
  assert_eq cohort expected_cohort.

Fixpoint repeat_a (n : nat) : string :=
  match n with O => "" | S n => String "a" (repeat_a n) end.
Definition test_valid_cohort_names : outcome unit :=
  assert (validate_name "some-channel");;
  assert (validate_name "a");;
  assert (validate_name (repeat_a 1024)).
Definition test_invalid_cohort_name_length : outcome unit :=
  assert (negb (validate_name ""));;
  assert (negb (validate_name (repeat_a 1025))).

(** A character of one byte of UTF-8, or of two, between the words. *)
Definition some_channel (chars : list byte) : string :=
  "some" +:+ String.string_of_list_byte chars +:+ "channel".
Definition test_invalid_cohort_name_chars : outcome unit :=
  assert (negb (validate_name (some_channel [x09])));;
  assert (negb (validate_name (some_channel [x7f])));;
  assert (negb (validate_name (some_channel [xc2; x80]))).

Definition unless_tests : outcome unit :=
  assert_eq "default" (unless "default" None);;
  assert_eq "other" (unless "default" (Some "other")).

Definition tests : list (outcome unit) :=
  [test_cohort_new; test_cohort_update_from_omaha; test_cohort_update_from_omaha_none;
   test_valid_cohort_names; test_invalid_cohort_name_length; test_invalid_cohort_name_chars;
   unless_tests].
End ProtocolTests.

(** ** [common.rs] *)
Module CommonTests.
#[local] Open Scope string_scope.

(** [App::builder().id(..).version(..)], its [cohort(..)] and the check of a loaded app. *)
Definition app (id : string) (version : list Z) : App := app_new id (version_from version).
Definition with_cohort (c : Cohort) (a : App) : App := set_app_cohort c a.
Definition with_user_counting (days : option Z) (a : App) : App :=
  set_app_user_counting (ClientRegulatedByDate days) a.
Definition with_fingerprint (fp : string) (a : App) : App :=
  mkApp (app_id a) (app_version a) (Some fp) (app_cohort a) (app_user_counting a) (app_extra_fields a).
Definition with_extra_fields (extra : list (string * string)) (a : App) : App :=
  mkApp (app_id a) (app_version a) (app_fingerprint a) (app_cohort a) (app_user_counting a)
    (list_to_map extra).

Definition test_app_new_version : outcome unit :=
  let app := with_cohort (cohort_from_hint "some-channel") (app "some_id" [1; 2]) in
  assert_eq (app_id app) "some_id";;
  assert_eq (app_version app) (version_from [1; 2]);;
  assert_eq (app_fingerprint app) None;;
  assert_eq (cohort_hint (app_cohort app)) (Some "some-channel");;
  assert_eq (cohort_name (app_cohort app)) None;;
  assert_eq (cohort_id (app_cohort app)) None;;
  assert_eq (app_user_counting app) (ClientRegulatedByDate None);;
  assert (bool_decide (app_extra_fields app = ∅)).

Definition test_app_with_fingerprint : outcome unit :=
  let app := with_fingerprint "some_fp"
    (with_cohort (cohort_from_hint "test-channel") (app "some_id_2" [4; 6])) in
  assert_eq (app_id app) "some_id_2";;
  assert_eq (app_version app) (version_from [4; 6]);;
  assert_eq (app_fingerprint app) (Some "some_fp");;
  assert_eq (cohort_hint (app_cohort app)) (Some "test-channel");;
  assert_eq (cohort_name (app_cohort app)) None;;
  assert_eq (cohort_id (app_cohort app)) None;;
  assert_eq (app_user_counting app) (ClientRegulatedByDate None);;
  assert (bool_decide (app_extra_fields app = ∅)).

Definition test_app_with_user_counting : outcome unit :=
  let app := with_user_counting (Some 42)
    (with_cohort (cohort_from_hint "test-channel") (app "some_id_2" [4; 6])) in
  assert_eq (app_id app) "some_id_2";;
  assert_eq (app_version app) (version_from [4; 6]);;
  assert_eq (cohort_hint (app_cohort app)) (Some "test-channel");;
  assert_eq (cohort_name (app_cohort app)) None;;
  assert_eq (cohort_id (app_cohort app)) None;;
  assert_eq (app_user_counting app) (ClientRegulatedByDate (Some 42));;
  assert (bool_decide (app_extra_fields app = ∅)).

Definition test_app_with_extras : outcome unit :=
  let app := with_extra_fields [("key1", "value1"); ("key2", "value2")]
    (with_cohort (cohort_from_hint "test-channel") (app "some_id_2" [4; 6])) in
  assert_eq (app_id app) "some_id_2";;
  assert_eq (app_version app) (version_from [4; 6]);;
  assert_eq (cohort_hint (app_cohort app)) (Some "test-channel");;
  assert_eq (cohort_name (app_cohort app)) None;;
  assert_eq (cohort_id (app_cohort app)) None;;
  assert_eq (app_user_counting app) (ClientRegulatedByDate None);;
  assert_eq (size (app_extra_fields app)) 2%nat;;
  assert_eq (app_extra_fields app !! "key1") (Some "value1");;
  assert_eq (app_extra_fields app !! "key2") (Some "value2").

(** [json!] of a persisted app, its cohort and its days. *)
Definition persisted (cohort : list (string * Json)) (days : Json) : Json :=
  JObj [("cohort", JObj cohort); ("user_counting", JObj [("ClientRegulatedByDate", days)])].
(** The app of the tests of [load]: what the storage holds for it, and the app as it is loaded. *)
Definition load_stored (json : string) (app : App) : outcome App :=
  storage ← unwrap_write (set_string mem_new (app_id app) json);
  Ret (app_load storage app).
Definition load_json (json : Json) (app : App) : outcome App :=
  json ← unwrap_ok (json_to_string json);
  load_stored json app.
Definition assert_app (cohort : Cohort) (days : option Z) (app : App) : outcome unit :=
  assert_eq cohort (app_cohort app);;
  assert_eq (ClientRegulatedByDate days) (app_user_counting app).

Definition some_cohort : Cohort := mkCohort (Some "some_id") (Some "some_hint") (Some "some_name").
Definition some_app (cohort : Cohort) : App :=
  with_user_counting (Some 123) (with_cohort cohort (app "some_id" [1; 2])).

Definition test_app_load : outcome unit :=
  let json := persisted [("cohort", JStr "some_id"); ("cohorthint", JStr "some_hint");
    ("cohortname", JStr "some_name")] (JNum 123) in
  app ← load_json json (app "some_id" [1; 2]);
  assert_app some_cohort (Some 123) app.

Definition test_app_load_empty_storage : outcome unit :=
  assert_app some_cohort (Some 123) (app_load mem_new (some_app some_cohort)).

Definition test_app_load_malformed : outcome unit :=
  app ← load_stored "not a json" (some_app some_cohort);
  assert_app some_cohort (Some 123) app.

Definition test_app_load_partial : outcome unit :=
  let json := persisted [("cohorthint", JStr "some_hint_2"); ("cohortname", JStr "some_name_2")] JNull in
  app ← load_json json (some_app some_cohort);
  assert_app some_cohort (Some 123) app.

Definition test_app_load_override : outcome unit :=
  let json := persisted [("cohort", JStr "some_id_2"); ("cohorthint", JStr "some_hint_2");
    ("cohortname", JStr "some_name_2")] (JNum 123) in
  app ← load_json json (some_app (mkCohort (Some "some_id") (Some "some_hint") None));
  assert_app (mkCohort (Some "some_id") (Some "some_hint") (Some "some_name_2")) (Some 123) app.

Definition assert_persists (app : App) (expected : Json) : outcome unit :=
  let storage := app_persist app mem_new in
  json ← unwrap (get_string storage (app_id app));
  value ← unwrap_ok (from_str (A := Json) json);
  assert_eq expected value;;
  assert (negb (mem_committed storage)).
Definition test_app_persist : outcome unit :=
  assert_persists (some_app some_cohort)
    (persisted [("cohort", JStr "some_id"); ("cohorthint", JStr "some_hint");
       ("cohortname", JStr "some_name")] (JNum 123)).
Definition test_app_persist_empty : outcome unit :=
  assert_persists (with_cohort (mkCohort None None None) (app "some_id" [1; 2])) (persisted [] JNull).

Definition named_app : App := with_cohort (mkCohort None None (Some "current-channel-123")) (app "some_id" [0; 1]).
Definition test_app_get_current_channel : outcome unit :=
  assert_eq "current-channel-123" (get_current_channel named_app).
Definition test_app_get_current_channel_default : outcome unit :=
  assert_eq "" (get_current_channel (app "some_id" [0; 1])).
Definition test_app_get_target_channel : outcome unit :=
  assert_eq "target-channel-456"
    (get_target_channel (with_cohort (cohort_from_hint "target-channel-456") (app "some_id" [0; 1]))).
Definition test_app_get_target_channel_fallback : outcome unit :=
  assert_eq "current-channel-123" (get_target_channel named_app).
Definition test_app_get_target_channel_default : outcome unit :=
  assert_eq "" (get_target_channel (app "some_id" [0; 1])).

Definition test_app_set_target_channel : outcome unit :=
  let app := app "some_id" [0; 1] in
  assert_eq "" (get_target_channel app);;
  let app := set_target_channel app (Some "new-target-channel") None in
  assert_eq "new-target-channel" (get_target_channel app);;
  let app := set_target_channel app None None in
  assert_eq "" (get_target_channel app).
Definition test_app_set_target_channel_and_id : outcome unit :=
  let app := app "some_id" [0; 1] in
  assert_eq "" (get_target_channel app);;
  let app := set_target_channel app (Some "new-target-channel") (Some "new-id") in
  assert_eq "new-target-channel" (get_target_channel app);;
  assert_eq "new-id" (app_id app);;
  let app := set_target_channel app None None in
  assert_eq "" (get_target_channel app);;
  assert_eq "new-id" (app_id app).

Definition test_app_valid : outcome unit := assert (app_valid (app "some_id" [0; 1])).
Definition test_app_not_valid : outcome unit :=
  assert (negb (app_valid (app "" [0; 1])));;
  assert (negb (app_valid (app "some_id" [0]))).

Definition test_pretty_option_display_with_none : outcome unit :=
  assert_eq "None" (pretty_option_display (λ s : string, s) None).
Definition test_pretty_option_display_with_some : outcome unit :=
  assert_eq "this is a test" (pretty_option_display (λ s, s) (Some "this is a test")).

Section schedules.
Context `{TimeFormats} (now : ComplexTime).

Definition test_update_check_schedule_debug_with_defaults : outcome unit :=
  assert_eq "UpdateCheckSchedule { last_update_time: None, next_update_time: None }"
    (schedule_debug schedule_default).

(** [UpdateCheckSchedule::builder()] and [CheckTiming::builder()]: a field that is not set has its
    default. *)
Definition schedule_of (last : option PartialComplexTime) (next : option CheckTiming)
    : UpdateCheckSchedule := mkUpdateCheckSchedule last None next.

Definition test_update_check_schedule_debug_with_values : outcome unit :=
  let last := now in
  next ← complex_add last (from_secs 1000);
  assert_eq ("UpdateCheckSchedule { last_update_time: " +:+ partial_display (partial_from_complex last) +:+
      ", next_update_time: " +:+ complex_display next +:+ " }")
    (schedule_debug (schedule_of (Some (partial_from_complex last))
       (Some (mkCheckTiming (partial_from_complex next) None)))).

Definition a_wall_time : outcome PartialComplexTime :=
  t ← time_add UNIX_EPOCH (from_secs 100000); Ret (partial_from_system_time t).
Definition test_update_check_schedule_builder_all_fields : outcome unit :=
  let now := partial_from_complex now in
  last ← a_wall_time;
  let timing := mkCheckTiming now (Some (from_secs 100)) in
  assert_eq (schedule_of (Some last) (Some timing))
    (mkUpdateCheckSchedule (Some last) (last_update_check_time schedule_default) (Some timing)).
(** The setters take an [Option] too. *)
Definition test_update_check_schedule_builder_all_fields_from_options : outcome unit :=
  let next_time := partial_from_complex now in
  last ← a_wall_time;
  let timing := mkCheckTiming next_time (Some (from_secs 100)) in
  assert_eq (schedule_of (Some last) (Some timing))
    (mkUpdateCheckSchedule (Some last) (last_update_check_time schedule_default) (Some timing)).
Definition test_update_check_schedule_builder_subset_fields : outcome unit :=
  last ← a_wall_time;
  assert_eq (schedule_of (Some last) None)
    (mkUpdateCheckSchedule (Some last) (last_update_check_time schedule_default)
       (next_update_time schedule_default));;
  let next_time := partial_from_complex now in
  let timing := mkCheckTiming next_time (Some (from_secs 5)) in
  assert_eq (schedule_of None (Some timing))
    (mkUpdateCheckSchedule (last_update_time schedule_default)
       (last_update_check_time schedule_default) (Some timing)).
Definition test_update_check_schedule_builder_defaults_are_same_as_default_impl : outcome unit :=
  assert_eq (schedule_of None None) schedule_default.

Definition clock_tests : list (outcome unit) :=
  [test_update_check_schedule_debug_with_defaults; test_update_check_schedule_debug_with_values;
   test_update_check_schedule_builder_all_fields;
   test_update_check_schedule_builder_all_fields_from_options;
   test_update_check_schedule_builder_subset_fields;
   test_update_check_schedule_builder_defaults_are_same_as_default_impl].
End schedules.

Definition tests : list (outcome unit) :=
  [test_app_new_version; test_app_with_fingerprint; test_app_with_user_counting;
   test_app_with_extras; test_app_load; test_app_load_empty_storage; test_app_load_malformed;
   test_app_load_partial; test_app_load_override; test_app_persist; test_app_persist_empty;
   test_app_get_current_channel; test_app_get_current_channel_default; test_app_get_target_channel;
   test_app_get_target_channel_fallback; test_app_get_target_channel_default;
   test_app_set_target_channel; test_app_set_target_channel_and_id; test_app_valid;
   test_app_not_valid; test_pretty_option_display_with_none; test_pretty_option_display_with_some].
End CommonTests.

(** ** [app_set.rs] *)
Module AppSetTests.
Import CommonTests.
#[local] Open Scope string_scope.

Definition test_appsetext_update_from_omaha : outcome unit :=
  app_set ← vec_app_set_new [app "some_id" [0; 1]; app "not_updated_id" [2]];
  let cohort := mkCohort None None (Some "some-channel") in
  let user_counting := ClientRegulatedByDate (Some 42) in
  let app_responses := [mkAppResponse "some_id" cohort user_counting ActionUpdated;
    mkAppResponse "some_other_id" cohort user_counting ActionNoUpdate] in
  let apps := get_apps (update_from_omaha app_responses app_set) in
  app0 ← unwrap (apps !! 0%nat);
  assert_eq cohort (app_cohort app0);;
  assert_eq user_counting (app_user_counting app0);;
  assert_eq (apps !! 1%nat) (Some (app "not_updated_id" [2])).

Definition test_appsetext_valid : outcome unit :=
  app_set ← vec_app_set_new [app "some_id" [0; 1]];
  assert (all_valid app_set);;
  app_set ← vec_app_set_new [app "some_id" [0; 1]; app "some_id_2" [1]];
  assert (all_valid app_set).
Definition test_appsetext_not_valid : outcome unit :=
  app_set ← vec_app_set_new [app "some_id" [0; 1]; app "" [0; 1]];
  assert (negb (all_valid app_set));;
  app_set ← vec_app_set_new [app "some_id" [0]; app "some_id_2" [0; 1]];
  assert (negb (all_valid app_set));;
  app_set ← vec_app_set_new [app "some_id" [0]; app "" [0; 1]];
  assert (negb (all_valid app_set)).

Definition test_get_apps : outcome unit :=
  let apps := [app "some_id" [0; 1]] in
  app_set ← vec_app_set_new apps;
  assert_eq (get_apps app_set) apps.
Definition test_iter_mut_apps : outcome unit :=
  app_set ← vec_app_set_new [app "id1" [1]; app "id2" [2]];
  let app_set := iter_mut_apps (λ app, set_app_id (app_id app +:+ "_mutated") app) app_set in
  assert_eq (get_apps app_set) [app "id1_mutated" [1]; app "id2_mutated" [2]].
Definition test_get_system_app_id : outcome unit :=
  app_set ← vec_app_set_new [app "id1" [1]; app "id2" [2]];
  id ← get_system_app_id app_set;
  assert_eq id "id1".

Definition tests : list (outcome unit) :=
  [test_appsetext_update_from_omaha; test_appsetext_valid; test_appsetext_not_valid; test_get_apps;
   test_iter_mut_apps; test_get_system_app_id].
End AppSetTests.

(** ** [http_uri_ext.rs] *)
Module UriTests.
#[local] Open Scope string_scope.

Definition make_uri_from_path_and_query (path_and_query : option string) : outcome Uri :=
  pq ← match path_and_query with
       | None | Some EmptyString => Ret None
       | Some p =>
         pq ← unwrap_ok (pq_parse (if String.prefix "?" p then "/" +:+ p else p));
         Ret (Some pq)
       end;
  unwrap_ok (from_parts (mkParts None None pq)).
(** [PathAndQuery::to_string]. *)
Definition pq_to_string (pq : PathAndQuery) : string :=
  pq_path pq +:+ match pq_query pq with Some q => "?" +:+ q | None => "" end.

Definition assert_expected_path (base : option string) (added : string) (expected : option string)
    : outcome unit :=
  base ← make_uri_from_path_and_query base;
  uri ← unwrap_ok (extend_dir_with_path base added);
  assert_eq (pq_to_string <$> path_and_query (into_parts uri)) expected.

Definition no_query_empty_argument : outcome unit :=
  assert_expected_path None "" None;;
  assert_expected_path (Some "") "" None;;
  assert_expected_path (Some "/") "" (Some "/");;
  assert_expected_path (Some "/a") "" (Some "/a");;
  assert_expected_path (Some "/a/") "" (Some "/a/").
Definition has_query_empty_argument : outcome unit :=
  assert_expected_path (Some "?k=v") "" (Some "/?k=v");;
  assert_expected_path (Some "/?k=v") "" (Some "/?k=v");;
  assert_expected_path (Some "/a?k=v") "" (Some "/a?k=v");;
  assert_expected_path (Some "/a/?k=v") "" (Some "/a/?k=v").
Definition no_query_has_argument : outcome unit :=
  assert_expected_path None "c" (Some "/c");;
  assert_expected_path (Some "") "c" (Some "/c");;
  assert_expected_path (Some "/") "c" (Some "/c");;
  assert_expected_path (Some "/a") "c" (Some "/a/c");;
  assert_expected_path (Some "/a/") "c" (Some "/a/c").
Definition has_query_has_argument : outcome unit :=
  assert_expected_path (Some "?k=v") "c" (Some "/c?k=v");;
  assert_expected_path (Some "/?k=v") "c" (Some "/c?k=v");;
  assert_expected_path (Some "/a?k=v") "c" (Some "/a/c?k=v");;
  assert_expected_path (Some "/a/?k=v") "c" (Some "/a/c?k=v").

Definition assert_expected_param (base : option string) (key value : string) (expected : option string)
    : outcome unit :=
  base ← make_uri_from_path_and_query base;
  uri ← unwrap_ok (append_query_parameter base key value);
  assert_eq (pq_to_string <$> path_and_query (into_parts uri)) expected.

Definition new_query : outcome unit :=
  assert_expected_param None "k" "v" (Some "/?k=v");;
  assert_expected_param (Some "") "k" "v" (Some "/?k=v");;
  assert_expected_param (Some "/") "k" "v" (Some "/?k=v");;
  assert_expected_param (Some "/a") "k" "v" (Some "/a?k=v");;
  assert_expected_param (Some "/a/") "k" "v" (Some "/a/?k=v").
Definition append_query : outcome unit :=
  assert_expected_param (Some "?k=v") "k2" "v2" (Some "/?k=v&k2=v2");;
  assert_expected_param (Some "/?k=v") "k2" "v2" (Some "/?k=v&k2=v2");;
  assert_expected_param (Some "/a?k=v") "k2" "v2" (Some "/a?k=v&k2=v2");;
  assert_expected_param (Some "/a/?k=v") "k2" "v2" (Some "/a/?k=v&k2=v2").

Definition tests : list (outcome unit) :=
  [no_query_empty_argument; has_query_empty_argument; no_query_has_argument;
   has_query_has_argument; new_query; append_query].
End UriTests.

(** ** [state_machine/update_check.rs] *)
Module ContextTests.

Definition test_load_context : outcome unit :=
  let storage := mem_new in
  let last_update_time := 123456789 in
  let poll_interval := from_micros 56789 in
  storage ← unwrap_write (set_int storage LAST_UPDATE_TIME last_update_time);
  storage ← unwrap_write
    (set_int storage SERVER_DICTATED_POLL_INTERVAL (wrap_i64 (as_micros poll_interval)));
  storage ← unwrap_write (set_int storage CONSECUTIVE_FAILED_UPDATE_CHECKS 1234);
  context ← context_load storage;
  last_update_time ← from_micros_since_epoch last_update_time;
  assert_eq (Common.last_update_time (schedule context)) (Some last_update_time);;
  assert_eq (server_dictated_poll_interval (state context)) (Some poll_interval);;
  assert_eq (consecutive_failed_update_checks (state context)) 1234.

Definition test_load_context_empty_storage : outcome unit :=
  context ← context_load mem_new;
  assert_eq None (last_update_time (schedule context));;
  assert_eq None (server_dictated_poll_interval (state context));;
  assert_eq 0 (consecutive_failed_update_checks (state context)).

Definition a_context (last_update_time : PartialComplexTime) (interval : option Duration) (failed : Z)
    : Context :=
  mkContext (mkUpdateCheckSchedule (Some last_update_time) None None)
    (mkProtocolState interval failed (consecutive_proxied_requests protocol_state_default)).
Definition test_persist_context : outcome unit :=
  last_update_time ← from_micros_since_epoch 123456789;
  let context := a_context last_update_time (Some (from_micros 56789)) 1234 in
  let storage := context_persist context mem_new in
  assert_eq (Some 123456789) (get_int storage LAST_UPDATE_TIME);;
  assert_eq (Some 56789) (get_int storage SERVER_DICTATED_POLL_INTERVAL);;
  assert_eq (Some 1234) (get_int storage CONSECUTIVE_FAILED_UPDATE_CHECKS);;
  assert (negb (mem_committed storage)).
Definition test_persist_context_remove_defaults : outcome unit :=
  last_update_time ← from_micros_since_epoch 123456789;
  storage ← unwrap_write (set_int mem_new SERVER_DICTATED_POLL_INTERVAL 987654);
  storage ← unwrap_write (set_int storage CONSECUTIVE_FAILED_UPDATE_CHECKS 1234);
  let storage := context_persist (a_context last_update_time None 0) storage in
  assert_eq (Some 123456789) (get_int storage LAST_UPDATE_TIME);;
  assert_eq None (get_int storage SERVER_DICTATED_POLL_INTERVAL);;
  assert_eq None (get_int storage CONSECUTIVE_FAILED_UPDATE_CHECKS);;
  assert (negb (mem_committed storage)).

Definition tests : list (outcome unit) :=
  [test_load_context; test_load_context_empty_storage; test_persist_context;
   test_persist_context_remove_defaults].
End ContextTests.

(** ** [storage/memory.rs], [storage/stub.rs] *)
Module StorageImplTests.
#[local] Open Scope string_scope.

(** [block_on(do_test(&mut MemStorage::new()))]. *)
Definition on_memory (test : MemStorage → outcome MemStorage) : outcome unit := _ ← test mem_new; Ret tt.
Definition mem_test_set_get_remove_string : outcome unit := on_memory do_test_set_get_remove_string.
Definition mem_test_set_get_remove_int : outcome unit := on_memory do_test_set_get_remove_int.
Definition mem_test_set_option_int : outcome unit := on_memory do_test_set_option_int.
Definition mem_test_set_get_remove_bool : outcome unit := on_memory do_test_set_get_remove_bool.
Definition mem_test_set_get_remove_time : outcome unit := on_memory do_test_set_get_remove_time.
Definition mem_test_return_none_for_wrong_value_type : outcome unit :=
  on_memory do_return_none_for_wrong_value_type.
Definition mem_test_ensure_no_error_remove_nonexistent_key : outcome unit :=
  on_memory do_ensure_no_error_remove_nonexistent_key.

Definition test_committed : outcome unit :=
  let storage := mem_new in
  assert (mem_committed storage);;
  storage ← unwrap_write (set_bool storage "some bool key" false);
  assert (negb (mem_committed storage));;
  storage ← unwrap_write (commit storage);
  assert (mem_committed storage);;
  storage ← unwrap_write (set_string storage "some string key" "some string");
  assert (negb (mem_committed storage));;
  storage ← unwrap_write (set_int storage "some int key" 42);
  assert (negb (mem_committed storage));;
  storage ← unwrap_write (commit storage);
  assert (mem_committed storage).

Definition is_err_write {A} (r : result unit StubErrors * A) : bool := negb (is_ok r.1).
Definition stub_test_set_get_remove_string : outcome unit :=
  assert (is_err_write (set_string mkStubStorage "key" "value"));;
  assert_eq (get_string mkStubStorage "key") None;;
  assert (is_err_write (remove mkStubStorage "key")).
Definition stub_test_set_get_remove_int : outcome unit :=
  assert (is_err_write (set_int mkStubStorage "key" 123));;
  assert_eq (get_int mkStubStorage "key") None;;
  assert (is_err_write (remove mkStubStorage "key")).
Definition stub_test_set_get_remove_bool : outcome unit :=
  assert (is_err_write (set_bool mkStubStorage "key" true));;
  assert_eq (get_bool mkStubStorage "key") None;;
  assert (is_err_write (remove mkStubStorage "key")).
Definition test_commit : outcome unit := assert (is_err_write (commit mkStubStorage)).

Definition tests : list (outcome unit) :=
  [mem_test_set_get_remove_string; mem_test_set_get_remove_int; mem_test_set_option_int;
   mem_test_set_get_remove_bool; mem_test_set_get_remove_time;
   mem_test_return_none_for_wrong_value_type; mem_test_ensure_no_error_remove_nonexistent_key;
   test_committed; stub_test_set_get_remove_string; stub_test_set_get_remove_int;
   stub_test_set_get_remove_bool; test_commit].
End StorageImplTests.

(** ** [policy/stub.rs], [metrics/mock.rs] *)
Module StubTests.

#[local] Existing Instance stub_policy.
Definition test_compute_next_update_time (now : ComplexTime) : outcome unit :=
  let policy_data := mkPolicyData now in
  result ← policy_compute_next_update_time (PL := StubPlan) policy_data [] schedule_default
    protocol_state_default;
  assert_eq result (mkCheckTiming (partial_from_complex (current_time policy_data)) None).

Definition stub_allowed (check_options : CheckOptions) : CheckDecision :=
  policy_update_check_allowed (PL := StubPlan) tt [] schedule_default protocol_state_default check_options.
Definition expected_decision (check_options : CheckOptions) : CheckDecision :=
  CheckOk (mkRequestParams (source check_options) true
    (disable_updates request_params_default)
    (offer_update_if_same_version request_params_default)).
Definition test_update_check_allowed_on_demand : outcome unit :=
  let check_options := mkCheckOptions Request.OnDemand in
  assert_eq (stub_allowed check_options) (expected_decision check_options).
Definition test_update_check_allowed_scheduled_task : outcome unit :=
  let check_options := mkCheckOptions Request.ScheduledTask in
  assert_eq (stub_allowed check_options) (expected_decision check_options).
Definition test_update_can_start : outcome unit :=
  assert_eq (policy_update_can_start (PL := StubPlan) tt mkStubPlan) UpdateOk.

(** The clock of these tests stands still. *)
Definition test_policy_data_builder_with_system_time (current : ComplexTime) : outcome unit :=
  let '(source, h) := mock_new ∅ current in
  time ← unwrap (mock_now h source);
  let policy_data := mkPolicyData time in
  assert_eq (current_time policy_data) time.
Definition test_policy_data_builder_with_clock (current : ComplexTime) : outcome unit :=
  let '(source, h) := mock_new ∅ current in
  time ← unwrap (mock_now h source);
  again ← unwrap (mock_now h source);
  let policy_data := mkPolicyData again in
  assert_eq (current_time policy_data) time.

#[local] Instance unit_anyhow : Anyhow := unit.
Definition test_stub_metrics_reporter : outcome unit :=
  let '(result, _) :=
    report (UpdateCheckResponseTime (from_secs 2) true) mkStubMetricsReporter in
  assert (is_ok result).
Definition test_mock_metrics_reporter : outcome unit :=
  let '(result, _) :=
    mock_report tt (UpdateCheckResponseTime (from_secs 2) true) mock_metrics_new in
  assert (is_ok result).
Definition test_mock_metrics_reporter_error : outcome unit :=
  let '(result, _) :=
    mock_report tt (UpdateCheckResponseTime (from_secs 5) true) mock_metrics_new_failing in
  assert (negb (is_ok result)).

Definition tests : list (outcome unit) :=
  [test_update_check_allowed_on_demand; test_update_check_allowed_scheduled_task;
   test_update_can_start; test_mock_metrics_reporter; test_mock_metrics_reporter_error;
   test_stub_metrics_reporter].
End StubTests.

(** ** They pass *)

Definition data_tests : list (outcome unit) :=
  VersionTests.tests ++ ProtocolTests.tests ++ CommonTests.tests ++ AppSetTests.tests ++
  UriTests.tests ++ ContextTests.tests ++ StorageImplTests.tests ++ StubTests.tests.
Lemma data_tests_pass : all_pass data_tests = true.
Proof. vm_compute. reflexivity. Qed.

(** The tests that read the clock. *)
Definition data_clock_tests `{TimeFormats} (now : ComplexTime) : list (outcome unit) :=
  CommonTests.clock_tests now ++
    [StubTests.test_compute_next_update_time now; StubTests.test_policy_data_builder_with_system_time now;
     StubTests.test_policy_data_builder_with_clock now].
Lemma data_clock_tests_pass `{TimeFormats} now :
  ordinary (wall now) → ordinary (mono now) → all_pass (data_clock_tests now) = true.
Proof.
  intros Hw Hm. apply all_pass_Forall. unfold data_clock_tests, CommonTests.clock_tests. cbn [app].
  assert (CommonTests.a_wall_time = Ret (Wall (from_secs 100000))) as Hwall by done.
  assert (complex_add now (from_secs 1000) = Ret (mkComplexTime (wall now + from_secs 1000) (mono now + from_secs 1000))) as Hadd.
  { destruct now as [w m]. cbn in *. apply complex_add_exact; destruct Hw, Hm; unfold a_day, from_secs, nanos_per_sec in *; time_range. }
  repeat (apply Forall_cons; split; [try reflexivity|]); [..|by constructor].
  - unfold CommonTests.test_update_check_schedule_debug_with_values. rewrite Hadd. apply assert_eq_refl.
  - unfold CommonTests.test_update_check_schedule_builder_all_fields. rewrite Hwall. apply assert_eq_refl.
  - unfold CommonTests.test_update_check_schedule_builder_all_fields_from_options. rewrite Hwall. apply assert_eq_refl.
  - unfold CommonTests.test_update_check_schedule_builder_subset_fields. rewrite Hwall. cbn. rewrite !assert_eq_refl. done.
  - apply assert_eq_refl.
  - unfold StubTests.test_policy_data_builder_with_system_time, mock_new, mock_now. cbn [mock_time].
    rewrite lookup_insert, decide_True by done. apply assert_eq_refl.
  - unfold StubTests.test_policy_data_builder_with_clock, mock_new, mock_now. cbn [mock_time].
    rewrite lookup_insert, decide_True by done. apply assert_eq_refl.
Qed.
