(* ===== verification/Generator.v ===== *)
(** * The generator that streams the events of a task ([async_generator.rs])

    A [Generator] polls a task, which sends items into a channel, and streams the items and then
    the task's result.  The task and the channel ([futures::future::Fuse],
    [futures::channel::mpsc]) are parameters: they share the state [W], and a poll of the task
    shows what it sent. *)

From S2P Require Import Prelude.

Inductive Poll (A : Type) : Type :=
| Pending
| Ready (a : A).
Arguments Pending {A}.
Arguments Ready {A} a.

(** [GeneratorState]. *)
Inductive GeneratorState (I R : Type) : Type :=
| Yielded (item : I)
| Complete (res : R).
Arguments Yielded {I R} item.
Arguments Complete {I R} res.

Definition into_yielded {I R} (self : GeneratorState I R) : option I :=
  match self with Yielded item => Some item | _ => None end.
Definition into_complete {I R} (self : GeneratorState I R) : option R :=
  match self with Complete res => Some res | _ => None end.
(** The states of a generator that gives a [Result<(), E>], as [into_try_stream] has them. *)
Definition into_try {I E} (self : GeneratorState I (result unit E)) : option (result I E) :=
  match self with
  | Yielded i => Some (Ok i)
  | Complete (Ok _) => None
  | Complete (Err e) => Some (Err e)
  end.

(** The task and the receiving end of its channel.  [task_poll] gives the items that were sent
    while the task was polled, and its result when it completes. *)
Class GeneratorParts (I R W : Type) := {
  task_is_terminated : W → bool;
  task_poll : W → (list I * option R) * W;
  stream_is_terminated : W → bool;
  stream_poll_next : W → Poll (option I) * W;
}.

(** What the [futures] crate documents of them, in the states they can be in.  A fused task is
    terminated when it completed, and is then not polled again.  The channel is a queue; the stream
    ends when the queue is empty and the senders are gone, which they are once the task completed,
    and nothing is sent after that. *)
Class GeneratorPartsSpec (I R W : Type) `{GeneratorParts I R W} := {
  parts_valid : W → Prop;
  queue : W → list I;
  task_poll_valid w : parts_valid w → parts_valid (task_poll w).2;
  task_poll_queue w : parts_valid w → queue (task_poll w).2 = queue w ++ (task_poll w).1.1;
  task_poll_fused w : task_is_terminated w = true → task_poll w = ([], None, w);
  task_poll_terminated w : parts_valid w →
    task_is_terminated (task_poll w).2 = task_is_terminated w || opt_is_some (task_poll w).1.2;
  task_poll_stream w : parts_valid w →
    stream_is_terminated (task_poll w).2 = stream_is_terminated w;
  task_poll_closed w : parts_valid w → stream_is_terminated w = true → (task_poll w).1.1 = [];
  stream_closed_queue w : parts_valid w → stream_is_terminated w = true → queue w = [];
  stream_poll_valid w : parts_valid w → parts_valid (stream_poll_next w).2;
  stream_poll_task w : task_is_terminated (stream_poll_next w).2 = task_is_terminated w;
  stream_poll_item w x q : parts_valid w →
    queue w = x :: q →
    (stream_poll_next w).1 = Ready (Some x) ∧ queue (stream_poll_next w).2 = q ∧
    stream_is_terminated (stream_poll_next w).2 = false;
  stream_poll_empty w : parts_valid w →
    queue w = [] →
    queue (stream_poll_next w).2 = [] ∧
    (stream_poll_next w).1 =
      if stream_is_terminated (stream_poll_next w).2 then Ready None else Pending;
  stream_poll_done w : parts_valid w →
    task_is_terminated w = true → queue w = [] →
    stream_is_terminated (stream_poll_next w).2 = true;
}.

(** [Generator]. *)
Record Generator (R W : Type) : Type := mkGenerator {
  parts : W;
  res : option R;
}.
Arguments mkGenerator {R W} parts res.
Arguments parts {R W} g.
Arguments res {R W} g.

(** What is seen of a poll: what the task did, and what the stream gave. *)
Abbreviation Seen I R := (list I * option R * Poll (option (GeneratorState I R)))%type.

Section generator.
Context {I R W : Type} `{GeneratorParts I R W}.

(** [generate]: nothing is stored yet. *)
Definition generate (parts : W) : Generator R W := mkGenerator parts None.

(** The end of [poll_next]: the result, once. *)
Definition flush (task_done : bool) (self : Generator R W)
    : Poll (option (GeneratorState I R)) * Generator R W :=
  if negb task_done then (Pending, self)
  else match res self with
       | Some r => (Ready (Some (Complete r)), mkGenerator (parts self) None)
       | None => (Ready None, self)
       end.

(** [<Generator as Stream>::poll_next]. *)
Definition poll_next (self : Generator R W) : Poll (option (GeneratorState I R)) * Generator R W :=
  let task_done := task_is_terminated (parts self) in
  let '((_, polled), w) := task_poll (parts self) in
  let '(stored, task_done) :=
    match polled with Some r => (Some r, true) | None => (res self, task_done) end in
  if negb (stream_is_terminated w) then
    match stream_poll_next w with
    | (Pending, w) => (Pending, mkGenerator w stored)
    | (Ready (Some item), w) => (Ready (Some (Yielded item)), mkGenerator w stored)
    | (Ready None, w) => flush task_done (mkGenerator w stored)
    end
  else flush task_done (mkGenerator w stored).

(** [<Generator as FusedStream>::is_terminated]. *)
Definition is_terminated (self : Generator R W) : bool :=
  task_is_terminated (parts self) && stream_is_terminated (parts self)
  && negb (opt_is_some (res self)).

(** [Stream::filter_map] with a function that is ready at once, on what a stream gave. *)
Definition filter_map {A B} (f : A → option B) (l : list (option A)) : list (option B) :=
  omap (λ o, match o with Some a => Some <$> f a | None => Some None end) l.

(** [into_yielded] on what the generator gave, and [into_complete], which is not ready as long as no
    result was given. *)
Definition into_yielded_stream (l : list (option (GeneratorState I R))) : list (option I) :=
  filter_map into_yielded l.
Definition into_complete_future (l : list (option (GeneratorState I R))) : Poll (outcome R) :=
  match filter_map into_complete l with [] => Pending | o :: _ => Ready (unwrap o) end.

Fixpoint polls (n : nat) (self : Generator R W) : list (Seen I R) * Generator R W :=
  match n with
  | O => ([], self)
  | S n =>
    let '(seen, self) := polls n self in
    let did := (task_poll (parts self)).1 in
    let '(out, self) := poll_next self in
    (seen ++ [(did, out)], self)
  end.

Definition sent (l : list (Seen I R)) : list I := l ≫= λ x, x.1.1.
Definition results (l : list (Seen I R)) : list R := omap (λ x, x.1.2) l.
Definition ready (l : list (Seen I R)) : list (option (GeneratorState I R)) :=
  omap (λ x, match x.2 with Ready o => Some o | Pending => None end) l.
End generator.

(** [into_try_stream] on what the generator of a [Result<(), E>] gave. *)
Definition into_try_stream {I E} (l : list (option (GeneratorState I (result unit E))))
    : list (option (result I E)) :=
  filter_map into_try l.

(** ** A task to run: it sends a list of items at each poll, and then completes *)

Record Script (I R : Type) : Type := mkScript {
  script : list (list I);
  outcome_of_script : R;
  channel : list I;
  task_ended : bool;
  stream_ended : bool;
}.
Arguments mkScript {I R}.
Arguments script {I R} s.
Arguments outcome_of_script {I R} s.
Arguments channel {I R} s.
Arguments task_ended {I R} s.
Arguments stream_ended {I R} s.

Definition script_poll {I R} (w : Script I R) : list I * option R * Script I R :=
  if task_ended w || stream_ended w then ([], None, w)
  else match script w with
       | items :: rest =>
         (items, None, mkScript rest (outcome_of_script w) (channel w ++ items) false false)
       | [] => ([], Some (outcome_of_script w),
                mkScript [] (outcome_of_script w) (channel w) true false)
       end.
Definition script_stream {I R} (w : Script I R) : Poll (option I) * Script I R :=
  match channel w with
  | x :: q => (Ready (Some x), mkScript (script w) (outcome_of_script w) q (task_ended w) false)
  | [] => if task_ended w || stream_ended w
          then (Ready None, mkScript (script w) (outcome_of_script w) [] (task_ended w) true)
          else (Pending, w)
  end.
#[export] Instance script_parts {I R} : GeneratorParts I R (Script I R) := {|
  task_is_terminated := task_ended;
  task_poll := script_poll;
  stream_is_terminated w := stream_ended w && bool_decide (length (channel w) = 0)%nat;
  stream_poll_next := script_stream;
|}.

Definition example_script : Script nat string := mkScript [[1]; []; [2; 3]]%nat "done" [] false false.

(** ** What the proofs speak about *)

Section streamed.
Context {I R W : Type} `{GeneratorPartsSpec I R W}.

(** [poll_next] after the task was polled. *)
Definition stream_step (self : Generator R W) : Poll (option (GeneratorState I R)) * Generator R W :=
  if negb (stream_is_terminated (parts self)) then
    match stream_poll_next (parts self) with
    | (Pending, w) => (Pending, mkGenerator w (res self))
    | (Ready (Some item), w) => (Ready (Some (Yielded item)), mkGenerator w (res self))
    | (Ready None, w) => flush (task_is_terminated (parts self)) (mkGenerator w (res self))
    end
  else flush (task_is_terminated (parts self)) self.
Definition task_step (self : Generator R W) : Generator R W :=
  mkGenerator (task_poll (parts self)).2
    (match (task_poll (parts self)).1.2 with Some r => Some r | None => res self end).

(** Where a generator is after some polls: running, with a result to give, or complete. *)
Inductive stage (l : list (Seen I R)) (g : Generator R W) (tail : list (option (GeneratorState I R))) : Prop :=
| stage_running :
    tail = [] → results (I := I) l = [] → res g = None → task_is_terminated (parts g) = false →
    stage l g tail
| stage_done r :
    tail = [] → results (I := I) l = [r] → res g = Some r → task_is_terminated (parts g) = true →
    stage l g tail
| stage_complete r k :
    tail = Some (Complete r) :: replicate k None → results (I := I) l = [r] → res g = None →
    task_is_terminated (parts g) = true → stream_is_terminated (parts g) = true →
    stage l g tail.

Definition streamed (l : list (Seen I R)) (g : Generator R W) : Prop :=
  parts_valid (parts g) ∧
  ∃ items tail, ready l = ((λ x, Some (Yielded x)) <$> items) ++ tail ∧
    items ++ queue (parts g) = sent l ∧ stage l g tail.
End streamed.

(** ** Lemmas *)

Section lemmas.
Context {I R W : Type} `{GeneratorPartsSpec I R W}.

Lemma poll_next_steps g : parts_valid (parts g) → poll_next g = stream_step (task_step g).
Proof.
  intros Hv. unfold poll_next, stream_step, task_step. cbn [parts res].
  rewrite (task_poll_terminated (parts g) Hv).
  destruct (task_poll (parts g)) as [[its [r|]] w]; cbn.
  - by rewrite orb_true_r.
  - by rewrite orb_false_r.
Qed.

Lemma stream_step_valid g : parts_valid (parts g) → parts_valid (parts (stream_step g).2).
Proof.
  intros Hv. pose proof (stream_poll_valid _ Hv) as Hs. unfold stream_step, flush.
  destruct (stream_poll_next (parts g)) as [[|[x|]] w]; repeat case_match; by cbn in *; simplify_eq.
Qed.

Lemma stream_step_cases g :
  parts_valid (parts g) →
  let '(out, g') := stream_step g in
  task_is_terminated (parts g') = task_is_terminated (parts g) ∧
  ((∃ x, queue (parts g) = x :: queue (parts g') ∧ out = Ready (Some (Yielded x)) ∧ res g' = res g) ∨
   queue (parts g) = [] ∧ queue (parts g') = [] ∧
   if task_is_terminated (parts g)
   then stream_is_terminated (parts g') = true ∧ res g' = None ∧ out = Ready (Complete <$> res g)
   else out = Pending ∧ res g' = res g).
Proof.
  destruct g as [w o]. intros Hv. unfold stream_step. cbn [parts res] in *.
  assert (∀ w', queue w = [] → queue w' = [] → task_is_terminated w' = task_is_terminated w →
    (task_is_terminated w = true → stream_is_terminated w' = true) →
    let '(out, g') := flush (task_is_terminated w) (mkGenerator w' o) in
    task_is_terminated (parts g') = task_is_terminated w ∧
    ((∃ x, queue w = x :: queue (parts g') ∧ out = Ready (Some (Yielded x)) ∧ res g' = o) ∨
     queue w = [] ∧ queue (parts g') = [] ∧
     if task_is_terminated w
     then stream_is_terminated (parts g') = true ∧ res g' = None ∧ out = Ready (Complete <$> o)
     else out = Pending ∧ res g' = o)) as Hflush.
  { intros w' Hq Hq' Ht Hc. unfold flush. destruct (task_is_terminated w); cbn.
    - destruct o; cbn; (split; [done|]); right; auto.
    - split; [done|]. by right. }
  destruct (stream_is_terminated w) eqn:Hs; cbn.
  { apply Hflush; auto using stream_closed_queue. }
  destruct (queue w) as [|x q] eqn:Hq.
  - pose proof (stream_poll_empty w Hv Hq) as [Hq' Ho]. pose proof (stream_poll_task w) as Ht.
    pose proof (stream_poll_done w Hv) as Hd. specialize (Hflush (stream_poll_next w).2).
    destruct (stream_poll_next w) as [out w']. cbn in *. subst out.
    destruct (stream_is_terminated w') eqn:Hs'.
    + apply Hflush; auto.
    + cbn. split; [done|]. right. destruct (task_is_terminated w) eqn:Htw; [|done].
      by specialize (Hd eq_refl Hq).
  - destruct (stream_poll_item w x q Hv Hq) as (Ho & Hq' & _). pose proof (stream_poll_task w) as Ht.
    destruct (stream_poll_next w) as [out w']. cbn in *. subst out q. cbn. split; [done|]. left.
    by exists x.
Qed.

Lemma seen_snoc (l : list (Seen I R)) x :
  ready (l ++ [x]) = ready l ++ match x.2 with Ready o => [o] | Pending => [] end ∧
  results (l ++ [x]) = results l ++ match x.1.2 with Some r => [r] | None => [] end ∧
  sent (l ++ [x]) = sent l ++ x.1.1.
Proof.
  unfold ready, results, sent. rewrite !omap_app, bind_app. cbn. rewrite app_nil_r.
  by destruct x as [[? [|]] []].
Qed.

Lemma seen_idle (l : list (Seen I R)) out :
  sent (l ++ [([], None, out)]) = sent l ∧ results (l ++ [([], None, out)]) = results l.
Proof.
  destruct (seen_snoc l ([], None, out)) as (_ & -> & ->). cbn. by rewrite !app_nil_r.
Qed.

(** A poll before the result was given: [stored] is the result when the task has completed. *)
Lemma streamed_before l g out g' items did stored :
  ready l = (λ x, Some (Yielded x)) <$> items →
  items ++ queue (parts (task_step g)) = sent (l ++ [(did, out)]) →
  results (l ++ [(did, out)]) = option_list stored →
  res (task_step g) = stored → task_is_terminated (parts (task_step g)) = opt_is_some stored →
  stream_step (task_step g) = (out, g') → parts_valid (parts g) →
  streamed (l ++ [(did, out)]) g'.
Proof.
  intros Hready Hsent Hres Hstored Ht Hstep Hv. assert (parts_valid (parts (task_step g))) as Hv1
    by by apply task_poll_valid.
  pose proof (stream_step_cases (task_step g) Hv1) as Hs. pose proof (stream_step_valid _ Hv1) as Hv2.
  rewrite Hstep in Hv2. rewrite Hstep, Ht, Hstored in Hs. split; [exact Hv2|].
  destruct (seen_snoc l (did, out)) as (-> & _ & _). rewrite Hready, <-Hsent. cbn [snd].
  destruct Hs as [Ht' [(x & Hq & -> & Hg')|(Hq & Hq' & Hs)]].
  - exists (items ++ [x]), []. rewrite fmap_app, app_nil_r, Hq, <-app_assoc. split; [done|].
    split; [done|]. destruct stored as [r|]; [by eapply stage_done|by eapply stage_running].
  - rewrite Hq, Hq'. destruct stored as [r|]; cbn in Hs, Ht'.
    + destruct Hs as (Hc & Hg' & ->). exists items, [Some (Complete r)]. split; [done|].
      split; [done|]. by apply (stage_complete _ _ _ r 0).
    + destruct Hs as [-> Hg']. exists items, []. split; [done|]. split; [done|].
      by eapply stage_running.
Qed.

(** A poll after it. *)
Lemma poll_complete g :
  parts_valid (parts g) → res g = None → task_is_terminated (parts g) = true → stream_is_terminated (parts g) = true →
  (task_poll (parts g)).1 = ([], None) ∧ poll_next g = (Ready None, g).
Proof.
  intros Hv Hg Ht Hs. destruct g as [w o]. cbn in *. subst o.
  rewrite poll_next_steps by done. unfold stream_step, task_step, flush. cbn.
  rewrite task_poll_fused by done. cbn. by rewrite Hs, Ht.
Qed.

Lemma streamed_poll l g :
  streamed l g →
  streamed (l ++ [((task_poll (parts g)).1, (poll_next g).1)]) (poll_next g).2.
Proof.
  intros (Hv & items & tail & Hready & Hsent & Hstage). set (did := (task_poll (parts g)).1).
  assert (tail = [] →
    results (l ++ [(did, (poll_next g).1)]) = option_list (res (task_step g)) →
    task_is_terminated (parts (task_step g)) = opt_is_some (res (task_step g)) →
    streamed (l ++ [(did, (poll_next g).1)]) (poll_next g).2) as Hbefore.
  { intros -> Hres Ht. rewrite app_nil_r in Hready. rewrite poll_next_steps in * by done.
    eapply streamed_before; [done| |done|done|done|by destruct (stream_step _)|done].
    destruct (seen_snoc l (did, (stream_step (task_step g)).1)) as (_ & _ & ->).
    unfold task_step. cbn. by rewrite task_poll_queue, app_assoc, Hsent by done. }
  destruct (seen_snoc l (did, (poll_next g).1)) as (_ & Eres & _).
  destruct Hstage as [-> Hl Hg Ht|r -> Hl Hg Ht|r k -> Hl Hg Ht Hc].
  - apply Hbefore; [done|..]; unfold task_step; cbn; rewrite ?Eres, ?Hl, ?task_poll_terminated, ?Ht, Hg by done;
      fold did; by destruct did as [? []].
  - assert (did = ([], None)) as Hd by (unfold did; by rewrite task_poll_fused).
    apply Hbefore; [done|..]; unfold task_step; cbn; rewrite ?Eres, ?Hl, ?task_poll_terminated, ?Ht, Hg by done;
      fold did; by rewrite Hd.
  - destruct (poll_complete g Hv Hg Ht Hc) as [Hd Hp]. unfold did. rewrite Hd, Hp. split; [exact Hv|]. cbn.
    exists items, (Some (Complete r) :: replicate (S k) None).
    destruct (seen_snoc l ([], None, Ready None)) as (-> & Er & ->). cbn. rewrite Hready, !app_nil_r.
    split_and!; [|done|].
    + rewrite <-app_assoc. cbn. by rewrite <-(replicate_S_end k None).
    + apply (stage_complete _ _ _ r (S k)); try done. by rewrite Er, Hl.
Qed.

Lemma streamed_polls n w :
  parts_valid w → queue w = [] → task_is_terminated w = false →
  streamed (polls n (generate w)).1 (polls n (generate w)).2.
Proof.
  intros Hv Hq Ht. induction n as [|n IH]; cbn.
  - split; [done|]. exists [], []. split; [done|]. split; [done|]. by apply stage_running.
  - destruct (polls n (generate w)) as [l g]. apply streamed_poll in IH. cbn in *.
    by destruct (poll_next g).
Qed.

(** What the adaptors make of a stream that is complete. *)
Lemma filter_map_app {A B} (f : A → option B) l1 l2 :
  filter_map f (l1 ++ l2) = filter_map f l1 ++ filter_map f l2.
Proof. apply omap_app. Qed.
Lemma filter_map_yielded {B} (f : GeneratorState I R → option B) l :
  filter_map f ((λ x, Some (Yielded x)) <$> l) = Some <$> omap (λ x, f (Yielded x)) l.
Proof.
  unfold filter_map. induction l as [|x l IH]; [done|]. cbn. rewrite IH.
  by destruct (f (Yielded x)).
Qed.
Lemma filter_map_end {A B} (f : A → option B) k : filter_map f (replicate k None) = replicate k None.
Proof. unfold filter_map. induction k as [|k IH]; [done|]. cbn. by rewrite IH. Qed.
Lemma filter_map_streamed (l : list I) (r : R) k :
  let all := ((λ x, Some (Yielded x)) <$> l) ++ Some (Complete r) :: replicate k None in
  into_yielded_stream all = (Some <$> l) ++ replicate k None ∧ into_complete_future all = Ready (Ret r).
Proof.
  cbv zeta. unfold into_yielded_stream, into_complete_future. rewrite (cons_middle _ _ (replicate _ _)).
  rewrite !filter_map_app, !filter_map_yielded, !filter_map_end. cbn.
  split; [|by induction l]. f_equal. f_equal. induction l as [|x l IH]; [done|]. cbn. by rewrite IH.
Qed.

(** A stream of results ends with the error, when there was one. *)
Lemma into_try_streamed {E} (l : list I) (r : result unit E) k :
  into_try_stream (((λ x, Some (Yielded x)) <$> l) ++ Some (Complete r) :: replicate k None) =
  ((λ x, Some (Ok x)) <$> l) ++
  match r with Ok _ => [] | Err e => [Some (Err e)] end ++ replicate k None.
Proof.
  unfold into_try_stream. rewrite cons_middle. rewrite !filter_map_app, filter_map_end. f_equal.
  - unfold filter_map. induction l as [|x l IH]; [done|]. cbn. by rewrite IH.
  - by destruct r.
Qed.

Lemma polls_S n g :
  polls (S n) g =
  ((polls n g).1 ++ [((task_poll (parts (polls n g).2)).1, (poll_next (polls n g).2).1)],
   (poll_next (polls n g).2).2).
Proof. cbn. destruct (polls n g) as [l g']. cbn. by destruct (poll_next g'). Qed.

(** With a result to give, a poll takes an item from the queue, or gives the result. *)
Lemma drain_poll g r :
  parts_valid (parts g) → res g = Some r → task_is_terminated (parts g) = true →
  (task_poll (parts g)).1 = ([], None) ∧ task_is_terminated (parts (poll_next g).2) = true ∧
  match queue (parts g) with
  | [] => res (poll_next g).2 = None
  | _ :: q => res (poll_next g).2 = Some r ∧ queue (parts (poll_next g).2) = q
  end.
Proof.
  intros Hv Hg Ht. split; [by rewrite task_poll_fused|]. rewrite poll_next_steps by done.
  pose proof (stream_step_cases (task_step g) (task_poll_valid _ Hv)) as Hs. destruct (stream_step _) as [out g'].
  unfold task_step in Hs. rewrite task_poll_fused in Hs by done. cbn in *. rewrite Ht, Hg in Hs.
  destruct Hs as [Ht' [(x & Hq & _ & Hg')|(Hq & _ & _ & Hg' & _)]]; rewrite Hq; auto.
Qed.

Lemma drain k n w r :
  parts_valid (parts (polls n (generate w)).2) →
  res (polls n (generate w)).2 = Some r → task_is_terminated (parts (polls n (generate w)).2) = true →
  length (queue (parts (polls n (generate w)).2)) = k →
  let '(l, g) := polls (S k + n) (generate w) in
  res g = None ∧ task_is_terminated (parts g) = true ∧ sent l = sent (polls n (generate w)).1 ∧
  results l = results (polls n (generate w)).1.
Proof.
  revert n. induction k as [|k IH]; intros n Hv Hg Ht Hk.
  - destruct (drain_poll _ r Hv Hg Ht) as (Hd & Ht' & Hq).
    change (1 + n)%nat with (S n). rewrite polls_S, Hd.
    destruct (queue _); [|done]. split_and!; [done..| |]; apply seen_idle.
  - assert (parts_valid (parts (poll_next (polls n (generate w)).2).2)) as Hv'.
    { rewrite poll_next_steps by done. by apply stream_step_valid, task_poll_valid. }
    specialize (IH (S n)). rewrite polls_S in IH. cbn [fst snd] in IH.
    destruct (drain_poll _ r Hv Hg Ht) as (Hd & Ht' & Hq).
    destruct (queue (parts (polls n (generate w)).2)) as [|x q]; [done|]. destruct Hq as [Hg' Hq].
    replace (S (S k) + n)%nat with (S k + S n)%nat by lia.
    injection Hk as Hk. rewrite Hq in IH. specialize (IH Hv' Hg' Ht' Hk).
    destruct (polls (S k + S n) (generate w)) as [l g]. destruct IH as (? & ? & -> & ->).
    rewrite Hd. split_and!; [done..| |]; apply seen_idle.
Qed.

(** ** Properties *)

(** C33: a generator streams what its task sent, in order, each item once: what it gave so far are
    the first items, and the others are in the channel.  The result comes after every item, once,
    and it is what the task returned; only after it does the stream end. *)
Theorem generator_streams n w :
  parts_valid w → queue w = [] → task_is_terminated w = false →
  let '(l, g) := polls n (generate w) in
  ∃ items tail, ready l = ((λ x, Some (Yielded x)) <$> items) ++ tail ∧
    items ++ queue (parts g) = sent l ∧
    (tail = [] ∨ ∃ r k, tail = Some (Complete r) :: replicate k None ∧ results l = [r] ∧
       queue (parts g) = [] ∧ is_terminated g = true).
Proof.
  intros Hv Hq Ht. pose proof (streamed_polls n w Hv Hq Ht) as Hs.
  destruct (polls n (generate w)) as [l g]. destruct Hs as (Hv' & items & tail & Hr & Hi & Hstage).
  exists items, tail. split; [done|]. split; [done|].
  destruct Hstage as [-> _ _ _|r -> _ _ _|r k -> Hl Hg Htask Hc]; [by left..|right].
  exists r, k. split_and!; [done|done|by apply stream_closed_queue|].
  unfold is_terminated. cbn in *. by rewrite Htask, Hc, Hg.
Qed.

(** Once the task has returned, the stream is finished by as many polls as there are items left
    in the channel, and one more: it has given everything the task sent, and then the result.  Then
    [into_yielded] gives what was sent and nothing else, and [into_complete] is ready with the
    result, without panicking. *)
Theorem generator_completes n w r :
  parts_valid w → queue w = [] → task_is_terminated w = false → results (polls n (generate w)).1 = [r] →
  let '(l, g) := polls n (generate w) in
  ∃ k, let all := ready (polls (S (length (queue (parts g))) + n) (generate w)).1 in
    all = ((λ x, Some (Yielded x)) <$> sent l) ++ Some (Complete r) :: replicate k None ∧
    into_yielded_stream all = (Some <$> sent l) ++ replicate k None ∧
    into_complete_future all = Ready (Ret r).
Proof.
  intros Hv Hq Ht Hr. pose proof (streamed_polls n w Hv Hq Ht) as Hs.
  pose proof (drain (length (queue (parts (polls n (generate w)).2))) n w r (proj1 Hs)) as Hd.
  pose proof (streamed_polls (S (length (queue (parts (polls n (generate w)).2))) + n) w Hv Hq Ht) as Hm.
  assert (let '(l, g) := polls n (generate w) in
    let '(l', g') := polls (S (length (queue (parts g))) + n) (generate w) in
    res g' = None ∧ task_is_terminated (parts g') = true ∧ sent l' = sent l ∧ results l' = results l)
    as Hend.
  { destruct Hs as (Hv' & items & tail & _ & _ & [_ Hl _ _|r' _ Hl Hg Htask|r' k _ Hl Hg Htask Hc]).
    - by rewrite Hl in Hr.
    - assert (r' = r) as -> by congruence. specialize (Hd Hg Htask eq_refl).
      by destruct (polls n (generate w)).
    - clear Hd Hm. pose proof (polls_S n (generate w)) as Hp.
      destruct (polls n (generate w)) as [l g]. cbn [fst snd] in *.
      rewrite (stream_closed_queue _ Hv' Hc). cbn [length]. change (1 + n)%nat with (S n). rewrite Hp.
      destruct (poll_complete g Hv' Hg Htask Hc) as [-> ->]. cbn [fst snd].
      split_and!; [done..| |]; apply seen_idle. }
  destruct (polls n (generate w)) as [l g]. cbn [fst snd] in *.
  destruct (polls (S (length (queue (parts g))) + n) (generate w)) as [l' g']. cbn [fst snd] in *.
  destruct Hend as (Hg' & Ht' & Hsent & Hres).
  destruct Hm as (Hv' & items & tail & Hready & Hi & [_ _ _ Hf|r' _ _ Hf _|r' k -> Hl _ _ Hc]); [congruence..|].
  exists k. assert (r' = r) as -> by congruence. cbv zeta.
  assert (ready l' = ((λ x, Some (Yielded x)) <$> sent l) ++ Some (Complete r) :: replicate k None) as ->
    by by rewrite Hready, <-Hsent, <-Hi, (stream_closed_queue _ Hv' Hc), app_nil_r.
  split; [done|]. apply filter_map_streamed.
Qed.
End lemmas.

#[export] Instance script_parts_spec {I R} : GeneratorPartsSpec I R (Script I R).
Proof.
  refine {| parts_valid _ := True; queue := channel |}; try done; intros [sc r ch te se]; cbn;
    unfold script_poll, script_stream; cbn.
  all: try (intros x q _ ->); try (by destruct te); try (by destruct ch).
  all: destruct te, se, sc; cbn; rewrite ?app_nil_r; try done; try (intros; by destruct ch).
Defined.

Lemma generator_streams_witness :
  ready (polls 4 (generate example_script)).1 = [Some (Yielded 1); Some (Yielded 2); Some (Yielded 3)]%nat ∧
  let '(l, g) := polls 4 (generate example_script) in
  ∃ items tail, ready l = ((λ x, Some (Yielded x)) <$> items) ++ tail ∧
    items ++ queue (parts g) = sent l ∧
    (tail = [] ∨ ∃ r k, tail = Some (Complete r) :: replicate k None ∧ results l = [r] ∧
       queue (parts g) = [] ∧ is_terminated g = true).
Proof. split; [reflexivity|]. apply (generator_streams 4 example_script); [exact Logic.I|reflexivity..]. Defined.

Lemma generator_completes_witness :
  let '(l, g) := polls 4 (generate example_script) in
  ∃ k, let all := ready (polls (S (length (queue (parts g))) + 4) (generate example_script)).1 in
    all = ((λ x, Some (Yielded x)) <$> sent l) ++ Some (Complete "done") :: replicate k None ∧
    into_yielded_stream all = (Some <$> sent l) ++ replicate k None ∧
    into_complete_future all = Ready (Ret "done").
Proof. apply (generator_completes 4 example_script "done"); [exact Logic.I|reflexivity..]. Defined.
