(* ===== verification/Timers.v ===== *)
(** * The timer that a test unblocks ([time/timers.rs]: [BlockingTimer], [BlockedTimer])

    A wait of the timer sends a [BlockedTimer] to the test, and is over when the test unblocks it; it
    panics when the test drops it, or drops the receiver of the timers.  The channels ([futures::channel::mpsc] and [oneshot]) are the
    interface [TimerChannels]; they share the state [W].  What the test does meanwhile is any
    sequence of its own operations. *)

From S2P Require Import Prelude Time Generator.
Open Scope Z_scope.

(** [BlockedTimer]: the wait, and the sending end of a oneshot channel, here its name [O]. *)
Record BlockedTimer (O : Type) : Type := mkBlockedTimer {
  blocked_wait : RequestedWait;
  blocked_unblock : O;
}.
Arguments mkBlockedTimer {O} blocked_wait blocked_unblock.
Arguments blocked_wait {O} b.
Arguments blocked_unblock {O} b.

(** The operations of the channels.  [F] is the future of [send] on a clone of the sender. *)
Class TimerChannels (O F W : Type) := {
  oneshot_channel : W → O * W;
  oneshot_send : O → W → result unit unit * W;
  oneshot_drop_sender : O → W → W;
  oneshot_poll : O → W → Poll (result unit unit) * W;
  timer_send : BlockedTimer O → F;
  timer_send_poll : F → W → Poll (result unit unit) * (F * W);
  timer_receive : W → option (BlockedTimer O) * W;
  timer_receiver_drop : W → W;
}.

(** What [futures] documents of them: a oneshot channel is open until its sender sends or is dropped,
    once, and its receiver then completes with what was sent, or with [Canceled]; other channels do
    not change it.  The receiver of the timers gets what was sent to it.  Once it is dropped, what it
    did not take is dropped with it, and a [send] that has not handed its timer over yet is an error;
    one that has is flushed. *)
Inductive OneshotState : Type := OneshotNone | OneshotOpen | OneshotSent | OneshotCanceled.
Class TimerChannelsSpec (O F W : Type) `{TimerChannels O F W, EqDecision O} := {
  oneshot_state : W → O → OneshotState;
  in_flight : W → list (BlockedTimer O);
  sending : F → option (BlockedTimer O);
  closed : W → bool;
  oneshot_channel_new w :
    oneshot_state w (oneshot_channel w).1 = OneshotNone ∧
    (∀ o, oneshot_state (oneshot_channel w).2 o =
       if decide (o = (oneshot_channel w).1) then OneshotOpen else oneshot_state w o) ∧
    in_flight (oneshot_channel w).2 = in_flight w ∧ closed (oneshot_channel w).2 = closed w;
  oneshot_send_open o w : oneshot_state w o = OneshotOpen →
    (oneshot_send o w).1 = Ok tt ∧ in_flight (oneshot_send o w).2 = in_flight w ∧
    closed (oneshot_send o w).2 = closed w ∧
    ∀ o', oneshot_state (oneshot_send o w).2 o' =
      if decide (o' = o) then OneshotSent else oneshot_state w o';
  oneshot_drop_open o w : oneshot_state w o = OneshotOpen →
    in_flight (oneshot_drop_sender o w) = in_flight w ∧
    closed (oneshot_drop_sender o w) = closed w ∧
    ∀ o', oneshot_state (oneshot_drop_sender o w) o' =
      if decide (o' = o) then OneshotCanceled else oneshot_state w o';
  oneshot_poll_state o w :
    (∀ o', oneshot_state (oneshot_poll o w).2 o' = oneshot_state w o') ∧
    in_flight (oneshot_poll o w).2 = in_flight w ∧ closed (oneshot_poll o w).2 = closed w ∧
    match oneshot_state w o with
    | OneshotOpen => (oneshot_poll o w).1 = Pending
    | OneshotSent => (oneshot_poll o w).1 = Ready (Ok tt)
    | OneshotCanceled => (oneshot_poll o w).1 = Ready (Err tt)
    | OneshotNone => True
    end;
  timer_send_new b : sending (timer_send b) = Some b;
  timer_send_poll_state f w :
    (∀ o, oneshot_state (timer_send_poll f w).2.2 o = oneshot_state w o) ∧
    closed (timer_send_poll f w).2.2 = closed w ∧
    if closed w && bool_decide (is_Some (sending f))
    then (timer_send_poll f w).1 = Ready (Err tt) ∧ in_flight (timer_send_poll f w).2.2 = in_flight w
    else
      in_flight (timer_send_poll f w).2.2 =
        in_flight w ++ match sending f, sending (timer_send_poll f w).2.1 with
                       | Some b, None => [b]
                       | _, _ => []
                       end ∧
      (sending f = None → sending (timer_send_poll f w).2.1 = None) ∧
      (∀ b, sending (timer_send_poll f w).2.1 = Some b → sending f = Some b) ∧
      ((timer_send_poll f w).1 ≠ Pending → sending (timer_send_poll f w).2.1 = None) ∧
      (timer_send_poll f w).1 ≠ Ready (Err tt);
  timer_send_flushed f w :
    sending f = None → in_flight w = [] → (timer_send_poll f w).1 = Ready (Ok tt);
  timer_receive_state w :
    (∀ o, oneshot_state (timer_receive w).2 o = oneshot_state w o) ∧
    closed (timer_receive w).2 = closed w ∧
    match in_flight w with
    | [] => (timer_receive w).1 = None ∧ in_flight (timer_receive w).2 = []
    | b :: l => (timer_receive w).1 = Some b ∧ in_flight (timer_receive w).2 = l
    end;
  timer_receiver_drop_state w :
    (∀ b, b ∈ in_flight w → oneshot_state w (blocked_unblock b) = OneshotOpen) →
    closed (timer_receiver_drop w) = true ∧ in_flight (timer_receiver_drop w) = [] ∧
    ∀ o, oneshot_state (timer_receiver_drop w) o =
      if decide (o ∈ blocked_unblock <$> in_flight w) then OneshotCanceled else oneshot_state w o;
}.

Section blocking.
Context {O F W : Type} `{TimerChannels O F W}.

(** The future of a wait: not polled yet, awaiting its [send], awaiting the oneshot, or over. *)
Inductive WaitState : Type :=
| WaitStart (wait : RequestedWait)
| WaitSend (f : F) (recv : O)
| WaitRecv (recv : O)
| WaitOver.

(** [BlockingTimer::wait], [wait_until] and [wait_for]: nothing happens before the first poll. *)
Definition blocking_wait (wait : RequestedWait) : WaitState := WaitStart wait.
Definition blocking_wait_until (t : PartialComplexTime) : WaitState := blocking_wait (Until t).
Definition blocking_wait_for (d : Duration) : WaitState := blocking_wait (For d).

(** [recv.await.unwrap()]. *)
Definition poll_recv (recv : O) (w : W) : Poll (outcome unit) * (WaitState * W) :=
  match oneshot_poll recv w with
  | (Pending, w) => (Pending, (WaitRecv recv, w))
  | (Ready r, w) => (Ready (unwrap_ok r), (WaitOver, w))
  end.
(** [chan.send(..).await.unwrap()], and what comes after it. *)
Definition poll_send (f : F) (recv : O) (w : W) : Poll (outcome unit) * (WaitState * W) :=
  match timer_send_poll f w with
  | (Pending, (f, w)) => (Pending, (WaitSend f recv, w))
  | (Ready (Ok _), (_, w)) => poll_recv recv w
  | (Ready (Err _), (_, w)) =>
    (Ready (Panic "called `Result::unwrap()` on an `Err` value"), (WaitOver, w))
  end.
Definition wait_poll (s : WaitState) (w : W) : Poll (outcome unit) * (WaitState * W) :=
  match s with
  | WaitStart wait =>
    let '(o, w) := oneshot_channel w in poll_send (timer_send (mkBlockedTimer wait o)) o w
  | WaitSend f recv => poll_send f recv w
  | WaitRecv recv => poll_recv recv w
  | WaitOver => (Pending, (WaitOver, w))
  end.

(** [BlockedTimer::requested_wait], [BlockedTimer::unblock] and dropping a [BlockedTimer]. *)
Definition requested_wait (self : BlockedTimer O) : RequestedWait := blocked_wait self.
Definition unblock (self : BlockedTimer O) (w : W) : outcome unit * W :=
  let '(r, w) := oneshot_send (blocked_unblock self) w in (unwrap_ok r, w).
Definition drop_blocked (self : BlockedTimer O) (w : W) : W := oneshot_drop_sender (blocked_unblock self) w.
End blocking.
Arguments WaitState : clear implicits.

(** ** A wait and a test, step by step *)

Section contract.
Context {O F W : Type} `{TimerChannelsSpec O F W}.

(** What happens in the program while a wait is there: it is polled; the test receives a timer, and
    unblocks or drops one that it has, or drops the receiver.  The wait itself is not dropped. *)
Inductive event : Type :=
| EvPoll
| EvReceive
| EvUnblock (b : BlockedTimer O)
| EvDrop (b : BlockedTimer O)
| EvClose.

(** The wait, the timers the test has, and how the wait ended, if it did. *)
Record Scene : Type := mkScene {
  scene_wait : WaitState O F;
  scene_world : W;
  scene_held : list (BlockedTimer O);
  scene_ended : option (outcome unit);
}.
Definition scene_start (wait : RequestedWait) (w : W) : Scene := mkScene (blocking_wait wait) w [] None.

Inductive scene_step : Scene → event → Scene → Prop :=
| scene_poll s w held out s' w' :
    wait_poll s w = (out, (s', w')) →
    scene_step (mkScene s w held None) EvPoll
      (mkScene s' w' held match out with Ready o => Some o | Pending => None end)
| scene_receive s w held ended b w' :
    closed w = false → timer_receive w = (Some b, w') →
    scene_step (mkScene s w held ended) EvReceive (mkScene s w' (held ++ [b]) ended)
| scene_unblock s w held1 b held2 ended :
    scene_step (mkScene s w (held1 ++ b :: held2) ended) (EvUnblock b)
      (mkScene s (unblock b w).2 (held1 ++ held2) ended)
| scene_drop s w held1 b held2 ended :
    scene_step (mkScene s w (held1 ++ b :: held2) ended) (EvDrop b)
      (mkScene s (drop_blocked b w) (held1 ++ held2) ended)
| scene_close s w held ended :
    closed w = false →
    scene_step (mkScene s w held ended) EvClose (mkScene s (timer_receiver_drop w) held ended).
Inductive scenes (s : Scene) : list event → Scene → Prop :=
| scenes_nil : scenes s [] s
| scenes_snoc l s1 e s2 : scenes s l s1 → scene_step s1 e s2 → scenes s (l ++ [e]) s2.

Definition is_release (e : event) : bool :=
  match e with EvUnblock _ | EvDrop _ => true | _ => false end.
Definition no_release (l : list event) : Prop := Forall (λ e, is_release e = false) l.
(** The wait has handed its timer over. *)
Definition handed_over (o : O) (s : WaitState O F) : Prop :=
  s = WaitRecv o ∨ ∃ f, s = WaitSend f o ∧ sending f = None.

(** Where the timer of a wait is after some events. *)
Inductive place (wait : RequestedWait) (l : list event) : Scene → Prop :=
| at_start w :
    in_flight w = [] → no_release l → place wait l (mkScene (WaitStart wait) w [] None)
| at_send f o w :
    sending f = Some (mkBlockedTimer wait o) → in_flight w = [] → oneshot_state w o = OneshotOpen →
    no_release l → place wait l (mkScene (WaitSend f o) w [] None)
| at_test s o w held :
    handed_over o s → held ++ in_flight w = [mkBlockedTimer wait o] →
    oneshot_state w o = OneshotOpen → no_release l → (EvClose ∈ l → held ≠ []) →
    place wait l (mkScene s w held None)
| at_unblocked s o w :
    handed_over o s → in_flight w = [] → oneshot_state w o = OneshotSent →
    EvUnblock (mkBlockedTimer wait o) ∈ l → place wait l (mkScene s w [] None)
| at_dropped s o w :
    handed_over o s → in_flight w = [] → oneshot_state w o = OneshotCanceled →
    EvDrop (mkBlockedTimer wait o) ∈ l ∨ EvClose ∈ l → place wait l (mkScene s w [] None)
| at_end o w r :
    in_flight w = [] →
    (r = Ret tt ∧ EvUnblock (mkBlockedTimer wait o) ∈ l ∨
     (∃ msg, r = Panic msg) ∧ (EvDrop (mkBlockedTimer wait o) ∈ l ∨ EvClose ∈ l)) →
    place wait l (mkScene WaitOver w [] (Some r)).
(** The receiver is gone when the test dropped it. *)
Definition closing (l : list event) (w : W) : Prop := closed w = true ↔ EvClose ∈ l.

(** ** Lemmas *)

Lemma poll_recv_eq o w :
  (∀ o', oneshot_state (poll_recv (F := F) o w).2.2 o' = oneshot_state w o') ∧
  in_flight (poll_recv (F := F) o w).2.2 = in_flight w ∧
  match oneshot_state w o with
  | OneshotOpen => (poll_recv (F := F) o w).1 = Pending ∧ (poll_recv (F := F) o w).2.1 = WaitRecv o
  | OneshotSent => (poll_recv (F := F) o w).1 = Ready (Ret tt) ∧ (poll_recv (F := F) o w).2.1 = WaitOver
  | OneshotCanceled => (∃ msg, (poll_recv (F := F) o w).1 = Ready (Panic msg)) ∧
      (poll_recv (F := F) o w).2.1 = WaitOver
  | OneshotNone => True
  end.
Proof.
  destruct (oneshot_poll_state o w) as (Hs & Hf & _ & Hp). unfold poll_recv.
  destruct (oneshot_poll o w) as [[|[[]|[]]] w']; cbn in *; (split; [exact Hs|split; [exact Hf|]]);
    destruct (oneshot_state w o); try done; by eauto.
Qed.

(** A poll once the timer was handed over: it waits for the oneshot, or still for its [send]. *)
Lemma poll_handed_over o s w :
  handed_over o s →
  (∀ o', oneshot_state (wait_poll s w).2.2 o' = oneshot_state w o') ∧
  in_flight (wait_poll s w).2.2 = in_flight w ∧
  ((wait_poll s w).1 = Pending ∧ handed_over o (wait_poll s w).2.1 ∧
     (in_flight w = [] → oneshot_state w o = OneshotOpen ∨ oneshot_state w o = OneshotNone) ∨
   oneshot_state w o = OneshotSent ∧ (wait_poll s w).1 = Ready (Ret tt) ∧ (wait_poll s w).2.1 = WaitOver ∨
   oneshot_state w o = OneshotCanceled ∧ (∃ msg, (wait_poll s w).1 = Ready (Panic msg)) ∧
     (wait_poll s w).2.1 = WaitOver ∨
   oneshot_state w o = OneshotNone).
Proof.
  assert (∀ w', (∀ o', oneshot_state w' o' = oneshot_state w o') → in_flight w' = in_flight w →
    (∀ o', oneshot_state (poll_recv (F := F) o w').2.2 o' = oneshot_state w o') ∧
    in_flight (poll_recv (F := F) o w').2.2 = in_flight w ∧
    ((poll_recv (F := F) o w').1 = Pending ∧ handed_over o (poll_recv (F := F) o w').2.1 ∧
       (in_flight w = [] → oneshot_state w o = OneshotOpen ∨ oneshot_state w o = OneshotNone) ∨
     oneshot_state w o = OneshotSent ∧ (poll_recv (F := F) o w').1 = Ready (Ret tt) ∧
       (poll_recv (F := F) o w').2.1 = WaitOver ∨
     oneshot_state w o = OneshotCanceled ∧ (∃ msg, (poll_recv (F := F) o w').1 = Ready (Panic msg)) ∧
       (poll_recv (F := F) o w').2.1 = WaitOver ∨
     oneshot_state w o = OneshotNone)) as Hrecv.
  { intros w' Hs Hf. destruct (poll_recv_eq o w') as (Hs' & Hf' & Hp). split; [by intros; rewrite Hs'|].
    split; [by rewrite Hf'|]. rewrite Hs in Hp. destruct (oneshot_state w o); [by auto| |by auto|by auto].
    destruct Hp as [-> ->]. left. split; [done|]. split; [by left|auto]. }
  intros [->|(f & -> & Hf)]; cbn [wait_poll]; [by apply Hrecv|].
  destruct (timer_send_poll_state f w) as (Hs & _ & Hq). rewrite Hf, andb_false_r, app_nil_r in Hq.
  destruct Hq as (Hq & Hnone & _ & _ & Herr). specialize (Hnone eq_refl).
  pose proof (timer_send_flushed f w Hf) as Hflush. unfold poll_send.
  destruct (timer_send_poll f w) as [[|[[]|[]]] [f' w']]; cbn in *; [|by apply Hrecv|done].
  split; [done|]. split; [done|]. left. split; [done|]. split; [right; by eauto|].
  intros Hnil. by specialize (Hflush Hnil).
Qed.

(** A poll leaves the receiver as it is. *)
Lemma wait_poll_closed s w : closed (wait_poll s w).2.2 = closed w.
Proof.
  assert (∀ o w', closed (poll_recv (F := F) o w').2.2 = closed w') as Hrecv.
  { intros o w'. destruct (oneshot_poll_state o w') as (_ & _ & Hc & _). unfold poll_recv.
    by destruct (oneshot_poll o w') as [[|] w'']. }
  assert (∀ f o w', closed (poll_send f o w').2.2 = closed w') as Hsend.
  { intros f o w'. destruct (timer_send_poll_state f w') as (_ & Hc & _). unfold poll_send.
    destruct (timer_send_poll f w') as [[|[[]|[]]] [f' w'']]; cbn in *; [done| |done]. by rewrite Hrecv. }
  destruct s as [wait|f o|o|]; cbn [wait_poll]; [|done..].
  destruct (oneshot_channel_new w) as (_ & _ & _ & Hc). destruct (oneshot_channel w) as [o w']. cbn in *.
  by rewrite Hsend.
Qed.

(** A poll of a send that was not handed over yet: it waits unless the receiver is gone. *)
Lemma poll_sending wait l f o w :
  sending f = Some (mkBlockedTimer wait o) → in_flight w = [] → oneshot_state w o = OneshotOpen →
  no_release l → closing l w →
  let '(out, (s', w')) := poll_send f o w in
  place wait l (mkScene s' w' [] match out with Ready r => Some r | Pending => None end) ∧
  (out = Pending ↔ EvClose ∉ l).
Proof.
  intros Hf Hnil Hst Hno Hcl.
  destruct (timer_send_poll_state f w) as (Hs & _ & Hq). rewrite Hf, Hnil in Hq. unfold poll_send, closing in *.
  destruct (closed w) eqn:Hw; cbn [andb bool_decide is_Some] in Hq.
  - rewrite bool_decide_true in Hq by eauto. pose proof (proj1 Hcl eq_refl) as Hin.
    destruct (timer_send_poll f w) as [[|[]] [f' w']]; cbn in *; (destruct Hq as [He Hq]; try done).
    split; [apply (at_end _ _ o); [done|right; by eauto]|by split].
  - assert (EvClose ∉ l) as Hout by (intros Hin; by apply Hcl in Hin).
    destruct Hq as (Hq & _ & Hkeep & Hready & Herr).
    destruct (timer_send_poll f w) as [[|[[]|[]]] [f' w']]; cbn in *; [| |done].
    + split; [|done]. destruct (sending f') as [b|] eqn:Hf'.
      * apply at_send; [|done|by rewrite Hs|done]. specialize (Hkeep b eq_refl). congruence.
      * eapply at_test; [right; by eauto|by rewrite Hq|by rewrite Hs|done..].
    + rewrite (Hready ltac:(done)) in Hq. destruct (poll_recv_eq o w') as (Hs' & Hf' & Hp).
      rewrite Hs, Hst in Hp. destruct (poll_recv o w') as [out [s' w2]]. cbn in *.
      destruct Hp as [-> ->]. split; [|done].
      eapply at_test; [by left|by rewrite Hf', Hq|by rewrite Hs', Hs|done..].
Qed.
Lemma poll_starting wait l w :
  in_flight w = [] → no_release l → closing l w →
  let '(out, (s', w')) := wait_poll (WaitStart wait) w in
  place wait l (mkScene s' w' [] match out with Ready r => Some r | Pending => None end) ∧
  (out = Pending ↔ EvClose ∉ l).
Proof.
  intros Hnil Hno Hcl. cbn. destruct (oneshot_channel_new w) as (_ & Hst & Hq & Hc).
  destruct (oneshot_channel w) as [o w1]. cbn in *. apply poll_sending; [apply timer_send_new|congruence| |done|].
  - by rewrite Hst, decide_True.
  - unfold closing. by rewrite Hc.
Qed.

Lemma no_release_snoc l e : no_release l → is_release e = false → no_release (l ++ [e]).
Proof. intros Hl He. apply Forall_app. split; [done|by constructor]. Qed.

(** The three places after the hand-over, at a poll. *)
Lemma place_poll wait l o ws w held out s' w' :
  handed_over o ws → wait_poll ws w = (out, (s', w')) →
  held ++ in_flight w = [mkBlockedTimer wait o] ∧ oneshot_state w o = OneshotOpen ∧ no_release l ∧
    (EvClose ∈ l → held ≠ []) ∨
  held = [] ∧ in_flight w = [] ∧
    (oneshot_state w o = OneshotSent ∧ EvUnblock (mkBlockedTimer wait o) ∈ l ∨
     oneshot_state w o = OneshotCanceled ∧ (EvDrop (mkBlockedTimer wait o) ∈ l ∨ EvClose ∈ l)) →
  place wait (l ++ [EvPoll])
    (mkScene s' w' held match out with Ready r => Some r | Pending => None end).
Proof.
  intros Hh Hpoll Hcase. destruct (poll_handed_over o ws w Hh) as (Hs & Hq & Ho). rewrite Hpoll in Hs, Hq, Ho.
  cbn in *. assert (∀ e, e ∈ l → e ∈ l ++ [EvPoll]) as Hin by set_solver.
  destruct Hcase as [(Hb & Hst & Hno & Hcl)|(-> & Hnil & Hcase)]; rewrite ?Hst in Ho.
  - destruct Ho as [(-> & Hh' & _)|[[? _]|[[? _]|?]]]; try done.
    eapply at_test; [done|by rewrite Hq|by rewrite Hs|by apply no_release_snoc|set_solver].
  - destruct Hcase as [[Hst Hu]|[Hst Hd]]; rewrite Hst in Ho.
    + destruct Ho as [(_ & _ & Hf)|[(_ & -> & ->)|[[? _]|?]]]; try done.
      * by destruct (Hf Hnil).
      * apply (at_end _ _ o); [by rewrite Hq|left; by auto].
    + destruct Ho as [(_ & _ & Hf)|[[? _]|[(_ & [msg ->] & ->)|?]]]; try done.
      * by destruct (Hf Hnil).
      * apply (at_end _ _ o); [by rewrite Hq|right; split; [by eauto|set_solver]].
Qed.
(** A timer in flight is the one of the wait, and its channel is open. *)
Lemma place_flight wait l s w held ended b :
  place wait l (mkScene s w held ended) → b ∈ in_flight w → oneshot_state w (blocked_unblock b) = OneshotOpen.
Proof.
  intros Hp Hb. inversion Hp; subst; clear Hp;
    match goal with H : in_flight w = [] |- _ => by rewrite H in Hb; apply not_elem_of_nil in Hb | _ => idtac end.
  assert (b ∈ held ++ in_flight w) as Hb2 by set_solver.
  match goal with H : held ++ _ = _ |- _ => rewrite H in Hb2 end.
  by apply list_elem_of_singleton in Hb2 as ->.
Qed.
(** The places after the test drops the receiver. *)
Lemma place_close wait l s w held ended :
  place wait l (mkScene s w held ended) →
  place wait (l ++ [EvClose]) (mkScene s (timer_receiver_drop w) held ended).
Proof.
  intros Hp. assert (∀ e, e ∈ l → e ∈ l ++ [EvClose]) as Hin by set_solver.
  assert (EvClose ∈ l ++ [EvClose]) as Hlast by set_solver.
  assert (no_release l → no_release (l ++ [EvClose])) as Hno by (intros; by apply no_release_snoc).
  destruct (timer_receiver_drop_state w) as (_ & Hq & Hs); [intros b Hb; by eapply place_flight|].
  inversion Hp as [? Hnil|? ? ? ? Hnil|? ? ? ? ? Hb|? ? ? ? Hnil|? ? ? ? Hnil ? Hd|? ? ? Hnil Hr]; subst;
    clear Hp; try (assert (∀ o, oneshot_state (timer_receiver_drop w) o = oneshot_state w o) as Hst
      by (intros; rewrite Hs, Hnil; case_decide; [set_solver|done])).
  - apply at_start; auto.
  - apply at_send; [done|done|by rewrite Hst|auto].
  - destruct held as [|b held].
    + cbn in Hb. rewrite Hb in Hs. eapply at_dropped; [done..| |by auto].
      rewrite Hs, decide_True; [done|set_solver].
    + destruct held; [|done]. cbn in Hb. simplify_eq. eapply at_test; [done|by rewrite Hq| |by auto|done].
      rewrite Hs, decide_False; [done|]. match goal with H : in_flight w = [] |- _ => rewrite H end. set_solver.
  - eapply at_unblocked; [done..|by rewrite Hst|set_solver].
  - eapply at_dropped; [done..|by rewrite Hst|set_solver].
  - apply (at_end _ _ o); [done|set_solver].
Qed.

Lemma place_step wait l s e s' :
  closing l (scene_world s) → place wait l s → scene_step s e s' → place wait (l ++ [e]) s'.
Proof.
  intros Hcl Hp Hstep. destruct Hstep as [ws w held out s' w' Hpoll|ws w held ended b w' Hopen Hrecv
    |ws w held1 b held2 ended|ws w held1 b held2 ended|ws w held ended Hopen]; cbn in Hcl.
  - assert (closing (l ++ [EvPoll]) w) as Hcl' by (unfold closing in *; set_solver).
    inversion Hp as [? Hnil Hno|f o ? Hf Hnil Hst Hno| | | |]; subst; clear Hp.
    + pose proof (poll_starting wait (l ++ [EvPoll]) w Hnil) as Hs.
      rewrite Hpoll in Hs. by apply Hs; [apply no_release_snoc|].
    + pose proof (poll_sending wait (l ++ [EvPoll]) f o w Hf Hnil Hst) as Hs. cbn in Hpoll.
      rewrite Hpoll in Hs. by apply Hs; [apply no_release_snoc|].
    + eapply place_poll; [done..|by left].
    + eapply place_poll; [done..|right; by auto].
    + eapply place_poll; [done..|right; by auto].
  - destruct (timer_receive_state w) as (Hs & _ & Hq). rewrite Hrecv in Hs, Hq. cbn in *.
    inversion Hp; subst; clear Hp;
      try (match goal with Hn : in_flight w = [] |- _ => by rewrite Hn in Hq; destruct Hq end).
    destruct (in_flight w) as [|b' q] eqn:Hw; [by destruct Hq|]. destruct Hq as [[= <-] Hq].
    eapply at_test; [done|by rewrite <-app_assoc, Hq|by rewrite Hs|by apply no_release_snoc|by destruct held].
  - inversion Hp; subst; clear Hp; try by destruct held1.
    destruct held1 as [|? held1]; [|by destruct held1]. cbn in *. destruct held2; [|done]. cbn in *.
    simplify_eq. unfold unblock. destruct (oneshot_send_open o w) as (_ & Hq & _ & Hs); [done|].
    cbn. destruct (oneshot_send o w) as [r w1]. cbn in *.
    eapply at_unblocked; [done|congruence|by rewrite Hs, decide_True|set_solver].
  - inversion Hp; subst; clear Hp; try by destruct held1.
    destruct held1 as [|? held1]; [|by destruct held1]. cbn in *. destruct held2; [|done]. cbn in *.
    simplify_eq. unfold drop_blocked. destruct (oneshot_drop_open o w) as (Hq & _ & Hs); [done|].
    cbn. eapply at_dropped; [done|congruence|by rewrite Hs, decide_True|set_solver].
  - by apply place_close.
Qed.
Lemma closing_step wait l s e s' :
  closing l (scene_world s) → place wait l s → scene_step s e s' → closing (l ++ [e]) (scene_world s').
Proof.
  unfold closing. intros Hcl Hp Hstep. assert (∀ w', e ≠ EvClose → closed w' = closed (scene_world s) →
    (closed w' = true ↔ EvClose ∈ l ++ [e])) as Hsame.
  { intros w' He Hw. rewrite Hw, Hcl, elem_of_app, list_elem_of_singleton. split; [by left|]. by intros [|]. }
  destruct Hstep as [ws w held out s' w' Hpoll|ws w held ended b w' Hopen Hrecv
    |ws w held1 b held2 ended|ws w held1 b held2 ended|ws w held ended Hopen]; cbn [scene_world] in *.
  - apply Hsame; [done|]. pose proof (wait_poll_closed ws w) as Hc. by rewrite Hpoll in Hc.
  - apply Hsame; [done|]. destruct (timer_receive_state w) as (_ & Hc & _). by rewrite Hrecv in Hc.
  - apply Hsame; [done|]. inversion Hp; subst; clear Hp; try by destruct held1.
    destruct held1; [|by destruct held1]. cbn in *. simplify_eq. unfold unblock. cbn.
    destruct (oneshot_send_open o w) as (_ & _ & Hc & _); [done|]. by destruct (oneshot_send o w).
  - apply Hsame; [done|]. inversion Hp; subst; clear Hp; try by destruct held1.
    destruct held1; [|by destruct held1]. cbn in *. simplify_eq.
    by destruct (oneshot_drop_open o w) as (_ & Hc & _).
  - split; [set_solver|]. intros _.
    destruct (timer_receiver_drop_state w) as [Hc _]; [|done]. intros b Hb. by eapply place_flight.
Qed.
Lemma scenes_place wait w l s :
  in_flight w = [] → closed w = false → scenes (scene_start wait w) l s →
  place wait l s ∧ closing l (scene_world s).
Proof.
  intros Hw Hc Hrun. induction Hrun as [|l s1 e s2 Hrun [Hp Hcl] Hstep].
  - split; [by apply at_start; [|constructor]|]. unfold closing. cbn. rewrite Hc. by split; [|set_solver].
  - split; [by eapply place_step|by eapply closing_step].
Qed.

(** A wait that is over, or the next poll of one that is not. *)
Lemma released_not_pending o s w :
  handed_over o s → in_flight w = [] →
  oneshot_state w o = OneshotSent ∨ oneshot_state w o = OneshotCanceled →
  (wait_poll s w).1 ≠ Pending.
Proof.
  intros Hh Hq Hst. destruct (poll_handed_over o s w Hh) as (_ & _ & Ho).
  destruct Hst as [Hst|Hst]; rewrite Hst in Ho;
    destruct Ho as [(_ & _ & Hf)|[(_ & -> & _)|[(_ & [msg ->] & _)|?]]]; try done; by destruct (Hf Hq).
Qed.

(** ** Properties *)

(** C28: The contract of the blocking timer, in any order of polls and of operations of the test: it
    receives timers, unblocks or drops those it has, and may drop the receiver; the wait is not
    dropped.  The test only ever
    gets a timer with the wait that was asked for.  The wait completes only after the test unblocked
    that timer, and panics only after the test dropped it, or the receiver.  As long as a wait is not
    over, its next poll is pending exactly when the test has released no timer and the wait's is
    either with the test or can still reach it. *)
Theorem blocking_timer_contract wait w l s :
  in_flight w = [] → closed w = false → scenes (scene_start wait w) l s →
  (∀ b, b ∈ scene_held s → requested_wait b = wait) ∧
  match scene_ended s with
  | Some (Ret _) => ∃ b, requested_wait b = wait ∧ EvUnblock b ∈ l
  | Some (Panic _) => (∃ b, requested_wait b = wait ∧ EvDrop b ∈ l) ∨ EvClose ∈ l
  | None =>
    (wait_poll (scene_wait s) (scene_world s)).1 = Pending ↔
      no_release l ∧ (scene_held s ≠ [] ∨ EvClose ∉ l)
  end.
Proof.
  intros Hw Hc Hrun. destruct (scenes_place _ _ _ _ Hw Hc Hrun) as [Hp Hcl].
  assert (∀ b, no_release l → EvUnblock b ∈ l ∨ EvDrop b ∈ l → False) as Hrel.
  { unfold no_release. setoid_rewrite Forall_forall. intros b Hall [Hb|Hb]; by apply Hall in Hb. }
  destruct Hp as [w1 Hq Hl|f o w1 Hf Hq Hst Hl|ws o w1 held Hh Hb Hst Hl Hheld|ws o w1 Hh Hq Hst Hl
    |ws o w1 Hh Hq Hst Hl|o w1 r Hq Hr]; cbn [scene_held scene_ended scene_wait scene_world] in *.
  - split; [set_solver|]. pose proof (poll_starting wait l w1 Hq Hl Hcl) as Hs.
    destruct (wait_poll (WaitStart wait) w1) as [out [s' w']]. destruct Hs as [_ ->]. cbn. by naive_solver.
  - split; [set_solver|]. pose proof (poll_sending wait l f o w1 Hf Hq Hst Hl Hcl) as Hs. cbn [wait_poll].
    destruct (poll_send f o w1) as [out [s' w']]. destruct Hs as [_ ->]. cbn. by naive_solver.
  - split.
    + intros b Hin. assert (b ∈ held ++ in_flight w1) as Hb2 by set_solver. rewrite Hb in Hb2.
      by apply list_elem_of_singleton in Hb2 as ->.
    + destruct (poll_handed_over o ws w1 Hh) as (_ & _ & Ho). rewrite Hst in Ho.
      destruct Ho as [[-> _]|[[? _]|[[? _]|?]]]; try done. split; [|done]. intros _. split; [done|].
      destruct (decide (held = [])); [right; by intros ?%Hheld|by left].
  - split; [set_solver|]. split; [|naive_solver]. intros Hpend.
    by destruct (released_not_pending o ws w1 Hh Hq (or_introl Hst)).
  - split; [set_solver|]. split; [|naive_solver]. intros Hpend.
    by destruct (released_not_pending o ws w1 Hh Hq (or_intror Hst)).
  - split; [set_solver|]. destruct Hr as [[-> Hu]|[[msg ->] [Hd|Hd]]]; [| |by right].
    + by exists (mkBlockedTimer wait o).
    + left. by exists (mkBlockedTimer wait o).
Qed.
End contract.

(** ** Channels to run *)

Record TimerWorld : Type := mkTimerWorld {
  world_oneshots : gmap positive OneshotState;
  world_flight : list (BlockedTimer positive);
  world_closed : bool;
}.
Definition world_new : TimerWorld := mkTimerWorld ∅ [] false.
Definition oneshot_of (w : TimerWorld) (o : positive) : OneshotState :=
  unwrap_or (world_oneshots w !! o) OneshotNone.
Definition set_oneshot (o : positive) (st : OneshotState) (w : TimerWorld) : TimerWorld :=
  mkTimerWorld (<[o := st]> (world_oneshots w)) (world_flight w) (world_closed w).

#[export] Instance example_timers : TimerChannels positive (option (BlockedTimer positive)) TimerWorld := {|
  oneshot_channel w :=
    let o := fresh (dom (world_oneshots w)) in (o, set_oneshot o OneshotOpen w);
  oneshot_send o w := (Ok tt, set_oneshot o OneshotSent w);
  oneshot_drop_sender o w := set_oneshot o OneshotCanceled w;
  oneshot_poll o w :=
    (match oneshot_of w o with
     | OneshotSent => Ready (Ok tt)
     | OneshotCanceled => Ready (Err tt)
     | _ => Pending
     end, w);
  timer_send b := Some b;
  timer_send_poll f w :=
    match f, world_flight w with
    | Some b, l =>
      if world_closed w then (Ready (Err tt), (None, w))
      else (Pending, (None, mkTimerWorld (world_oneshots w) (l ++ [b]) false))
    | None, [] => (Ready (Ok tt), (None, w))
    | None, _ => (Pending, (None, w))
    end;
  timer_receive w :=
    match world_flight w with
    | [] => (None, w)
    | b :: l => (Some b, mkTimerWorld (world_oneshots w) l (world_closed w))
    end;
  timer_receiver_drop w :=
    let w' := foldr (λ b, set_oneshot (blocked_unblock b) OneshotCanceled) w (world_flight w) in
    mkTimerWorld (world_oneshots w') [] true;
|}.

Lemma oneshot_of_set o st w o' :
  oneshot_of (set_oneshot o st w) o' = if decide (o' = o) then st else oneshot_of w o'.
Proof.
  unfold oneshot_of, set_oneshot. cbn. case_decide as E; [subst; by rewrite lookup_insert_eq|].
  by rewrite lookup_insert_ne.
Qed.
Lemma oneshot_of_cancel l w o' :
  oneshot_of (foldr (λ b, set_oneshot (blocked_unblock b) OneshotCanceled) w l) o' =
  if decide (o' ∈ blocked_unblock <$> l) then OneshotCanceled else oneshot_of w o'.
Proof.
  induction l as [|b l IH]; cbn [foldr fmap list_fmap]; [by rewrite decide_False by set_solver|].
  rewrite oneshot_of_set, IH. repeat case_decide; set_solver.
Qed.
#[export] Instance example_timers_spec : TimerChannelsSpec positive (option (BlockedTimer positive)) TimerWorld.
Proof.
  refine {| oneshot_state := oneshot_of; in_flight := world_flight; sending f := f;
            closed := world_closed |}.
  - intros w. cbn. split; [|split; [intros; apply oneshot_of_set|done]].
    unfold oneshot_of. pose proof (is_fresh (dom (world_oneshots w))) as Hf.
    by apply not_elem_of_dom in Hf as ->.
  - intros o w _. cbn. split_and!; [done..|]. intros. apply oneshot_of_set.
  - intros o w _. cbn. split_and!; [done..|]. intros. apply oneshot_of_set.
  - intros o w. cbn. split_and!; [done..|]. by destruct (oneshot_of w o).
  - done.
  - intros [b|] [m l []]; cbn; try by split_and!.
    all: destruct l; cbn; rewrite ?app_nil_r; by split_and!.
  - by intros ? [m l c] -> [= ->].
  - intros [m [|b l] c]; by cbn.
  - intros w _. cbn. split_and!; [done..|]. intros o. apply oneshot_of_cancel.
Defined.

(** A wait that is polled, handed to the test, and unblocked. *)
Lemma blocking_timer_contract_witness :
  ∃ b s, scenes (scene_start (For 5) world_new) [EvPoll; EvReceive; EvPoll; EvUnblock b; EvPoll] s ∧
    scene_ended s = Some (Ret tt) ∧
    ∃ b', requested_wait b' = For 5 ∧ EvUnblock b' ∈ [EvPoll; EvReceive; EvPoll; EvUnblock b; EvPoll].
Proof.
  set (o := fresh (dom (∅ : gmap positive OneshotState))). set (b := mkBlockedTimer (For 5) o).
  assert (∃ s, scenes (scene_start (For 5) world_new) [EvPoll; EvReceive; EvPoll; EvUnblock b; EvPoll] s ∧
    scene_ended s = Some (Ret tt)) as (s & Hs & He).
  { eexists. split.
    - eapply (scenes_snoc _ [EvPoll; EvReceive; EvPoll; EvUnblock b]);
        [eapply (scenes_snoc _ [EvPoll; EvReceive; EvPoll]);
          [eapply (scenes_snoc _ [EvPoll; EvReceive]);
            [eapply (scenes_snoc _ [EvPoll]);
              [eapply (scenes_snoc _ []); [constructor|by apply scene_poll]
              |by apply scene_receive]
            |by apply scene_poll]
          |by apply (scene_unblock _ _ [] b [])]
        |by apply scene_poll].
    - done. }
  exists b, s. do 2 (split; [done|]).
  pose proof (blocking_timer_contract (For 5) world_new _ s eq_refl eq_refl Hs) as [_ Hc]. by rewrite He in Hc.
Defined.
