(* ===== verification/Coroutine.v ===== *)
(** * Tasks that yield ([async_generator.rs]: [Yield], and the tasks given to [generate])

    A task is a program [Co] that yields items through the handle it is given, waits for its items
    to be received, and returns.  The channel ([futures::channel::mpsc] and the futures of its
    [SinkExt]) is the interface [Channel]; every channel that keeps [ChannelSpec] makes a task meet
    what the generator asks of its parts, so that the generator of a task gives the items the task
    yields, all of them and in order, and then its result, after a bounded number of polls. *)

From S2P Require Import Prelude Generator.

(** ** The channel *)

(** [F] is a future that sends: [send_poll] gives the items that went into the channel during the
    poll, and whether the future is ready. *)
Class Channel (I F W : Type) := {
  sink_send : I → F;
  sink_send_all : list I → F;
  send_poll : F → W → (list I * bool) * (F * W);
  sender_drop : W → W;
  receiver_is_terminated : W → bool;
  receiver_poll_next : W → Poll (option I) * W;
}.

(** What [futures] documents of it.  [send] and [send_all] complete after their items have been
    fully processed into the sink, including flushing: with a channel of capacity 0 they have all
    been received.  A future whose channel is empty makes progress.  The receiver gives what was
    sent, in order; it ends when the sender is gone and the channel empty. *)
Class ChannelSpec (I F W : Type) `{Channel I F W} := {
  channel_queue : W → list I;
  sender_gone : W → bool;
  unsent : F → list I;
  unsent_send i : unsent (sink_send i) = [i];
  unsent_send_all l : unsent (sink_send_all l) = l;
  send_poll_moves f w : sender_gone w = false →
    unsent f = (send_poll f w).1.1 ++ unsent (send_poll f w).2.1 ∧
    channel_queue (send_poll f w).2.2 = channel_queue w ++ (send_poll f w).1.1 ∧
    sender_gone (send_poll f w).2.2 = false ∧
    receiver_is_terminated (send_poll f w).2.2 = receiver_is_terminated w;
  send_poll_flushes f w : sender_gone w = false → (send_poll f w).1.2 = true →
    unsent (send_poll f w).2.1 = [] ∧ channel_queue (send_poll f w).2.2 = [];
  send_poll_progress f w : sender_gone w = false → channel_queue w = [] →
    (send_poll f w).1.2 = true ∨ (send_poll f w).1.1 ≠ [];
  sender_drop_queue w : channel_queue (sender_drop w) = channel_queue w ∧
    sender_gone (sender_drop w) = true ∧
    receiver_is_terminated (sender_drop w) = receiver_is_terminated w;
  receiver_terminated w : receiver_is_terminated w = true → channel_queue w = [] ∧ sender_gone w = true;
  receiver_poll_gone w : sender_gone (receiver_poll_next w).2 = sender_gone w;
  receiver_poll_item w x q : channel_queue w = x :: q →
    (receiver_poll_next w).1 = Ready (Some x) ∧ channel_queue (receiver_poll_next w).2 = q ∧
    receiver_is_terminated (receiver_poll_next w).2 = false;
  receiver_poll_empty w : channel_queue w = [] →
    channel_queue (receiver_poll_next w).2 = [] ∧
    (receiver_poll_next w).1 = (if sender_gone w then Ready None else Pending) ∧
    receiver_is_terminated (receiver_poll_next w).2 = sender_gone w;
}.

(** ** The handle and the tasks *)

Section yield.
Context {I F W : Type} `{Channel I F W}.

(** [Yield::yield_] and [Yield::yield_all]: the errors of the futures are ignored. *)
Definition yield_ (item : I) : F := sink_send item.
Definition yield_all (items : list I) : F := sink_send_all items.
End yield.

(** What is left of a task when it dropped its handle. *)
Inductive Tail (X R : Type) : Type :=
| TailReturn (r : R)
| TailPause (k : Tail X R)
| TailDo (f : X → X) (k : Tail X R).
Arguments TailReturn {X R} r.
Arguments TailPause {X R} k.
Arguments TailDo {X R} f k.

(** A task: it awaits [yield_] and [yield_all], is pending once, changes a state [X] it shares, drops
    its handle, and returns. *)
Inductive Co (I X R : Type) : Type :=
| CoReturn (r : R)
| CoYield (item : I) (k : Co I X R)
| CoYieldAll (items : list I) (k : Co I X R)
| CoPause (k : Co I X R)
| CoDo (f : X → X) (k : Co I X R)
| CoDrop (k : Tail X R).
Arguments CoReturn {I X R} r.
Arguments CoYield {I X R} item k.
Arguments CoYieldAll {I X R} items k.
Arguments CoPause {I X R} k.
Arguments CoDo {I X R} f k.
Arguments CoDrop {I X R} k.

(** Where a task is: at a place of its program, awaiting a future that sends, past the drop of its
    handle, or completed. *)
Inductive CoState (I F X R : Type) : Type :=
| CoRun (k : Co I X R)
| CoSend (f : F) (k : Co I X R)
| CoTail (k : Tail X R)
| CoDone.
Arguments CoRun {I F X R} k.
Arguments CoSend {I F X R} f k.
Arguments CoTail {I F X R} k.
Arguments CoDone {I F X R}.

Record CoTask (I F W X R : Type) : Type := mkCoTask {
  co_state : CoState I F X R;
  co_channel : W;
  co_shared : X;
}.
Arguments mkCoTask {I F W X R}.
Arguments co_state {I F W X R}.
Arguments co_channel {I F W X R}.
Arguments co_shared {I F W X R}.

Section coroutine.
Context {I F W X R : Type} `{Channel I F W}.

Definition Polled : Type := (list I * option R) * CoTask I F W X R.

(** The task runs until it is pending or returns. *)
Fixpoint tail_run (k : Tail X R) (w : W) (x : X) : Polled :=
  match k with
  | TailReturn r => ([], Some r, mkCoTask CoDone w x)
  | TailPause k => ([], None, mkCoTask (CoTail k) w x)
  | TailDo f k => tail_run k w (f x)
  end.

(** Awaiting a future that sends; [k] goes on when it is ready. *)
Definition co_await (f : F) (p : Co I X R) (k : W → Polled) (w : W) (x : X) : Polled :=
  match send_poll f w with
  | ((now, true), (_, w)) => let '(later, r, task) := k w in (now ++ later, r, task)
  | ((now, false), (f, w)) => (now, None, mkCoTask (CoSend f p) w x)
  end.
Fixpoint co_run (k : Co I X R) (w : W) (x : X) : Polled :=
  match k with
  | CoReturn r => ([], Some r, mkCoTask CoDone (sender_drop w) x)
  | CoYield item k => co_await (yield_ item) k (λ w, co_run k w x) w x
  | CoYieldAll items k => co_await (yield_all items) k (λ w, co_run k w x) w x
  | CoPause k => ([], None, mkCoTask (CoRun k) w x)
  | CoDo f k => co_run k w (f x)
  | CoDrop k => tail_run k (sender_drop w) x
  end.
Definition co_poll (t : CoTask I F W X R) : Polled :=
  match co_state t with
  | CoRun k => co_run k (co_channel t) (co_shared t)
  | CoSend f k => co_await f k (λ w, co_run k w (co_shared t)) (co_channel t) (co_shared t)
  | CoTail k => tail_run k (co_channel t) (co_shared t)
  | CoDone => ([], None, t)
  end.

(** The task, fused, and its end of the channel are the parts of a generator. *)
#[export] Instance coroutine_parts : GeneratorParts I R (CoTask I F W X R) := {|
  task_is_terminated t := match co_state t with CoDone => true | _ => false end;
  task_poll := co_poll;
  stream_is_terminated t := receiver_is_terminated (co_channel t);
  stream_poll_next t :=
    let '(out, w) := receiver_poll_next (co_channel t) in (out, mkCoTask (co_state t) w (co_shared t));
|}.

(** [generate] with a new channel [w]. *)
Definition generate_co (task : Co I X R) (w : W) (x : X) : Generator R (CoTask I F W X R) :=
  generate (mkCoTask (CoRun task) w x).
End coroutine.

(** The items a program yields, and what it returns. *)
Fixpoint tail_result {X R} (k : Tail X R) : R :=
  match k with
  | TailReturn r => r
  | TailPause k | TailDo _ k => tail_result k
  end.
Fixpoint yields {I X R} (k : Co I X R) : list I :=
  match k with
  | CoYield item k => item :: yields k
  | CoYieldAll items k => items ++ yields k
  | CoPause k | CoDo _ k => yields k
  | CoReturn _ | CoDrop _ => []
  end.
Fixpoint co_result {I X R} (k : Co I X R) : R :=
  match k with
  | CoReturn r => r
  | CoYield _ k | CoYieldAll _ k | CoPause k | CoDo _ k => co_result k
  | CoDrop k => tail_result k
  end.

(** ** What is left to do *)

Section measure.
Context {I F W X R : Type} `{ChannelSpec I F W}.

Fixpoint tail_weight (k : Tail X R) : nat :=
  match k with
  | TailReturn _ => 1
  | TailPause k | TailDo _ k => S (tail_weight k)
  end.
Fixpoint co_weight (k : Co I X R) : nat :=
  match k with
  | CoReturn _ => 1
  | CoYield _ k => 4 + co_weight k
  | CoYieldAll items k => 2 + 2 * length items + co_weight k
  | CoPause k | CoDo _ k => S (co_weight k)
  | CoDrop k => S (tail_weight k)
  end.
Definition weight (s : CoState I F X R) : nat :=
  match s with
  | CoRun k => co_weight k
  | CoSend f k => 1 + 2 * length (unsent f) + co_weight k
  | CoTail k => tail_weight k
  | CoDone => 0
  end.
(** The items a task has not sent yet, and what it will return. *)
Definition left_over (s : CoState I F X R) : list I :=
  match s with
  | CoRun k => yields k
  | CoSend f k => unsent f ++ yields k
  | CoTail _ | CoDone => []
  end.
Definition will_return (s : CoState I F X R) : option R :=
  match s with
  | CoRun k | CoSend _ k => Some (co_result k)
  | CoTail k => Some (tail_result k)
  | CoDone => None
  end.
(** The handle is gone once it was dropped. *)
Definition co_valid (t : CoTask I F W X R) : Prop :=
  sender_gone (co_channel t) = match co_state t with CoTail _ | CoDone => true | _ => false end.

(** What a poll of a task does, from a channel with the queue [q]: it sends the first of the items
    that are left, and it returns or has less to do. *)
Definition poll_ok (q : list I) (ended : bool) (todo : list I) (r : option R) (m : nat)
    (p : Polled (I := I) (F := F)) : Prop :=
  let '(items, out, t) := p in
  co_valid t ∧ channel_queue (co_channel t) = q ++ items ∧
  receiver_is_terminated (co_channel t) = ended ∧
  todo = items ++ left_over (co_state t) ∧
  r = match out with Some r => Some r | None => will_return (co_state t) end ∧
  (opt_is_some out = match co_state t with CoDone => true | _ => false end) ∧
  (weight (co_state t) + 2 * length items < m)%nat.

(** ** Lemmas *)

Lemma tail_run_ok (k : Tail X R) (w : W) (x : X) :
  sender_gone w = true →
  poll_ok (channel_queue w) (receiver_is_terminated w) [] (Some (tail_result k)) (tail_weight k)
    (tail_run k w x).
Proof.
  intros Hw. revert x. induction k as [r|k _|f k IH]; intros x; cbn.
  - rewrite app_nil_r. by split_and!; try lia.
  - rewrite app_nil_r. split_and!; try done. lia.
  - specialize (IH (f x)). destruct (tail_run k w (f x)) as [[items out] t]. cbn in *.
    destruct IH as (? & ? & ? & ? & ? & ? & ?). split_and!; try done. lia.
Qed.

Lemma co_await_ok f (p : Co I X R) (k : W → Polled) w x :
  sender_gone w = false →
  (∀ w', sender_gone w' = false →
     poll_ok (channel_queue w') (receiver_is_terminated w') (yields p) (Some (co_result p))
       (S (co_weight p)) (k w')) →
  poll_ok (channel_queue w) (receiver_is_terminated w) (unsent f ++ yields p) (Some (co_result p))
    (S (weight (CoSend f p))) (co_await f p k w x) ∧
  (channel_queue w = [] → (co_await f p k w x).1.1 ≠ [] ∨
     weight (co_state (co_await f p k w x).2) < weight (CoSend f p))%nat.
Proof.
  intros Hw Hk. destruct (send_poll_moves f w Hw) as (Hu & Hq & Hg & Ht).
  pose proof (send_poll_flushes f w Hw) as Hflush. pose proof (send_poll_progress f w Hw) as Hprog.
  unfold co_await. destruct (send_poll f w) as [[now ready] [f' w']]. cbn in *.
  apply (f_equal length) in Hu as Hlen. rewrite length_app in Hlen.
  destruct ready.
  - destruct (Hflush eq_refl) as [Hf' _]. specialize (Hk w' Hg).
    destruct (k w') as [[later out] t]. cbn in *. rewrite Hf' in *.
    destruct Hk as (? & Hq2 & ? & Hy & ? & ? & ?).
    split; [|right; cbn in *; lia]. split_and!; try done.
    + by rewrite Hq2, Hq, app_assoc.
    + congruence.
    + by rewrite Hu, Hy, app_nil_r, app_assoc.
    + rewrite length_app. cbn in *. lia.
  - cbn. split.
    + split_and!; try done; [by rewrite Hu, app_assoc|lia].
    + intros Hnil. destruct (Hprog Hnil) as [?|?]; [done|by left].
Qed.

Lemma poll_ok_mono q ended todo r m m' p :
  (m ≤ m')%nat → poll_ok q ended todo r m p → poll_ok q ended todo r m' p.
Proof.
  intros Hm. destruct p as [[items out] t]. intros (? & ? & ? & ? & ? & ? & ?).
  split_and!; try done. lia.
Qed.

Lemma co_run_ok (k : Co I X R) w x :
  sender_gone w = false →
  poll_ok (channel_queue w) (receiver_is_terminated w) (yields k) (Some (co_result k)) (co_weight k)
    (co_run k w x).
Proof.
  revert w x. induction k as [r|item k IH|items k IH|k _|f k IH|k]; intros w x Hw; cbn [co_run].
  - destruct (sender_drop_queue w) as (Hq & Hg & Ht). cbn. rewrite app_nil_r. by split_and!; try lia.
  - destruct (co_await_ok (yield_ item) k (λ w, co_run k w x) w x Hw) as [Hok _].
    { intros w' Hw'. eapply poll_ok_mono; [|by apply IH]. lia. }
    unfold yield_ in *. cbn [weight] in Hok. by rewrite unsent_send in Hok.
  - destruct (co_await_ok (yield_all items) k (λ w, co_run k w x) w x Hw) as [Hok _].
    { intros w' Hw'. eapply poll_ok_mono; [|by apply IH]. lia. }
    unfold yield_all in *. cbn [weight] in Hok. rewrite unsent_send_all in Hok. exact Hok.
  - cbn. rewrite app_nil_r. split_and!; try done. lia.
  - eapply poll_ok_mono; [|by apply IH]. cbn. lia.
  - destruct (sender_drop_queue w) as (Hq & Hg & Ht). rewrite <-Hq, <-Ht.
    eapply poll_ok_mono; [|by apply tail_run_ok]. cbn. lia.
Qed.

Lemma co_poll_ok (t : CoTask I F W X R) :
  co_valid t → co_state t ≠ CoDone →
  poll_ok (channel_queue (co_channel t)) (receiver_is_terminated (co_channel t))
    (left_over (co_state t)) (will_return (co_state t)) (S (weight (co_state t))) (co_poll t) ∧
  (channel_queue (co_channel t) = [] →
     weight (co_state (co_poll t).2) + length (co_poll t).1.1 < weight (co_state t))%nat.
Proof.
  destruct t as [[k|f k|k|] w x]; unfold co_valid, co_poll; cbn [co_state co_channel co_shared];
    intros Hv Hd; try done.
  - pose proof (co_run_ok k w x Hv) as Hok. split; [eapply poll_ok_mono, Hok; cbn; lia|intros _].
    destruct (co_run k w x) as [[items out] t]. destruct Hok as (_ & _ & _ & _ & _ & _ & ?). cbn. lia.
  - destruct (co_await_ok f k (λ w, co_run k w x) w x Hv) as [Hok Hprog].
    { intros w' Hw'. eapply poll_ok_mono; [|by apply co_run_ok]. lia. }
    split; [exact Hok|]. intros Hnil. specialize (Hprog Hnil).
    destruct (co_await f k _ w x) as [[items out] t]. destruct Hok as (_ & _ & _ & _ & _ & _ & ?).
    cbn [fst snd] in *. destruct Hprog as [Hne|Hlt]; [destruct items; [done|cbn in *; lia]|].
    destruct items; cbn in *; lia.
  - pose proof (tail_run_ok k w x Hv) as Hok. split; [eapply poll_ok_mono, Hok; cbn; lia|intros _].
    destruct (tail_run k w x) as [[items out] t]. destruct Hok as (_ & _ & _ & _ & _ & _ & ?).
    cbn in *. lia.
Qed.

(** A completed task is not polled. *)
Lemma co_poll_done (t : CoTask I F W X R) : co_state t = CoDone → co_poll t = ([], None, t).
Proof. unfold co_poll. by intros ->. Qed.

(** One poll of the task, whatever it is at. *)
Lemma co_poll_spec (t : CoTask I F W X R) :
  co_valid t →
  let '(items, out, t') := co_poll t in
  co_valid t' ∧ channel_queue (co_channel t') = channel_queue (co_channel t) ++ items ∧
  receiver_is_terminated (co_channel t') = receiver_is_terminated (co_channel t) ∧
  left_over (co_state t) = items ++ left_over (co_state t') ∧
  will_return (co_state t) = match out with Some r => Some r | None => will_return (co_state t') end ∧
  task_is_terminated t' = task_is_terminated t || opt_is_some out.
Proof.
  intros Hv. assert (co_state t = CoDone ∨ co_state t ≠ CoDone) as [Hd|Hd].
  { destruct (co_state t); auto. }
  - rewrite co_poll_done by done. cbn. rewrite Hd, app_nil_r. by split_and!.
  - destruct (co_poll_ok t Hv Hd) as [Hok _]. destruct (co_poll t) as [[items out] t'].
    destruct Hok as (? & ? & ? & ? & ? & Ho & _). split_and!; try done.
    cbn. rewrite Ho. by destruct (co_state t).
Qed.

#[export] Instance coroutine_spec : GeneratorPartsSpec I R (CoTask I F W X R).
Proof.
  refine {| parts_valid := co_valid; queue t := channel_queue (co_channel t) |}; intros t.
  - intros Hv. pose proof (co_poll_spec t Hv). cbn. destruct (co_poll t) as [[]]. naive_solver.
  - intros Hv. pose proof (co_poll_spec t Hv). cbn. destruct (co_poll t) as [[]]. naive_solver.
  - intros Hd. apply co_poll_done. cbn in Hd. by destruct (co_state t).
  - intros Hv. pose proof (co_poll_spec t Hv). cbn [task_poll coroutine_parts].
    destruct (co_poll t) as [[]]. naive_solver.
  - intros Hv. pose proof (co_poll_spec t Hv). cbn. destruct (co_poll t) as [[]]. naive_solver.
  - intros Hv Ht. destruct (receiver_terminated _ Ht) as [_ Hg]. pose proof (co_poll_spec t Hv) as Hs.
    unfold co_valid in Hv. rewrite Hg in Hv. cbn. destruct (co_poll t) as [[items out] t'].
    destruct Hs as (_ & _ & _ & Hl & _). destruct (co_state t); try done; cbn in Hl; by destruct items.
  - intros _ Ht. by apply receiver_terminated.
  - intros Hv. cbn. pose proof (receiver_poll_gone (co_channel t)) as Hg. unfold co_valid in *.
    destruct (receiver_poll_next (co_channel t)) as [out w]. cbn in *. congruence.
  - cbn. by destruct (receiver_poll_next (co_channel t)).
  - intros x q _ Hq. pose proof (receiver_poll_item _ x q Hq) as Hi. cbn.
    by destruct (receiver_poll_next (co_channel t)).
  - intros _ Hq. destruct (receiver_poll_empty _ Hq) as (Hq' & Ho & Hc). cbn.
    destruct (receiver_poll_next (co_channel t)). cbn in *. by rewrite Ho, Hc.
  - intros Hv Hd Hq. destruct (receiver_poll_empty _ Hq) as (_ & _ & Hc). cbn in *. unfold co_valid in Hv.
    destruct (receiver_poll_next (co_channel t)). cbn in *. rewrite Hc, Hv. by destruct (co_state t).
Defined.

(** What is left of a generator, and that a poll makes it less. *)
Definition remaining (g : Generator R (CoTask I F W X R)) : nat :=
  weight (co_state (parts g)) + length (channel_queue (co_channel (parts g))).

Lemma stream_step_state (g : Generator R (CoTask I F W X R)) :
  co_state (parts (stream_step (I := I) g).2) = co_state (parts g).
Proof.
  unfold stream_step, flush. cbn [stream_poll_next coroutine_parts].
  destruct (receiver_poll_next (co_channel (parts g))) as [[|[x|]] w]; by repeat case_match; cbn in *; simplify_eq.
Qed.
Lemma remaining_decreases (g : Generator R (CoTask I F W X R)) :
  co_valid (parts g) → (0 < remaining g → remaining (poll_next (I := I) g).2 < remaining g)%nat ∧
  (remaining g = 0 → remaining (poll_next (I := I) g).2 = 0)%nat.
Proof.
  intros Hv. change (co_valid (parts g)) with (parts_valid (I := I) (R := R) (parts g)) in Hv.
  rewrite poll_next_steps by done.
  pose proof (task_poll_valid _ Hv) as Hv1.
  pose proof (stream_step_cases (I := I) (task_step g) Hv1) as Hc.
  pose proof (stream_step_state (task_step (I := I) g)) as Hst.
  destruct (stream_step (task_step g)) as [out g']. destruct Hc as [_ Hc]. unfold remaining.
  cbn [fst snd] in *. rewrite Hst. unfold task_step in *. cbn [parts res] in *.
  assert (length (channel_queue (co_channel (parts g'))) =
    pred (length (channel_queue (co_channel (task_poll (parts g)).2)))) as ->.
  { destruct Hc as [(x & Hq & _)|(Hq & Hq' & _)]; cbn [queue coroutine_spec] in *;
      [by rewrite Hq|by rewrite Hq, Hq']. }
  clear Hc Hst Hv1 g' out. destruct g as [t o]. cbn [parts task_poll coroutine_parts] in *.
  assert (co_state t = CoDone ∨ co_state t ≠ CoDone) as [Hd|Hd].
  { destruct (co_state t); auto. }
  - rewrite co_poll_done by done. cbn. rewrite Hd. cbn. lia.
  - assert (0 < weight (co_state t))%nat.
    { destruct (co_state t) as [[]|f k|[]|]; cbn; try lia. done. }
    destruct (co_poll_ok t Hv Hd) as [Hok Hprog]. destruct (co_poll t) as [[items out] t'].
    destruct Hok as (_ & Hq & _ & _ & _ & _ & Hw). cbn [fst snd] in *. rewrite Hq, length_app.
    destruct (channel_queue (co_channel t)) as [|x q]; cbn in *; [specialize (Hprog eq_refl)|]; lia.
Qed.

Lemma poll_next_state (g : Generator R (CoTask I F W X R)) :
  co_valid (parts g) → co_state (parts (poll_next (I := I) g).2) = co_state (co_poll (parts g)).2.
Proof.
  intros Hv. change (co_valid (parts g)) with (parts_valid (I := I) (R := R) (parts g)) in Hv.
  rewrite poll_next_steps, stream_step_state by done. done.
Qed.

(** What a generator has seen of its task, and what is left. *)
Definition co_seen (task : Co I X R) (l : list (Seen I R)) (g : Generator R (CoTask I F W X R)) : Prop :=
  yields task = sent l ++ left_over (co_state (parts g)) ∧
  (results l = [] ∧ will_return (co_state (parts g)) = Some (co_result task) ∨
   results l = [co_result task] ∧ co_state (parts g) = CoDone).

Lemma co_polls task w x n :
  channel_queue w = [] → sender_gone w = false →
  let '(l, g) := polls (I := I) n (generate_co task w x) in
  co_seen task l g ∧ (remaining g ≤ co_weight task - n)%nat ∧ streamed l g.
Proof.
  intros Hq Hg. induction n as [|n IH].
  - split_and!; [split; [done|by left]|unfold remaining; cbn; rewrite Hq; cbn; lia|].
    apply (streamed_polls (I := I) 0); by cbn.
  - unfold generate_co in *. rewrite polls_S. destruct (polls n _) as [l g]. cbn [fst snd].
    destruct IH as ([Hy Hr] & Hrem & Hs). pose proof (streamed_poll l g Hs) as Hs'.
    destruct Hs as [Hv _]. destruct (remaining_decreases g Hv) as [Hlt Hz].
    split; [|split; [destruct (remaining g) eqn:E; [rewrite Hz by done|specialize (Hlt ltac:(lia))]; lia|done]].
    pose proof (co_poll_spec (parts g) Hv) as Hp. unfold co_seen. rewrite (poll_next_state g Hv).
    destruct (seen_snoc l ((task_poll (parts g)).1, (poll_next (I := I) g).1)) as (_ & -> & ->).
    cbn [task_poll coroutine_parts fst snd]. destruct (co_poll (parts g)) as [[items out] t'] eqn:Ep.
    destruct Hp as (_ & _ & _ & Hl & Hw & Ht). cbn [fst snd]. split; [by rewrite Hy, Hl, app_assoc|].
    destruct Hr as [[-> Hr]|[-> Hd]].
    + rewrite Hr in Hw. destruct out as [r|].
      * right. injection Hw as ->. split; [done|]. cbn in Ht. destruct (co_state t'); try done;
          by rewrite orb_true_r in Ht.
      * by left.
    + right. rewrite co_poll_done in Ep by done. injection Ep as <- <- <-. done.
Qed.

(** ** Properties *)

(** C34: A task that is given to [generate] is run to its end, and its generator streams what it
    yields.  Whatever the task does, after as many polls as there is left to do in it, and one more,
    the stream has given the items of its calls of [yield_] and [yield_all], all of them, each once
    and in the order of the calls, then what the task returned, and then it has ended; so
    [into_yielded] gives the items and [into_complete] the result. *)
Theorem generate_yields_all (task : Co I X R) (w : W) (x : X) n :
  channel_queue w = [] → sender_gone w = false → (co_weight task < n)%nat →
  ∃ k, let all := ready (polls (I := I) n (generate_co task w x)).1 in
    all = ((λ i, Some (Yielded i)) <$> yields task) ++ Some (Complete (co_result task)) :: replicate k None ∧
    into_yielded_stream all = (Some <$> yields task) ++ replicate k None ∧
    into_complete_future all = Ready (Ret (co_result task)).
Proof.
  intros Hq Hg Hn. destruct n as [|n]; [lia|]. pose proof (co_polls task w x n Hq Hg) as H1.
  pose proof (co_polls task w x (S n) Hq Hg) as H2. unfold generate_co in *.
  rewrite polls_S in *. destruct (polls n _) as [l g]. cbn [fst snd] in *.
  destruct H1 as ([_ Hr1] & Hrem & Hs). destruct H2 as ([Hy Hr2] & _ & Hs2).
  assert (weight (co_state (parts g)) = 0%nat ∧ channel_queue (co_channel (parts g)) = []) as [Hw0 Hq0].
  { unfold remaining in Hrem. split; [lia|]. apply length_zero_iff_nil. lia. }
  assert (co_state (parts g) = CoDone) as Hd by by destruct (co_state (parts g)) as [[]|f k|[]|].
  assert (task_is_terminated (parts g) = true) as Ht by (cbn; by rewrite Hd).
  assert (res (poll_next (I := I) g).2 = None) as Hnone.
  { destruct Hs as (Hv & items & tail & _ & _ & [_ _ _ Hf|r _ _ Hg' _|r k _ _ Hg' _ Hc]).
    - congruence.
    - destruct (drain_poll g r Hv Hg' Ht) as (_ & _ & Hm). cbn [queue coroutine_spec] in Hm.
      by rewrite Hq0 in Hm.
    - destruct (poll_complete g Hv Hg' Ht Hc) as [_ ->]. done. }
  assert (co_state (parts (poll_next (I := I) g).2) = CoDone) as Hd2.
  { rewrite poll_next_state by apply Hs. by rewrite co_poll_done. }
  rewrite Hd2 in Hy, Hr2. destruct Hr2 as [[_ ?]|[Hr2 _]]; [done|].
  destruct Hs2 as (_ & items & tail & Hready & Hi & [_ Hf _ _|r _ _ Hf _|r k -> Hr _ _ Hc]);
    [congruence..|].
  exists k. rewrite Hr2 in Hr. injection Hr as <-. cbv zeta.
  destruct (receiver_terminated _ Hc) as [Hq2 _]. cbn [queue coroutine_spec] in Hi.
  rewrite Hq2, app_nil_r in Hi. rewrite app_nil_r in Hy. rewrite Hready, Hi, Hy.
  split; [done|]. apply filter_map_streamed.
Qed.
End measure.

(** ** A channel to run: a queue of capacity 0, with the slot of its one sender *)

Record Mpsc (I : Type) : Type := mkMpsc {
  mpsc_items : list I;
  mpsc_sender_gone : bool;
  mpsc_ended : bool;
}.
Arguments mkMpsc {I}.
Arguments mpsc_items {I}.
Arguments mpsc_sender_gone {I}.
Arguments mpsc_ended {I}.

Definition mpsc_channel {I} : Mpsc I := mkMpsc [] false false.
(** A future is the items it has still to send. *)
Definition mpsc_send_poll {I} (f : list I) (w : Mpsc I) : (list I * bool) * (list I * Mpsc I) :=
  match mpsc_items w, f with
  | [], [] => ([], true, ([], w))
  | [], i :: f => ([i], false, (f, mkMpsc [i] (mpsc_sender_gone w) (mpsc_ended w)))
  | _, _ => ([], false, (f, w))
  end.
Definition mpsc_poll_next {I} (w : Mpsc I) : Poll (option I) * Mpsc I :=
  match mpsc_items w with
  | x :: q => (Ready (Some x), mkMpsc q (mpsc_sender_gone w) false)
  | [] => (if mpsc_sender_gone w then Ready None else Pending,
           mkMpsc [] (mpsc_sender_gone w) (mpsc_sender_gone w))
  end.
#[export] Instance mpsc {I} : Channel I (list I) (Mpsc I) := {|
  sink_send i := [i];
  sink_send_all l := l;
  send_poll := mpsc_send_poll;
  sender_drop w := mkMpsc (mpsc_items w) true (mpsc_ended w && mpsc_sender_gone w);
  receiver_is_terminated w :=
    mpsc_ended w && mpsc_sender_gone w && match mpsc_items w with [] => true | _ => false end;
  receiver_poll_next := mpsc_poll_next;
|}.
#[export] Instance mpsc_spec {I} : ChannelSpec I (list I) (Mpsc I).
Proof.
  refine {| channel_queue := mpsc_items; sender_gone := mpsc_sender_gone; unsent f := f |}; try done.
  - intros f [[|x q] g e] Hg; cbn in *; destruct f as [|i f]; cbn; rewrite ?app_nil_r, ?Hg, ?andb_false_r;
      by split_and!.
  - intros f [[|x q] g e] Hg; cbn in *; by destruct f.
  - intros f [[|x q] g e] Hg; cbn in *; [|done]. destruct f; auto.
  - intros [q g e]. cbn. by rewrite andb_true_r.
  - intros [[|x q] g e]; cbn; rewrite ?andb_false_r, ?andb_true_r; [|done]. by destruct e.
  - by intros [[|x q] [] e].
  - intros [l g e] x q. cbn. intros ->. by split_and!.
  - intros [l g e]. cbn. intros ->. by destruct g.
Defined.

(** A task that yields, waits, yields some more and returns. *)
Definition example_task : Co nat unit string :=
  CoYield 1%nat (CoPause (CoYieldAll [2; 3]%nat (CoDrop (TailPause (TailReturn "done"%string))))).

Lemma generate_yields_all_witness :
  let all := ready (polls (I := nat) 20 (generate_co example_task mpsc_channel tt)).1 in
  ∃ k, all = ((λ i, Some (Yielded i)) <$> [1; 2; 3]%nat) ++ Some (Complete "done"%string) :: replicate k None ∧
    into_yielded_stream all = (Some <$> [1; 2; 3]%nat) ++ replicate k None ∧
    into_complete_future all = Ready (Ret "done"%string).
Proof.
  apply (generate_yields_all example_task mpsc_channel tt 20); [done|done|]. cbn. lia.
Defined.
