(* ===== verification/GeneratorTests.v ===== *)
(** * The tests of [async_generator.rs], on tasks that run *)

From S2P Require Import Prelude Testing Generator Coroutine.

#[export] Instance GeneratorState_eq_dec {I R} `{EqDecision I, EqDecision R} :
  EqDecision (GeneratorState I R).
Proof. solve_decision. Defined.

Section running.
Context {I X R : Type}.
Let Gen : Type := Generator R (CoTask I (list I) (Mpsc I) X R).

(** [generate] with the closure that gives the task, and the state the task shares with the test. *)
Definition generate_task (task : Co I X R) (x : X) : Gen := generate_co task mpsc_channel x.

(** [s.next().await] in [block_on]: the stream is polled until it is ready. *)
Fixpoint next_item_within (fuel : nat) (s : Gen) : outcome (option (GeneratorState I R) * Gen) :=
  match fuel with
  | O => Panic "the executor is stuck"
  | S fuel =>
    match poll_next s with
    | (Pending, s) => next_item_within fuel s
    | (Ready o, s) => Ret (o, s)
    end
  end.
Definition next_item : Gen → outcome (option (GeneratorState I R) * Gen) := next_item_within 50.
(** [s.collect::<Vec<_>>().await]. *)
Fixpoint collect_within (fuel : nat) (s : Gen) : outcome (list (GeneratorState I R) * Gen) :=
  match fuel with
  | O => Panic "the executor is stuck"
  | S fuel =>
    '(o, s) ← next_item s;
    match o with
    | None => Ret ([], s)
    | Some x => '(l, s) ← collect_within fuel s; Ret (x :: l, s)
    end
  end.
Definition collect : Gen → outcome (list (GeneratorState I R) * Gen) := collect_within 50.
End running.

(** The [Counter] a task increments and the test takes. *)
Definition inc : nat → nat := S.
Definition take {I R} (expected : nat) (s : Generator R (CoTask I (list I) (Mpsc I) nat R))
    : outcome (Generator R (CoTask I (list I) (Mpsc I) nat R)) :=
  assert_eq (co_shared (parts s)) expected;;
  Ret (mkGenerator (mkCoTask (co_state (parts s)) (co_channel (parts s)) 0%nat) (res s)).

Definition generator_waits_for_item_to_yield : outcome unit :=
  let s := generate_task (
    CoDo inc (CoYield "first"%string
    (CoDo inc (CoPause
    (CoDo inc (CoYield "second"%string
    (CoDrop (TailPause (TailDo inc (TailReturn tt)))))))))) 0%nat in
  s ← take 0 s;
  '(x, s) ← next_item s;
  assert_eq x (Some (Yielded "first"%string));;
  s ← take 1 s;
  '(x, s) ← next_item s;
  assert_eq x (Some (Yielded "second"%string));;
  s ← take 2 s;
  '(x, s) ← next_item s;
  assert_eq x (Some (Complete tt));;
  s ← take 1 s;
  '(x, s) ← next_item s;
  assert_eq x None;;
  _ ← take 0 s;
  Ret tt.

Definition yield_all_yields_all : outcome unit :=
  let s := generate_task (CoYieldAll [1; 2; 3] (CoYield 42 (CoReturn tt)))%N tt in
  '(res, _) ← collect s;
  assert_eq res [Yielded 1; Yielded 2; Yielded 3; Yielded 42; Complete tt]%N.

Definition fused_impl : outcome unit :=
  let s := generate_task (CoYield 1%N (CoDrop (TailPause (TailReturn "done"%string)))) tt in
  assert (negb (is_terminated s));;
  '(x, s) ← next_item s;
  assert_eq x (Some (Yielded 1%N));;
  assert (negb (is_terminated s));;
  '(x, s) ← next_item s;
  assert_eq x (Some (Complete "done"%string));;
  assert (is_terminated s);;
  '(x, s) ← next_item s;
  assert_eq x None;;
  assert (is_terminated s).

(** What [into_try_stream().collect()] gives. *)
Definition collect_try (r : result unit string) : outcome (list (option (result N string))) :=
  let s := generate_task (CoYield 1%N (CoYield 2%N (CoReturn r))) tt in
  '(states, _) ← collect s;
  Ret (into_try_stream (Some <$> states)).
Definition into_try_stream_transposes_generator_states : outcome unit :=
  res ← collect_try (Err "oops"%string);
  assert_eq res [Some (Ok 1%N); Some (Ok 2%N); Some (Err "oops"%string)].
Definition into_try_stream_eats_unit_success : outcome unit :=
  res ← collect_try (Ok tt);
  assert_eq res [Some (Ok 1%N); Some (Ok 2%N)].

Definition runs_task_to_completion : outcome unit :=
  let make_s := generate_task (CoYield 8%N (CoDrop (TailPause (TailDo inc (TailReturn tt))))) 0%nat in
  '(res, s) ← collect make_s;
  assert_eq res [Yielded 8%N; Complete tt];;
  _ ← take 1 s;
  '(res, s) ← collect make_s;
  assert_eq (into_yielded_stream (Some <$> res)) [Some 8%N];;
  _ ← take 1 s;
  '(res, s) ← collect make_s;
  match into_complete_future (Some <$> res) with
  | Ready r => r
  | Pending => Panic "the executor is stuck"
  end;;
  _ ← take 1 s;
  Ret tt.

(** The first rounds of the task's loop. *)
Fixpoint fibonacci_task (rounds : nat) (a b : Z) : Co Z unit unit :=
  match rounds with
  | O => CoReturn tt
  | S rounds => CoYield a (fibonacci_task rounds b (wrap_u32 (b + a)))
  end.
Definition fibonacci : outcome unit :=
  '(states, _) ← collect (generate_task (fibonacci_task 20 0 1) tt);
  assert_eq (firstn 10 (into_yielded_stream (Some <$> states)))
    (Some <$> [0; 1; 1; 2; 3; 5; 8; 13; 21; 34])%Z.

Definition generator_tests : list (outcome unit) :=
  [generator_waits_for_item_to_yield; yield_all_yields_all; fused_impl;
   into_try_stream_transposes_generator_states; into_try_stream_eats_unit_success;
   runs_task_to_completion; fibonacci].

Lemma generator_tests_pass : all_pass generator_tests = true.
Proof. vm_compute. reflexivity. Qed.
