(* ===== verification/Machine.v ===== *)
(** * The state machine: its data and the collaborators it calls
    ([state_machine.rs], [state_machine/observer.rs])

    [Crates] gathers the third-party code, [Client] the implementations of the crate's own traits
    that a [StateMachine] is built from, with the types of their states.  A method of the state
    machine is a computation [SM A]: it changes the record [StateMachine] and performs [Effect]s,
    in order. *)

From S2P Require Import Prelude Serde Effects Time Version Protocol Storage Common UpdateCheck AppSet.
From S2P Require Import UriExt Http Cup RequestBuilder Metrics Installer Policy.
From S2P Require Request Response.
Open Scope Z_scope.

Definition INSTALL_PLAN_ID : string := "install_plan_id".
Definition UPDATE_FIRST_SEEN_TIME : string := "update_first_seen_time".
Definition UPDATE_FINISH_TIME : string := "update_finish_time".
Definition TARGET_VERSION : string := "target_version".
Definition CONSECUTIVE_FAILED_INSTALL_ATTEMPTS : string := "consecutive_failed_install_attempts".
Definition CHECK_REBOOT_ALLOWED_INTERVAL : Duration := from_secs (30 * 60).
Definition X_RETRY_AFTER : string := "X-Retry-After".
Definition MAX_OMAHA_REQUEST_ATTEMPTS : Z := 3.

(** ** What the state machine is built from *)

Class Crates := {
  crate_uri :: UriCrate;
  crate_serde :: SerdeJson;
  crate_http :: HttpCrate;
  crate_ecdsa :: EcdsaCrate;
  crate_anyhow :: Anyhow;
  crate_uuid :: Request.UuidCrate;
  crate_checks :: OverflowChecks;
}.

(** The randomness of [GUID::new], [Nonce::new] and [rand::random]. *)
Class Entropy (RNG : Type) := {
  new_guid : RNG → Request.GUID * RNG;
  new_nonce : RNG → Nonce * RNG;
  random_u64 : RNG → Z * RNG;
}.
(** [random_u64] gives a [u64]. *)
Class EntropySpec (RNG : Type) `{Entropy RNG} : Prop := {
  random_u64_range r : in_u64 (random_u64 r).1;
}.

Class Client `{Crates} := {
  PE : Type; TS : Type; HR : Type; IN : Type; IR : Type; PL : Type;
  TM : Type; MR : Type; ST : Type; AS : Type; CH : Type; RNG : Type;
  client_policy_engine :: PolicyEngine PE TS IR PL;
  client_time_source :: TimeSource TS;
  client_http :: HttpTransport HR;
  client_plan :: Plan PL;
  client_installer :: Installer IN IR PL;
  client_timer :: Timer TM;
  client_metrics :: MetricsReporter MR;
  client_storage :: Storage ST;
  client_app_set :: AppSet AS;
  client_cup :: Cupv2Handler CH;
  client_entropy :: Entropy RNG;
}.

(** ** Data *)

Inductive State : Type :=
| Idle
| CheckingForUpdates (s : Request.InstallSource)
| ErrorCheckingForUpdate
| NoUpdateAvailable
| InstallationDeferredByPolicy
| InstallingUpdate
| WaitingForReboot
| InstallationError.
#[export] Instance State_eq_dec : EqDecision State.
Proof. solve_decision. Defined.

Section data.
Context `{Client}.

Inductive OmahaRequestError : Type :=
| ReqJson (e : serde_error)
| ReqHttpBuilder (e : http_error)
| ReqCupDecoration (e : CupDecorationError)
| ReqCupValidation (e : CupVerificationError)
| ReqHttpTransport (e : HttpRequestError)
| ReqHttpStatus (e : StatusCode).

(** [impl From<request_builder::Error> for OmahaRequestError]. *)
Definition omaha_request_error_from (err : BuilderError) : OmahaRequestError :=
  match err with
  | BuilderJson e => ReqJson e
  | BuilderHttp e => ReqHttpBuilder e
  | BuilderCup e => ReqCupDecoration e
  end.

(** [impl From<http::StatusCode> for OmahaRequestError]. *)
Definition omaha_request_error_from_status (sc : StatusCode) : OmahaRequestError := ReqHttpStatus sc.

(** [ResponseParseError]; nothing builds its [Utf8] case. *)
Inductive ResponseParseError : Type := ParseJson (e : serde_error).

(** [UpdateCheckError]; the [anyhow::Error] of [InstallPlan] wraps an error of the installer. *)
Inductive UpdateCheckError : Type :=
| ErrorOmahaRequest (e : OmahaRequestError)
| ErrorResponseParser (e : ResponseParseError)
| ErrorInstallPlan (e : installer_error).

Inductive StartUpdateCheckResponse : Type := Started | AlreadyRunning | Throttled.

(** [StateMachineGone], what the errors of the channels become. *)
Inductive StateMachineGone : Type := mkStateMachineGone.
Definition gone_from_send_error {SendError : Type} (e : SendError) : StateMachineGone :=
  mkStateMachineGone.
Definition gone_from_canceled {Canceled : Type} (e : Canceled) : StateMachineGone :=
  mkStateMachineGone.
(** [ControlHandle::start_update_check]: the request is sent, and then the answer is awaited. *)
Definition control_start_update_check {SendError Canceled : Type} (sent : result unit SendError)
    (received : result StartUpdateCheckResponse Canceled)
    : result StartUpdateCheckResponse StateMachineGone :=
  let? _ := map_err gone_from_send_error sent in map_err gone_from_canceled received.

Inductive RebootAfterUpdate : Type :=
| Needed (install_result : IR)
| NotNeeded.

(** [StateMachineEvent]. *)
Inductive StateMachineEvent : Type :=
| StateChange (s : State)
| ScheduleChange (s : UpdateCheckSchedule)
| ProtocolStateChange (s : ProtocolState)
| UpdateCheckResult (r : result UpdateCheck.Response UpdateCheckError)
| InstallProgressChange (p : InstallProgress)
| OmahaServerResponse (r : Response.Response)
| InstallerError (e : option installer_error).

(** What an observer of the program sees it do; [Answered] is a [responder.send], and [id] the
    responder. *)
Inductive Effect : Type :=
| Yield (ev : StateMachineEvent)
| Reported (m : Metrics)
| Requested (r : HttpReq)
| WaitFor (d : Duration)
| WaitUntil (t : PartialComplexTime)
| Committed
| PlanCreated (r : result PL installer_error)
| StartDecision (plan : PL) (d : UpdateDecision)
| InstallStarted (plan : PL)
| RebootNeededAnswer (plan : PL) (b : bool)
| RebootAllowedAnswer (options : CheckOptions) (b : bool)
| Rebooted
| Answered (id : nat) (r : StartUpdateCheckResponse).

(** [StateMachine]; [entropy] is the process's randomness. *)
Record StateMachine : Type := mkStateMachine {
  config : Config;
  policy_engine : PE;
  http : HR;
  installer : IN;
  timer : TM;
  time_source : TS;
  metrics_reporter : MR;
  storage_ref : ST;
  context : Context;
  app_set : AS;
  cup_handler : option CH;
  entropy : RNG;
}.

(** Assignments to the fields. *)
Definition set_policy_engine (x : PE) (s : StateMachine) : StateMachine :=
  mkStateMachine (config s) x (http s) (installer s) (timer s) (time_source s) (metrics_reporter s)
    (storage_ref s) (context s) (app_set s) (cup_handler s) (entropy s).
Definition set_http (x : HR) (s : StateMachine) : StateMachine :=
  mkStateMachine (config s) (policy_engine s) x (installer s) (timer s) (time_source s)
    (metrics_reporter s) (storage_ref s) (context s) (app_set s) (cup_handler s) (entropy s).
Definition set_installer (x : IN) (s : StateMachine) : StateMachine :=
  mkStateMachine (config s) (policy_engine s) (http s) x (timer s) (time_source s)
    (metrics_reporter s) (storage_ref s) (context s) (app_set s) (cup_handler s) (entropy s).
Definition set_timer (x : TM) (s : StateMachine) : StateMachine :=
  mkStateMachine (config s) (policy_engine s) (http s) (installer s) x (time_source s)
    (metrics_reporter s) (storage_ref s) (context s) (app_set s) (cup_handler s) (entropy s).
Definition set_time_source (x : TS) (s : StateMachine) : StateMachine :=
  mkStateMachine (config s) (policy_engine s) (http s) (installer s) (timer s) x
    (metrics_reporter s) (storage_ref s) (context s) (app_set s) (cup_handler s) (entropy s).
Definition set_metrics_reporter (x : MR) (s : StateMachine) : StateMachine :=
  mkStateMachine (config s) (policy_engine s) (http s) (installer s) (timer s) (time_source s) x
    (storage_ref s) (context s) (app_set s) (cup_handler s) (entropy s).
Definition set_storage (x : ST) (s : StateMachine) : StateMachine :=
  mkStateMachine (config s) (policy_engine s) (http s) (installer s) (timer s) (time_source s)
    (metrics_reporter s) x (context s) (app_set s) (cup_handler s) (entropy s).
Definition set_context (x : Context) (s : StateMachine) : StateMachine :=
  mkStateMachine (config s) (policy_engine s) (http s) (installer s) (timer s) (time_source s)
    (metrics_reporter s) (storage_ref s) x (app_set s) (cup_handler s) (entropy s).
Definition set_app_set (x : AS) (s : StateMachine) : StateMachine :=
  mkStateMachine (config s) (policy_engine s) (http s) (installer s) (timer s) (time_source s)
    (metrics_reporter s) (storage_ref s) (context s) x (cup_handler s) (entropy s).
Definition set_entropy (x : RNG) (s : StateMachine) : StateMachine :=
  mkStateMachine (config s) (policy_engine s) (http s) (installer s) (timer s) (time_source s)
    (metrics_reporter s) (storage_ref s) (context s) (app_set s) (cup_handler s) x.

Definition SM (A : Type) : Type := M StateMachine Effect A.
End data.

(** Assignments to the context's fields. *)
Definition set_last_update_time (t : PartialComplexTime) (c : Context) : Context :=
  mkContext (mkUpdateCheckSchedule (Some t) (last_update_check_time (schedule c))
    (next_update_time (schedule c))) (state c).
Definition set_last_update_check_time (t : PartialComplexTime) (c : Context) : Context :=
  mkContext (mkUpdateCheckSchedule (last_update_time (schedule c)) (Some t)
    (next_update_time (schedule c))) (state c).
Definition set_next_update_time (t : CheckTiming) (c : Context) : Context :=
  mkContext (mkUpdateCheckSchedule (last_update_time (schedule c))
    (last_update_check_time (schedule c)) (Some t)) (state c).
Definition set_poll_interval (d : option Duration) (c : Context) : Context :=
  mkContext (schedule c) (mkProtocolState d (consecutive_failed_update_checks (state c))
    (consecutive_proxied_requests (state c))).
Definition set_failed_checks (n : Z) (c : Context) : Context :=
  mkContext (schedule c) (mkProtocolState (server_dictated_poll_interval (state c)) n
    (consecutive_proxied_requests (state c))).

(** ** The elementary steps *)

Section steps.
Context `{Client}.

Implicit Types A : Type.

(** [co.yield_(event).await]. *)
Definition yield_ (ev : StateMachineEvent) : SM unit := emit (Yield ev).
Definition yield_state (state : State) : SM unit := yield_ (StateChange state).

Definition update_context (f : Context → Context) : SM unit :=
  modify (λ s, set_context (f (context s)) s).
Definition update_storage (f : ST → ST) : SM unit :=
  modify (λ s, set_storage (f (storage_ref s)) s).
(** [storage.commit_or_log()]. *)
Definition commit_storage : SM unit := emit Committed;; update_storage commit_or_log.
(** A fallible write; the caller sees whether it succeeded. *)
Definition write_storage (f : ST → result unit storage_error * ST) : SM bool :=
  call storage_ref set_storage (λ st, let '(r, st') := f st in (is_ok r, st')).

Definition sm_now : SM ComplexTime := call time_source set_time_source now.
Definition sm_now_in_walltime : SM SystemTime := call time_source set_time_source now_in_walltime.
Definition sm_now_in_monotonic : SM Instant := call time_source set_time_source now_in_monotonic.

(** [self.timer.wait_for(d).await] or the creation of the future that waits. *)
Definition sm_wait_for (d : Duration) : SM unit :=
  emit (WaitFor d);; call timer set_timer (λ tm, (tt, wait_for tm d)).
Definition sm_wait_until (t : PartialComplexTime) : SM unit :=
  emit (WaitUntil t);; call timer set_timer (λ tm, (tt, wait_until tm t)).

Definition sm_new_guid : SM Request.GUID := call entropy set_entropy new_guid.
Definition sm_new_nonce : SM Nonce := call entropy set_entropy new_nonce.
Definition sm_random_u64 : SM Z := call entropy set_entropy random_u64.

(** [StateMachine::report_metrics]: an error of the reporter is logged and dropped. *)
Definition report_metrics (metrics : Metrics) : SM unit :=
  emit (Reported metrics);;
  _ ← call metrics_reporter set_metrics_reporter (report metrics);
  mret tt.

(** [randomize]: in [n - range / 2 + rand % range] the operations are on [u64]. *)
Definition randomize (n range random : Z) : outcome Z :=
  base ← sub_u64 n (range / 2);
  remainder ← (if decide (range = 0)
               then Panic "attempt to calculate the remainder with a divisor of zero"
               else Ret (random mod range));
  add_u64 base remainder.
End steps.
