(* ===== verification/Omaha.v ===== *)
(** * Talking to Omaha ([state_machine.rs]: one request and what its response changes)

    [do_omaha_request_and_update_context] builds a request, sends it, verifies the response and
    takes the poll interval from it; [report_omaha_event_and_update_context] and [ping_omaha] are
    its callers outside of an update check proper. *)

From S2P Require Import Prelude Effects Time Version Protocol Storage Common UpdateCheck AppSet.
From S2P Require Import UriExt Http Cup RequestBuilder Metrics Installer Policy Machine.
From S2P Require Request Response.
Open Scope Z_scope.

Section omaha.
Context `{Client}.

(** [StateMachine::persist_data]. *)
Definition persist_data : SM unit :=
  ctx ← gets context;
  update_storage (context_persist ctx);;
  apps ← gets app_set;
  update_storage (app_set_persist apps);;
  commit_storage.

(** [StateMachine::make_request]. *)
Definition make_request (request : HttpReq) : SM (result HttpResp HttpRequestError) :=
  emit (Requested request);; call http set_http (http_request request).

(** [StateMachine::parse_omaha_response]. *)
Definition parse_omaha_response (data : bytes) : result Response.Response ResponseParseError :=
  map_err ParseJson (Response.parse_json_response data).

(** The poll interval a response dictates: the [X-Retry-After] header in seconds, a day at most. *)
Definition dictated_poll_interval (response : HttpResp) : option Duration :=
  header ← headers_get response X_RETRY_AFTER;
  s ← res_ok (header_to_str header);
  seconds ← parse_uint u64_max s;
  Some (from_secs (Z.min seconds 86400)).

(** The verification step: with a handler and the metadata of the request, the response must
    verify. *)
Definition verify_step (handler : option CH) (request_metadata : option RequestMetadata)
    (response : HttpResp) : result (option DerSignature) OmahaRequestError :=
  match handler, request_metadata with
  | Some handler, Some metadata =>
    let? signature := map_err ReqCupValidation
      (verify_response handler metadata response (public_key_id metadata)) in
    Ok (Some signature)
  | _, _ => Ok None
  end.

(** What a successful request gives: the response, its metadata and signature. *)
Record Reply : Type := mkReply {
  parts : HttpResp;
  data : bytes;
  request_metadata : option RequestMetadata;
  signature : option DerSignature;
}.

(** The end of [do_omaha_request_and_update_context]: a verified response and its poll interval. *)
Definition accept_response (request_metadata : option RequestMetadata) (response : HttpResp)
    (signature : option DerSignature) : SM (result Reply OmahaRequestError) :=
  let dictated := dictated_poll_interval response in
  ctx ← gets context;
  (if decide (server_dictated_poll_interval (state ctx) = dictated)
   then mret tt
   else
     update_context (set_poll_interval dictated);;
     ctx ← gets context;
     yield_ (ProtocolStateChange (state ctx));;
     update_storage (context_persist ctx);;
     commit_storage);;
  if is_success (resp_status response)
  then mret (Ok (mkReply response (resp_body response) request_metadata signature))
  else mret (Err (ReqHttpStatus (resp_status response))).

(** The rest of it, with the handler and the nonce it draws. *)
Definition send_request (handler : option CH) (nonce : Nonce) (builder : RequestBuilder)
    : SM (result Reply OmahaRequestError) :=
  let! (request, request_metadata) :=
    mret (map_err omaha_request_error_from (build handler nonce builder)) in
  let! response := (r ← make_request request; mret (map_err ReqHttpTransport r)) in
  let! signature := mret (verify_step handler request_metadata response) in
  accept_response request_metadata response signature.

(** [StateMachine::do_omaha_request_and_update_context]. *)
Definition do_omaha_request_and_update_context (builder : RequestBuilder)
    : SM (result Reply OmahaRequestError) :=
  handler ← gets cup_handler;
  nonce ← match handler with Some _ => sm_new_nonce | None => mret (mkNonce []) end;
  send_request handler nonce builder.

(** The event that goes to one app: with its versions and the time the install took. *)
Definition event_for (event : Request.Event) (app : App) (next_version : option string)
    (install_duration : option Duration) : Request.Event :=
  Request.mkEvent (Request.event_type event) (Request.event_result event) (Request.errorcode event)
    (Some (version_to_string (app_version app))) next_version
    (d ← install_duration; try_u64 (as_millis d)).

(** The loop of [report_omaha_event_and_update_context]: apps without an update are skipped. *)
Fixpoint add_events (event : Request.Event) (next_versions : gmap string (option string))
    (install_duration : option Duration) (apps : list App) (builder : RequestBuilder)
    : RequestBuilder :=
  match apps with
  | [] => builder
  | app :: apps' =>
    add_events event next_versions install_duration apps'
      match next_versions !! app_id app with
      | Some next_version => add_event app (event_for event app next_version install_duration) builder
      | None => builder
      end
  end.

(** [StateMachine::report_omaha_event_and_update_context]. *)
Definition report_omaha_event_and_update_context (request_params : RequestParams)
    (event : Request.Event) (apps : list App) (session_id : Request.GUID)
    (next_versions : gmap string (option string)) (install_duration : option Duration) : SM unit :=
  cfg ← gets config;
  let builder := add_events event next_versions install_duration apps
    (request_builder_new cfg request_params) in
  request_id ← sm_new_guid;
  let builder := set_request_id request_id (set_session_id session_id builder) in
  r ← do_omaha_request_and_update_context builder;
  match r with
  | Ok _ => mret tt
  | Err _ => report_metrics (OmahaEventLost event)
  end.

(** [StateMachine::get_app_update_statuses]. *)
Definition get_app_update_statuses (response : Response.Response)
    : list (string * Response.OmahaStatus) :=
  omap (λ app, (λ u, (Response.id app, Response.status u)) <$> Response.update_check app)
    (Response.apps response).

(** [StateMachine::make_app_responses]. *)
Definition make_app_responses (response : Response.Response) (action : Action) : list AppResponse :=
  (λ app, mkAppResponse (Response.id app) (Response.cohort app)
     (user_counting_from (Response.daystart response)) action) <$> Response.apps response.

(** [StateMachine::make_not_updated_result]. *)
Definition make_not_updated_result (response : Response.Response) (action : Action)
    : result (UpdateCheck.Response * RebootAfterUpdate) UpdateCheckError :=
  Ok (mkResponse (make_app_responses response action), NotNeeded).

(** Assigning what Omaha answered to the apps. *)
Definition update_apps (app_responses : list AppResponse) : SM unit :=
  modify (λ s, set_app_set (update_from_omaha app_responses (app_set s)) s).

(** The end of a failed ping. *)
Definition ping_failed : SM unit :=
  ctx ← gets context;
  n ← lift (add_u32 (consecutive_failed_update_checks (state ctx)) 1);
  update_context (set_failed_checks n);;
  persist_data.

(** The parameters of [ping_omaha]. *)
Definition ping_params : RequestParams := mkRequestParams Request.ScheduledTask true false false.

(** [StateMachine::ping_omaha]. *)
Definition ping_omaha : SM unit :=
  apps ← gets (get_apps ∘ app_set);
  cfg ← gets config;
  let builder := foldl (λ b app, add_ping app b) (request_builder_new cfg ping_params) apps in
  session_id ← sm_new_guid;
  request_id ← sm_new_guid;
  let builder := set_request_id request_id (set_session_id session_id builder) in
  r ← do_omaha_request_and_update_context builder;
  match r with
  | Err _ => ping_failed
  | Ok reply =>
    match parse_omaha_response (data reply) with
    | Err _ => ping_failed
    | Ok response =>
      update_context (set_failed_checks 0);;
      t ← sm_now;
      update_context (set_last_update_time (Complex t));;
      ctx ← gets context;
      yield_ (ScheduleChange (schedule ctx));;
      update_apps (make_app_responses response ActionNoUpdate);;
      persist_data
    end
  end.

(** [StateMachine::update_next_update_time]. *)
Definition update_next_update_time : SM CheckTiming :=
  apps ← gets (get_apps ∘ app_set);
  ctx ← gets context;
  timing ← call policy_engine set_policy_engine
    (compute_next_update_time apps (schedule ctx) (state ctx));
  timing ← lift timing;
  update_context (set_next_update_time timing);;
  ctx ← gets context;
  yield_ (ScheduleChange (schedule ctx));;
  mret timing.

(** [StateMachine::make_wait_to_next_check]: the timers that must all fire. *)
Definition make_wait_to_next_check (check_timing : CheckTiming) : SM unit :=
  match minimum_wait check_timing with
  | Some minimum_wait => sm_wait_for minimum_wait;; sm_wait_until (time check_timing)
  | None => sm_wait_until (time check_timing)
  end.

(** [StateMachine::record_update_first_seen_time]. *)
Definition record_update_first_seen_time (install_plan_id : string) (now : SystemTime)
    : SM SystemTime :=
  st ← gets storage_ref;
  let previous_id := get_string st INSTALL_PLAN_ID in
  if decide (previous_id = Some install_plan_id) then
    t ← lift (get_time st UPDATE_FIRST_SEEN_TIME);
    mret (unwrap_or t now)
  else
    ok ← write_storage (λ st, set_string st INSTALL_PLAN_ID install_plan_id);
    if negb ok then mret now
    else
      ok ← write_storage (λ st, set_time st UPDATE_FIRST_SEEN_TIME now);
      if negb ok then
        _ ← write_storage (λ st, remove st INSTALL_PLAN_ID);
        mret now
      else
        commit_storage;;
        mret now.
End omaha.
