(* ===== verification/Check.v ===== *)
(** * An update check ([state_machine.rs]: [start_update_check] and what it calls)

    [perform_update_check] is cut at its phases: the request loop, the answer of the server, the
    install plan and the decision about it, the installation, and what is recorded after it. *)

From S2P Require Import Prelude Effects Time Version Protocol Storage Common UpdateCheck AppSet.
From S2P Require Import UriExt Http Cup RequestBuilder Metrics Installer Policy Machine Omaha.
From S2P Require Request Response.
Open Scope Z_scope.

Section check.
Context `{Client}.

(** [StateMachine::report_check_interval]. *)
Definition report_check_interval (install_source : Request.InstallSource) : SM unit :=
  now ← sm_now;
  ctx ← gets context;
  match last_update_check_time (schedule ctx) with
  | Some (Wall t) =>
    match wall_duration_since now t with
    | Ok interval => report_metrics (UpdateCheckInterval interval ClockWall install_source)
    | Err _ => mret tt
    end
  | Some (Complex t) =>
    match checked_duration_since (mono now) (mono t) with
    | Some interval => report_metrics (UpdateCheckInterval interval ClockMonotonic install_source)
    | None => mret tt
    end
  | _ => mret tt
  end;;
  update_context (set_last_update_check_time (Complex now)).

(** ** The request loop *)

Definition check_request_builder (cfg : Config) (request_params : RequestParams) (apps : list App)
    (session_id : Request.GUID) : RequestBuilder :=
  set_session_id session_id
    (foldl (λ b app, add_ping app (add_update_check app b)) (request_builder_new cfg request_params)
       apps).

Definition report_response_time (omaha_check_start_time : Instant) (successful : bool) : SM unit :=
  now ← sm_now_in_monotonic;
  match checked_duration_since now omaha_check_start_time with
  | Some response_time => report_metrics (UpdateCheckResponseTime response_time successful)
  | None => mret tt
  end.

(** Whether an error of an attempt is followed by another attempt. *)
Definition retries (omaha_request_attempt : Z) (ctx : Context) (e : OmahaRequestError) : bool :=
  match e with
  | ReqJson _ | ReqHttpBuilder _ | ReqCupDecoration _ | ReqCupValidation _ => false
  | ReqHttpTransport e =>
    negb (bool_decide (MAX_OMAHA_REQUEST_ATTEMPTS ≤ omaha_request_attempt) || is_user e
          || opt_is_some (server_dictated_poll_interval (state ctx)))
  | ReqHttpStatus _ =>
    negb (bool_decide (MAX_OMAHA_REQUEST_ATTEMPTS ≤ omaha_request_attempt)
          || opt_is_some (server_dictated_poll_interval (state ctx)))
  end.

(** The wait before another attempt. *)
Definition backoff (omaha_request_attempt : Z) : SM unit :=
  let backoff_time_secs := Z.shiftl 1 (omaha_request_attempt - 1) in
  random ← sm_random_u64;
  backoff_time ← lift (randomize (backoff_time_secs * 1000) 1000 random);
  sm_wait_for (from_millis backoff_time).

(** The loop; it gives the number of the last attempt too.  [fuel] bounds the attempts left. *)
Fixpoint request_loop (fuel : nat) (omaha_request_attempt : Z) (builder : RequestBuilder)
    : SM (result Reply UpdateCheckError * Z) :=
  match fuel with
  | O => lift (Panic "out of fuel")
  | S fuel =>
    omaha_check_start_time ← sm_now_in_monotonic;
    request_id ← sm_new_guid;
    let builder := set_request_id request_id builder in
    r ← do_omaha_request_and_update_context builder;
    report_response_time omaha_check_start_time (is_ok r);;
    ctx ← gets context;
    match r with
    | Ok res => mret (Ok res, omaha_request_attempt)
    | Err e =>
      if retries omaha_request_attempt ctx e then
        backoff omaha_request_attempt;;
        request_loop fuel (omaha_request_attempt + 1) builder
      else
        yield_state ErrorCheckingForUpdate;;
        mret (Err (ErrorOmahaRequest e), omaha_request_attempt)
    end
  end.

(** ** The answer of the server *)

Definition has_update (app : Response.App) : bool :=
  match Response.update_check app with
  | Some uc => bool_decide (Response.status uc = Response.StatusOk)
  | None => false
  end.
Definition apps_with_update (response : Response.Response) : list Response.App :=
  filter (λ app, has_update app = true) (Response.apps response).
(** From the id of each app with an update to its new version, if there is one. *)
Definition next_versions_of (apps : list Response.App) : gmap string (option string) :=
  foldl (λ m app, <[Response.id app := Response.get_manifest_version app]> m) ∅ apps.

Definition CheckResult : Type :=
  result (UpdateCheck.Response * RebootAfterUpdate) UpdateCheckError.

(** ** After the installation *)

(** The event that tells Omaha about the installation of one app. *)
Definition install_event (r : AppInstallResult installer_error) : Request.Event :=
  match r with
  | Installed => Request.event_success Request.UpdateDownloadFinished
  | Deferred => Request.mkEvent Request.UpdateComplete Request.UpdateDeferred
      (Request.errorcode Request.event_default) None None None
  | Failed _ => Request.event_error Request.Installation
  end.

(** The loop over the apps with an update and their results: the builder, the events and the
    installed apps, in order. *)
Fixpoint install_events (apps : list App) (install_duration : option Duration)
    (l : list (Response.App * AppInstallResult installer_error))
    (acc : RequestBuilder * list Request.Event * list App)
    : RequestBuilder * list Request.Event * list App :=
  match l with
  | [] => acc
  | (response_app, r) :: l' =>
    install_events apps install_duration l'
      match find_first (λ app, bool_decide (app_id app = Response.id response_app)) apps with
      | Some app =>
        let '(builder, events, installed_apps) := acc in
        let event := event_for (install_event r) app (Response.get_manifest_version response_app)
          install_duration in
        (add_event app event builder, events ++ [event],
         match r with Installed => installed_apps ++ [app] | _ => installed_apps end)
      | None => acc
      end
  end.

(** The answers after an installation: an app with an update takes the next result from the front
    ([app_install_results.remove(0)] panics when there is none). *)
Fixpoint installed_responses (user_counting : UserCounting) (apps : list Response.App)
    (app_install_results : list (AppInstallResult installer_error))
    : outcome (list AppResponse * list installer_error) :=
  match apps with
  | [] => Ret ([], [])
  | app :: apps' =>
    let response := mkAppResponse (Response.id app) (Response.cohort app) user_counting in
    if has_update app then
      match app_install_results with
      | [] => Panic "removal index (is 0) should be < len (is 0)"
      | r :: results =>
        '(responses, errors) ← installed_responses user_counting apps' results;
        match r with
        | Installed => Ret (response ActionUpdated :: responses, errors)
        | Deferred => Ret (response ActionDeferredByPolicy :: responses, errors)
        | Failed e => Ret (response ActionInstallPlanExecutionError :: responses, e :: errors)
        end
      end
    else
      '(responses, errors) ← installed_responses user_counting apps' app_install_results;
      Ret (response ActionNoUpdate :: responses, errors)
  end.

Definition no_failure (results : list (AppInstallResult installer_error)) : bool :=
  forallb (λ r, match r with Installed | Deferred => true | Failed _ => false end) results.

(** How long the installation took, and the metric about it. *)
Definition report_install_duration (start finish : SystemTime) (no_apps_failed : bool)
    : SM (option Duration) :=
  match duration_since finish start with
  | Ok duration =>
    report_metrics (if no_apps_failed then SuccessfulUpdateDuration duration
                    else FailedUpdateDuration duration);;
    mret (Some duration)
  | Err _ => mret None
  end.

(** What the state machine writes down when an update is complete. *)
Definition record_update_finished (next_versions : gmap string (option string))
    (update_finish_time : SystemTime) : SM unit :=
  _ ← write_storage (λ st, set_time st UPDATE_FINISH_TIME update_finish_time);
  apps ← gets app_set;
  system_app_id ← lift (get_system_app_id apps);
  match next_versions !! system_app_id with
  | Some next_version =>
    _ ← write_storage (λ st, set_string st TARGET_VERSION (unwrap_or next_version "UNKNOWN"%string));
    mret tt
  | None => mret tt
  end;;
  commit_storage.

(** Telling Omaha about the installation: one event per app, and another for the installed ones. *)
Definition report_installation (request_params : RequestParams) (apps : list App)
    (session_id : Request.GUID) (with_update : list Response.App)
    (results : list (AppInstallResult installer_error)) (install_duration : option Duration)
    : SM unit :=
  cfg ← gets config;
  let '(builder, events, installed_apps) :=
    install_events apps install_duration (zip with_update results)
      (request_builder_new cfg request_params, [], []) in
  request_id ← sm_new_guid;
  let builder := set_request_id request_id (set_session_id session_id builder) in
  r ← do_omaha_request_and_update_context builder;
  match r with
  | Ok _ => mret tt
  | Err _ => for_each (λ e, report_metrics (OmahaEventLost e)) events
  end;;
  match installed_apps with
  | [] => mret tt
  | _ => report_omaha_event_and_update_context request_params
           (Request.event_success Request.UpdateComplete) installed_apps session_id
           (next_versions_of with_update) install_duration
  end.

Definition reboot_if (needed : bool) (install_result : IR) : RebootAfterUpdate :=
  if needed then Needed install_result else NotNeeded.

(** The end of a check that installed something. *)
Definition conclude_installation (install_plan : PL) (install_result : IR)
    (response : Response.Response) (results : list (AppInstallResult installer_error))
    (first_seen finish : SystemTime) : SM CheckResult :=
  '(app_responses, errors) ← lift (installed_responses
    (user_counting_from (Response.daystart response)) (Response.apps response) results);
  match errors with
  | _ :: _ =>
    for_each (λ e, yield_ (InstallerError (Some e))) errors;;
    yield_state InstallationError;;
    mret (Ok (mkResponse app_responses, NotNeeded))
  | [] =>
    match duration_since finish first_seen with
    | Ok duration => report_metrics (SuccessfulUpdateFromFirstSeen duration)
    | Err _ => mret tt
    end;;
    record_update_finished (next_versions_of (apps_with_update response)) finish;;
    needed ← call policy_engine set_policy_engine (reboot_needed install_plan);
    emit (RebootNeededAnswer install_plan needed);;
    mret (Ok (mkResponse app_responses, reboot_if needed install_result))
  end.

(** The installation itself. *)
Definition install (request_params : RequestParams) (apps : list App) (session_id : Request.GUID)
    (response : Response.Response) (install_plan : PL) : SM CheckResult :=
  let with_update := apps_with_update response in
  yield_state InstallingUpdate;;
  report_omaha_event_and_update_context request_params
    (Request.event_success Request.UpdateDownloadStarted) apps session_id
    (next_versions_of with_update) None;;
  update_start_time ← sm_now_in_walltime;
  update_first_seen_time ← record_update_first_seen_time (plan_id install_plan) update_start_time;
  emit (InstallStarted install_plan);;
  '(progress, (install_result, app_install_results)) ←
    call installer set_installer (perform_install install_plan);
  for_each (λ c, yield_ (InstallProgressChange (receive_progress c))) progress;;
  update_finish_time ← sm_now_in_walltime;
  install_duration ← report_install_duration update_start_time update_finish_time
    (no_failure app_install_results);
  report_installation request_params apps session_id with_update app_install_results
    install_duration;;
  conclude_installation install_plan install_result response app_install_results
    update_first_seen_time update_finish_time.

(** ** From the answer to the installation *)

(** The plan, and the policy's decision about it. *)
Definition plan_and_install (request_params : RequestParams) (apps : list App)
    (session_id : Request.GUID) (reply : Reply) (response : Response.Response) : SM CheckResult :=
  let next_versions := next_versions_of (apps_with_update response) in
  let report_event event := report_omaha_event_and_update_context request_params event apps
    session_id next_versions None in
  inst ← gets installer;
  let plan := try_create_install_plan request_params (request_metadata reply) response (data reply)
    (der_as_ref <$> signature reply) inst in
  emit (PlanCreated plan);;
  match plan with
  | Err e =>
    yield_state InstallingUpdate;;
    yield_state InstallationError;;
    report_event (Request.event_error Request.ConstructInstallPlan);;
    mret (Err (ErrorInstallPlan e))
  | Ok install_plan =>
    decision ← call policy_engine set_policy_engine (update_can_start install_plan);
    emit (StartDecision install_plan decision);;
    match decision with
    | UpdateOk => install request_params apps session_id response install_plan
    | UpdateDeferredByPolicy =>
      report_event (Request.mkEvent Request.UpdateComplete Request.UpdateDeferred
        (Request.errorcode Request.event_default) None None None);;
      yield_state InstallationDeferredByPolicy;;
      mret (make_not_updated_result response ActionDeferredByPolicy)
    | UpdateDeniedByPolicy =>
      report_event (Request.event_error Request.DeniedByPolicy);;
      mret (make_not_updated_result response ActionDeniedByPolicy)
    end
  end.

(** What is done with a reply. *)
Definition handle_reply (request_params : RequestParams) (apps : list App)
    (session_id : Request.GUID) (reply : Reply) : SM CheckResult :=
  match parse_omaha_response (data reply) with
  | Err err =>
    yield_state ErrorCheckingForUpdate;;
    report_omaha_event_and_update_context request_params
      (Request.event_error Request.ParseResponse) apps session_id
      (foldl (λ m app, <[app_id app := None]> m) ∅ apps) None;;
    mret (Err (ErrorResponseParser err))
  | Ok response =>
    yield_ (OmahaServerResponse response);;
    match apps_with_update response with
    | [] =>
      yield_state NoUpdateAvailable;;
      mret (make_not_updated_result response ActionNoUpdate)
    | _ => plan_and_install request_params apps session_id reply response
    end
  end.

(** [StateMachine::perform_update_check]. *)
Definition perform_update_check (request_params : RequestParams) (apps : list App)
    : SM CheckResult :=
  yield_state (CheckingForUpdates (params_source request_params));;
  report_check_interval (params_source request_params);;
  cfg ← gets config;
  session_id ← sm_new_guid;
  let builder := check_request_builder cfg request_params apps session_id in
  '(loop_result, omaha_request_attempt) ←
    request_loop (Z.to_nat MAX_OMAHA_REQUEST_ATTEMPTS) 1 builder;
  report_metrics (RequestsPerCheck omaha_request_attempt (is_ok loop_result));;
  match loop_result with
  | Err e => mret (Err e)
  | Ok reply => handle_reply request_params apps session_id reply
  end.

(** ** The bookkeeping around a check *)

(** [StateMachine::report_attempts_to_successful_check]. *)
Definition report_attempts_to_successful_check (success : bool) : SM unit :=
  ctx ← gets context;
  attempts ← lift (add_u32 (consecutive_failed_update_checks (state ctx)) 1);
  if success then
    update_context (set_failed_checks 0);;
    report_metrics (AttemptsToSuccessfulCheck attempts)
  else update_context (set_failed_checks attempts).

(** [StateMachine::report_attempts_to_successful_install]; [as u64] wraps. *)
Definition report_attempts_to_successful_install (success : bool) : SM unit :=
  st ← gets storage_ref;
  attempts ← lift (add_i64 (unwrap_or (get_int st CONSECUTIVE_FAILED_INSTALL_ATTEMPTS) 0) 1);
  report_metrics (AttemptsToSuccessfulInstall (wrap_u64 attempts) success);;
  if success then update_storage (λ st, remove_or_log st CONSECUTIVE_FAILED_INSTALL_ATTEMPTS)
  else
    _ ← write_storage (λ st, set_int st CONSECUTIVE_FAILED_INSTALL_ATTEMPTS attempts);
    mret tt.

(** The fold over the answers: whether an installation failed, or one succeeded and none failed. *)
Definition install_success_step (r : option bool) (app : AppResponse) : option bool :=
  match r, response_result app with
  | _, ActionInstallPlanExecutionError => Some false
  | None, ActionUpdated => Some true
  | r, _ => r
  end.
Definition install_success_of (app_responses : list AppResponse) : option bool :=
  foldl install_success_step None app_responses.

(** How a failed check is classified. *)
Definition failure_reason (e : UpdateCheckError) : UpdateCheckFailureReason :=
  match e with
  | ErrorResponseParser _ | ErrorInstallPlan _ => FailureOmaha
  | ErrorOmahaRequest (ReqJson _) | ErrorOmahaRequest (ReqHttpBuilder _)
  | ErrorOmahaRequest (ReqCupDecoration _) | ErrorOmahaRequest (ReqCupValidation _) => FailureInternal
  | ErrorOmahaRequest (ReqHttpTransport _) | ErrorOmahaRequest (ReqHttpStatus _) => FailureNetwork
  end.

(** Whether Omaha was talked to. *)
Definition talked_to_omaha (e : UpdateCheckError) : bool :=
  match e with
  | ErrorResponseParser _ | ErrorInstallPlan _ => true
  | ErrorOmahaRequest _ => false
  end.

Definition check_succeeded (r : UpdateCheck.Response) : SM unit :=
  t ← sm_now;
  update_context (set_last_update_time (Complex t));;
  report_attempts_to_successful_check true;;
  update_apps (app_responses r);;
  match install_success_of (app_responses r) with
  | Some success => report_attempts_to_successful_install success
  | None => mret tt
  end.

Definition check_failed (e : UpdateCheckError) : SM unit :=
  (if talked_to_omaha e then t ← sm_now; update_context (set_last_update_time (Complex t))
   else mret tt);;
  report_metrics (UpdateCheckFailure (failure_reason e));;
  report_attempts_to_successful_check false.

(** [StateMachine::start_update_check]. *)
Definition start_update_check (request_params : RequestParams) : SM RebootAfterUpdate :=
  apps ← gets (get_apps ∘ app_set);
  r ← perform_update_check request_params apps;
  '(r, reboot_after_update) ←
    match r with
    | Ok (r, reboot_after_update) =>
      check_succeeded r;; mret (Ok r, reboot_after_update)
    | Err e => check_failed e;; mret (Err e, NotNeeded)
    end;
  ctx ← gets context;
  yield_ (ScheduleChange (schedule ctx));;
  yield_ (ProtocolStateChange (state ctx));;
  yield_ (UpdateCheckResult r);;
  persist_data;;
  mret reboot_after_update.

(** [StateMachine::report_waited_for_reboot_duration], and why it may fail. *)
Inductive WaitedError : Type := FinishTimeInFuture | MonotonicBackwards | WaitNegative.
Definition report_waited_for_reboot_duration (update_finish_time : SystemTime)
    (state_machine_start_monotonic_time : Instant) (now : ComplexTime)
    : SM (result unit WaitedError) :=
  let! update_finish_time_to_now :=
    mret (map_err (λ _, FinishTimeInFuture) (wall_duration_since now update_finish_time)) in
  let! state_machine_start_to_now :=
    mret (ok_or (checked_duration_since (mono now) state_machine_start_monotonic_time)
      MonotonicBackwards) in
  let! waited := mret (ok_or
    (duration_checked_sub update_finish_time_to_now state_machine_start_to_now) WaitNegative) in
  report_metrics (WaitedForRebootDuration waited);;
  mret (Ok tt).
End check.
