(* ===== verification/Typed.v ===== *)
(** * The numbers of the client keep to their types

    What is read from a response or from the storage has the range of its Rust type, so the dates
    an app is counted by, and what the results of a check carry, stay in that range. *)

From S2P Require Import Prelude Serde Effects Time Version Protocol Storage Common UpdateCheck AppSet.
From S2P Require Import UriExt Http Cup RequestBuilder Metrics Installer Policy Machine Omaha Check.
From S2P Require Request Response.
Open Scope Z_scope.

(** ** Apps and answers *)

Definition answer_typed (r : AppResponse) : Prop := user_counting_typed (response_user_counting r).

Lemma user_counting_from_typed r :
  Response.response_typed r → user_counting_typed (user_counting_from (Response.daystart r)).
Proof. intros [Hd _]. destruct (Response.daystart r) as [d|]; [apply Hd|done]. Qed.

Lemma update_from_omaha_typed {AS} `{AppSetSpec AS} rs (a : AS) :
  Forall answer_typed rs → Forall app_typed (get_apps a) →
  Forall app_typed (get_apps (update_from_omaha rs a)).
Proof.
  intros Hrs Ha. unfold update_from_omaha. rewrite get_apps_iter_mut. apply Forall_fmap.
  eapply Forall_impl; [exact Ha|]. intros x Hx. clear Ha. unfold compose.
  induction Hrs as [|r rs Hr _ IH]; [done|]. cbn. by case_decide.
Qed.

Lemma reads_user_counting : all_read user_counting_typed user_counting_deserialize.
Proof.
  intros j u Hu. apply res_bind_Ok in Hu as ([v [c|]] & _ & Hu); case_decide; try done.
  apply res_bind_Ok in Hu as (d & Hd & [= <-]). apply (reads_option _ _ reads_u32 _ _ Hd).
Qed.
Lemma persisted_read_typed `{SerdeJson} s p :
  from_str (A := PersistedApp) s = Ok p → user_counting_typed (persisted_user_counting p).
Proof.
  intros Hp. apply res_bind_Ok in Hp as (j & _ & Hp). apply map_err_Ok in Hp.
  apply res_bind_Ok in Hp as (m & _ & Hp). apply res_bind_Ok in Hp as (c & _ & Hp).
  apply res_bind_Ok in Hp as (u & Hu & [= <-]). apply (reads_field _ _ _ _ _ reads_user_counting Hu).
Qed.
Lemma app_load_typed {ST} `{Storage ST} `{SerdeJson} (st : ST) a :
  app_typed a → app_typed (app_load st a).
Proof.
  intros Ha. unfold app_load. destruct (get_string st (app_id a)) as [s|]; [|done].
  destruct (from_str s) as [p|] eqn:Hp; [|done]. case_decide; [|done].
  by apply (persisted_read_typed s).
Qed.

(** ** The results of a check *)

Section typed.
Context `{Client}.

(** The counts and the interval of the context, and the apps. *)
Definition machine_typed (s : StateMachine) : Prop :=
  context_valid (context s) ∧ Forall app_typed (get_apps (app_set s)).

Definition result_typed (r : CheckResult) : Prop :=
  match r with Ok (r, _) => Forall answer_typed (app_responses r) | Err _ => True end.

Lemma make_app_responses_typed r action :
  Response.response_typed r → Forall answer_typed (make_app_responses r action).
Proof.
  intros Hr. apply Forall_fmap, Forall_true. intros a. by apply user_counting_from_typed.
Qed.

Lemma installed_responses_typed u apps results rs es :
  user_counting_typed u → installed_responses u apps results = Ret (rs, es) → Forall answer_typed rs.
Proof.
  intros Hu. revert results rs es. induction apps as [|a apps IH]; intros results rs es; cbn.
  - by intros [= <- <-].
  - destruct (has_update a); [destruct results as [|r results]; [done|]|];
      (destruct (installed_responses u apps results) as [[rs' es']|] eqn:Hr; [|done]);
      [destruct r|]; intros [= <- <-]; constructor; eauto.
Qed.

(** Walks to the values a computation returns. *)
Ltac returns_step :=
  match goal with
  | |- returns _ (_ ≫= _) => apply returns_then; intros
  | |- returns _ (match ?x with _ => _ end) => destruct x
  | |- returns _ (mret (Err _)) => by apply returns_ret
  end.

Lemma returns_install params apps sid response plan :
  Response.response_typed response → returns result_typed (install params apps sid response plan).
Proof.
  intros Hr. unfold install. do 5 returns_step. apply returns_then. intros [progress [ir results]].
  do 4 returns_step. unfold conclude_installation.
  apply (returns_bind (λ x : list AppResponse * list installer_error, Forall answer_typed x.1)).
  { apply returns_lift. intros [rs es]. by apply installed_responses_typed, user_counting_from_typed. }
  intros [rs es] Hrs. repeat returns_step; by apply returns_ret.
Qed.

Lemma returns_perform params apps : returns result_typed (perform_update_check params apps).
Proof.
  unfold perform_update_check. do 4 returns_step. apply returns_then. intros [r n].
  repeat returns_step. unfold handle_reply, parse_omaha_response.
  destruct (Response.parse_json_response _) as [response|e] eqn:Hp; cbn [map_err]; [|repeat returns_step].
  apply Response.parse_json_response_typed in Hp. returns_step. destruct (apps_with_update response).
  - returns_step. by apply returns_ret, make_app_responses_typed.
  - unfold plan_and_install. do 2 returns_step. destruct (try_create_install_plan _ _ _ _ _ _).
    + apply returns_then. intros d. apply returns_then. intros _.
      destruct d; [by apply returns_install|..]; repeat returns_step;
        by apply returns_ret, make_app_responses_typed.
    + repeat returns_step.
Qed.
End typed.
