(* ===== verification/Examples.v ===== *)
(** * A client to run: every parameter of the development has a concrete value here

    The witnesses of the theorems about the state machine run this client: a mock HTTP client that
    answers from a queue, the memory storage, the stub installer and policies that answer as they
    are told, and a clock that advances by a second at every reading. *)

From S2P Require Import Prelude Serde Effects Time Version Protocol Storage Common UpdateCheck AppSet.
From S2P Require Import UriExt Http Cup RequestBuilder Metrics Installer Policy Machine Omaha Check.
From S2P Require Request Response.
Open Scope Z_scope.

(** The bodies the example server sends, and one that is no JSON. *)
Definition example_response_json (update_check : list (string * Json)) : Json := JObj [("response", JObj [
  ("protocol", JStr "3.0"); ("daystart", JObj [("elapsed_days", JNum 5000)]);
  ("app", JArr [JObj [("appid", JStr "app"); ("status", JStr "ok"); ("cohort", JStr "1:2:3");
     ("updatecheck", JObj update_check)]])])]%string.
Definition manifest_member : string * Json := ("manifest", JObj [
  ("version", JStr "2.0"); ("actions", JObj [("action", JArr [])]);
  ("packages", JObj [("package", JArr [])])])%string.
Definition example_body_of (j : Json) : bytes := unwrap_or (res_ok (@json_to_vec example_serde j)) [].
Definition body_no_update : bytes :=
  example_body_of (example_response_json [("status", JStr "noupdate")]%string).
Definition body_update : bytes :=
  example_body_of (example_response_json [("status", JStr "ok"); manifest_member]%string).
Definition body_garbage : bytes := [x00].

Definition example_crates : Crates := {|
  crate_uri := example_uri;
  crate_serde := example_serde;
  crate_http := example_http;
  crate_ecdsa := example_ecdsa [];
  crate_anyhow := unit : Anyhow;
  crate_uuid := example_uuid;
  crate_checks := true : OverflowChecks;
|}.

#[export] Existing Instance example_crates.
#[local] Existing Instance example_hex.
#[local] Existing Instance example_sha2.

(** A clock that advances by a second at every reading. *)
Record ExampleClock : Type := mkExampleClock { reading : ComplexTime }.
Definition tick (c : ExampleClock) : ExampleClock :=
  mkExampleClock (mkComplexTime (wall (reading c) + nanos_per_sec) (mono (reading c) + nanos_per_sec)).
#[export] Instance example_clock : TimeSource ExampleClock := {|
  now_in_walltime c := (wall (reading c), tick c);
  now_in_monotonic c := (mono (reading c), tick c);
  now c := (reading c, tick c);
|}.

(** A timer that keeps nothing, and a counter for the randomness. *)
#[export] Instance example_timer : Timer unit := {| wait_until tm _ := tm; wait_for tm _ := tm |}.
#[export] Instance example_entropy : Entropy Z := {|
  new_guid n := (Request.mkGUID n, n + 1);
  new_nonce n := (mkNonce [unwrap_or (Byte.of_nat (Z.to_nat n)) x00], n + 1);
  random_u64 n := (n mod 2 ^ 64, n + 1);
|}.
#[export] Instance example_entropy_spec : EntropySpec Z.
Proof. split. intros r. cbn. pose proof (Z.mod_pos_bound r (2 ^ 64)). range. Qed.

#[export] Instance example_metrics : MetricsReporter MockMetricsReporter := mock_report tt.

#[export] Instance example_client : Client := {|
  PE := MockPolicyEngine ExampleClock;
  TS := ExampleClock;
  HR := MockHttpRequest;
  IN := StubInstaller;
  IR := unit;
  PL := StubPlan;
  TM := unit;
  MR := MockMetricsReporter;
  ST := MemStorage;
  AS := VecAppSet;
  CH := StandardCupv2Handler;
  RNG := Z;
|}.

Definition example_time : ComplexTime := mkComplexTime (10 ^ 18) (10 ^ 12).
Definition example_app : App := app_new "app" (version_from [1; 2; 3; 4]).
Definition example_policy (d : UpdateDecision) (reboot_ok : bool) : MockPolicyEngine ExampleClock :=
  mkMockPolicyEngine (Some (mkCheckTiming (Complex example_time) None))
    (CheckOk (mkRequestParams Request.OnDemand true false false)) d (mkExampleClock example_time)
    reboot_ok true [].

(** A state machine with these responses to come, and this decision about the plan. *)
Definition example_machine (responses : list (result ExampleResp HttpRequestError))
    (d : UpdateDecision) : StateMachine :=
  mkStateMachine example_config (example_policy d true) (mkMockHttpRequest (H := example_http) [] responses)
    (mkStubInstaller false) tt (mkExampleClock example_time) mock_metrics_new mem_new
    (mkContext schedule_default protocol_state_default) (mkVecAppSet [example_app]) None 0.

Definition example_params : RequestParams := mkRequestParams Request.OnDemand true false false.
Definition ok_resp (b : bytes) : result ExampleResp (HttpRequestError (H := example_http)) :=
  Ok (mkExampleResp 200 [] b).
Definition failed_resp (status : Z) : result ExampleResp (HttpRequestError (H := example_http)) :=
  Ok (mkExampleResp status [] []).

(** A check that installs an update goes through every phase. *)
Definition updating_machine : StateMachine :=
  example_machine [ok_resp body_update; ok_resp []; ok_resp []; ok_resp []] UpdateOk.

(** Whether a run ends with the need of a reboot: a test to compute, and what it means. *)
Definition returns_needed (o : outcome RebootAfterUpdate) : bool :=
  match o with Ret (Needed _) => true | _ => false end.
Definition returns_not_needed (o : outcome RebootAfterUpdate) : bool :=
  match o with Ret NotNeeded => true | _ => false end.

Lemma returns_needed_spec o : returns_needed o = true → o = Ret (Needed (tt : IR)).
Proof. by destruct o as [[[]|]|]. Qed.
Lemma returns_not_needed_spec o : returns_not_needed o = true → o = Ret NotNeeded.
Proof. by destruct o as [[[]|]|]. Qed.
