(* ===== verification/Exchange.v ===== *)
(** * The client and the mock server, put together

    The server's answers are JSON that the code of the server writes by hand; the client reads them
    with the derived readers of its response types.  [served_app] is what the client makes of an
    answer: the theorem says that it does, and [handle_reply_served] what a check does with it. *)

From S2P Require Import Prelude Serde Effects Time Version Protocol Storage Common UpdateCheck AppSet.
From S2P Require Import UriExt Http Cup RequestBuilder Server Metrics Installer Policy Machine Omaha Check.
From S2P Require Request Response.
Open Scope Z_scope.

(** ** What the client reads *)

Definition served_cohort : Cohort :=
  mkCohort (Some "1:1:") (Some "integration-test") (Some "integration-test")%string.
Definition served_manifest (package : string) : Response.Manifest :=
  Response.mkManifest "0.1.2.3"
    (Response.mkActions [Response.mkAction (Some "install"%string) (Some package) ∅;
       Response.mkAction (Some "postinstall"%string) None ∅])
    (Response.mkPackages [Response.mkPackage package true None None None "2.0.1.2.3" ∅]).
Definition served_update (codebase package : string) (extra : gmap string Json) : Response.UpdateCheck :=
  Response.mkUpdateCheck Response.StatusOk None (Some (Response.urls_new [codebase]))
    (Some (served_manifest package)) extra.

(** The configured answer to an update check; the answer that is configured as invalid has no
    status, and cannot be read. *)
Definition served_update_check (expected : ResponseAndMetadata) : option Response.UpdateCheck :=
  match rm_response expected with
  | NoUpdate => Some Response.update_check_no_update
  | Update => Some (served_update (codebase expected) (package_name expected) ∅)
  | UrgentUpdate => Some (served_update (codebase expected) (package_name expected)
      {["_urgent_update"%string := JBool true]})
  | InvalidURL => Some (served_update "http://integration.test.fuchsia.com/" (package_name expected) ∅)
  | InvalidResponse => None
  end.

(** What is asked for an app: nothing but an event, or its configured answer. *)
Definition asked_update (responses : ResponseMap) (a : Request.App) : option ResponseAndMetadata :=
  match Request.update_check a with Some _ => responses !! Request.id a | None => None end.
Definition served_app (responses : ResponseMap) (a : Request.App) : option Response.App :=
  uc ← match asked_update responses a with
       | Some expected => Some <$> served_update_check expected
       | None => Some None
       end;
  Some (Response.mkApp (Request.id a) Response.StatusOk served_cohort None uc None ∅).
Definition served_response (l : list Response.App) : Response.Response :=
  Response.mkResponse "3.0" (Some "prod"%string)
    (Some (Response.mkDayStart (Some 4775) (Some 48810))) l.

(** Whether the server offers an update for an app of a request. *)
Definition offers_update (responses : ResponseMap) (a : Request.App) : bool :=
  match asked_update responses a with
  | Some expected =>
    match rm_response expected with Update | UrgentUpdate | InvalidURL => true | _ => false end
  | None => false
  end.
(** Whether the server is told to break its answer for an app. *)
Definition breaks (responses : ResponseMap) (a : Request.App) : bool :=
  match asked_update responses a with
  | Some expected => bool_decide (rm_response expected = InvalidResponse)
  | None => false
  end.

(** ** Lemmas *)

Lemma reads_app_answer responses a :
  Response.app_deserialize (app_answer responses a) =
  ok_or (served_app responses a) (MissingField "status").
Proof.
  unfold app_answer, served_app, asked_update.
  destruct (Request.update_check a) as [uc|]; [destruct (responses !! Request.id a) as [[[] ? ? ? ? ?]|]|];
    reflexivity.
Qed.

Lemma reads_answers responses l :
  @read_all _ Response.app_deserialize (app_answer responses <$> l) =
  ok_or (mapM (served_app responses) l) (MissingField "status").
Proof.
  induction l as [|a l IH]; [done|]. cbn [fmap list_fmap read_all mapM]. unfold deserialize.
  rewrite reads_app_answer, IH. destruct (served_app responses a); [|done].
  by destruct (mapM (served_app responses) l).
Qed.

Lemma reads_response_json responses l :
  Response.response_wrapper_deserialize (response_json (app_answer responses <$> l)) =
  ok_or (Response.mkResponseWrapper ∘ served_response <$> mapM (served_app responses) l)
    (MissingField "status").
Proof.
  unfold response_json. set (answers := JArr _).
  assert (field (@list_deserialize _ Response.app_deserialize) "app" [("app"%string, answers)] =
    ok_or (mapM (served_app responses) l) (MissingField "status")) as Ha.
  { unfold answers. erewrite field_once by reflexivity. apply reads_answers. }
  transitivity (let? w := (let? l := field (@list_deserialize _ Response.app_deserialize) "app"
      [("app"%string, answers)] in Ok (served_response l)) in Ok (Response.mkResponseWrapper w));
    [reflexivity|].
  rewrite Ha. by destruct (mapM (served_app responses) l).
Qed.

Lemma answers_json_wf responses l : Forall (json_wf 10%nat) (app_answer responses <$> l).
Proof.
  apply Forall_fmap, Forall_true. intros a. unfold compose, app_answer.
  destruct (Request.update_check a); [destruct (responses !! Request.id a) as [[[] ? ? ? ? ?]|]|];
    repeat constructor.
Qed.
Lemma response_json_wf responses l :
  json_wf recursion_limit (response_json (app_answer responses <$> l)).
Proof.
  apply (json_wf_le 13); [rewrite recursion_limit_S; lia|].
  constructor; [|done]. constructor; [apply answers_json_wf|].
  repeat (constructor; cbn [snd]); range.
Qed.

(** The body of the server is an object, so it has no safety prefix. *)
Lemma parse_served `{SerdeJsonLaws} responses l data :
  json_to_vec (response_json (app_answer responses <$> l)) = Ok data →
  Response.parse_json_response data =
    map_err serde_data_error
      (ok_or (served_response <$> mapM (served_app responses) l) (MissingField "status")).
Proof.
  intros Hdata. unfold Response.parse_json_response, Response.parse_safe_json.
  assert (Response.starts_with Response.safety_prefix data = false) as ->.
  { pose proof (json_to_vec_brace _ _ Hdata) as Hb. destruct data as [|b data]; [done|].
    injection Hb as ->. done. }
  unfold from_slice. rewrite (json_of_to_vec _ _ (response_json_wf responses l) Hdata). cbn [res_bind].
  unfold deserialize. rewrite reads_response_json. by destruct (mapM (served_app responses) l).
Qed.

Lemma served_app_breaks responses a : served_app responses a = None ↔ breaks responses a = true.
Proof.
  unfold served_app, breaks. destruct (asked_update responses a) as [[[] ? ? ? ? ?]|]; cbn; naive_solver.
Qed.
Lemma served_apps_break responses l :
  mapM (served_app responses) l = None ↔ existsb (breaks responses) l = true.
Proof.
  induction l as [|a l IH]; [done|]. cbn [mapM existsb]. rewrite orb_true_iff, <-IH, <-served_app_breaks.
  destruct (served_app responses a), (mapM (served_app responses) l); naive_solver.
Qed.

(** What the client takes from the answer for one app. *)
Lemma served_app_offer responses a x :
  served_app responses a = Some x →
  Response.id x = Request.id a ∧ has_update x = offers_update responses a ∧
  (offers_update responses a = true →
   ∃ expected uc, asked_update responses a = Some expected ∧ Response.update_check x = Some uc ∧
     Response.get_all_full_urls uc =
       [(if decide (rm_response expected = InvalidURL) then "http://integration.test.fuchsia.com/"%string
         else codebase expected) +:+ package_name expected]).
Proof.
  unfold served_app, offers_update. destruct (asked_update responses a) as [e|]; [|by intros [= <-]].
  destruct e as [[] ? ? ? ? ?]; try done; cbn; intros [= <-]; (split; [done|]; split; [done|]);
    intros Ho; try done; eexists _, _; (split; [done|]); (split; [reflexivity|]); reflexivity.
Qed.
Lemma served_apps_offers responses l xs :
  mapM (served_app responses) l = Some xs →
  Response.id <$> filter (λ x, has_update x = true) xs =
  Request.id <$> filter (λ a, offers_update responses a = true) l.
Proof.
  intros Hxs%mapM_Some. induction Hxs as [|a x l xs Hx _ IH]; [done|].
  apply served_app_offer in Hx as (Hid & Ho & _). rewrite !filter_cons. rewrite Ho.
  case_decide; [|done]. rewrite !fmap_cons. by rewrite IH, Hid.
Qed.

Lemma filter_nil_existsb {A} (f : A → bool) l : filter (λ x, f x = true) l = [] ↔ existsb f l = false.
Proof.
  induction l as [|a l IH]; [done|]. cbn [existsb]. rewrite filter_cons, orb_false_iff, <-IH.
  case_decide as Ha; [by rewrite Ha; split; [|intros []]|]. apply not_true_iff_false in Ha. naive_solver.
Qed.

Section check.
Context `{Client} `{!SerdeJsonLaws} `{!HexCrate} `{!Sha2Crate} `{!EcdsaSign} `{!UrlCrate} `{!HeaderCrate}.

(** What a check does with a reply of the server. *)
Lemma handle_reply_served responses asked params apps sid reply (s : StateMachine) :
  json_to_vec (response_json (app_answer responses <$> asked)) = Ok (data reply) →
  let check := handle_reply params apps sid reply in
  if existsb (breaks responses) asked then
    (∃ t, trace check s = Yield (StateChange ErrorCheckingForUpdate) :: t) ∧
    (∀ out, returned check s = Ret out →
       out = Err (ErrorResponseParser (ParseJson (serde_data_error (MissingField "status")))))
  else
    ∃ l, Response.id <$> l = Request.id <$> asked ∧
      Response.id <$> filter (λ x, has_update x = true) l =
        Request.id <$> filter (λ a, offers_update responses a = true) asked ∧
      if existsb (offers_update responses) asked then
        ∃ t, trace check s =
          Yield (OmahaServerResponse (served_response l)) ::
          PlanCreated (try_create_install_plan params (request_metadata reply) (served_response l)
            (data reply) (der_as_ref <$> signature reply) (installer s)) :: t
      else
        check s = (s, [Yield (OmahaServerResponse (served_response l));
                       Yield (StateChange NoUpdateAvailable)],
          Ret (Ok (UpdateCheck.mkResponse (make_app_responses (served_response l) ActionNoUpdate),
                   NotNeeded))).
Proof.
  intros Hd check. subst check. unfold handle_reply, parse_omaha_response.
  rewrite (parse_served _ _ _ Hd).
  pose proof (served_apps_break responses asked) as Hbreak.
  destruct (existsb (breaks responses) asked).
  { rewrite (proj2 Hbreak eq_refl). cbn [fmap option_fmap option_map ok_or map_err]. split.
    - eexists. apply trace_emit_bind.
    - intros out. revert s out. apply returns_then. intros _. apply returns_then. intros _.
      by apply returns_ret. }
  destruct (mapM (served_app responses) asked) as [l|] eqn:Hl;
    [|by specialize (proj1 Hbreak eq_refl)].
  exists l. pose proof (served_apps_offers _ _ _ Hl) as Hoff. apply mapM_Some in Hl.
  split; [|split; [exact Hoff|]].
  { clear -Hl. induction Hl as [|a x as' xs Hx _ IH]; [done|]. rewrite !fmap_cons, IH.
    by destruct (served_app_offer _ _ _ Hx) as [-> _]. }
  cbn [fmap option_fmap option_map ok_or map_err].
  assert (apps_with_update (served_response l) = [] ↔ existsb (offers_update responses) asked = false)
    as Hnone.
  { change (apps_with_update (served_response l)) with (filter (λ x, has_update x = true) l).
    rewrite <-filter_nil_existsb. apply (f_equal length) in Hoff. rewrite !length_fmap in Hoff.
    rewrite <-!length_zero_iff_nil, Hoff. done. }
  destruct (apps_with_update (served_response l)) as [|x xs] eqn:Hx.
  - by rewrite (proj1 Hnone eq_refl).
  - destruct (existsb _ _); [|by specialize (proj2 Hnone eq_refl)].
    unfold plan_and_install. eexists. etrans; [apply trace_emit_bind|]. f_equal.
    etrans; [apply trace_gets_bind|]. apply trace_emit_bind.
Qed.
End check.

(** ** Properties *)

(** C17: the client can read what the mock server sends.  Of the answer to a request whose extra
    fields are not named like members that the server reads, the client makes
    a response with one app for each app of the request, in order, with the id it asked about and
    the configured update check, whose manifest names the configured package: an update is offered
    exactly for the apps that are configured to have one, to be fetched from the configured codebase
    joined with the package (from another server's, when the URL is configured as wrong).  When an
    app that is asked about is configured as invalid, reading fails for want of the status. *)
Theorem client_reads_mock_server
    `{UriCrate, SerdeJson, !SerdeJsonLaws, HexCrate, Sha2Crate, EcdsaSign, UrlCrate, HeaderCrate,
      Request.UuidCrate} self uri body r rsp :
  json_to_vec (Request.request_wrapper_json (Request.mkRequestWrapper r)) = Ok body →
  Request.request_typed r →
  Forall plain_app (Request.apps r) →
  answer_request self uri body = Ret rsp →
  let responses := responses_by_appid self in
  if existsb (breaks responses) (Request.apps r) then
    Response.parse_json_response (response_body rsp) = Err (serde_data_error (MissingField "status"))
  else
    ∃ l, Response.parse_json_response (response_body rsp) = Ok (served_response l) ∧
      Forall2 (λ a x,
        served_app responses a = Some x ∧ Response.id x = Request.id a ∧
        has_update x = offers_update responses a ∧
        (offers_update responses a = true →
         ∃ expected uc, asked_update responses a = Some expected ∧
           Response.update_check x = Some uc ∧
           Response.get_all_full_urls uc =
             [(if decide (rm_response expected = InvalidURL)
               then "http://integration.test.fuchsia.com/"%string else codebase expected)
              +:+ package_name expected])) (Request.apps r) l.
Proof.
  intros Hbody Hty Hplain Hrsp responses.
  apply (answer_request_Ret _ _ _ _ _ Hbody Hty Hplain) in Hrsp as (_ & data & ind & Hd & _ & _ & _ & ->).
  cbn [response_body]. rewrite (parse_served _ _ _ Hd). fold responses.
  pose proof (served_apps_break responses (Request.apps r)) as Hbreak.
  destruct (existsb (breaks responses) (Request.apps r)).
  - by rewrite (proj2 Hbreak eq_refl).
  - destruct (mapM (served_app responses) (Request.apps r)) as [l|] eqn:Hl.
    2: { by specialize (proj1 Hbreak eq_refl). }
    exists l. split; [done|]. apply mapM_Some in Hl. eapply Forall2_impl; [exact Hl|].
    intros a x Hx. split; [done|]. by apply served_app_offer.
Qed.

From S2P Require Import Examples.

#[local] Existing Instance example_hex.
#[local] Existing Instance example_sha2.
#[local] Existing Instance example_url_crate.
#[local] Existing Instance example_serde_laws.
#[local] Instance example_header : HeaderCrate := λ _, true.
(** A signing key for the crates of the example client. *)
#[local] Instance example_client_sign : @EcdsaSign (example_ecdsa []) :=
  @Build_EcdsaSign (example_ecdsa []) Z (λ k, k) (λ k m, example_der (k, m)) (λ s, s).

(** A server without CUP that is configured with an urgent update for the app of the request, with
    no update, or with an answer that cannot be read. *)
Definition exchange_server (r : OmahaResponse) : OmahaServer :=
  mkOmahaServer {["app"%string := mkResponseAndMetadata r UpdatesEnabled (Some "1.2.3.4") None
      "fuchsia-pkg://example.com/" "update?hash=00"]}%string
    (mkPrivateKeys (mkPrivateKeyAndId 42 7) []) None false.
Definition exchange_answer (r : OmahaResponse) : bytes :=
  example_text (response_json [app_answer (responses_by_appid (exchange_server r)) example_request_app]).
Definition exchange_served (r : OmahaResponse) : ServerResponse :=
  mkServerResponse 200 (Z.of_nat (length (exchange_answer r))) None (exchange_answer r).

Lemma example_request_plain : Forall plain_app (Request.apps example_request).
Proof.
  repeat constructor. cbn. unfold read_members. rewrite !not_elem_of_cons.
  split_and!; [discriminate..|apply not_elem_of_nil].
Qed.
Lemma example_request_typed : Request.request_typed example_request.
Proof. by repeat constructor. Qed.

Lemma example_request_text :
  json_to_vec (Request.request_wrapper_json (Request.mkRequestWrapper example_request)) =
  Ok example_request_body.
Proof. reflexivity. Qed.

Lemma exchange_answers r :
  answer_request (exchange_server r) "/" example_request_body = Ret (exchange_served r).
Proof. destruct r; vm_compute; reflexivity. Qed.

Lemma client_reads_mock_server_witness :
  ∃ l, Response.parse_json_response (exchange_answer UrgentUpdate) = Ok (served_response l) ∧
    ∃ x uc, l = [x] ∧ Response.id x = "app"%string ∧ Response.update_check x = Some uc ∧
      Response.get_all_full_urls uc = ["fuchsia-pkg://example.com/update?hash=00"%string].
Proof.
  destruct (client_reads_mock_server (exchange_server UrgentUpdate) "/" example_request_body example_request
    (exchange_served UrgentUpdate) example_request_text example_request_typed example_request_plain
    (exchange_answers UrgentUpdate)) as (l & Hl & Hall).
  exists l. split; [exact Hl|]. inversion Hall as [|a x as' xs (_ & Hid & _ & Hx) Hnil]; subst.
  destruct (Hx eq_refl) as (e & uc & [= <-] & Huc & Hurls).
  inversion Hnil; subst. exists x, uc. by split_and!.
Defined.
