(* ===== verification/Trace.v ===== *)
(** * What an update check does, step by step

    The milestones of a check are the states it reports, the plan, the policy's decision, the
    installation, the question about the reboot and the result.  [check_path] lists every
    sequence of milestones a check can go through, with the result it ends in. *)

From S2P Require Import Prelude Effects Time Version Protocol Storage Common UpdateCheck AppSet.
From S2P Require Import UriExt Http Cup RequestBuilder Metrics Installer Policy Machine Omaha Check.
From S2P Require Request Response.
Open Scope Z_scope.

(** Solves a goal about a computation whose effects are none that are looked for. *)
Ltac quiet :=
  repeat (respects_step || apply silent_modify || apply silent_call ||
          (apply silent_emit; first [reflexivity|match goal with Hf : _ |- _ => by apply Hf end]) ||
          unfold yield_, yield_state, update_context, update_storage, commit_storage, write_storage,
            sm_now, sm_now_in_walltime, sm_now_in_monotonic, sm_wait_for, sm_wait_until, sm_new_guid,
            sm_new_nonce, sm_random_u64, update_apps).

Section trace.
Context `{Client}.

(** The effects that go with every request and are not milestones. *)
Definition is_background (e : Effect) : bool :=
  match e with
  | Reported _ | Requested _ | Committed | WaitFor _ | WaitUntil _
  | Yield (ProtocolStateChange _) | Yield (ScheduleChange _) | Yield (OmahaServerResponse _)
  | Yield (InstallProgressChange _) | Yield (InstallerError _) => true
  | _ => false
  end.
Class Background {X} (f : Effect → option X) : Prop :=
  background e : is_background e = true → f e = None.

Definition milestone (e : Effect) : option Effect := if is_background e then None else Some e.

(** The milestones of a check with its result. *)
Inductive check_path (src : Request.InstallSource) : CheckResult → list Effect → Prop :=
| path_request_error e :
    check_path src (Err (ErrorOmahaRequest e))
      [Yield (StateChange (CheckingForUpdates src)); Yield (StateChange ErrorCheckingForUpdate)]
| path_parse_error e :
    check_path src (Err (ErrorResponseParser e))
      [Yield (StateChange (CheckingForUpdates src)); Yield (StateChange ErrorCheckingForUpdate)]
| path_no_update r :
    Forall (λ a, response_result a = ActionNoUpdate) (app_responses r) →
    check_path src (Ok (r, NotNeeded))
      [Yield (StateChange (CheckingForUpdates src)); Yield (StateChange NoUpdateAvailable)]
| path_no_plan e :
    check_path src (Err (ErrorInstallPlan e))
      [Yield (StateChange (CheckingForUpdates src)); PlanCreated (Err e);
       Yield (StateChange InstallingUpdate); Yield (StateChange InstallationError)]
| path_deferred p r :
    Forall (λ a, response_result a = ActionDeferredByPolicy) (app_responses r) →
    check_path src (Ok (r, NotNeeded))
      [Yield (StateChange (CheckingForUpdates src)); PlanCreated (Ok p);
       StartDecision p UpdateDeferredByPolicy; Yield (StateChange InstallationDeferredByPolicy)]
| path_denied p r :
    Forall (λ a, response_result a = ActionDeniedByPolicy) (app_responses r) →
    check_path src (Ok (r, NotNeeded))
      [Yield (StateChange (CheckingForUpdates src)); PlanCreated (Ok p);
       StartDecision p UpdateDeniedByPolicy]
| path_install_failed p r :
    Exists (λ a, response_result a = ActionInstallPlanExecutionError) (app_responses r) →
    check_path src (Ok (r, NotNeeded))
      [Yield (StateChange (CheckingForUpdates src)); PlanCreated (Ok p); StartDecision p UpdateOk;
       Yield (StateChange InstallingUpdate); InstallStarted p;
       Yield (StateChange InstallationError)]
| path_installed p r (needed : bool) ir :
    Forall (λ a, response_result a ≠ ActionInstallPlanExecutionError) (app_responses r) →
    check_path src (Ok (r, if needed then Needed ir else NotNeeded))
      [Yield (StateChange (CheckingForUpdates src)); PlanCreated (Ok p); StartDecision p UpdateOk;
       Yield (StateChange InstallingUpdate); InstallStarted p; RebootNeededAnswer p needed].

(** Every installation that starts was planned and allowed just before. *)
Definition authorised (l : list Effect) : Prop :=
  ∀ l1 p l2, l = l1 ++ InstallStarted p :: l2 →
  ∃ l0, l1 = l0 ++ [PlanCreated (Ok p); StartDecision p UpdateOk; Yield (StateChange InstallingUpdate)].

(** The states that can follow a state. *)
Definition next_state (a b : State) : bool :=
  match a, b with
  | Idle, CheckingForUpdates _ => true
  | CheckingForUpdates _, (ErrorCheckingForUpdate | NoUpdateAvailable | InstallingUpdate
      | InstallationDeferredByPolicy | Idle) => true
  | InstallingUpdate, (InstallationError | WaitingForReboot | Idle) => true
  | (ErrorCheckingForUpdate | NoUpdateAvailable | InstallationDeferredByPolicy | InstallationError
      | WaitingForReboot), Idle => true
  | _, _ => false
  end.
Fixpoint states_ok (prev : State) (l : list State) : bool :=
  match l with [] => true | s :: l' => next_state prev s && states_ok s l' end.
(** The states that are reported. *)
Definition state_of (e : Effect) : option State :=
  match e with Yield (StateChange s) => Some s | _ => None end.
Definition states_of (l : list Effect) : list State := omap state_of l.

(** The last of the reported states; before any the state is [Idle]. *)
Definition last_of (l : list State) : State := unwrap_or (last l) Idle.

(** Where a check leaves the state, by its outcome. *)
Definition check_states (o : outcome RebootAfterUpdate) (l : list State) : Prop :=
  states_ok Idle l = true ∧
  match o with
  | Ret NotNeeded => next_state (last_of l) Idle = true
  | Ret (Needed _) => next_state (last_of l) WaitingForReboot = true
  | Panic _ => True
  end.

(** Milestones of a check, as far as it got. *)
Definition sound (l : list Effect) : Prop := authorised l ∧ states_ok Idle (states_of l) = true.

(** A computation that goes on from the milestones [pre] ends as a check may. *)
Definition good (src : Request.InstallSource) (o : outcome CheckResult) (l : list Effect) : Prop :=
  sound l ∧ ∀ r, o = Ret r → check_path src r l.
Definition path_from (src : Request.InstallSource) (pre : list Effect) (m : SM CheckResult) : Prop :=
  observes milestone m (λ o l, good src o (pre ++ l)).

(** ** Lemmas *)

#[export] Instance milestone_background : Background milestone.
Proof. intros e He. unfold milestone. by rewrite He. Qed.

Section background.
Context {X : Type} (f : Effect → option X) `{!Background f}.

Lemma silent_background e : is_background e = true → respects (silent_rel (S := StateMachine) f) (emit e).
Proof. intros He. by apply silent_emit, background. Qed.

Lemma silent_report_metrics m : silent f (report_metrics m).
Proof. unfold report_metrics. quiet. Qed.
Hint Resolve silent_report_metrics : respects.

Lemma silent_persist_data : silent f persist_data.
Proof. unfold persist_data. quiet. Qed.
Hint Resolve silent_persist_data : respects.

Lemma silent_do_omaha b : silent f (do_omaha_request_and_update_context b).
Proof. unfold do_omaha_request_and_update_context, send_request, accept_response, make_request. quiet. Qed.
Hint Resolve silent_do_omaha : respects.

Lemma silent_report_event params event apps sid nv d :
  silent f (report_omaha_event_and_update_context params event apps sid nv d).
Proof. unfold report_omaha_event_and_update_context. quiet. Qed.
Hint Resolve silent_report_event : respects.

Lemma silent_ping : silent f ping_omaha.
Proof. unfold ping_omaha, ping_failed. quiet. Qed.

Lemma silent_update_next_update_time : silent f update_next_update_time.
Proof. unfold update_next_update_time. quiet. Qed.
Lemma silent_make_wait t : silent f (make_wait_to_next_check t).
Proof. unfold make_wait_to_next_check. quiet. Qed.

Lemma silent_record_first_seen i t : silent f (record_update_first_seen_time i t).
Proof. unfold record_update_first_seen_time. quiet. Qed.
Lemma silent_report_check_interval src : silent f (report_check_interval src).
Proof. unfold report_check_interval. quiet. Qed.
Lemma silent_report_response_time t b : silent f (report_response_time t b).
Proof. unfold report_response_time. quiet. Qed.
Lemma silent_backoff n : silent f (backoff n).
Proof. unfold backoff. quiet. Qed.
Lemma silent_report_install_duration t t' b : silent f (report_install_duration t t' b).
Proof. unfold report_install_duration. quiet. Qed.
Lemma silent_record_update_finished nv t : silent f (record_update_finished nv t).
Proof. unfold record_update_finished. quiet. Qed.
Lemma silent_report_installation params apps sid wu rs d :
  silent f (report_installation params apps sid wu rs d).
Proof. unfold report_installation. quiet. Qed.
Lemma silent_check_succeeded r : silent f (check_succeeded r).
Proof.
  unfold check_succeeded, report_attempts_to_successful_check,
    report_attempts_to_successful_install. quiet.
Qed.
Lemma silent_check_failed e : silent f (check_failed e).
Proof. unfold check_failed, report_attempts_to_successful_check. quiet. Qed.
End background.

#[local] Hint Resolve milestone_background silent_report_metrics silent_persist_data silent_do_omaha silent_report_event
  silent_record_first_seen silent_report_check_interval silent_report_response_time silent_backoff
  silent_report_install_duration silent_record_update_finished silent_report_installation
  silent_check_succeeded silent_check_failed : respects.

(** *** Rules for [path_from] *)

Section path.
Context (src : Request.InstallSource).

Lemma path_silent {A} pre (m : SM A) (k : A → SM CheckResult) :
  silent milestone m → sound pre → (∀ a, path_from src pre (k a)) →
  path_from src pre (m ≫= k).
Proof.
  intros Hm Hpre Hk. apply observes_bind_silent; [done..|]. intros msg. rewrite app_nil_r. by split.
Qed.

Lemma path_emit pre e (k : unit → SM CheckResult) :
  is_background e = false → path_from src (pre ++ [e]) (k tt) → path_from src pre (emit e ≫= k).
Proof.
  intros He Hk. apply (observes_bind_emit _ _ e); [unfold milestone; by rewrite He|].
  eapply observes_mono; [exact Hk|]. intros o l. cbn beta. by rewrite <-app_assoc.
Qed.

Lemma path_ret pre r : sound pre → check_path src r pre → path_from src pre (mret r).
Proof. intros Hp Hr. apply observes_ret. rewrite app_nil_r. split; [done|]. by intros ? [= <-]. Qed.

Lemma path_lift {A} pre (o : outcome A) (k : A → SM CheckResult) :
  sound pre → (∀ a, o = Ret a → path_from src pre (k a)) → path_from src pre (lift o ≫= k).
Proof.
  intros Hpre Hk. eapply (observes_bind _ _ _ (λ o' l, o' = o ∧ l = [])).
  - by apply observes_lift.
  - intros a l [<- ->]. by apply Hk.
  - intros msg l [_ ->]. rewrite app_nil_r. by split.
Qed.
End path.

(** A short concrete list of milestones is sound. *)
Ltac authorise :=
  split; [|reflexivity];
  intros ll1 pp ll2 Heq; cbn in Heq;
  repeat (destruct ll1 as [|? ll1]; simplify_eq/=; try (by eexists []); try (by eexists [_])).

(** Walks through a computation, up to its end. *)
Ltac path :=
  repeat match goal with
  | |- path_from _ _ ((_ ≫= _) ≫= _) => fail
  | |- path_from _ _ (emit _ ≫= _) => apply path_emit; [done|]
  | |- path_from _ _ (yield_state _ ≫= _) => apply path_emit; [done|]
  | |- path_from _ _ (lift _ ≫= _) => apply path_lift; [authorise|intros]
  | |- path_from _ _ (_ ≫= _) => apply path_silent;
      [solve [repeat (respects_step || apply silent_modify || apply silent_call ||
                      (apply silent_background; [apply _|reflexivity]))]
      |authorise|intros]
  end.

(** What the answers say when they come from the results of an installation. *)
Lemma installed_responses_errors uc apps results rs errs :
  installed_responses uc apps results = Ret (rs, errs) →
  match errs with
  | [] => Forall (λ a, response_result a ≠ ActionInstallPlanExecutionError) rs
  | _ :: _ => Exists (λ a, response_result a = ActionInstallPlanExecutionError) rs
  end.
Proof.
  revert results rs errs. induction apps as [|a apps IH]; intros results rs errs; cbn.
  { by intros [= <- <-]. }
  destruct (has_update a).
  - destruct results as [|r results]; [done|].
    destruct (installed_responses uc apps results) as [[rs' errs']|] eqn:E; [|done]. cbn.
    apply IH in E. destruct r, errs'; intros [= <- <-]; cbn; eauto using Exists_cons_tl, Exists_cons_hd.
  - destruct (installed_responses uc apps results) as [[rs' errs']|] eqn:E; [|done]. cbn.
    apply IH in E. destruct errs'; intros [= <- <-]; cbn; eauto using Exists_cons_tl.
Qed.

Lemma silent_for_each {A} (f : A → SM unit) l :
  (∀ a, silent milestone (f a)) → silent milestone (for_each f l).
Proof. intros. apply respects_for_each; [apply _|done]. Qed.

Lemma path_conclude src p ir response results first_seen finish :
  path_from src [Yield (StateChange (CheckingForUpdates src)); PlanCreated (Ok p);
      StartDecision p UpdateOk; Yield (StateChange InstallingUpdate); InstallStarted p]
    (conclude_installation p ir response results first_seen finish).
Proof.
  unfold conclude_installation. apply path_lift; [authorise|].
  intros [rs errs] Hrs. apply installed_responses_errors in Hrs. destruct errs as [|e errs].
  - path. apply path_ret; [authorise|]. by constructor.
  - apply path_silent; [|authorise|].
    { apply silent_for_each. intros a. apply silent_background; [apply _|done]. }
    intros _. apply path_emit; [done|]. apply path_ret; [authorise|]. by constructor.
Qed.

Lemma path_install src p params apps sid response :
  path_from src [Yield (StateChange (CheckingForUpdates src)); PlanCreated (Ok p);
      StartDecision p UpdateOk]
    (install params apps sid response p).
Proof.
  unfold install. path. destruct a2 as [progress [ir results]]. path. apply path_conclude.
Qed.

Lemma make_not_updated_all response action :
  Forall (λ a, response_result a = action) (make_app_responses response action).
Proof. apply Forall_fmap, Forall_true. done. Qed.

Lemma path_plan_and_install src params apps sid reply response :
  path_from src [Yield (StateChange (CheckingForUpdates src))]
    (plan_and_install params apps sid reply response).
Proof.
  unfold plan_and_install. path. destruct (try_create_install_plan _ _ _ _ _ _) as [p|e].
  - apply path_silent; [apply silent_call|authorise|]. intros d.
    apply path_emit; [done|]. destruct d.
    + apply path_install.
    + path. apply path_ret; [authorise|]. constructor. apply make_not_updated_all.
    + path. apply path_ret; [authorise|]. constructor. apply make_not_updated_all.
  - path. apply path_ret; [authorise|]. constructor.
Qed.

Lemma path_handle_reply src params apps sid reply :
  path_from src [Yield (StateChange (CheckingForUpdates src))]
    (handle_reply params apps sid reply).
Proof.
  unfold handle_reply. destruct (parse_omaha_response _) as [response|e].
  - apply path_silent; [apply silent_background; [apply _|done]|authorise|]. intros _.
    destruct (apps_with_update response).
    + path. apply path_ret; [authorise|]. constructor. apply make_not_updated_all.
    + apply path_plan_and_install.
  - path. apply path_ret; [authorise|]. constructor.
Qed.

(** The loop ends without a milestone, or with the error state. *)
Lemma request_loop_milestones fuel n b :
  observes milestone (request_loop fuel n b) (λ o l,
    match o with
    | Ret (Err e, _) =>
      l = [Yield (StateChange ErrorCheckingForUpdate)] ∧ ∃ e', e = ErrorOmahaRequest e'
    | _ => l = []
    end).
Proof.
  revert n b. induction fuel as [|fuel IH]; intros n b; [by apply observes_lift|].
  cbn. apply observes_bind_silent; [apply silent_call| |done]. intros t.
  apply observes_bind_silent; [apply silent_call| |done]. intros g.
  apply observes_bind_silent; [auto with respects| |done]. intros r.
  apply observes_bind_silent; [auto with respects| |done]. intros _.
  apply observes_bind_silent; [apply respects_gets; apply _| |done]. intros ctx.
  destruct r as [res|e]; [by apply observes_ret|]. destruct (retries n ctx e).
  - apply observes_bind_silent; [auto with respects| |done]. intros _. apply IH.
  - apply (observes_bind_emit _ _ (Yield (StateChange ErrorCheckingForUpdate))); [done|].
    apply observes_ret. eauto.
Qed.

Lemma path_perform params apps :
  path_from (params_source params) [] (perform_update_check params apps).
Proof.
  unfold perform_update_check. path.
  eapply (observes_bind _ _ _ _ _ (request_loop_milestones _ _ _)).
  - intros [[reply|e] n] l Hl.
    + subst l. apply path_silent; [auto with respects|authorise|].
      intros _. apply path_handle_reply.
    + destruct Hl as [-> [e' ->]]. apply observes_bind_silent; [auto with respects| |].
      * intros _. apply observes_ret. split; [authorise|]. intros r [= <-]. constructor.
      * intros msg. split; [authorise|done].
  - intros msg l ->. split; [authorise|done].
Qed.

(** A silent computation that ends in a given value. *)
Lemma silent_then_ret {A} (m : SM unit) (a : A) :
  silent milestone m →
  observes milestone (m;; mret a) (λ o l, l = [] ∧ ∀ a', o = Ret a' → a' = a).
Proof.
  intros Hm. apply observes_bind_silent; [done| |done]. intros _. apply observes_ret. naive_solver.
Qed.

(** The end of [start_update_check] reports the result and returns. *)
Lemma start_tail_milestones r (reboot : RebootAfterUpdate) :
  observes milestone
    (ctx ← gets context;
     yield_ (ScheduleChange (schedule ctx));;
     yield_ (ProtocolStateChange (state ctx));;
     yield_ (UpdateCheckResult r);;
     persist_data;;
     mret reboot : SM RebootAfterUpdate)
    (λ o l, ∀ reboot', o = Ret reboot' → reboot' = reboot ∧ l = [Yield (UpdateCheckResult r)]).
Proof.
  apply observes_bind_silent; [apply respects_gets; apply _| |done]. intros ctx.
  apply observes_bind_silent; [by apply silent_background; [apply _|]| |done]. intros _.
  apply observes_bind_silent; [by apply silent_background; [apply _|]| |done]. intros _.
  apply (observes_bind_emit _ _ (Yield (UpdateCheckResult r))); [done|].
  apply observes_bind_silent; [auto with respects| |done]. intros _.
  apply observes_ret. by intros ? [= <-].
Qed.

(** *** The states of a whole check *)

#[export] Instance state_of_background : Background state_of.
Proof. intros [[]| | | | | | | | | | | |]; done. Qed.

Lemma observed_states t : observed state_of t = states_of (observed milestone t).
Proof.
  unfold observed, states_of. induction t as [|e t IH]; [done|].
  destruct e as [[]| | | | | | | | | | | |]; cbn; rewrite IH; done.
Qed.

Lemma check_path_states src r l :
  check_path src r l →
  check_states (Ret match r with Ok r => r.2 | Err _ => NotNeeded end) (states_of l).
Proof. intros [| | | | | | |? ? []]; split; done. Qed.

Lemma start_states params :
  observes state_of (start_update_check params) check_states.
Proof.
  unfold start_update_check.
  apply observes_bind_silent; [apply respects_gets; apply _| |by intros; split]. intros apps.
  eapply (observes_bind _ _ _ (λ o l, states_ok Idle l = true ∧ ∀ r, o = Ret r →
    check_states (Ret match r with Ok r => r.2 | Err _ => NotNeeded end) l)).
  { intros s. destruct (path_perform params apps s) as [[_ Hs] Hr]. rewrite observed_states.
    split; [exact Hs|]. intros r Hret. by eapply check_path_states, Hr. }
  2: { by intros msg l [Hs _]. }
  intros r l [Hs Hr]. specialize (Hr r eq_refl).
  eapply (observes_bind _ _ _ (λ o l, l = [] ∧ ∀ a, o = Ret a → a.2 =
      match r with Ok r => r.2 | Err _ => NotNeeded end)).
  - destruct r as [[r rb]|e]; (apply observes_bind_silent;
      [eauto using silent_check_succeeded, silent_check_failed, state_of_background
      |intros _; apply observes_ret; naive_solver|done]).
  - intros [r' rb] l' [-> Ha]. specialize (Ha _ eq_refl). cbn in Ha. subst rb.
    repeat (apply observes_bind_silent;
      [first [apply respects_gets; apply _|apply silent_emit; reflexivity
             |eauto using silent_persist_data, state_of_background]
      |intros|intros msg; rewrite app_nil_r; split; [exact Hs|done]]).
    apply observes_ret. by rewrite app_nil_r.
  - intros msg l' [-> _]. rewrite app_nil_r. done.
Qed.

(** ** Properties *)

(** C3: whatever the server, the policy and the installer answer, the milestones of a completed
    update check are one of the paths of [check_path] for its result, followed by the report of
    this very result; a reboot is asked for only at the end of an installation without failures
    for which the policy said a reboot is needed. *)
Theorem update_check_follows_path params s reboot :
  returned (start_update_check params) s = Ret reboot →
  ∃ r l, check_path (params_source params) r l ∧
    observed milestone (trace (start_update_check params) s) =
      l ++ [Yield (UpdateCheckResult match r with Ok r => Ok r.1 | Err e => Err e end)] ∧
    reboot = match r with Ok r => r.2 | Err _ => NotNeeded end.
Proof.
  revert s. assert (observes milestone (start_update_check params) (λ o l, ∀ reboot, o = Ret reboot →
    ∃ r l', check_path (params_source params) r l' ∧
      l = l' ++ [Yield (UpdateCheckResult match r with Ok r => Ok r.1 | Err e => Err e end)] ∧
      reboot = match r with Ok r => r.2 | Err _ => NotNeeded end)) as Hobs; [|intros s; apply Hobs].
  unfold start_update_check.
  apply observes_bind_silent; [apply respects_gets; apply _| |done]. intros apps.
  eapply (observes_bind _ _ _ _ _ (path_perform params apps)); [|done].
  intros r l [_ Hr]. specialize (Hr r eq_refl). cbn in Hr.
  eapply (observes_bind _ _ _ (λ o l, l = [] ∧ ∀ a, o = Ret a → a =
      match r with Ok r => (Ok r.1, r.2) | Err e => (Err e, NotNeeded) end)).
  - destruct r as [[r rb]|e]; apply silent_then_ret; auto with respects.
  - intros [r' rb] l' [-> Ha]. specialize (Ha _ eq_refl).
    eapply observes_mono; [apply start_tail_milestones|].
    intros o l'' Ho rb' ->. destruct (Ho rb' eq_refl) as [-> ->].
    exists r, l. destruct r as [[r0 rb0]|e]; injection Ha as -> ->; done.
  - done.
Qed.

(** C4: an installation starts only when the installer made this plan from the response and the
    policy answered that this plan can start, just before, in every run, one that panics too. *)
Theorem install_is_authorised params apps s :
  authorised (observed milestone (trace (perform_update_check params apps) s)).
Proof. apply (path_perform params apps s). Qed.
End trace.

From S2P Require Import Examples.

Lemma update_check_follows_path_witness :
  returned (start_update_check example_params) updating_machine = Ret (Needed tt) ∧
  ∃ r l, check_path (params_source example_params) r l ∧
    observed milestone (trace (start_update_check example_params) updating_machine) =
      l ++ [Yield (UpdateCheckResult match r with Ok r => Ok r.1 | Err e => Err e end)] ∧
    Needed tt = match r with Ok r => r.2 | Err _ => NotNeeded end.
Proof.
  assert (returned (start_update_check example_params) updating_machine = Ret (Needed tt)) as Hr
    by (apply returns_needed_spec; vm_compute; reflexivity).
  exact (conj Hr (update_check_follows_path example_params updating_machine (Needed tt) Hr)).
Defined.
