(* ===== verification/Requests.v ===== *)
(** * What requests do to the state machine

    One request changes the context only through a response that passed the CUP verification;
    the loop of a check makes at most three requests, and waits between them. *)

From S2P Require Import Prelude Effects Time Version Protocol Storage Common UpdateCheck AppSet.
From S2P Require Import UriExt Http Cup RequestBuilder Metrics Installer Policy Machine Omaha Check.
From S2P Require Request Response.
Open Scope Z_scope.

Section requests.
Context `{Client}.

(** The requests to the server and the waits between them. *)
Definition net (e : Effect) : option (HttpReq + Duration) :=
  match e with Requested r => Some (inl r) | WaitFor d => Some (inr d) | _ => None end.

(** The wait after attempt [k]: [2 ^ (k - 1)] seconds, half a second more or less. *)
Definition backoff_ok (k : Z) (d : Duration) : Prop :=
  from_millis (2 ^ (k - 1) * 1000 - 500) ≤ d < from_millis (2 ^ (k - 1) * 1000 + 500).

Definition requests_of (l : list (HttpReq + Duration)) : list HttpReq :=
  omap (λ x, match x with inl r => Some r | inr _ => None end) l.
Definition waits_of (l : list (HttpReq + Duration)) : list Duration :=
  omap (λ x, match x with inl _ => None | inr d => Some d end) l.

(** The whole effect of one request: either an error before anything but the request itself, or a
    response that passed the verification. *)
Definition rejected (s : StateMachine) (r : result Reply OmahaRequestError) (s' : StateMachine)
    (t : list Effect) : Prop :=
  context s' = context s ∧ storage_ref s' = storage_ref s ∧ app_set s' = app_set s ∧
  (t = [] ∨ ∃ req, t = [Requested req]) ∧ ∃ e, r = Err e ∧ ∀ st, e ≠ ReqHttpStatus st.
Definition verified (handler : option CH) (md : option RequestMetadata) (resp : HttpResp)
    (sig : option DerSignature) : Prop :=
  match handler with
  | Some h => ∃ m g, md = Some m ∧ sig = Some g ∧ verify_response h m resp (public_key_id m) = Ok g
  | None => md = None ∧ sig = None
  end.
Definition accepted (b : RequestBuilder) (s : StateMachine) (r : result Reply OmahaRequestError)
    (s' : StateMachine) (t : list Effect) : Prop :=
  ∃ nonce req md resp sig,
    build (cup_handler s) nonce b = Ok (req, md) ∧ (http_request req (http s)).1 = Ok resp ∧
    verified (cup_handler s) md resp sig ∧
    r = (if is_success (resp_status resp) then Ok (mkReply resp (resp_body resp) md sig)
         else Err (ReqHttpStatus (resp_status resp))) ∧
    context s' = set_poll_interval (dictated_poll_interval resp) (context s) ∧
    app_set s' = app_set s ∧
    if decide (server_dictated_poll_interval (state (context s)) = dictated_poll_interval resp)
    then storage_ref s' = storage_ref s ∧ t = [Requested req]
    else storage_ref s' = commit_or_log (context_persist (context s') (storage_ref s)) ∧
      t = [Requested req; Yield (ProtocolStateChange (state (context s'))); Committed].

(** ** Lemmas *)

Lemma set_poll_interval_same c : set_poll_interval (server_dictated_poll_interval (state c)) c = c.
Proof. by destruct c as [? []]. Qed.

(** What accepting a response does. *)
Lemma wp_accept_response md resp sig s :
  wp (accept_response md resp sig) (λ o s' t,
    o = Ret (if is_success (resp_status resp) then Ok (mkReply resp (resp_body resp) md sig)
             else Err (ReqHttpStatus (resp_status resp))) ∧
    context s' = set_poll_interval (dictated_poll_interval resp) (context s) ∧
    app_set s' = app_set s ∧
    if decide (server_dictated_poll_interval (state (context s)) = dictated_poll_interval resp)
    then storage_ref s' = storage_ref s ∧ t = []
    else storage_ref s' = commit_or_log (context_persist (context s') (storage_ref s)) ∧
      t = [Yield (ProtocolStateChange (state (context s'))); Committed]) s.
Proof.
  unfold accept_response. wp_step. wp_step. case_decide as E.
  - wp_step. wp_step. rewrite <-E, set_poll_interval_same. destruct (is_success _); by wp_step.
  - unfold wp. cbn. by destruct (is_success _).
Qed.

Lemma omaha_error_not_status e st : omaha_request_error_from e ≠ ReqHttpStatus st.
Proof. by destruct e. Qed.

Lemma build_metadata handler nonce b req md :
  build handler nonce b = Ok (req, md) → opt_is_some md = opt_is_some handler.
Proof.
  unfold build, build_intermediate. destruct handler as [h|].
  - destruct (decorate_request h nonce _) as [[m|e] i]; [|done]. cbn.
    by destruct (http_request_from i) as [r|e]; [intros [= <- <-]|].
  - cbn. by destruct (http_request_from _) as [r|e]; [intros [= <- <-]|].
Qed.

(** The verification step, for the metadata a request is built with. *)
Lemma verify_step_verified handler md resp sig :
  opt_is_some md = opt_is_some handler → verify_step handler md resp = Ok sig →
  verified handler md resp sig.
Proof.
  unfold verify_step, verified. destruct handler as [h|], md as [m|]; try done; intros _; cbn.
  - destruct (verify_response h m resp (public_key_id m)) as [g|e] eqn:E; [|done].
    intros [= <-]. by exists m, g.
  - by intros [= <-].
Qed.

Lemma wp_send_request nonce b s :
  wp (send_request (cup_handler s) nonce b)
    (λ o s' t, ∃ r, o = Ret r ∧ (rejected s r s' t ∨ accepted b s r s' t)) s.
Proof.
  unfold send_request, try_bind. wp_step. wp_step.
  destruct (build (cup_handler s) nonce b) as [[req md]|e] eqn:Hb; cbn [map_err].
  2: { wp_step. eexists. split; [done|]. left. split_and!; auto.
       eexists. split; [done|]. intros st. apply omaha_error_not_status. }
  wp_step. wp_step. unfold make_request. wp_step. wp_step. wp_step. wp_step.
  destruct (http_request req (http s)) as [[resp|e] h'] eqn:Hh; cbn [fst snd map_err].
  2: { wp_step. cbn. eexists. split; [done|]. left. split_and!; eauto. }
  wp_step. wp_step.
  destruct (verify_step (cup_handler s) md resp) as [sig|e] eqn:Hv.
  - eapply wp_mono; [|apply wp_accept_response]. intros o s' t (-> & Hc & Ha & Ht).
    eexists. split; [done|]. right. exists nonce, req, md, resp, sig.
    split_and!; try done; [by rewrite Hh|by eapply verify_step_verified, Hv; eapply build_metadata|].
    cbn in Ht.
    case_decide; destruct Ht as [-> ->]; done.
  - wp_step. eexists. split; [done|]. left. split_and!; eauto.
    eexists. split; [done|]. intros st ->. revert Hv. unfold verify_step.
    destruct (cup_handler s), md; try done. by destruct (verify_response _ _ _ _).
Qed.

Lemma wp_do_omaha b s :
  wp (do_omaha_request_and_update_context b)
    (λ o s' t, ∃ r, o = Ret r ∧ (rejected s r s' t ∨ accepted b s r s' t)) s.
Proof.
  unfold do_omaha_request_and_update_context, sm_new_nonce. wp_step. wp_step. wp_step.
  destruct (cup_handler s) as [h|] eqn:Hh; wp_step.
  - set (s1 := set_entropy _ s). pose proof (wp_send_request (new_nonce (entropy s)).1 b s1) as Hw.
    cbn [cup_handler s1 set_entropy] in Hw. rewrite Hh in Hw.
    eapply wp_mono; [|exact Hw]. intros o s' t. cbn. unfold rejected, accepted. cbn. by rewrite Hh.
  - pose proof (wp_send_request (mkNonce []) b s) as Hw. rewrite Hh in Hw. exact Hw.
Qed.

Lemma retry_after_bound resp :
  match dictated_poll_interval resp with
  | Some d => 0 ≤ d ≤ from_secs 86400
  | None => True
  end.
Proof.
  unfold dictated_poll_interval. destruct (headers_get resp X_RETRY_AFTER) as [h|]; [|done]. cbn.
  destruct (header_to_str h) as [s|e]; [|done]. cbn.
  destruct (parse_uint u64_max s) as [n|] eqn:Hn; [|done]. cbn.
  apply parse_uint_bound in Hn; [|range]. unfold from_secs, nanos_per_sec. range.
Qed.

Lemma total_do_omaha b : total (do_omaha_request_and_update_context b).
Proof.
  intros s. pose proof (wp_do_omaha b s) as Hw. apply wp_run in Hw. destruct Hw as (r & Hr & _). eauto.
Qed.

(** *** The request loop *)

Lemma net_rejected s r s' t :
  rejected s r s' t → ∃ l, observed net t = l ∧ waits_of l = [] ∧ (length (requests_of l) ≤ 1)%nat.
Proof. intros (_ & _ & _ & [->|[req ->]] & _); eexists; (split; [done|]); cbn; auto. Qed.
Lemma net_accepted b s r s' t :
  accepted b s r s' t → ∃ l, observed net t = l ∧ waits_of l = [] ∧ (length (requests_of l) ≤ 1)%nat.
Proof.
  intros (nonce & req & md & resp & sig & _ & _ & _ & _ & _ & _ & Ht).
  case_decide; destruct Ht as [_ ->]; eexists; (split; [done|]); cbn; auto.
Qed.

Lemma total_report_metrics m : total (report_metrics m).
Proof. unfold report_metrics. repeat total_step. Qed.
Lemma total_report_response_time t b : total (report_response_time t b).
Proof. unfold report_response_time, report_metrics, sm_now_in_monotonic. repeat total_step. Qed.
Lemma respects_report_response_time t b :
  respects (both (silent_rel net) (keeps context)) (report_response_time t b).
Proof.
  unfold report_response_time, report_metrics, sm_now_in_monotonic.
  repeat (respects_step || (apply respects_call; done) || (apply respects_emit; done)).
Qed.

(** In [randomize n range], no operation overflows when the interval is within [u64]. *)
Lemma randomize_in n range r :
  0 < range → range / 2 ≤ n → n + range ≤ u64_max → in_u64 r →
  ∃ v, randomize n range r = Ret v ∧ n - range / 2 ≤ v < n - range / 2 + range.
Proof.
  intros Hr Hn Hmax Hin. unfold randomize. pose proof (Z.div_pos range 2).
  pose proof (Z.div_lt range 2). pose proof (Z.mod_pos_bound r range Hr).
  rewrite sub_u64_exact by range. cbn. rewrite decide_False by lia. cbn.
  rewrite add_u64_exact by range. eexists. split; [done|]. lia.
Qed.

Lemma wp_backoff `{!EntropySpec RNG} k s :
  1 ≤ k ≤ 3 →
  wp (backoff k) (λ o s' t, o = Ret tt ∧ ∃ d, observed net t = [inr d] ∧ backoff_ok k d) s.
Proof.
  intros Hk. unfold backoff, sm_random_u64, sm_wait_for. wp_step. wp_step.
  pose proof (random_u64_range (entropy s)) as Hr. set (r := (random_u64 (entropy s)).1) in *.
  assert (Z.shiftl 1 (k - 1) = 2 ^ (k - 1)) as -> by (rewrite Z.shiftl_mul_pow2 by lia; lia).
  assert (2 ^ (k - 1) = 1 ∨ 2 ^ (k - 1) = 2 ∨ 2 ^ (k - 1) = 4) as Hpow.
  { assert (k = 1 ∨ k = 2 ∨ k = 3) as [->|[->| ->]] by lia; auto. }
  destruct (randomize_in (2 ^ (k - 1) * 1000) 1000 r) as (v & Hv & Hb); [lia| |range|done|].
  { change (1000 / 2) with 500. lia. }
  wp_step. wp_step. rewrite Hv. do 3 wp_step. split; [done|]. cbn.
  eexists. split; [done|]. unfold backoff_ok, from_millis. change (1000 / 2) with 500 in Hb. lia.
Qed.

Lemma wp_request_loop `{!EntropySpec RNG} fuel k b s :
  k + Z.of_nat fuel = MAX_OMAHA_REQUEST_ATTEMPTS + 1 → 1 ≤ k ≤ MAX_OMAHA_REQUEST_ATTEMPTS →
  wp (request_loop fuel k b) (λ o s' t, ∃ r n, o = Ret (r, n) ∧ k ≤ n ≤ MAX_OMAHA_REQUEST_ATTEMPTS ∧
    Forall2 backoff_ok (seqZ k (n - k)) (waits_of (observed net t)) ∧
    Z.of_nat (length (requests_of (observed net t))) ≤ n - k + 1 ∧
    match r with
    | Ok _ => True
    | Err e => ∃ e', e = ErrorOmahaRequest e' ∧ retries n (context s') e' = false
    end) s.
Proof.
  unfold MAX_OMAHA_REQUEST_ATTEMPTS. revert k b s.
  induction fuel as [|fuel IH]; intros k b s Hsum Hk; [lia|].
  cbn [request_loop]. unfold sm_now_in_monotonic, sm_new_guid. do 4 wp_step.
  set (s1 := set_entropy _ _). wp_step.
  eapply wp_mono; [|apply wp_do_omaha]. intros o s2 t2 (r & -> & Hr).
  assert (∃ l, observed net t2 = l ∧ waits_of l = [] ∧ (length (requests_of l) ≤ 1)%nat) as (l2 & Hl2 & Hw2 & Hr2).
  { destruct Hr as [Hr|Hr]; [by eapply net_rejected|by eapply net_accepted]. }
  clear Hr. wp_step.
  eapply wp_mono; [|apply wp_total; [apply total_report_response_time|apply respects_report_response_time]].
  intros o s3 t3 [[[] ->] [Hn3 Hc3]]. unfold silent_rel, keeps in Hn3, Hc3. wp_step. wp_step.
  destruct r as [res|e].
  - wp_step. exists (Ok res), k. split; [done|]. split; [lia|]. rewrite Z.sub_diag.
    unfold observed in *. cbn [app]. rewrite !omap_app, Hl2, Hn3. cbn.
    rewrite ?app_nil_r, Hw2. split; [constructor|]. split; [lia|done].
  - destruct (retries k (context s3) e) eqn:Hre.
    + assert (k < 3) as Hk3.
      { destruct e; cbn in Hre; try done; case_bool_decide; cbn in Hre; try done;
          unfold MAX_OMAHA_REQUEST_ATTEMPTS in *; lia. }
      wp_step. eapply wp_mono; [|apply wp_backoff; lia].
      intros o s4 t4 (-> & d & Hn4 & Hd). eapply wp_mono; [|apply IH; lia].
      intros o s5 t5 (r & n & -> & Hn & Hw & Hq & Hf). exists r, n. split; [done|].
      split; [lia|]. unfold observed in *. cbn [app]. rewrite !omap_app, Hl2, Hn3, Hn4.
      unfold waits_of, requests_of in *. cbn. rewrite !omap_app, Hw2. cbn.
      replace (n - k) with (Z.succ (n - Z.succ k)) by lia.
      rewrite seqZ_cons by lia. split; [constructor; [done|]|split; [|done]].
      * replace (Z.pred (Z.succ (n - Z.succ k))) with (n - (k + 1)) by lia.
        by replace (Z.succ k) with (k + 1) by lia.
      * rewrite !length_app. lia.
    + unfold yield_state, yield_. wp_step. wp_step. wp_step. exists (Err (ErrorOmahaRequest e)), k.
      split; [done|]. split; [lia|]. rewrite Z.sub_diag. unfold observed in *. cbn [app].
      rewrite !omap_app, Hl2, Hn3. cbn. rewrite ?app_nil_r, Hw2.
      split; [constructor|]. split; [lia|]. eauto.
Qed.

(** ** Properties *)

(** C12: the request loop of a check always ends, after one to three attempts, each with at most one
    HTTP request; after attempt [k] it waits [2 ^ (k - 1)] seconds, give or take half a second, and
    nothing else; it gives up with an error only on the third attempt or on an error that is not
    retried: one of the library's own, one of the user's making, or any while the server dictates
    a poll interval. *)
Theorem request_attempts `{!EntropySpec RNG} b s :
  let m := request_loop (Z.to_nat MAX_OMAHA_REQUEST_ATTEMPTS) 1 b in
  let l := observed net (trace m s) in
  ∃ r n, returned m s = Ret (r, n) ∧ 1 ≤ n ≤ 3 ∧
    Z.of_nat (length (requests_of l)) ≤ n ∧ Forall2 backoff_ok (seqZ 1 (n - 1)) (waits_of l) ∧
    match r with
    | Ok _ => True
    | Err e => ∃ e', e = ErrorOmahaRequest e' ∧ (n < 3 →
        match e' with
        | ReqHttpTransport e' => is_user e' = true ∨
            is_Some (server_dictated_poll_interval (state (context (final m s))))
        | ReqHttpStatus _ => is_Some (server_dictated_poll_interval (state (context (final m s))))
        | _ => True
        end)
    end.
Proof.
  cbn zeta. pose proof (wp_request_loop (Z.to_nat MAX_OMAHA_REQUEST_ATTEMPTS) 1 b s) as Hw.
  specialize (Hw ltac:(done) ltac:(by unfold MAX_OMAHA_REQUEST_ATTEMPTS)). apply wp_run in Hw.
  destruct Hw as (r & n & -> & Hn & Hw & Hq & Hf). unfold MAX_OMAHA_REQUEST_ATTEMPTS in Hn.
  exists r, n. split; [done|]. split; [done|]. split; [lia|]. split; [done|].
  destruct r as [|e]; [done|]. destruct Hf as (e' & -> & Hf). exists e'. split; [done|]. intros Hlt.
  assert (bool_decide (MAX_OMAHA_REQUEST_ATTEMPTS ≤ n) = false) as Hmax
    by (apply bool_decide_false; unfold MAX_OMAHA_REQUEST_ATTEMPTS; lia).
  destruct e'; cbn in Hf; try done; rewrite Hmax in Hf; cbn in Hf;
    apply negb_false_iff in Hf; rewrite ?orb_true_iff, ?opt_is_some_spec in Hf; done.
Qed.


(** C35: the interval a response dictates is the number of seconds in its [X-Retry-After] header,
    capped at a day; a header that is missing, is not text or is not a [u64] dictates none. *)
Theorem retry_after_spec resp :
  match dictated_poll_interval resp with
  | Some d => ∃ h s n, headers_get resp X_RETRY_AFTER = Some h ∧ header_to_str h = Ok s ∧
      parse_uint u64_max s = Some n ∧ d = from_secs (Z.min n 86400) ∧ 0 ≤ d ≤ from_secs (24 * 3600)
  | None => ∀ h s, headers_get resp X_RETRY_AFTER = Some h → header_to_str h = Ok s →
      parse_uint u64_max s = None
  end.
Proof.
  unfold dictated_poll_interval. destruct (headers_get resp X_RETRY_AFTER) as [h|]; [|done]. cbn.
  destruct (header_to_str h) as [s|e] eqn:Hs; cbn; [|by intros ? ? [= <-]; rewrite Hs].
  destruct (parse_uint u64_max s) as [n|] eqn:Hn; cbn.
  - exists h, s, n. split_and!; try done; apply parse_uint_bound in Hn;
      unfold from_secs, nanos_per_sec; range.
  - intros ? ? [= <-]. rewrite Hs. by intros [= <-].
Qed.

(** [randomize n range] gives a number in the half-open interval of width [range] around [n],
    without overflow, for every random word, when that interval is within [u64]. *)
Theorem randomize_range n range r :
  0 < range → range / 2 ≤ n → n + range ≤ u64_max → in_u64 r →
  ∃ v, randomize n range r = Ret v ∧ n - range / 2 ≤ v < n - range / 2 + range.
Proof. apply randomize_in. Qed.
End requests.

From S2P Require Import Examples.

(** A check whose server never answers: three attempts. *)
Lemma request_attempts_witness :
  let s := example_machine [Err make_transport_error; failed_resp 503; failed_resp 503] UpdateOk in
  let b := request_builder_new example_config example_params in
  let m := request_loop (Z.to_nat MAX_OMAHA_REQUEST_ATTEMPTS) 1 b in
  let l := observed net (trace m s) in
  length (requests_of l) = 3%nat ∧
  ∃ r n, returned m s = Ret (r, n) ∧ 1 ≤ n ≤ 3 ∧
    Z.of_nat (length (requests_of l)) ≤ n ∧ Forall2 backoff_ok (seqZ 1 (n - 1)) (waits_of l) ∧
    match r with
    | Ok _ => True
    | Err e => ∃ e', e = ErrorOmahaRequest e' ∧ (n < 3 →
        match e' with
        | ReqHttpTransport e' => is_user e' = true ∨
            is_Some (server_dictated_poll_interval (state (context (final m s))))
        | ReqHttpStatus _ => is_Some (server_dictated_poll_interval (state (context (final m s))))
        | _ => True
        end)
    end.
Proof.
  intros s b m l. split; [vm_compute; reflexivity|]. exact (request_attempts b s).
Defined.

Lemma randomize_range_witness :
  ∃ v, randomize 2000 1000 12345678901234567890 = Ret v ∧ 1500 ≤ v < 2500.
Proof. apply (randomize_range 2000 1000 12345678901234567890); [lia|done|range|range]. Defined.
