(* ===== verification/Wire.v ===== *)
(** * A client whose requests go to the mock server

    [connected] is the HTTP client that delivers every request to an [OmahaServer] and every answer
    back; [wired] is a client that uses it, with the standard CUP handler.  What the [http] and
    [hyper] crates do between the two ends is the class [Wire].  The theorem follows an update check
    from the apps of the client through the JSON, the server and its signature back to the result. *)

From S2P Require Import Prelude Serde Effects Time Version Protocol Storage Common UpdateCheck AppSet.
From S2P Require Import UriExt Http Cup RequestBuilder Server Metrics Installer Policy Machine Omaha Check.
From S2P Require Import Exchange Trace Requests.
From S2P Require Request Response.
Open Scope Z_scope.

(** How the server sees a request, and the client a response. *)
Class Wire `{UriCrate, HttpCrate} := {
  wire_request : HttpReq → ServerRequest;
  wire_response : ServerResponse → HttpResp;
}.
(** A request that is built for a URI is a POST of its path and query with its body; a response
    has the status, the body and the ETag it was made with. *)
Class WireLaws `{Wire} : Prop := {
  wire_post t u headers body req :
    uri_parse t = Ok u → request_post t headers body = Ok req →
    is_post (wire_request req) = true ∧ request_path (wire_request req) = uri_path u ∧
    delivered u body (wire_request req);
  wire_sent rsp : sent_back rsp (wire_response rsp);
  wire_success rsp : response_status rsp = 200 → is_success (resp_status (wire_response rsp)) = true;
}.
(** The [http] crate takes the characters of hexadecimal digits in a header. *)
Class HeaderLaws `{HeaderCrate} : Prop :=
  plain_header s : str_forall is_plain s = true → valid_header_value s = true.

Section wire.
Context `{Crates, !HexCrate, !Sha2Crate, !EcdsaSign, !UrlCrate, !HeaderCrate, !Wire}.

(** A server that panics, or fails to read a body, closes the connection. *)
#[export] Instance connected : HttpTransport OmahaServer := λ req server,
  match handle_request server (wire_request req) with
  | Ret (Ok rsp, server) => (Ok (wire_response rsp), server)
  | Ret (Err _, server) => (Err make_transport_error, server)
  | Panic _ => (Err make_transport_error, server)
  end.

(** A client with its HTTP client and its CUP handler replaced. *)
Definition wired (c : Client) : Client := {|
  PE := @PE _ c;
  TS := @TS _ c;
  HR := OmahaServer;
  IN := @IN _ c;
  IR := @IR _ c;
  PL := @PL _ c;
  TM := @TM _ c;
  MR := @MR _ c;
  ST := @ST _ c;
  AS := @AS _ c;
  CH := StandardCupv2Handler;
  RNG := @RNG _ c;
|}.

(** What a check asks about an app. *)
Definition asked_app (params : RequestParams) (a : App) : Request.App :=
  protocol_app_from (mkAppEntry a (Some (params_update_check params)) true []).

(** The server can be reached at the service URL: with CUP it has the key the client prefers, and
    without CUP it does not insist on it and is asked at its root. *)
Definition in_reach (server : OmahaServer) (handler : option StandardCupv2Handler) (url : string) : Prop :=
  etag_override server = None ∧
  ∃ u path, uri_parse url = Ok u ∧ uri_path u = String "/" path ∧ uri_query u = None ∧
    path ≠ "set_responses_by_appid"%string ∧
    match handler with
    | Some h =>
      (∃ ks, h = standard_cupv2_handler_new ks ∧ has_key_of ks server) ∧
      ∀ n, is_ok (append_query_parameter u "cup2key" (cup2_urlparam (latest_public_key_id h) n)) = true
    | None => path = EmptyString ∧ require_cup server = false
    end.

(** ** Lemmas: the request of a check *)

Lemma modify_or_push_app a m l l' :
  app_id a ∉ app_id ∘ entry_app <$> l → modify_or_push a m (l ++ l') = l ++ modify_or_push a m l'.
Proof.
  induction l as [|e l IH]; [done|]. rewrite fmap_cons, not_elem_of_cons. intros [He Hl].
  cbn. rewrite decide_False by (unfold compose in He; congruence). by rewrite IH.
Qed.

Lemma check_entries cfg params apps session_id :
  NoDup (app_id <$> apps) →
  app_entries (check_request_builder cfg params apps session_id) =
  (λ a, mkAppEntry a (Some (params_update_check params)) true []) <$> apps.
Proof.
  unfold check_request_builder. cbn [set_session_id app_entries].
  set (b0 := request_builder_new cfg params). intros Hnd.
  assert (∀ l, NoDup (app_id <$> l) →
    let b := foldl (λ b app, add_ping app (add_update_check app b)) b0 l in
    rb_params b = params ∧
    app_entries b = (λ a, mkAppEntry a (Some (params_update_check params)) true []) <$> l) as Hall.
  { induction l as [|a l IH] using rev_ind; [done|]. rewrite fmap_app, NoDup_app. intros (Hl & Ha & _).
    rewrite foldl_snoc. destruct (IH Hl) as [Hp He]. clear IH.
    set (b := foldl _ b0 l) in *. clearbody b.
    unfold add_ping, add_update_check, insert_and_modify_entry. cbn [set_app_entries app_entries rb_params].
    split; [done|]. rewrite He, Hp.
    assert (app_id a ∉ app_id ∘ entry_app <$>
      ((λ a, mkAppEntry a (Some (params_update_check params)) true []) <$> l)) as Hnot.
    { rewrite <-list_fmap_compose. unfold compose. cbn. intros Hin. apply (Ha _ Hin). by left. }
    rewrite <-(app_nil_r (fmap _ l)) at 1.
    rewrite !modify_or_push_app by done. cbn. rewrite decide_True by done. by rewrite fmap_app. }
  by apply Hall.
Qed.

Lemma check_config cfg params apps session_id :
  rb_config (check_request_builder cfg params apps session_id) = cfg.
Proof.
  unfold check_request_builder. cbn [set_session_id rb_config].
  change cfg with (rb_config (request_builder_new cfg params)) at 2.
  generalize (request_builder_new cfg params). induction apps as [|a apps IH]; intros b; [done|].
  cbn [foldl]. by rewrite IH.
Qed.

Lemma asked_apps cfg params apps session_id request_id :
  NoDup (app_id <$> apps) →
  Request.apps (builder_request (set_request_id request_id
    (check_request_builder cfg params apps session_id))) = asked_app params <$> apps.
Proof.
  intros Hnd. unfold builder_request. cbn [Request.apps set_request_id app_entries].
  rewrite check_entries by done. by rewrite <-list_fmap_compose.
Qed.

Lemma asked_typed params apps : Forall app_typed apps → Forall Request.app_typed (asked_app params <$> apps).
Proof.
  intros Ht. apply Forall_fmap. eapply Forall_impl; [exact Ht|]. intros a Ha. split; [constructor|].
  unfold app_typed, user_counting_typed in Ha. cbn. destruct (app_user_counting a) as [days]. by split.
Qed.

Context `{!UriLaws, !UriTextLaws, !SerdeJsonLaws, !HexLaws, !EcdsaSignLaws, !UrlLaws, !HeaderLaws, !WireLaws}.

Lemma etag_is_header signature body : valid_header_value (etag_text signature body) = true.
Proof.
  apply plain_header. unfold etag_text. rewrite !str_forall_app.
  assert (∀ b, str_forall is_plain (hex_encode b) = true) as Hhex.
  { intros b. eapply str_forall_impl, hex_encode_digits. intros c Hc. unfold is_plain. by rewrite Hc. }
  by rewrite !Hhex.
Qed.

Lemma configured_nonempty responses apps :
  well_configured responses apps = true → apps ≠ [] → responses ≠ ∅.
Proof.
  intros Hwell Hne ->. destruct apps as [|a l]; [done|]. unfold well_configured in Hwell.
  cbn [forallb] in Hwell. by apply andb_true_iff in Hwell as [_ [Ha _]%andb_true_iff].
Qed.

(** The server's half: a request it is configured for is answered. *)
Lemma server_serves server sreq uri body r :
  is_post sreq = true → request_path sreq ≠ "/set_responses_by_appid"%string →
  request_uri sreq = uri → received_body sreq = Some body →
  json_to_vec (Request.request_wrapper_json (Request.mkRequestWrapper r)) = Ok body →
  Request.request_typed r → Forall plain_app (Request.apps r) →
  well_configured (responses_by_appid server) (Request.apps r) = true → Request.apps r ≠ [] →
  etag_override server = None →
  (∀ data, ∃ induced, make_etag body uri (private_keys server) data = Ret induced ∧
     (require_cup server = true → is_Some induced) ∧
     (∀ e, induced = Some e → valid_header_value e = true)) →
  ∃ rsp, handle_omaha_request server sreq = Ret (Ok rsp) ∧
    handle_request server sreq = Ret (Ok rsp, server) ∧ response_status rsp = 200 ∧
    json_to_vec (response_json (app_answer (responses_by_appid server) <$> Request.apps r)) =
      Ok (response_body rsp).
Proof.
  intros Hpost Hpath Huri Hrecv Hbody Hty Hplain Hwell Hne Hover Hetag.
  pose proof (json_to_vec_ok (response_json (app_answer (responses_by_appid server) <$> Request.apps r)))
    as Hok.
  destruct (json_to_vec (response_json _)) as [data|] eqn:Hdata; [|done]. clear Hok.
  destruct (Hetag data) as (induced & Hind & Hcup & Hval).
  exists (mkServerResponse 200 (Z.of_nat (length data)) induced data).
  assert (handle_omaha_request server sreq =
    Ret (Ok (mkServerResponse 200 (Z.of_nat (length data)) induced data))) as Hhandle.
  { unfold handle_omaha_request. rewrite Hpost. cbn [assert mbind outcome_bind]. rewrite decide_False.
    - rewrite Hrecv.
      rewrite (proj2 (answer_request_Ret server (request_uri sreq) body r
        (mkServerResponse 200 (Z.of_nat (length data)) induced data) Hbody Hty Hplain)); [done|].
      split; [done|]. exists data, induced. rewrite Huri, Hover. by split_and!.
    - by eapply configured_nonempty. }
  split_and!; [done| |done..]. unfold handle_request. rewrite decide_False by done. by rewrite Hhandle.
Qed.

(** What building does with a CUP handler. *)
Lemma build_decorated (h : StandardCupv2Handler) nonce (b : RequestBuilder) u u' body req :
  uri_parse (service_url (rb_config b)) = Ok u →
  append_query_parameter u "cup2key" (cup2_urlparam (latest_public_key_id h) nonce) = Ok u' →
  json_to_vec (Request.request_wrapper_json (Request.mkRequestWrapper (builder_request b))) = Ok body →
  request_post (uri_to_string u') (builder_headers b) body = Ok req →
  let w := Request.mkRequestWrapper (builder_request b) in
  let md := mkRequestMetadata body (latest_public_key_id h) nonce in
  decorate_request h nonce (mkIntermediate (service_url (rb_config b)) (builder_headers b) w) =
    (Ok md, mkIntermediate (uri_to_string u') (builder_headers b) w) ∧
  build (Some h) nonce b = Ok (req, Some md).
Proof.
  intros Hu Hu' Hjson Hreq. cbn zeta.
  assert (decorate_request h nonce (mkIntermediate (service_url (rb_config b)) (builder_headers b)
      (Request.mkRequestWrapper (builder_request b))) =
    (Ok (mkRequestMetadata body (latest_public_key_id h) nonce),
     mkIntermediate (uri_to_string u') (builder_headers b) (Request.mkRequestWrapper (builder_request b))))
    as Hdec.
  { cbn -[builder_headers]. unfold standard_decorate_request. cbn -[builder_headers]. rewrite Hu, Hu'.
    unfold serialize_body. cbn -[builder_headers]. by rewrite Hjson. }
  split; [done|]. unfold build, build_intermediate, http_request_from. rewrite Hdec.
  unfold serialize_body. cbn -[builder_headers]. rewrite Hjson. cbn -[builder_headers]. by rewrite Hreq.
Qed.

Context (b : RequestBuilder) (server : OmahaServer).
Context (Hpost : ∀ t u body,
  uri_parse t = Ok u → is_ok (request_post t (builder_headers b) body) = true).
Context (Hty : Request.request_typed (builder_request b)).
Context (Hplain : Forall plain_app (Request.apps (builder_request b))).
Context (Hwell : well_configured (responses_by_appid server) (Request.apps (builder_request b)) = true).
Context (Hne : Request.apps (builder_request b) ≠ []).

(** One exchange: the request is built, answered, and the answer verifies. *)
Lemma exchanged nonce handler :
  in_reach server handler (service_url (rb_config b)) →
  ∃ req md rsp,
    build handler nonce b = Ok (req, md) ∧
    handle_request server (wire_request req) = Ret (Ok rsp, server) ∧ response_status rsp = 200 ∧
    match handler, md with
    | Some h, Some md => ∃ sig, verify_response h md (wire_response rsp) (public_key_id md) = Ok sig
    | None, None => True
    | _, _ => False
    end ∧
    json_to_vec (response_json (app_answer (responses_by_appid server) <$>
      Request.apps (builder_request b))) = Ok (response_body rsp).
Proof using All.
  intros (Hover & u & path & Hu & Hpath & Hquery & Hset & Hmode).
  pose proof (json_to_vec_ok (Request.request_wrapper_json (Request.mkRequestWrapper (builder_request b))))
    as Hbody.
  destruct (json_to_vec (Request.request_wrapper_json _)) as [body|] eqn:Hjson; [|done]. clear Hbody.
  assert (String "/" path ≠ "/set_responses_by_appid"%string) as Hroute by (intros [= ->]; done).
  destruct handler as [h|].
  - destruct Hmode as [(ks & Hh & Hkeys) Happ]. specialize (Happ nonce).
    destruct (append_query_parameter u _ _) as [u'|] eqn:Hu'; [|done]. clear Happ.
    destruct (append_reread _ _ _ _ _ _ Hu Hpath Hu') as (u2 & Hu2 & Hpath2 & Hquery2).
    specialize (Hpost (uri_to_string u') u2 body Hu2).
    destruct (request_post (uri_to_string u') _ body) as [req|] eqn:Hreq; [|done].
    destruct (build_decorated h nonce b u u' body req Hu Hu' Hjson Hreq) as [Hdec Hbuild].
    destruct (wire_post _ u2 _ _ _ Hu2 Hreq) as (Hp & Hq & Hdel).
    assert (delivered u' body (wire_request req)) as Hdel'.
    { destruct Hdel as [Hform Hrecv]. split; [|done]. rewrite Hform. unfold origin_form.
      by rewrite Hpath2, Hquery2. }
    clear Hdel. rename Hdel' into Hdel. rewrite Hpath2 in Hq.
    destruct (append_query_parameter_spec u "cup2key" _ u' Hu') as (_ & _ & Hpath' & Hquery');
      [done|apply urlparam_no_fragment|].
    subst h. pose proof Hkeys as (Hid & Hhist & sk & Hsk & Hvk). pose proof Hdel as [Hform Hrecv].
    destruct (server_serves server (wire_request req) (origin_form u') body (builder_request b))
      as (rsp & Homaha & Hhandle & Hstatus & Hdata); try done.
    { by rewrite Hq, Hpath', Hpath. }
    { intros data. destruct (uri_path_clean u) as [Hqm Hfr]. rewrite Hpath in Hqm, Hfr. cbn in Hqm, Hfr.
      unfold origin_form. rewrite Hpath', Hquery', Hpath, Hquery. eexists.
      split; [exact (make_etag_signs _ _ _ _ _ _ sk Hqm Hfr Hid Hsk)|].
      split; [by eexists|]. intros e [= <-]. apply etag_is_header. }
    set (i := mkIntermediate (service_url (rb_config b)) (builder_headers b) _) in Hdec.
    assert (uri_parse (get_uri i) = Ok u) as Hi by exact Hu.
    destruct (signed_is_accepted ks server nonce i _ _ u u' path (wire_request req) rsp (wire_response rsp)
      Hkeys Hover (configured_nonempty _ _ Hwell Hne) Hi Hpath Hquery Hdec Hu' Hdel Homaha (wire_sent rsp))
      as [sig Hsig].
    eexists req, (Some _), rsp. split_and!; [exact Hbuild|done|done|by exists sig|done].
  - destruct Hmode as [-> Hcup].
    specialize (Hpost (service_url (rb_config b)) u body Hu).
    destruct (request_post (service_url _) _ body) as [req|] eqn:Hreq; [|done].
    assert (build (CH := StandardCupv2Handler) None nonce b = Ok (req, None)) as Hbuild.
    { unfold build, build_intermediate, http_request_from, serialize_body. cbn -[builder_headers].
      rewrite Hjson. cbn -[builder_headers]. by rewrite Hreq. }
    destruct (wire_post _ u _ _ _ Hu Hreq) as (Hp & Hq & [Hform Hrecv]).
    destruct (server_serves server (wire_request req) "/" body (builder_request b))
      as (rsp & _ & Hhandle & Hstatus & Hdata); try done.
    { by rewrite Hq, Hpath. }
    { rewrite Hform. unfold origin_form. by rewrite Hpath, Hquery. }
    { intros data. exists None. by rewrite Hcup. }
    exists req, None, rsp. by split_and!.
Qed.
End wire.

(** ** A check of a wired client *)

Section wired.
Context `{Crates, !HexCrate, !Sha2Crate, !EcdsaSign, !UrlCrate, !HeaderCrate, !Wire}.
Context `{!UriLaws, !UriTextLaws, !SerdeJsonLaws, !HexLaws, !EcdsaSignLaws, !UrlLaws, !HeaderLaws, !WireLaws}.
Context (c : Client).
#[local] Instance wired_client : Client := wired c.

(** What stays as it is while a check asks: the server, the apps, the configuration and the keys;
    and what is not reported meanwhile. *)
Definition fixed (s : StateMachine) : OmahaServer * @AS _ c * Config * option StandardCupv2Handler :=
  (http s, app_set s, config s, cup_handler s).
Definition aside : StateMachine → list Effect → StateMachine → Prop :=
  both (keeps fixed) (both (silent_rel net) (silent_rel state_of)).

Lemma aside_emit e : net e = None → state_of e = None → respects aside (emit e).
Proof.
  intros Hn Hs. apply respects_emit. intros s. unfold aside, both, keeps, silent_rel, observed. cbn.
  by rewrite Hn, Hs.
Qed.
Lemma aside_accept md resp sig : respects aside (accept_response md resp sig).
Proof.
  unfold accept_response, yield_, update_context, update_storage, commit_storage.
  repeat (respects_step || (apply aside_emit; done) || (apply respects_modify; done)).
Qed.
Lemma aside_report_metrics m : respects aside (report_metrics m).
Proof.
  unfold report_metrics. repeat (respects_step || (apply aside_emit; done) || (apply respects_call; done)).
Qed.
Hint Resolve aside_report_metrics : respects.
Lemma aside_response_time t b : respects aside (report_response_time t b).
Proof.
  unfold report_response_time, sm_now_in_monotonic.
  repeat (respects_step || (apply respects_call; done)).
Qed.
Lemma aside_check_interval src : respects aside (report_check_interval src).
Proof.
  unfold report_check_interval, sm_now, update_context.
  repeat (respects_step || (apply respects_call; done) || (apply respects_modify; done)).
Qed.
Lemma total_check_interval src : total (report_check_interval src).
Proof.
  unfold report_check_interval, sm_now, update_context.
  repeat (total_step || apply total_report_metrics).
Qed.

(** A request that is answered with a verified success. *)
Lemma wp_send_answered nonce b s req md resp sig server :
  build (cup_handler s) nonce b = Ok (req, md) → http_request req (http s) = (Ok resp, server) →
  verify_step (cup_handler s) md resp = Ok sig → is_success (resp_status resp) = true →
  wp (send_request (cup_handler s) nonce b) (λ o s' t,
    o = Ret (Ok (mkReply resp (resp_body resp) md sig)) ∧ fixed s' = fixed (set_http server s) ∧
    observed net t = [inl req] ∧ observed state_of t = []) s.
Proof.
  intros Hb Hh Hv Hok. unfold send_request, try_bind. wp_step. wp_step. rewrite Hb. cbn [map_err].
  wp_step. wp_step. unfold make_request. wp_step. wp_step. wp_step. rewrite Hh. cbn [fst snd map_err].
  wp_step. wp_step. wp_step. rewrite Hv.
  eapply wp_mono; [|apply wp_and; [apply wp_accept_response|apply respects_wp, aside_accept]].
  intros o s' t [(-> & _) (Hf & Hn & Hs)]. rewrite Hok. split; [done|]. split; [exact Hf|].
  unfold silent_rel, observed in Hn, Hs. unfold observed. cbn. by rewrite Hn, Hs.
Qed.

(** What is asked of the request [b], and of the server, for an answer. *)
Definition answerable (server : OmahaServer) (handler : option StandardCupv2Handler) (b : RequestBuilder)
    : Prop :=
  in_reach server handler (service_url (rb_config b)) ∧
  (∀ t u body, uri_parse t = Ok u → is_ok (request_post t (builder_headers b) body) = true) ∧
  Request.request_typed (builder_request b) ∧ Forall plain_app (Request.apps (builder_request b)) ∧
  well_configured (responses_by_appid server) (Request.apps (builder_request b)) = true ∧
  Request.apps (builder_request b) ≠ [].

Definition answered (s : StateMachine) (b : RequestBuilder) (reply : Reply) (s' : StateMachine)
    (t : list Effect) : Prop :=
  json_to_vec (response_json (app_answer (responses_by_appid (http s)) <$>
    Request.apps (builder_request b))) = Ok (data reply) ∧
  fixed s' = fixed s ∧ (∃ req, observed net t = [inl req]) ∧ observed state_of t = [].

Lemma wp_send_answerable nonce b s :
  answerable (http s) (cup_handler s) b →
  wp (send_request (cup_handler s) nonce b)
    (λ o s' t, ∃ reply, o = Ret (Ok reply) ∧ answered s b reply s' t) s.
Proof.
  intros (Hreach & Hpost & Hty & Hplain & Hwell & Hne).
  destruct (exchanged b (http s) Hpost Hty Hplain Hwell Hne nonce (cup_handler s) Hreach)
    as (req & md & rsp & Hb & Hh & Hst & Hv & Hdata).
  assert (∃ sig, verify_step (cup_handler s) md (wire_response rsp) = Ok sig) as [sig Hsig].
  { unfold verify_step. destruct (cup_handler s) as [h|], md as [md|]; try done; [|by eexists].
    destruct Hv as [sig Hv]. exists (Some sig). cbn in *. by rewrite Hv. }
  eapply wp_mono; [|apply (wp_send_answered nonce b s req md (wire_response rsp) sig (http s));
    [exact Hb| |exact Hsig|by apply wire_success]].
  - intros o s' t (-> & Hf & Hn & Hs). eexists. split; [done|]. split; [|by eauto].
    cbn [data]. destruct (wire_sent rsp) as [-> _]. done.
  - unfold http_request. cbn. unfold connected. by rewrite Hh.
Qed.

Lemma wp_do_answerable b s :
  answerable (http s) (cup_handler s) b →
  wp (do_omaha_request_and_update_context b)
    (λ o s' t, ∃ reply, o = Ret (Ok reply) ∧ answered s b reply s' t) s.
Proof.
  intros Ha. unfold do_omaha_request_and_update_context, sm_new_nonce. wp_step. wp_step. wp_step.
  destruct (cup_handler s) as [h|] eqn:Hh; wp_step.
  - set (s1 := set_entropy _ s). pose proof (wp_send_answerable (new_nonce (entropy s)).1 b s1) as Hw.
    cbn [cup_handler http s1 set_entropy] in Hw. rewrite Hh in Hw. exact (Hw Ha).
  - pose proof (wp_send_answerable (mkNonce []) b s) as Hw. rewrite Hh in Hw. exact (Hw Ha).
Qed.

(** The loop succeeds with its first attempt. *)
Lemma wp_loop_answerable b s :
  (∀ g, answerable (http s) (cup_handler s) (set_request_id g b)) →
  wp (request_loop (Z.to_nat MAX_OMAHA_REQUEST_ATTEMPTS) 1 b)
    (λ o s' t, ∃ reply g, o = Ret (Ok reply, 1) ∧ answered s (set_request_id g b) reply s' t) s.
Proof.
  intros Ha. change (Z.to_nat MAX_OMAHA_REQUEST_ATTEMPTS) with 3%nat. cbn [request_loop].
  unfold sm_now_in_monotonic, sm_new_guid. do 4 wp_step. set (s1 := set_entropy _ _). wp_step.
  eapply wp_mono; [|apply wp_do_answerable; exact (Ha _)].
  intros o s2 t2 (reply & -> & Hans). wp_step.
  eapply wp_mono; [|apply wp_total; [apply total_report_response_time|apply aside_response_time]].
  intros o s3 t3 [[[] ->] (Hf3 & Hn3 & Hs3)]. wp_step. wp_step. wp_step.
  destruct Hans as (Hd & Hf & [req Hn] & Hs). eexists reply, _. split; [done|].
  unfold keeps, silent_rel, observed in *. split; [exact Hd|]. split; [by rewrite Hf3, Hf|].
  cbn [app]. rewrite !omap_app, Hn, Hn3, Hs, Hs3. cbn. eauto.
Qed.

(** The check up to the reply. *)
Lemma wp_perform_answerable params apps s :
  (∀ sid g, answerable (http s) (cup_handler s)
     (set_request_id g (check_request_builder (config s) params apps sid))) →
  NoDup (app_id <$> apps) →
  wp (perform_update_check params apps) (λ o s' t, ∃ sid reply s1 t1 t2,
    handle_reply params apps sid reply s1 = (s', t2, o) ∧ t = t1 ++ t2 ∧
    json_to_vec (response_json (app_answer (responses_by_appid (http s)) <$> (asked_app params <$> apps))) =
      Ok (data reply) ∧
    fixed s1 = fixed s ∧ (∃ req, observed net t1 = [inl req]) ∧
    observed state_of t1 = [CheckingForUpdates (params_source params)]) s.
Proof.
  intros Ha Hnd. unfold perform_update_check, yield_state, yield_, sm_new_guid. wp_step. wp_step. wp_step.
  eapply wp_mono; [|apply wp_total; [apply total_check_interval|apply aside_check_interval]].
  intros o s1 t1 [[[] ->] (Hf1 & Hn1 & Hs1)]. unfold keeps, fixed in Hf1. injection Hf1 as Hh1 Ha1 Hc1 Hk1.
  wp_step. wp_step. wp_step. wp_step. set (s2 := set_entropy _ s1). set (sid := (new_guid _).1). wp_step.
  assert (∀ g, answerable (http s2) (cup_handler s2)
    (set_request_id g (check_request_builder (config s1) params apps sid))) as Hans.
  { intros g. cbn. rewrite Hh1, Hk1, Hc1. apply Ha. }
  eapply wp_mono; [|apply wp_loop_answerable, Hans].
  intros o s3 t3 (reply & g & -> & Hd & Hf3 & [req Hn3] & Hs3). wp_step.
  eapply wp_mono; [|apply wp_total; [apply total_report_metrics|apply aside_report_metrics]].
  intros o s4 t4 [[[] ->] (Hf4 & Hn4 & Hs4)]. unfold wp.
  destruct (handle_reply params apps sid reply s4) as [[s' t'] o] eqn:E.
  unfold keeps, silent_rel, observed in *. change (http s2) with (http s1) in Hd. rewrite Hh1, asked_apps in Hd by done.
  exists sid, reply, s4, ([Yield (StateChange (CheckingForUpdates (params_source params)))] ++
    t1 ++ t3 ++ t4), t'.
  split; [done|]. split; [by rewrite <-!app_assoc|]. split; [exact Hd|]. split.
  { rewrite Hf4, Hf3. unfold fixed. cbn. by rewrite Hh1, Ha1, Hc1, Hk1. }
  split; [exists req|]; rewrite !omap_app; by rewrite ?Hn1, ?Hn3, ?Hn4, ?Hs1, ?Hs3, ?Hs4.
Qed.

(** ** Properties *)

End wired.

From S2P Require Import Examples.

#[local] Existing Instance example_hex.
#[local] Existing Instance example_hex_laws.
#[local] Existing Instance example_sha2.
#[local] Existing Instance example_url_crate.
#[local] Existing Instance example_url_laws.
#[local] Existing Instance example_sign.
#[local] Existing Instance example_sign_laws.
#[local] Existing Instance example_uri_laws.
#[local] Existing Instance example_uri_text_laws.
#[local] Existing Instance example_serde_laws.
#[local] Instance example_header : HeaderCrate := λ _, true.
#[local] Instance example_header_laws : HeaderLaws.
Proof. by intros s. Qed.

(** The crates of the examples, with keys that sign. *)
#[local] Instance wire_crates : Crates := {|
  crate_uri := example_uri;
  crate_serde := example_serde;
  crate_http := example_http;
  crate_ecdsa := example_signing;
  crate_anyhow := unit : Anyhow;
  crate_uuid := example_uuid;
  crate_checks := true : OverflowChecks;
|}.
#[local] Instance example_wire : Wire := {|
  wire_request req :=
    let u := unwrap_or (res_ok (uri_parse (req_uri req))) (mkParts None None None) in
    mkServerRequest true (uri_path u) (origin_form u) (Some (req_body req));
  wire_response rsp :=
    mkExampleResp (response_status rsp)
      (match response_etag rsp with Some e => [(ETAG, e)] | None => [] end) (response_body rsp);
|}.
#[local] Instance example_wire_laws : WireLaws.
Proof.
  split.
  - intros t u hs b req Hu [= <-]. cbn in *. by rewrite Hu.
  - intros rsp. split; [done|]. intros e He. cbn. rewrite He. cbn. eauto.
  - intros rsp Hr. cbn. by rewrite Hr.
Qed.

(** A client with the key of [example_server], and this server. *)
Definition wire_base : Client := {|
  PE := MockPolicyEngine ExampleClock;
  TS := ExampleClock;
  HR := OmahaServer;
  IN := StubInstaller;
  IR := unit;
  PL := StubPlan;
  TM := unit;
  MR := MockMetricsReporter;
  ST := MemStorage;
  AS := VecAppSet;
  CH := StandardCupv2Handler;
  RNG := Z;
|}.
Definition wire_machine : @StateMachine wire_crates (wired wire_base) :=
  @mkStateMachine wire_crates (wired wire_base) example_config (example_policy UpdateOk true) example_server
    (mkStubInstaller false) tt (mkExampleClock example_time) mock_metrics_new mem_new
    (mkContext schedule_default protocol_state_default) (mkVecAppSet [example_app])
    (Some (standard_cupv2_handler_new example_client_keys)) 0.

Lemma example_appends v :
  str_in "#" v = false → is_ok (append_query_parameter example_service "cup2key" v) = true.
Proof.
  intros Hv. assert (example_pq_clean (example_pq_split ("/" +:+ String "?" ("cup2key=" +:+ v)))) as Hclean.
  { unfold example_pq_split. rewrite split_once_app by done. split_and!; [done..|].
    cbn [snd unwrap_or]. by rewrite str_in_app, Hv. }
  change (is_ok (let? pq := map_err UriExtInvalidUri
      (example_pq_parse ("/" +:+ String "?" ("cup2key=" +:+ v))) in
    map_err UriExtInvalidUriParts (from_parts (mkParts (scheme (into_parts example_service))
      (authority (into_parts example_service)) (Some pq)))) = true).
  unfold example_pq_parse. by case_decide.
Qed.

