(* ===== verification/Books.v ===== *)
(** * What an update check leaves behind

    The counters, times and stored values after [start_update_check] and [ping_omaha]; that the
    durable context survives a restart; when an update was first seen. *)

From S2P Require Import Prelude Serde Effects Time Version Protocol Storage Common UpdateCheck AppSet.
From S2P Require Import UriExt Http Cup RequestBuilder Metrics Installer Policy Machine Omaha Check.
From S2P Require Import Requests Typed.
From S2P Require Request Response.
Open Scope Z_scope.

(** The keys of the storage that belong to the context. *)
Definition context_keys : list string :=
  [LAST_UPDATE_TIME; SERVER_DICTATED_POLL_INTERVAL; CONSECUTIVE_FAILED_UPDATE_CHECKS].

Section books.
Context `{Client}.

(** What the body of a check may change: the time of the last check, and the poll interval, to one
    that a server can dictate. *)
Definition dictated_interval (o : option Duration) : Prop :=
  ∀ d, o = Some d → 0 ≤ d ≤ from_secs 86400.
Definition check_frame (s : StateMachine) (t : list Effect) (s' : StateMachine) : Prop :=
  app_set s' = app_set s ∧
  last_update_time (schedule (context s')) = last_update_time (schedule (context s)) ∧
  next_update_time (schedule (context s')) = next_update_time (schedule (context s)) ∧
  consecutive_failed_update_checks (state (context s')) =
    consecutive_failed_update_checks (state (context s)) ∧
  consecutive_proxied_requests (state (context s')) =
    consecutive_proxied_requests (state (context s)) ∧
  (server_dictated_poll_interval (state (context s')) =
     server_dictated_poll_interval (state (context s)) ∨
   dictated_interval (server_dictated_poll_interval (state (context s')))).

(** ** Lemmas *)

#[export] Instance check_frame_step : StepRel check_frame.
Proof.
  split; [by intros s; split_and!; auto|]. intros s1 t1 s2 t2 s3.
  intros (? & ? & ? & ? & ? & Hp1) (? & ? & ? & ? & ? & Hp2). split_and!; try congruence.
  destruct Hp2 as [Hp2|]; [|by right]. rewrite Hp2. tauto.
Qed.

Lemma frame_emit e : respects check_frame (emit e).
Proof. apply respects_emit. intros s. unfold check_frame. split_and!; auto. Qed.

(** Solves the frame of a computation whose calls change none of the framed fields. *)
Ltac frame :=
  repeat (respects_step || apply frame_emit ||
          (apply respects_call; intros; unfold check_frame; split_and!; by auto) ||
          (apply respects_modify; intros; unfold check_frame; split_and!; by auto) ||
          unfold yield_, yield_state, update_context, update_storage, commit_storage, write_storage,
            sm_now, sm_now_in_walltime, sm_now_in_monotonic, sm_wait_for, sm_wait_until, sm_new_guid,
            sm_new_nonce, sm_random_u64).

Lemma frame_do_omaha b : respects check_frame (do_omaha_request_and_update_context b).
Proof.
  intros s. pose proof (wp_do_omaha b s) as Hw. apply wp_run in Hw.
  destruct Hw as (r & _ & [Hr|Hr]).
  - destruct Hr as (Hc & _ & Ha & _). unfold check_frame. rewrite Hc, Ha. split_and!; auto.
  - destruct Hr as (nonce & req & md & resp & sig & _ & _ & _ & _ & Hc & Ha & _).
    unfold check_frame. rewrite Hc, Ha. split_and!; auto. right. cbn. intros d Hd.
    pose proof (retry_after_bound resp) as Hb. rewrite Hd in Hb. exact Hb.
Qed.
Hint Resolve frame_do_omaha : respects.

Lemma frame_report_metrics m : respects check_frame (report_metrics m).
Proof. unfold report_metrics. frame. Qed.
Hint Resolve frame_report_metrics : respects.

Lemma frame_report_event params event apps sid nv d :
  respects check_frame (report_omaha_event_and_update_context params event apps sid nv d).
Proof. unfold report_omaha_event_and_update_context. frame. Qed.
Hint Resolve frame_report_event : respects.

Lemma frame_report_check_interval src : respects check_frame (report_check_interval src).
Proof. unfold report_check_interval. frame. Qed.
Lemma frame_request_loop fuel n b : respects check_frame (request_loop fuel n b).
Proof.
  revert n b. induction fuel as [|fuel IH]; intros n b; cbn.
  - apply respects_lift. apply _.
  - unfold report_response_time, backoff. frame.
Qed.
Hint Resolve frame_report_check_interval frame_request_loop : respects.

Lemma frame_install params apps sid response p :
  respects check_frame (install params apps sid response p).
Proof.
  unfold install, record_update_first_seen_time, report_install_duration, report_installation,
    conclude_installation, record_update_finished. frame.
Qed.
Hint Resolve frame_install : respects.

Lemma frame_perform params apps : respects check_frame (perform_update_check params apps).
Proof. unfold perform_update_check, handle_reply, plan_and_install. frame. Qed.

(** *** The bookkeeping of [start_update_check] *)

Lemma wp_report_metrics m s :
  wp (report_metrics m) (λ o s' t, o = Ret tt ∧ context s' = context s ∧ app_set s' = app_set s ∧
    storage_ref s' = storage_ref s ∧ t = [Reported m]) s.
Proof. unfold report_metrics. do 5 wp_step. done. Qed.

Lemma wp_persist_data s :
  wp persist_data (λ o s' t, o = Ret tt ∧ context s' = context s ∧ app_set s' = app_set s ∧
    storage_ref s' =
      commit_or_log (app_set_persist (app_set s) (context_persist (context s) (storage_ref s))) ∧
    t = [Committed]) s.
Proof. unfold persist_data, update_storage, commit_storage. repeat wp_step. done. Qed.

(** None of what follows the reading of the clock looks at it again. *)
Ltac keeps_clock :=
  unfold report_attempts_to_successful_check, report_attempts_to_successful_install, persist_data,
    report_metrics, update_storage, write_storage, commit_storage, update_context;
  repeat (respects_step || (apply respects_call; done) || (apply respects_modify; done) ||
          (apply respects_emit; done)).
Lemma clock_report_attempts success :
  respects (keeps time_source) (report_attempts_to_successful_check success).
Proof. keeps_clock. Qed.
Lemma clock_report_install success :
  respects (keeps time_source) (report_attempts_to_successful_install success).
Proof. keeps_clock. Qed.
Lemma clock_report_metrics m : respects (keeps time_source) (report_metrics m).
Proof. keeps_clock. Qed.
Lemma clock_persist_data : respects (keeps time_source) persist_data.
Proof. keeps_clock. Qed.
(** [tm] is the last reading that was taken of the clock of [s]. *)
Definition clock_shows (tm : ComplexTime) (s : StateMachine) : Prop :=
  ∃ clock, now clock = (tm, time_source s).

(** The counter of failed checks goes to 0, or up by one. *)
Lemma wp_report_attempts success s :
  wp (report_attempts_to_successful_check success) (λ o s' t,
    match o with
    | Panic _ => True
    | Ret _ => ∃ n, add_u32 (consecutive_failed_update_checks (state (context s))) 1 = Ret n ∧
        context s' = set_failed_checks (if success then 0 else n) (context s) ∧
        app_set s' = app_set s ∧
        t = if success then [Reported (AttemptsToSuccessfulCheck n)] else []
    end) s.
Proof.
  unfold report_attempts_to_successful_check, update_context. do 4 wp_step.
  destruct (add_u32 _ 1) as [n|]; [|done]. destruct success.
  - wp_step. wp_step. eapply wp_mono; [|apply wp_report_metrics].
    intros o s' t (-> & Hc & Ha & _ & ->). exists n. by rewrite Hc, Ha.
  - wp_step. by exists n.
Qed.

Lemma keeps_report_install success :
  respects (both (keeps context) (keeps app_set)) (report_attempts_to_successful_install success).
Proof.
  unfold report_attempts_to_successful_install, report_metrics, update_storage, write_storage.
  repeat (respects_step || (apply respects_call; done) || (apply respects_modify; done) ||
          (apply respects_emit; done)).
Qed.

Lemma wp_check_succeeded r s :
  wp (check_succeeded r) (λ o s' t,
    match o with
    | Panic _ => True
    | Ret _ => app_set s' = update_from_omaha (app_responses r) (app_set s) ∧
        ∃ n tm, add_u32 (consecutive_failed_update_checks (state (context s))) 1 = Ret n ∧
          context s' = set_failed_checks 0 (set_last_update_time (Complex tm) (context s)) ∧
          clock_shows tm s'
    end) s.
Proof.
  unfold check_succeeded, sm_now, update_context, update_apps. do 4 wp_step.
  set (s1 := set_context _ _). wp_step.
  eapply wp_mono; [|apply wp_and; [apply (wp_report_attempts true s1)|apply respects_wp, clock_report_attempts]].
  intros [[]|msg] s2 t2; [|by intros [_ _]]. intros [(n & Hn & Hc & Ha & _) Hclock]. wp_step. wp_step.
  assert (clock_shows (now (time_source s)).1 s2) as Hshow.
  { exists (time_source s). rewrite Hclock. subst s1. cbn. by destruct (now (time_source s)). }
  destruct (install_success_of _) as [success|].
  - eapply wp_mono; [|apply wp_and; apply respects_wp; [apply keeps_report_install|apply clock_report_install]].
    intros [[]|msg] s3 t3; [|by intros [_ _]]. intros [[Hc3 Ha3] Hclock3].
    unfold keeps, clock_shows in *. cbn in Hc3, Ha3, Hclock3.
    rewrite Hc3, Ha3, Ha, Hclock3. split; [done|]. rewrite Hc. by eexists n, _.
  - wp_step. cbn. rewrite Ha. split; [done|]. rewrite Hc. by eexists n, _.
Qed.

Lemma wp_check_failed e s :
  wp (check_failed e) (λ o s' t,
    match o with
    | Panic _ => True
    | Ret _ => app_set s' = app_set s ∧
        ∃ n tm, add_u32 (consecutive_failed_update_checks (state (context s))) 1 = Ret n ∧
          context s' = set_failed_checks n
            (if talked_to_omaha e then set_last_update_time (Complex tm) (context s) else context s) ∧
          (talked_to_omaha e = true → clock_shows tm s')
    end) s.
Proof.
  unfold check_failed, sm_now, update_context. wp_step.
  apply (wp_mono _ (λ o s1 t, o = Ret tt ∧ app_set s1 = app_set s ∧ ∃ tm, context s1 =
    (if talked_to_omaha e then set_last_update_time (Complex tm) (context s) else context s) ∧
    (talked_to_omaha e = true → clock_shows tm s1))).
  2: { destruct (talked_to_omaha e).
       - do 3 wp_step. split; [done|]. split; [done|]. eexists. split; [done|]. intros _.
         exists (time_source s). by destruct (now (time_source s)).
       - wp_step. split; [done|]. split; [done|]. by exists (mkComplexTime 0 0). }
  intros o s1 t1 (-> & Ha1 & tm & Hc1 & Hs1). wp_step.
  eapply wp_mono; [|apply wp_and; [apply (wp_report_metrics _ s1)|apply respects_wp, clock_report_metrics]].
  intros o s2 t2 [(-> & Hc2 & Ha2 & _ & _) Hk2].
  eapply wp_mono; [|apply wp_and; [apply (wp_report_attempts false s2)|apply respects_wp, clock_report_attempts]].
  intros [[]|msg] s3 t3; [|by intros [_ _]].
  intros [(n & Hn & Hc3 & Ha3 & _) Hk3]. split; [congruence|]. exists n, tm.
  rewrite Hc2, Hc1 in Hn. split; [by destruct (talked_to_omaha e)|]. split; [by rewrite Hc3, Hc2, Hc1|].
  unfold keeps, clock_shows in *. by rewrite Hk3, Hk2.
Qed.

(** *** The stored context *)

Lemma context_load_ext {ST1 ST2} `{Storage ST1, Storage ST2} (st1 : ST1) (st2 : ST2) :
  (∀ k, k ∈ context_keys → get_int st1 k = get_int st2 k) → context_load st1 = context_load st2.
Proof.
  intros Hk. unfold context_load, get_time. rewrite !Hk; [done|..]; unfold context_keys; set_solver.
Qed.

Lemma get_int_app_set_persist `{!StorageSpec ST, !StorageInfallible ST} (a : AS) (st : ST) k :
  k ∉ app_id <$> get_apps a → get_int (app_set_persist a st) k = get_int st k.
Proof.
  unfold app_set_persist. generalize (get_apps a). intros l Hk.
  induction l as [|x l IH] using rev_ind; [done|]. rewrite foldl_snoc.
  rewrite fmap_app, not_elem_of_app in Hk. destruct Hk as [Hl Hx].
  unfold app_persist. destruct (json_to_string _) as [j|]; [|by apply IH].
  rewrite get_int_view, view_set_string, lookup_insert_ne, <-get_int_view by
    (apply set_string_ok || (cbn in Hx; set_solver)).
  by apply IH.
Qed.

Lemma update_from_omaha_ids `{!AppSetSpec AS} rs (a : AS) :
  app_id <$> get_apps (update_from_omaha rs a) = app_id <$> get_apps a.
Proof.
  unfold update_from_omaha. rewrite get_apps_iter_mut, <-list_fmap_compose.
  apply list_fmap_ext. intros _ x _. apply app_update_from_omaha_id.
Qed.

(** What [persist_data] stored is what a restart loads. *)
Lemma persisted_context_loads `{!StorageSpec ST, !StorageInfallible ST} (a : AS) c (st : ST) :
  context_valid c → (∀ i, i ∈ app_id <$> get_apps a → i ∉ context_keys) →
  context_load (commit_or_log (app_set_persist a (context_persist c st))) = Ret (stored_context c).
Proof.
  intros Hc Hids. rewrite <-(context_persist_loads c st Hc). apply context_load_ext.
  intros k Hk. rewrite get_int_view, view_commit_or_log, <-get_int_view.
  apply get_int_app_set_persist. intros Hin. by apply (Hids k).
Qed.

(** The whole of [start_update_check], when it returns. *)
Lemma wp_start_update_check params s :
  wp (start_update_check params) (λ o s' t,
    match o with
    | Panic _ => True
    | Ret _ => ∃ r n,
        Yield (UpdateCheckResult r) ∈ t ∧ last t = Some Committed ∧
        add_u32 (consecutive_failed_update_checks (state (context s))) 1 = Ret n ∧
        consecutive_failed_update_checks (state (context s')) =
          (match r with Ok _ => 0 | Err _ => n end) ∧
        app_set s' =
          match r with Ok r => update_from_omaha (app_responses r) (app_set s) | Err _ => app_set s end ∧
        match r with Ok r => Forall answer_typed (app_responses r) | Err _ => True end ∧
        (if match r with Ok _ => true | Err e => talked_to_omaha e end
         then ∃ tm, clock_shows tm s' ∧ last_update_time (schedule (context s')) = Some (Complex tm)
         else last_update_time (schedule (context s')) = last_update_time (schedule (context s))) ∧
        next_update_time (schedule (context s')) = next_update_time (schedule (context s)) ∧
        (server_dictated_poll_interval (state (context s')) =
           server_dictated_poll_interval (state (context s)) ∨
         dictated_interval (server_dictated_poll_interval (state (context s')))) ∧
        ∃ st, storage_ref s' = commit_or_log (app_set_persist (app_set s') (context_persist (context s') st))
    end) s.
Proof.
  unfold start_update_check. do 3 wp_step.
  eapply wp_mono; [|apply wp_and; [apply respects_wp, frame_perform|apply returns_wp, returns_perform]].
  intros [r|msg] s1 t1; [|by intros [_ _]].
  intros [(Ha1 & Hl1 & Hn1 & Hf1 & _ & Hp1) Htyped]. wp_step.
  apply (wp_mono _ (λ o s2 t, match o with
    | Panic _ => True
    | Ret (r', rb) => ∃ n tm, r' = (match r with Ok r => Ok r.1 | Err e => Err e end) ∧
        add_u32 (consecutive_failed_update_checks (state (context s1))) 1 = Ret n ∧
        context s2 = set_failed_checks (match r with Ok _ => 0 | Err _ => n end)
          (if match r with Ok _ => true | Err e => talked_to_omaha e end
           then set_last_update_time (Complex tm) (context s1) else context s1) ∧
        (match r with Ok _ => true | Err e => talked_to_omaha e end = true → clock_shows tm s2) ∧
        app_set s2 = match r with Ok r => update_from_omaha (app_responses r.1) (app_set s1)
                     | Err _ => app_set s1 end end)).
  - intros [[r' rb]|msg] s2 t2; [|done]. intros (n & tm & -> & Hn & Hc2 & Hclock & Ha2).
    do 2 wp_step. unfold yield_. do 6 wp_step. wp_step.
    eapply wp_mono; [|apply wp_and; [apply (wp_persist_data _)|apply respects_wp, clock_persist_data]].
    intros o s3 t3 [(-> & Hc3 & Ha3 & Hst3 & ->) Hk3]. wp_step.
    assert (∀ tm, clock_shows tm s2 → clock_shows tm s3) as Hshow by (unfold clock_shows; by rewrite Hk3).
    exists (match r with Ok r => Ok r.1 | Err e => Err e end), n.
    rewrite Hc3, Ha3, Ha2, Hc2, Ha1.
    split; [cbn; set_solver|]. split; [by rewrite !last_app|]. rewrite <-Hf1.
    split; [done|]. split; [by destruct r|]. split; [by destruct r as [[]|]|]. split_and!.
    + by destruct r as [[]|].
    + destruct r as [|e]; [eexists; auto|]. destruct (talked_to_omaha e); [eexists; auto|done].
    + destruct r as [|e]; [done|]. by destruct (talked_to_omaha e).
    + destruct r as [|e]; [done|]. by destruct (talked_to_omaha e).
    + eexists. rewrite Hst3, Hc2, Ha2, Ha1. done.
  - destruct r as [[r rb]|e]; wp_step.
    + eapply wp_mono; [|apply wp_check_succeeded]. intros [[]|msg] s2 t2; [|done].
      intros (Ha & n & tm & Hn & Hc & Hk). wp_step. by exists n, tm.
    + eapply wp_mono; [|apply wp_check_failed]. intros [[]|msg] s2 t2; [|done].
      intros (Ha & n & tm & Hn & Hc & Hk). wp_step. by exists n, tm.
Qed.

Lemma dictated_valid c o :
  server_dictated_poll_interval (state c) = o → dictated_interval o →
  ∀ d, server_dictated_poll_interval (state c) = Some d → valid_duration d.
Proof.
  intros -> Ho d Hd. apply Ho in Hd. unfold valid_duration, duration_max, from_secs in *.
  unfold nanos_per_sec in *. range.
Qed.

(** A completed check keeps the ids of the apps, and the types of everything. *)
Lemma check_keeps_typed `{!AppSetSpec AS} params s reboot :
  let s' := final (start_update_check params) s in
  returned (start_update_check params) s = Ret reboot →
  app_id <$> get_apps (app_set s') = app_id <$> get_apps (app_set s) ∧
  (machine_typed s → machine_typed s').
Proof.
  cbn zeta. intros Hr. pose proof (wp_start_update_check params s) as Hw.
  apply wp_run in Hw. rewrite Hr in Hw.
  destruct Hw as (r & n & _ & _ & Hn & Hf & Ha & Hty & _ & _ & Hp & _).
  split; [rewrite Ha; destruct r; [by rewrite update_from_omaha_ids|done]|].
  intros [[Hf0 Hp0] Happs]. split; [split|].
  - rewrite Hf. destruct r; [range|by eapply add_u32_in].
  - destruct Hp as [Hp|Hp]; [by rewrite Hp|]. by eapply dictated_valid.
  - rewrite Ha. destruct r; [by apply update_from_omaha_typed|done].
Qed.

(** What is in the storage after a completed check. *)
Lemma check_saves
    `{!StorageSpec ST, !StorageInfallible ST, !AppSetSpec AS} params s reboot :
  let s' := final (start_update_check params) s in
  machine_typed s →
  (∀ i, i ∈ app_id <$> get_apps (app_set s) → i ∉ context_keys) →
  returned (start_update_check params) s = Ret reboot →
  context_load (storage_ref s') = Ret (stored_context (context s')) ∧
  ∃ st, storage_ref s' = commit_or_log (app_set_persist (app_set s') st).
Proof.
  cbn zeta. intros Hs Hids Hr. destruct (check_keeps_typed params s reboot Hr) as [Hid Hs'].
  pose proof (wp_start_update_check params s) as Hw. apply wp_run in Hw. rewrite Hr in Hw.
  destruct Hw as (r & n & _ & _ & _ & _ & _ & _ & _ & _ & _ & st & Hst).
  rewrite Hst. split; [|by eexists]. apply persisted_context_loads; [by apply Hs'|by rewrite Hid].
Qed.

(** ** Properties *)

(** C8: what a completed update check leaves behind.  The result it reports decides: a success sets
    the count of failed checks to 0, a failure adds one to it; a success, and a failure that comes
    after Omaha was talked to, sets the last update time to what the clock showed last, any other
    failure leaves it; only a success changes the apps, as the server answered; the time of the
    next update stays.  Everything is then persisted, and the commit comes last. *)
Theorem start_update_check_books params s reboot :
  let m := start_update_check params in
  let s' := final m s in
  returned m s = Ret reboot →
  ∃ r, Yield (UpdateCheckResult r) ∈ trace m s ∧ last (trace m s) = Some Committed ∧
    Ret (consecutive_failed_update_checks (state (context s'))) =
      (match r with
       | Ok _ => Ret 0
       | Err _ => add_u32 (consecutive_failed_update_checks (state (context s))) 1
       end) ∧
    app_set s' =
      match r with Ok r => update_from_omaha (app_responses r) (app_set s) | Err _ => app_set s end ∧
    (if match r with Ok _ => true | Err (ErrorOmahaRequest _) => false | Err _ => true end
     then ∃ tm, clock_shows tm s' ∧ last_update_time (schedule (context s')) = Some (Complex tm)
     else last_update_time (schedule (context s')) = last_update_time (schedule (context s))) ∧
    next_update_time (schedule (context s')) = next_update_time (schedule (context s)) ∧
    ∃ st, storage_ref s' = commit_or_log (app_set_persist (app_set s') (context_persist (context s') st)).
Proof.
  cbn zeta. intros Hr. pose proof (wp_start_update_check params s) as Hw. apply wp_run in Hw.
  rewrite Hr in Hw. destruct Hw as (r & n & Hy & Hl & Hn & Hf & Ha & _ & Ht & Hnext & _ & Hst).
  exists r. rewrite Hf, Hn. split_and!; try done; by destruct r as [|[]].
Qed.

(** What an installation means for the count of attempts: it failed when one app failed, it
    succeeded when one was updated and none failed, and otherwise nothing was attempted. *)
Theorem install_success_spec rs :
  match install_success_of rs with
  | Some false => Exists (λ a, response_result a = ActionInstallPlanExecutionError) rs
  | Some true => Exists (λ a, response_result a = ActionUpdated) rs ∧
      Forall (λ a, response_result a ≠ ActionInstallPlanExecutionError) rs
  | None => Forall (λ a, response_result a ≠ ActionUpdated ∧
      response_result a ≠ ActionInstallPlanExecutionError) rs
  end.
Proof.
  induction rs as [|a rs IH] using rev_ind; [constructor|].
  unfold install_success_of in *. rewrite foldl_snoc.
  revert IH. destruct (foldl install_success_step None rs) as [[]|]; cbn; intros IH;
    destruct (response_result a) eqn:E;
    rewrite ?Exists_app, ?Forall_app, ?Exists_cons, ?Exists_nil, ?Forall_cons, ?Forall_nil, ?E;
    try naive_solver.
  split_and!; [by auto| |done..]. by eapply Forall_impl; [exact IH|intros x [_ Hx]].
Qed.

(** How many of some apps have an update, and what the result of an installation says of its app. *)
Definition updates_in (apps : list Response.App) : nat := length (filter (λ a, has_update a = true) apps).
Definition installed_action (r : AppInstallResult installer_error) : Action :=
  match r with
  | Installed => ActionUpdated
  | Deferred => ActionDeferredByPolicy
  | Failed _ => ActionInstallPlanExecutionError
  end.
#[local] Arguments updates_in apps : simpl never.
Lemma updates_in_cons a apps :
  updates_in (a :: apps) = ((if has_update a then 1 else 0) + updates_in apps)%nat.
Proof. unfold updates_in. rewrite filter_cons. destruct (has_update a); [by rewrite decide_True|by rewrite decide_False]. Qed.

(** C29: the answers of a check that installed are those of the server, one for each app and in its
    order.  An app without an update is answered that there is none; one with an update has the
    result of the installer that is due to it, the first result for the first such app and so on:
    it is updated, deferred by the policy, or failed as that result says.  It panics exactly when
    the installer gave fewer results than there are apps with an update, and the errors it
    collects are the failures among the results it used, in order. *)
Theorem installed_responses_spec uc apps results :
  match installed_responses uc apps results with
  | Ret (rs, errs) =>
    response_app_id <$> rs = Response.id <$> apps ∧ response_cohort <$> rs = Response.cohort <$> apps ∧
    Forall (λ a, response_user_counting a = uc) rs ∧
    (∀ i app, apps !! i = Some app →
       response_result <$> rs !! i =
         if has_update app then installed_action <$> results !! updates_in (take i apps)
         else Some ActionNoUpdate) ∧
    (updates_in apps ≤ length results)%nat ∧
    errs = omap (λ r, match r with Failed e => Some e | _ => None end) (take (updates_in apps) results)
  | Panic _ => (length results < updates_in apps)%nat
  end.
Proof.
  revert results. induction apps as [|a apps IH]; intros results; cbn [installed_responses].
  { split_and!; try done; cbn; auto with arith. }
  rewrite updates_in_cons. destruct (has_update a) eqn:Hu; cbn [Nat.add].
  - destruct results as [|r results]; [cbn; lia|].
    specialize (IH results). destruct (installed_responses uc apps results) as [[rs errs]|msg]; cbn.
    + destruct IH as (Hi & Hc & Hu' & Ha & Hl & He).
      assert (∀ i app, (a :: apps) !! i = Some app →
        response_result <$>
          (mkAppResponse (Response.id a) (Response.cohort a) uc (installed_action r) :: rs) !! i =
          if has_update app then installed_action <$> (r :: results) !! updates_in (take i (a :: apps))
          else Some ActionNoUpdate) as Hall.
      { intros [|i] app Happ; cbn in Happ |- *; [injection Happ as <-; by rewrite Hu|].
        rewrite updates_in_cons, Hu. by apply Ha. }
      destruct r; cbn; (split_and!; [by f_equal|by f_equal|by constructor|exact Hall|lia|by rewrite He]).
    + cbn in IH. lia.
  - specialize (IH results). destruct (installed_responses uc apps results) as [[rs errs]|msg]; cbn; [|done].
    destruct IH as (Hi & Hc & Hu' & Ha & Hl & He).
    split_and!; [by f_equal|by f_equal|by constructor| |done|done].
    intros [|i] app Happ; cbn in Happ |- *; [injection Happ as <-; by rewrite Hu|].
    rewrite updates_in_cons, Hu. by apply Ha.
Qed.
End books.

From S2P Require Import Examples.

Lemma start_update_check_books_witness :
  let s := updating_machine in
  let m := start_update_check example_params in
  let s' := final m s in
  consecutive_failed_update_checks (state (context s')) = 0 ∧
  ∃ r, Yield (UpdateCheckResult r) ∈ trace m s ∧ last (trace m s) = Some Committed ∧
    Ret (consecutive_failed_update_checks (state (context s'))) =
      (match r with
       | Ok _ => Ret 0
       | Err _ => add_u32 (consecutive_failed_update_checks (state (context s))) 1
       end) ∧
    app_set s' =
      match r with Ok r => update_from_omaha (app_responses r) (app_set s) | Err _ => app_set s end ∧
    (if match r with Ok _ => true | Err (ErrorOmahaRequest _) => false | Err _ => true end
     then ∃ tm, clock_shows tm s' ∧ last_update_time (schedule (context s')) = Some (Complex tm)
     else last_update_time (schedule (context s')) = last_update_time (schedule (context s))) ∧
    next_update_time (schedule (context s')) = next_update_time (schedule (context s)) ∧
    ∃ st, storage_ref s' = commit_or_log (app_set_persist (app_set s') (context_persist (context s') st)).
Proof.
  intros s m s'. split; [vm_compute; reflexivity|].
  refine (start_update_check_books example_params updating_machine (Needed tt) _).
  apply returns_needed_spec. vm_compute. reflexivity.
Defined.
