(* ===== verification/Records.v ===== *)
(** * What the state machine writes down, and reports later

    When an update was first seen and when it was finished, how many installations were tried, how
    long the system waited for its reboot, and what a ping changes. *)

From S2P Require Import Prelude Effects Time Version Protocol Storage Common UpdateCheck AppSet.
From S2P Require Import UriExt Http Cup RequestBuilder Metrics Installer Policy Machine Omaha Check.
From S2P Require Import Trace Requests Books.
From S2P Require Request Response.
Open Scope Z_scope.

Section records.
Context `{Client}.

(** How a ping ends: the count of failed checks, the apps and the last update time that it leaves,
    and what it persisted. *)
Definition ping_outcome (s s' : StateMachine) (t : list Effect) (o : outcome unit) : Prop :=
  match o with
  | Panic _ => in_u32 (consecutive_failed_update_checks (state (context s)) + 1) → False
  | Ret _ => last t = Some Committed ∧
      (∃ st, storage_ref s' =
         commit_or_log (app_set_persist (app_set s') (context_persist (context s') st))) ∧
      (add_u32 (consecutive_failed_update_checks (state (context s))) 1 =
         Ret (consecutive_failed_update_checks (state (context s'))) ∧
       app_set s' = app_set s ∧
       last_update_time (schedule (context s')) = last_update_time (schedule (context s)) ∨
       consecutive_failed_update_checks (state (context s')) = 0 ∧
       (∃ tm, clock_shows tm s' ∧
          last_update_time (schedule (context s')) = Some (Complex tm)) ∧
       ∃ req resp response, (http_request req (http s)).1 = Ok resp ∧
         parse_omaha_response (resp_body resp) = Ok response ∧
         app_set s' = update_from_omaha (make_app_responses response ActionNoUpdate) (app_set s))
  end.

(** The attempts that installations with these results report, after [n] that failed, and the count
    that is stored after them. *)
Fixpoint reported_attempts (n : Z) (successes : list bool) : list Effect :=
  match successes with
  | [] => []
  | success :: rest =>
    Reported (AttemptsToSuccessfulInstall (n + 1) success) ::
      reported_attempts (if success then 0 else n + 1) rest
  end.
Definition stored_attempts (stored : option Z) (successes : list bool) : option Z :=
  foldl (λ stored (success : bool), if success then None else Some (unwrap_or stored 0 + 1))
    stored successes.

(** ** Lemmas *)

Section storage.
Context `{!StorageSpec ST, !StorageInfallible ST}.

Lemma get_int_set_string (st : ST) k s k' :
  get_int (set_string st k s).2 k' = if decide (k = k') then None else get_int st k'.
Proof.
  rewrite !get_int_view, view_set_string by apply set_string_ok. case_decide as E.
  - subst. by rewrite lookup_insert_eq.
  - by rewrite lookup_insert_ne.
Qed.
Lemma get_string_set_string (st : ST) k s k' :
  get_string (set_string st k s).2 k' = if decide (k = k') then Some s else get_string st k'.
Proof.
  rewrite !get_string_view, view_set_string by apply set_string_ok. case_decide as E.
  - subst. by rewrite lookup_insert_eq.
  - by rewrite lookup_insert_ne.
Qed.
Lemma set_time_ok (st : ST) k t : is_ok (set_time st k t).1 = true.
Proof. apply set_option_int_ok. Qed.
Lemma get_time_set_time (st : ST) k t :
  get_time (set_time st k t).2 k =
  Ret (if decide (Z.abs (Z.quot t 1000) ≤ i64_max) then Some (Z.quot t 1000 * 1000) else None).
Proof.
  unfold get_time, set_time. rewrite get_int_set_option, decide_True by (done || apply set_option_int_ok).
  rewrite checked_to_micros_value. case_decide; [|done]. by rewrite micros_from_epoch_value by range.
Qed.
Lemma get_string_set_time (st : ST) k t k' :
  k ≠ k' → get_string (set_time st k t).2 k' = get_string st k'.
Proof. intros Hk. apply get_string_set_option_int; [apply set_option_int_ok|done]. Qed.
Lemma get_time_commit (st : ST) k : get_time (commit_or_log st) k = get_time st k.
Proof. unfold get_time. by rewrite !get_int_view, view_commit_or_log. Qed.
Lemma get_string_commit (st : ST) k : get_string (commit_or_log st) k = get_string st k.
Proof. by rewrite !get_string_view, view_commit_or_log. Qed.

(** A new plan: its id and the time are stored. *)
Lemma record_new_plan i now s :
  get_string (storage_ref s) INSTALL_PLAN_ID ≠ Some i →
  wp (record_update_first_seen_time i now) (λ o s' t, o = Ret now ∧ t = [Committed] ∧
    storage_ref s' = commit_or_log
      (set_time (set_string (storage_ref s) INSTALL_PLAN_ID i).2 UPDATE_FIRST_SEEN_TIME now).2) s.
Proof.
  intros Hne. unfold record_update_first_seen_time. do 2 wp_step. rewrite decide_False by done.
  unfold write_storage. do 2 wp_step.
  pose proof (set_string_ok (storage_ref s) INSTALL_PLAN_ID i) as Hok.
  destruct (set_string (storage_ref s) INSTALL_PLAN_ID i) as [r st1]. cbn in Hok |- *. rewrite Hok.
  cbn [negb]. do 2 wp_step. cbn [storage_ref set_storage].
  pose proof (set_time_ok st1 UPDATE_FIRST_SEEN_TIME now) as Hok2.
  destruct (set_time st1 UPDATE_FIRST_SEEN_TIME now) as [r2 st2]. cbn in Hok2 |- *. rewrite Hok2.
  cbn [negb]. unfold commit_storage, update_storage. repeat wp_step. done.
Qed.

Lemma record_known_plan i now s :
  get_string (storage_ref s) INSTALL_PLAN_ID = Some i →
  returned (record_update_first_seen_time i now) s =
    (t ← get_time (storage_ref s) UPDATE_FIRST_SEEN_TIME; Ret (unwrap_or t now)) ∧
  final (record_update_first_seen_time i now) s = s.
Proof.
  intros He.
  apply (wp_run _ (λ o s' _, o = (t ← get_time (storage_ref s) UPDATE_FIRST_SEEN_TIME;
    Ret (unwrap_or t now)) ∧ s' = s)).
  unfold record_update_first_seen_time. do 2 wp_step. rewrite decide_True by done. do 2 wp_step.
  by destruct (get_time (storage_ref s) UPDATE_FIRST_SEEN_TIME).
Qed.

(** One installation: it reports the next attempt, a failure counts and a success forgets. *)
Lemma wp_report_install success s :
  let stored := get_int (storage_ref s) CONSECUTIVE_FAILED_INSTALL_ATTEMPTS in
  0 ≤ unwrap_or stored 0 < i64_max →
  wp (report_attempts_to_successful_install success) (λ o s' t, o = Ret tt ∧
    t = [Reported (AttemptsToSuccessfulInstall (unwrap_or stored 0 + 1) success)] ∧
    get_int (storage_ref s') CONSECUTIVE_FAILED_INSTALL_ATTEMPTS =
      if success then None else Some (unwrap_or stored 0 + 1)) s.
Proof.
  cbn zeta. set (n := unwrap_or _ 0). intros Hn.
  unfold report_attempts_to_successful_install. do 4 wp_step. fold n.
  rewrite add_i64_exact by range. wp_step. eapply wp_mono; [|apply wp_report_metrics].
  intros o s1 t (-> & _ & _ & Hst & ->).
  assert (wrap_u64 (n + 1) = n + 1) as -> by (unfold wrap_u64; apply Z.mod_small; range).
  destruct success.
  - unfold update_storage. wp_step. split_and!; [done..|]. cbn. unfold remove_or_log.
    rewrite get_int_view, view_remove, lookup_delete_eq by apply remove_ok. done.
  - unfold write_storage. do 3 wp_step. cbn. split_and!; [done..|].
    pose proof (set_int_ok (storage_ref s1) CONSECUTIVE_FAILED_INSTALL_ATTEMPTS (n + 1)) as Hok.
    pose proof (get_int_set_option (storage_ref s1) CONSECUTIVE_FAILED_INSTALL_ATTEMPTS
      CONSECUTIVE_FAILED_INSTALL_ATTEMPTS (Some (n + 1)) Hok) as Hg. cbn [set_option_int] in Hg.
    destruct (set_int _ _ _) as [r st]. cbn in Hg |- *. rewrite Hg. by rewrite decide_True.
Qed.

(** *** The ping *)

Lemma wp_persist_clocked s :
  wp persist_data (λ o s' t, o = Ret tt ∧ context s' = context s ∧ app_set s' = app_set s ∧
    time_source s' = time_source s ∧
    storage_ref s' =
      commit_or_log (app_set_persist (app_set s) (context_persist (context s) (storage_ref s))) ∧
    t = [Committed]) s.
Proof.
  eapply wp_mono; [|apply wp_and; [apply (wp_persist_data s)|apply respects_wp, clock_persist_data]].
  intros o s' t [(? & ? & ? & ? & ?) Hk]. by split_and!.
Qed.
Lemma wp_ping_failed s :
  wp ping_failed (λ o s' t,
    match o with
    | Panic _ => ∃ msg, add_u32 (consecutive_failed_update_checks (state (context s))) 1 = Panic msg
    | Ret _ => last t = Some Committed ∧
        (∃ st, storage_ref s' =
           commit_or_log (app_set_persist (app_set s') (context_persist (context s') st))) ∧
        app_set s' = app_set s ∧
        last_update_time (schedule (context s')) = last_update_time (schedule (context s)) ∧
        add_u32 (consecutive_failed_update_checks (state (context s))) 1 =
          Ret (consecutive_failed_update_checks (state (context s')))
    end) s.
Proof.
  unfold ping_failed, update_context. do 4 wp_step.
  destruct (add_u32 _ 1) as [n|msg] eqn:Hn; [|by exists msg]. do 2 wp_step.
  eapply wp_mono; [|apply wp_persist_clocked]. intros o s' t (-> & -> & -> & _ & -> & ->). cbn.
  split; [done|]. split; [by eexists|done].
Qed.

(** ** Properties *)

(** C31: the first sight of an update is remembered, by a storage that keeps its contract and never
    fails a write, for a time in the range of the stored ones.  Recording a plan that is not the
    stored one gives the present time; recording the same plan again, at any later time, gives that
    first time, to the microsecond, and changes nothing. *)
Theorem first_seen_is_remembered i now later s :
  get_string (storage_ref s) INSTALL_PLAN_ID ≠ Some i →
  Z.abs (Z.quot now 1000) ≤ i64_max →
  let s' := final (record_update_first_seen_time i now) s in
  returned (record_update_first_seen_time i now) s = Ret now ∧
  returned (record_update_first_seen_time i later) s' = Ret (Z.quot now 1000 * 1000) ∧
  final (record_update_first_seen_time i later) s' = s'.
Proof.
  intros Hne Hnow. cbn zeta. pose proof (record_new_plan i now s Hne) as Hw. apply wp_run in Hw.
  destruct Hw as (Hr & _ & Hst). split; [done|].
  destruct (record_known_plan i later (final (record_update_first_seen_time i now) s)) as [-> ->].
  - rewrite Hst, get_string_commit, get_string_set_time, get_string_set_string by done.
    by rewrite decide_True.
  - split; [|done]. rewrite Hst, get_time_commit, get_time_set_time. by rewrite decide_True.
Qed.

(** C32: the attempts to install are counted, in a storage that keeps its contract and never fails a
    write, from a count that is not negative and does not run out of i64: of any sequence of
    installations each reports one more attempt than have failed since the last one that succeeded,
    the stored count included, and then the storage has the count of those, and none after a
    success. *)
Theorem install_attempts_counted successes s :
  let stored := get_int (storage_ref s) CONSECUTIVE_FAILED_INSTALL_ATTEMPTS in
  let m := for_each report_attempts_to_successful_install successes in
  0 ≤ unwrap_or stored 0 → unwrap_or stored 0 + Z.of_nat (length successes) ≤ i64_max →
  returned m s = Ret tt ∧
  trace m s = reported_attempts (unwrap_or stored 0) successes ∧
  get_int (storage_ref (final m s)) CONSECUTIVE_FAILED_INSTALL_ATTEMPTS =
    stored_attempts stored successes.
Proof.
  cbn zeta. intros Hn Hmax. apply (wp_run _ (λ o s' t, o = Ret tt ∧ t = reported_attempts _ successes ∧
    get_int (storage_ref s') CONSECUTIVE_FAILED_INSTALL_ATTEMPTS = stored_attempts _ successes)).
  revert s Hn Hmax. induction successes as [|success rest IH]; intros s Hn Hmax; cbn [for_each].
  { by wp_step. }
  cbn [length] in Hmax. wp_step. eapply wp_mono; [|apply wp_report_install; lia].
  intros o s1 t (-> & -> & Hs1). eapply wp_mono; [|apply IH; rewrite Hs1; destruct success; cbn; lia].
  intros o s2 t2 (-> & -> & ->). rewrite Hs1. by destruct success.
Qed.
End storage.

(** C30: a ping never checks, installs or reboots: it passes no milestone of a check.  When it
    returns, either it failed, one more failed check is counted and the apps and the last update
    time are as they were; or it succeeded, the count is 0, the last update time is what the clock
    last showed, and the apps are updated as the response to a request says.  In both cases the
    context and the apps that it leaves are what is persisted, and committed last. *)
Theorem ping_effect s :
  let m := ping_omaha in
  let s' := final m s in
  observed milestone (trace m s) = [] ∧
  ping_outcome s s' (trace m s) (returned m s).
Proof.
  cbn zeta. split; [apply (silent_ping milestone)|]. apply (wp_run _ (λ o s' t, ping_outcome s s' t o)).
  unfold ping_omaha, sm_new_guid. do 8 wp_step. set (s1 := set_entropy _ _). wp_step.
  eapply wp_mono; [|apply wp_and; [apply wp_do_omaha|apply respects_wp, frame_do_omaha]].
  intros o s2 t2 [(r & -> & Hreply) (Ha & Hl & _ & Hf & _ & _)].
  assert (∀ t0, wp ping_failed (λ o s' t, ping_outcome s s' (t0 ++ t) o) s2) as Hfail.
  { intros t0. eapply wp_mono; [|apply wp_ping_failed]. rewrite Hf. intros [[]|msg] s3 t3; cbn.
    - intros (Hlast & Hst3 & Ha3 & Hl3 & Hn3). rewrite last_app, Hlast. do 2 (split; [done|]). left.
      rewrite Ha3, Hl3, Ha, Hl. done.
    - intros [msg' Hp] Hin. by rewrite add_u32_exact in Hp. }
  destruct r as [reply|e]; [|exact (Hfail t2)].
  assert (∃ req resp, (http_request req (http s)).1 = Ok resp ∧ data reply = resp_body resp)
    as (req & resp & Hresp & Hbody).
  { destruct Hreply as [(_ & _ & _ & _ & e & ? & _)|(nonce & req & md & resp & sig & _ & Hresp & _ & Hr & _)];
      [done|]. exists req, resp. split; [exact Hresp|]. destruct (is_success _); [by injection Hr as ->|done]. }
  destruct (parse_omaha_response (data reply)) as [response|e] eqn:Hparse; [|exact (Hfail t2)].
  unfold update_context, sm_now, yield_, update_apps. do 12 wp_step.
  eapply wp_mono; [|apply wp_persist_clocked]. intros o s3 t3 (-> & Hc3 & Ha3 & Hts3 & Hst3 & ->).
  split; [by rewrite !last_app|]. split; [rewrite Hc3, Ha3; by eexists|]. right. rewrite Hc3, Ha3.
  cbn in Ha |- *. rewrite Ha. split; [done|].
  split; [|exists req, resp, response; by rewrite <-Hbody].
  exists (now (time_source s2)).1. split; [|done]. exists (time_source s2). rewrite Hts3. cbn.
  by destruct (now (time_source s2)).
Qed.

(** The time a reboot was waited for is reported once, when it can be computed: it is the time
    from the finish of the update to now, less the time the state machine has been running, so
    from the finish to the start; when the clocks contradict each other nothing is reported and
    the reason is given. *)
Theorem waited_for_reboot_spec finish start now s :
  let m := report_waited_for_reboot_duration finish start now in
  match returned m s with
  | Ret (Ok _) => ∃ d, trace m s = [Reported (WaitedForRebootDuration d)] ∧ 0 ≤ d ∧
      d = (wall now - finish) - (mono now - start) ∧ finish ≤ wall now ∧ start ≤ mono now
  | Ret (Err FinishTimeInFuture) => trace m s = [] ∧ wall now < finish
  | Ret (Err MonotonicBackwards) => trace m s = [] ∧ mono now < start
  | Ret (Err WaitNegative) => trace m s = [] ∧ wall now - finish < mono now - start
  | Panic _ => False
  end.
Proof.
  cbn zeta. apply (wp_run _ (λ o _ t, match o with
    | Ret (Ok _) => ∃ d, t = [Reported (WaitedForRebootDuration d)] ∧ 0 ≤ d ∧
        d = (wall now - finish) - (mono now - start) ∧ finish ≤ wall now ∧ start ≤ mono now
    | Ret (Err FinishTimeInFuture) => t = [] ∧ wall now < finish
    | Ret (Err MonotonicBackwards) => t = [] ∧ mono now < start
    | Ret (Err WaitNegative) => t = [] ∧ wall now - finish < mono now - start
    | Panic _ => False
    end)).
  unfold report_waited_for_reboot_duration, try_bind, wall_duration_since, duration_since,
    checked_duration_since. do 2 wp_step.
  destruct (decide (finish ≤ wall now)); cbn [map_err]; [|wp_step; split; [done|lia]]. do 2 wp_step.
  destruct (decide (start ≤ mono now)); cbn [ok_or]; [|wp_step; split; [done|lia]]. do 2 wp_step.
  unfold duration_checked_sub.
  destruct (decide (mono now - start ≤ wall now - finish)); cbn [ok_or];
    [|wp_step; split; [done|lia]].
  wp_step. eapply wp_mono; [|apply wp_report_metrics]. intros o s' t (-> & _ & _ & _ & ->). wp_step.
  eexists. split; [done|]. lia.
Qed.
End records.

From S2P Require Import Examples.

Lemma first_seen_is_remembered_witness :
  let s := updating_machine in
  let s' := final (record_update_first_seen_time "plan" 1234567) s in
  returned (record_update_first_seen_time "plan" 1234567) s = Ret 1234567 ∧
  returned (record_update_first_seen_time "plan" 9999999) s' = Ret (Z.quot 1234567 1000 * 1000) ∧
  final (record_update_first_seen_time "plan" 9999999) s' = s'.
Proof.
  refine (first_seen_is_remembered "plan" 1234567 9999999 updating_machine _ _);
    [by vm_compute|by vm_compute].
Defined.

Lemma install_attempts_counted_witness :
  let s := set_storage (set_int mem_new CONSECUTIVE_FAILED_INSTALL_ATTEMPTS 4).2 updating_machine in
  let m := for_each report_attempts_to_successful_install [false; true; false] in
  returned m s = Ret tt ∧
  trace m s = [Reported (AttemptsToSuccessfulInstall 5 false);
    Reported (AttemptsToSuccessfulInstall 6 true); Reported (AttemptsToSuccessfulInstall 1 false)] ∧
  get_int (storage_ref (final m s)) CONSECUTIVE_FAILED_INSTALL_ATTEMPTS = Some 1.
Proof.
  intros s. assert (get_int (storage_ref s) CONSECUTIVE_FAILED_INSTALL_ATTEMPTS = Some 4) as Hs
    by (vm_compute; reflexivity).
  pose proof (install_attempts_counted [false; true; false] s) as Hc. rewrite Hs in Hc.
  apply Hc; cbn; [lia|range].
Defined.
