(* ===== verification/RunLoop.v ===== *)
(** * The main loop ([state_machine.rs]: [run], [wait_for_reboot] and the control handle)

    [run] waits for timers and for control requests at once ([select!]), and keeps answering
    requests while a check runs or a reboot is waited for.  It is the transition relation [step]:
    a [Phase] is the place the task waits at, with its local variables; a step takes what happens
    next, in any order the environment chooses.  The update check runs on the state machine alone,
    which the control requests do not touch, so a check is computed when it starts and its effects
    are handed out one by one, with requests in between. *)

From S2P Require Import Prelude Effects Time Version Protocol Storage Common UpdateCheck AppSet.
From S2P Require Import UriExt Http Cup RequestBuilder Metrics Installer Policy Machine Omaha Check.
From S2P Require Import Trace.
From S2P Require Request Response.
Open Scope Z_scope.

Section run_loop.
Context `{Client}.

(** The local variables of [run]. *)
Record LoopVars : Type := mkLoopVars {
  should_report_waited_for_reboot_duration : bool;
  update_finish_time : option SystemTime;
  state_machine_start_monotonic_time : Instant;
}.

(** Where the task is. *)
Inductive Phase : Type :=
| PStart                                   (** before the loop *)
| PTop (v : LoopVars)                      (** at the head of the loop *)
| PWait (v : LoopVars)                     (** waiting for the next check or a request *)
| PCheck (v : LoopVars) (options : CheckOptions) (pending : list Effect)
    (out : outcome RebootAfterUpdate)      (** a check is running *)
| PReboot (v : LoopVars) (options : CheckOptions) (install_result : IR)
| PRebootWait (v : LoopVars) (options : CheckOptions) (install_result : IR)
| PDone                                    (** [run] returned *)
| PPanic (msg : string).

(** What is seen of a run: effects, timers that fire, and requests, each with a responder of its
    own. *)
Inductive Label : Type :=
| LEffect (e : Effect)
| LTimer
| LRequest (id : nat) (options : CheckOptions).

(** ** Before and at the head of the loop *)

Definition run_start : SM Phase :=
  apps ← gets app_set;
  if all_valid apps then
    t ← sm_now_in_monotonic;
    st ← gets storage_ref;
    finish ← lift (get_time st UPDATE_FINISH_TIME);
    cfg ← gets config;
    mret (PTop (mkLoopVars
      (opt_is_some finish
       && bool_decide (get_string st TARGET_VERSION = Some (Request.os_version (os cfg)))) finish t))
  else mret PDone.

(** The report about the reboot that was waited for, retried until it succeeds. *)
Definition try_report_waited (v : LoopVars) : SM LoopVars :=
  if should_report_waited_for_reboot_duration v then
    finish ← lift (unwrap (update_finish_time v));
    now ← sm_now;
    r ← report_waited_for_reboot_duration finish (state_machine_start_monotonic_time v) now;
    match r with
    | Ok _ =>
      update_storage (λ st, remove_or_log st UPDATE_FINISH_TIME);;
      update_storage (λ st, remove_or_log st TARGET_VERSION);;
      commit_storage;;
      mret (mkLoopVars false (update_finish_time v) (state_machine_start_monotonic_time v))
    | Err _ => mret v
    end
  else mret v.

Definition schedule_next : SM unit :=
  timing ← update_next_update_time;
  make_wait_to_next_check timing.

Definition loop_head (v : LoopVars) : SM Phase :=
  v ← try_report_waited v;
  schedule_next;;
  mret (PWait v).

(** ** A check *)

(** The parameters of a positive decision. *)
Definition decision_params (decision : CheckDecision) : option RequestParams :=
  match decision with
  | CheckOk rp | CheckOkUpdateDeferred rp => Some rp
  | TooSoon | ThrottledByPolicy | CheckDeniedByPolicy => None
  end.

(** The policy's decision; [None] is a negative one. *)
Definition decide_check (options : CheckOptions) : SM (option RequestParams) :=
  apps ← gets (get_apps ∘ app_set);
  ctx ← gets context;
  decision ← call policy_engine set_policy_engine
    (update_check_allowed apps (schedule ctx) (state ctx) options);
  mret (decision_params decision).

(** The check is computed; its effects are still to come. *)
Definition begin_check (v : LoopVars) (options : CheckOptions) (rp : RequestParams) : SM Phase :=
  λ s, match start_update_check rp s with
       | (s', t, out) => (s', [], Ret (PCheck v options t out))
       end.

(** [if let Some(responder) = responder { responder.send(..) }]. *)
Definition answer_to (responder : option nat) (r : StartUpdateCheckResponse) : list Effect :=
  match responder with Some id => [Answered id r] | None => [] end.
Definition respond (responder : option nat) (r : StartUpdateCheckResponse) : SM unit :=
  emits (answer_to responder r).

(** The decision about a check; a check that a request asked for has its responder. *)
Definition consider_check (v : LoopVars) (options : CheckOptions) (responder : option nat) : SM Phase :=
  rp ← decide_check options;
  match rp with
  | Some rp => respond responder Started;; begin_check v options rp
  | None => respond responder Throttled;; mret (PTop v)
  end.

(** A request during a check or a wait: an on-demand one makes the options on-demand. *)
Definition upgrade (options new_options : CheckOptions) : CheckOptions :=
  if decide (source new_options = Request.OnDemand) then mkCheckOptions Request.OnDemand else options.

(** ** Waiting for the reboot *)

(** Asking the policy whether the reboot is allowed now, and going on by the answer. *)
Definition if_reboot_allowed (options : CheckOptions) (install_result : IR) (yes no : SM Phase)
    : SM Phase :=
  call policy_engine set_policy_engine (reboot_allowed options install_result) ≫= λ b : bool,
  emit (RebootAllowedAnswer options b);;
  if b then yes else no.

(** The end of [wait_for_reboot], and of the turn of the loop. *)
Definition do_reboot (v : LoopVars) : SM Phase :=
  emit Rebooted;;
  _ ← call installer set_installer perform_reboot;
  yield_state Idle;;
  mret (PTop v).

Definition begin_reboot (v : LoopVars) (options : CheckOptions) (install_result : IR) : SM Phase :=
  if_reboot_allowed options install_result (do_reboot v)
    (sm_wait_for CHECK_REBOOT_ALLOWED_INTERVAL;;
     schedule_next;;
     mret (PRebootWait v options install_result)).

(** The timer of the reboot fires. *)
Definition on_reboot_timer (v : LoopVars) (options : CheckOptions) (install_result : IR) : SM Phase :=
  if_reboot_allowed options install_result (do_reboot v)
    (sm_wait_for CHECK_REBOOT_ALLOWED_INTERVAL;;
     mret (PRebootWait v options install_result)).

(** The timer of the next ping fires. *)
Definition on_ping_timer (v : LoopVars) (options : CheckOptions) (install_result : IR) : SM Phase :=
  ping_omaha;;
  schedule_next;;
  mret (PRebootWait v options install_result).

(** A request comes in while the reboot is waited for. *)
Definition on_reboot_request (v : LoopVars) (options new_options : CheckOptions)
    (install_result : IR) (responder : nat) : SM Phase :=
  respond (Some responder) AlreadyRunning;;
  if decide (source new_options = Request.OnDemand) then
    let options := upgrade options new_options in
    if_reboot_allowed options install_result (do_reboot v)
      (mret (PRebootWait v options install_result))
  else mret (PRebootWait v options install_result).

(** ** The steps *)

(** What the task does next on its own. *)
Definition internal (p : Phase) : option (SM Phase) :=
  match p with
  | PStart => Some run_start
  | PTop v => Some (loop_head v)
  | PCheck v _ (e :: pending) out => None
  | PCheck v options [] (Ret (Needed install_result)) =>
    Some (yield_state WaitingForReboot;; mret (PReboot v options install_result))
  | PCheck v _ [] (Ret NotNeeded) => Some (yield_state Idle;; mret (PTop v))
  | PCheck _ _ [] (Panic msg) => Some (lift (Panic msg))
  | PReboot v options install_result => Some (begin_reboot v options install_result)
  | PWait _ | PRebootWait _ _ _ | PDone | PPanic _ => None
  end.

(** What it does when one of its timers fires. *)
Definition on_timer (p : Phase) : list (SM Phase) :=
  match p with
  | PWait v => [consider_check v check_options_default None]
  | PRebootWait v options install_result =>
    [on_reboot_timer v options install_result; on_ping_timer v options install_result]
  | _ => []
  end.

(** What it does when it takes a request. *)
Definition on_request (p : Phase) (new_options : CheckOptions) (responder : nat) : option (SM Phase) :=
  match p with
  | PWait v => Some (consider_check v new_options (Some responder))
  | PCheck v options pending out =>
    Some (let options := upgrade options new_options in
          respond (Some responder) AlreadyRunning;; mret (PCheck v options pending out))
  | PRebootWait v options install_result =>
    Some (on_reboot_request v options new_options install_result responder)
  | _ => None
  end.

Definition phase_of (o : outcome Phase) : Phase :=
  match o with Ret p => p | Panic msg => PPanic msg end.

Inductive step : Phase * StateMachine → list Label → Phase * StateMachine → Prop :=
| step_internal p m s s' t o :
    internal p = Some m → m s = (s', t, o) →
    step (p, s) (LEffect <$> t) (phase_of o, s')
| step_effect v options e pending out s :
    step (PCheck v options (e :: pending) out, s) [LEffect e] (PCheck v options pending out, s)
| step_timer p m s s' t o :
    m ∈ on_timer p → m s = (s', t, o) →
    step (p, s) (LTimer :: (LEffect <$> t)) (phase_of o, s')
| step_request p new_options m id s s' t o :
    on_request p new_options id = Some m → m s = (s', t, o) →
    step (p, s) (LRequest id new_options :: (LEffect <$> t)) (phase_of o, s').

(** A run from the beginning, with all it showed. *)
Inductive run (s0 : StateMachine) : list Label → Phase * StateMachine → Prop :=
| run_nil : run s0 [] (PStart, s0)
| run_step l c l' c' : run s0 l c → step c l' c' → run s0 (l ++ l') c'.

Definition effects_of (l : list Label) : list Effect :=
  omap (λ x, match x with LEffect e => Some e | _ => None end) l.

(** The choices of the environment, and a run that follows them. *)
Inductive Choice : Type :=
| ChNext
| ChTimer (n : nat)
| ChRequest (id : nat) (options : CheckOptions).

Definition Task : Type := Phase * StateMachine.
Definition after (pre : list Label) (s : StateMachine) (m : SM Phase) : list Label * Task :=
  match m s with (s', t, o) => (pre ++ (LEffect <$> t), (phase_of o, s')) end.
Definition next (ch : Choice) (c : Task) : option (list Label * Task) :=
  match ch with
  | ChNext =>
    match c.1 with
    | PCheck v options (e :: pending) out => Some ([LEffect e], (PCheck v options pending out, c.2))
    | p => after [] c.2 <$> internal p
    end
  | ChTimer n => after [LTimer] c.2 <$> (on_timer c.1 !! n)
  | ChRequest id new_options =>
    after [LRequest id new_options] c.2 <$> on_request c.1 new_options id
  end.

Fixpoint simulate (chs : list Choice) (c : Task) : option (list Label * Task) :=
  match chs with
  | [] => Some ([], c)
  | ch :: chs' =>
    match next ch c with
    | Some (l, c') =>
      match simulate chs' c' with Some (l', c'') => Some (l ++ l', c'') | None => None end
    | None => None
    end
  end.

(** The answers about the reboot, and the reboots. *)
Definition reboot_of (e : Effect) : option (option bool) :=
  match e with
  | RebootAllowedAnswer _ b => Some (Some b)
  | Rebooted => Some None
  | _ => None
  end.
(** A reboot comes right after the policy allowed it, and then always. *)
Fixpoint reboots_ok (l : list (option bool)) : bool :=
  match l with
  | [] => true
  | Some false :: l' => reboots_ok l'
  | Some true :: None :: l' => reboots_ok l'
  | _ => false
  end.

(** Every request is answered at once, to its own responder, and nothing else is an answer. *)
Fixpoint requests_answered (l : list Label) : bool :=
  match l with
  | [] => true
  | LRequest id _ :: LEffect (Answered id' _) :: l' => (id =? id')%nat && requests_answered l'
  | LRequest _ _ :: _ | LEffect (Answered _ _) :: _ => false
  | (LEffect _ | LTimer) :: l' => requests_answered l'
  end.
Definition answer_of (e : Effect) : option StartUpdateCheckResponse :=
  match e with Answered _ r => Some r | _ => None end.

(** Whether the task has ended; how many turns of its own it takes at most until it waits for
    requests. *)
Definition stopped (p : Phase) : bool :=
  match p with PDone | PPanic _ => true | _ => false end.
Definition turns_left (p : Phase) : nat :=
  match p with PStart | PReboot _ _ _ => 2 | PTop _ => 1 | _ => 0 end.

Definition turns_below (n : nat) (m : SM Phase) : Prop :=
  ∀ s p, returned m s = Ret p → (turns_left p < n)%nat.

(** What holds of the states reported so far when the task is at a phase. *)
Definition phase_ok (l : list State) (p : Phase) : Prop :=
  states_ok Idle l = true ∧
  match p with
  | PStart | PTop _ | PWait _ => last_of l = Idle
  | PCheck _ _ pending out =>
    states_ok (last_of l) (states_of pending) = true ∧
    match out with
    | Ret NotNeeded => next_state (last_of (l ++ states_of pending)) Idle = true
    | Ret (Needed _) => next_state (last_of (l ++ states_of pending)) WaitingForReboot = true
    | Panic _ => True
    end
  | PReboot _ _ _ | PRebootWait _ _ _ => last_of l = WaitingForReboot
  | PDone | PPanic _ => True
  end.

(** A computation keeps the phases right from the states [l] on. *)
Definition goes_on (l : list State) (m : SM Phase) : Prop :=
  observes state_of m (λ o l', phase_ok (l ++ l') (phase_of o)).

(** The effects that only the loop has, and not the check it runs. *)
Definition is_loop_effect (e : Effect) : bool :=
  match e with RebootAllowedAnswer _ _ | Rebooted | Answered _ _ => true | _ => false end.
Class LoopOnly {X} (f : Effect → option X) : Prop :=
  loop_only e : is_loop_effect e = false → f e = None.
(** None of them is among the pending effects of a phase. *)
Definition phase_quiet {X} (f : Effect → option X) (p : Phase) : Prop :=
  match p with PCheck _ _ pending _ => observed f pending = [] | _ => True end.

(** A computation that reboots only when it is allowed to. *)
Definition reboots_well (m : SM Phase) : Prop :=
  observes reboot_of m (λ o l, reboots_ok l = true ∧ phase_quiet reboot_of (phase_of o)).
(** A computation that answers no request, and one that first answers the request of [id]. *)
Definition answers_none (m : SM Phase) : Prop :=
  observes answer_of m (λ o l, l = [] ∧ phase_quiet answer_of (phase_of o)).
Definition answers_first (id : nat) (m : SM Phase) : Prop :=
  ∀ s, ∃ r t, trace m s = Answered id r :: t ∧ observed answer_of t = [] ∧
    phase_quiet answer_of (phase_of (returned m s)).

(** The timers of a check timing: the time it is for, and the least wait when there is one. *)
Definition timers_for (timing : CheckTiming) : list Effect :=
  match minimum_wait timing with Some d => [WaitFor d] | None => [] end ++ [WaitUntil (time timing)].
(** The state machine has just been scheduled by its policy, for its apps and its books. *)
Definition scheduled (s : StateMachine) (t : list Effect) : Prop :=
  ∃ timing pe ctx,
    compute_next_update_time (get_apps (app_set s)) (schedule ctx) (state ctx) pe =
      (Ret timing, policy_engine s) ∧
    context s = set_next_update_time timing ctx ∧
    t = Yield (ScheduleChange (schedule (context s))) :: timers_for timing.

(** ** Lemmas *)

Lemma last_of_app l l' : last_of (l ++ l') = match last l' with Some x => x | None => last_of l end.
Proof. unfold last_of. rewrite last_app. by destruct (last l'). Qed.

Lemma states_ok_app prev l l' :
  states_ok prev (l ++ l') = states_ok prev l && states_ok (unwrap_or (last l) prev) l'.
Proof.
  revert prev. induction l as [|x l IH]; intros prev; [done|]. cbn [app states_ok]. rewrite IH.
  rewrite andb_assoc. do 2 f_equal. destruct l as [|y l]; [done|]. rewrite last_cons_cons.
  destruct (last (y :: l)) eqn:E; [done|by apply last_None in E].
Qed.

Lemma states_ok_snoc l x :
  states_ok Idle l = true → next_state (last_of l) x = true → states_ok Idle (l ++ [x]) = true.
Proof. intros Hl Hx. rewrite states_ok_app, Hl. unfold last_of in Hx. cbn. by rewrite Hx. Qed.

Lemma phase_ok_panic l msg : states_ok Idle l = true → phase_ok (l ++ []) (PPanic msg).
Proof. intros Hl. rewrite app_nil_r. by split. Qed.

Lemma goes_on_silent {A} l (m : SM A) (k : A → SM Phase) :
  states_ok Idle l = true → silent state_of m → (∀ a, goes_on l (k a)) → goes_on l (m ≫= k).
Proof. intros Hl Hm Hk. apply observes_bind_silent; [done..|]. intros msg. by apply phase_ok_panic. Qed.

Lemma goes_on_ret l p : phase_ok l p → goes_on l (mret p).
Proof. intros Hp. apply observes_ret. by rewrite app_nil_r. Qed.

Lemma goes_on_state l x (k : unit → SM Phase) :
  goes_on (l ++ [x]) (k tt) → goes_on l (yield_state x ≫= k).
Proof.
  intros Hk. apply (observes_bind_emit _ _ x); [done|]. eapply observes_mono; [exact Hk|].
  intros o l'. cbn beta. by rewrite <-app_assoc.
Qed.

#[local] Hint Resolve silent_ping silent_update_next_update_time silent_make_wait state_of_background
  silent_report_metrics : respects.

Lemma silent_schedule_next : silent state_of schedule_next.
Proof. unfold schedule_next. repeat respects_step. Qed.
Lemma silent_sm_wait_for d : silent state_of (sm_wait_for d).
Proof.
  unfold sm_wait_for. apply respects_bind; [apply _|by apply silent_emit|intros; apply silent_call].
Qed.
Lemma silent_try_report v : silent state_of (try_report_waited v).
Proof.
  unfold try_report_waited, report_waited_for_reboot_duration, update_storage, commit_storage, sm_now.
  repeat (respects_step || apply silent_modify || apply silent_call || (apply silent_emit; reflexivity) ||
    unfold update_storage).
Qed.
#[local] Hint Resolve silent_schedule_next silent_sm_wait_for silent_try_report : respects.

Lemma goes_on_do_reboot l v :
  states_ok Idle l = true → last_of l = WaitingForReboot → goes_on l (do_reboot v).
Proof.
  intros Hl Hw. unfold do_reboot.
  apply goes_on_silent; [done|by apply silent_emit|intros _].
  apply goes_on_silent; [done|apply silent_call|intros _].
  apply goes_on_state, goes_on_ret. split; [|by rewrite last_of_app].
  apply states_ok_snoc; [done|]. by rewrite Hw.
Qed.

Lemma goes_on_reboot_allowed l o ir yes no :
  states_ok Idle l = true → goes_on l yes → goes_on l no → goes_on l (if_reboot_allowed o ir yes no).
Proof.
  intros Hl Hy Hn. unfold if_reboot_allowed.
  apply goes_on_silent; [done|apply silent_call|intros b].
  apply goes_on_silent; [done|by apply silent_emit|intros _]. by destruct b.
Qed.

(** A check begins from an idle state machine. *)
Lemma begin_check_ok l v o rp :
  states_ok Idle l = true → last_of l = Idle → goes_on l (begin_check v o rp).
Proof.
  intros Hl Hi s. pose proof (start_states rp s) as Hs. unfold returned, trace, begin_check in *.
  destruct (start_update_check rp s) as [[s' t] out]. cbn in Hs |- *. rewrite app_nil_r.
  destruct Hs as [Hok Hout]. split; [done|]. rewrite Hi. split; [exact Hok|].
  assert (last_of (l ++ states_of t) = last_of (states_of t)) as ->.
  { rewrite last_of_app, Hi. unfold last_of. by destruct (last (states_of t)). }
  exact Hout.
Qed.

Lemma silent_respond {X} (f : Effect → option X) responder r :
  (∀ id, f (Answered id r) = None) → silent f (respond responder r).
Proof.
  intros Hf. apply respects_emits. intros s. unfold silent_rel, observed, answer_to.
  destruct responder as [id|]; [|done]. cbn. by rewrite Hf.
Qed.

Lemma consider_check_ok l v o responder :
  states_ok Idle l = true → last_of l = Idle → goes_on l (consider_check v o responder).
Proof.
  intros Hl Hi. unfold consider_check, decide_check.
  apply goes_on_silent; [done|repeat (respects_step || apply silent_call)|].
  intros [rp|]; (apply goes_on_silent; [done|by apply silent_respond|intros _]).
  - by apply begin_check_ok.
  - apply goes_on_ret. by split.
Qed.

(** Each of the three kinds of steps keeps the phases right. *)
Lemma internal_ok l p m : phase_ok l p → internal p = Some m → goes_on l m.
Proof.
  intros [Hl Hp]. destruct p as [|v|v|v o [|e pd] [[ir|]|msg]|v o ir|v o ir| |msg]; try done;
    intros [= <-].
  - unfold run_start, sm_now_in_monotonic. apply goes_on_silent; [done|by apply respects_gets; apply _|].
    intros apps. destruct (all_valid apps); [|apply goes_on_ret; by split].
    apply goes_on_silent; [done|apply silent_call|intros t].
    apply goes_on_silent; [done|by apply respects_gets; apply _|intros st].
    apply goes_on_silent; [done|by apply respects_lift; apply _|intros f].
    apply goes_on_silent; [done|by apply respects_gets; apply _|intros cfg].
    apply goes_on_ret. by split.
  - unfold loop_head. do 2 (apply goes_on_silent; [done|auto with respects|intros]).
    apply goes_on_ret. by split.
  - destruct Hp as [_ Hn]. cbn in Hn. rewrite app_nil_r in Hn.
    apply goes_on_state, goes_on_ret. split; [by apply states_ok_snoc|]. by rewrite last_of_app.
  - destruct Hp as [_ Hn]. cbn in Hn. rewrite app_nil_r in Hn.
    apply goes_on_state, goes_on_ret. split; [by apply states_ok_snoc|]. by rewrite last_of_app.
  - apply observes_lift. by apply phase_ok_panic.
  - apply goes_on_reboot_allowed; [done|by apply goes_on_do_reboot|].
    do 2 (apply goes_on_silent; [done|auto with respects|intros _]). apply goes_on_ret. by split.
Qed.

Lemma timer_ok l p m : phase_ok l p → m ∈ on_timer p → goes_on l m.
Proof.
  intros [Hl Hp]. destruct p as [|v|v|v o pd out|v o ir|v o ir| |msg]; cbn [on_timer];
    try by intros ?%not_elem_of_nil.
  - rewrite list_elem_of_singleton. intros ->. by apply consider_check_ok.
  - rewrite !elem_of_cons. intros [->|[->|?%not_elem_of_nil]]; [| |done].
    + apply goes_on_reboot_allowed; [done|by apply goes_on_do_reboot|].
      apply goes_on_silent; [done|auto with respects|intros _]. apply goes_on_ret. by split.
    + unfold on_ping_timer. do 2 (apply goes_on_silent; [done|auto with respects|intros _]).
      apply goes_on_ret. by split.
Qed.

Lemma request_ok l p o id m : phase_ok l p → on_request p o id = Some m → goes_on l m.
Proof.
  intros [Hl Hp]. destruct p as [|v|v|v o' pd out|v o' ir|v o' ir| |msg]; cbn [on_request];
    try done; intros [= <-].
  - by apply consider_check_ok.
  - apply goes_on_silent; [done|by apply silent_respond|intros _]. apply goes_on_ret. by split.
  - unfold on_reboot_request. apply goes_on_silent; [done|by apply silent_respond|intros _].
    destruct (decide _); [|apply goes_on_ret; by split].
    apply goes_on_reboot_allowed; [done|by apply goes_on_do_reboot|apply goes_on_ret; by split].
Qed.

Lemma effects_of_app l l' : effects_of (l ++ l') = effects_of l ++ effects_of l'.
Proof. apply omap_app. Qed.
Lemma effects_of_fmap t : effects_of (LEffect <$> t) = t.
Proof. unfold effects_of. induction t as [|e t IH]; [done|]. cbn. by rewrite IH. Qed.
Lemma states_of_app t t' : states_of (t ++ t') = states_of t ++ states_of t'.
Proof. apply omap_app. Qed.

Lemma observes_at {A} (m : SM A) Φ s s' t o :
  observes state_of m Φ → m s = (s', t, o) → Φ o (states_of t).
Proof. intros Hm Hs. specialize (Hm s). unfold returned, trace in Hm. by rewrite Hs in Hm. Qed.

Lemma run_phase_ok s0 l c : run s0 l c → phase_ok (states_of (effects_of l)) c.1.
Proof.
  induction 1 as [|l c l' c' Hrun IH Hstep]; [by split|].
  rewrite effects_of_app, states_of_app.
  destruct Hstep as [p m s s' t o Hi Hm|v o e pd out s|p m s s' t o Hi Hm|p no m i s s' t o Hi Hm];
    cbn [fst] in IH |- *.
  - rewrite effects_of_fmap. exact (observes_at m _ s s' t o (internal_ok _ _ _ IH Hi) Hm).
  - destruct IH as (Hl & Hp & Hout).
    change (states_of (effects_of [LEffect e])) with (states_of [e]).
    change (e :: pd) with ([e] ++ pd) in Hp, Hout. rewrite states_of_app in Hp, Hout.
    rewrite states_ok_app in Hp. apply andb_true_iff in Hp as [He Hp].
    unfold phase_ok. rewrite <-app_assoc. split.
    { rewrite states_ok_app, Hl. exact He. }
    split; [|exact Hout]. rewrite last_of_app. by destruct (last (states_of [e])).
  - change (effects_of (LTimer :: (LEffect <$> t))) with (effects_of (LEffect <$> t)).
    rewrite effects_of_fmap. exact (observes_at m _ s s' t o (timer_ok _ _ _ IH Hi) Hm).
  - change (effects_of (LRequest i no :: (LEffect <$> t))) with (effects_of (LEffect <$> t)).
    rewrite effects_of_fmap. exact (observes_at m _ s s' t _ (request_ok _ _ _ _ _ IH Hi) Hm).
Qed.

(** *** Following the choices *)

Lemma after_step p s m l c' : internal p = Some m → after [] s m = (l, c') → step (p, s) l c'.
Proof.
  intros Hi. unfold after. destruct (m s) as [[s' t] o] eqn:Hm. intros [= <- <-].
  by eapply step_internal.
Qed.

Lemma next_step ch c l c' : next ch c = Some (l, c') → step c l c'.
Proof.
  destruct c as [p s], ch as [|n|id no]; cbn [next fst snd].
  - destruct p as [|v|v|v o [|e pd] out|v o ir|v o ir| |msg];
      try (by intros [= <- <-]; constructor);
      destruct (internal _) as [m|] eqn:Hi; try done; intros [= Ha]; by eapply after_step.
  - destruct (on_timer p !! n) as [m|] eqn:Hn; [|done]. cbn. unfold after.
    destruct (m s) as [[s' t] o] eqn:Hm. intros [= <- <-].
    eapply step_timer; [|exact Hm]. by eapply list_elem_of_lookup_2.
  - destruct (on_request p no id) as [m|] eqn:Hn; [|done]. cbn. unfold after.
    destruct (m s) as [[s' t] o] eqn:Hm. intros [= <- <-]. by eapply step_request.
Qed.

Lemma simulate_run s0 l0 c chs l c' :
  run s0 l0 c → simulate chs c = Some (l, c') → run s0 (l0 ++ l) c'.
Proof.
  revert l0 c l. induction chs as [|ch chs IH]; intros l0 c l Hrun; cbn.
  { intros [= <- <-]. by rewrite app_nil_r. }
  destruct (next ch c) as [[l1 c1]|] eqn:Hn; [|done]. cbn.
  destruct (simulate chs c1) as [[l2 c2]|] eqn:Hs; [|done]. intros [= <- <-].
  rewrite app_assoc. eapply IH; [|exact Hs]. eapply run_step; [exact Hrun|by eapply next_step].
Qed.

(** *** Reboots *)

#[export] Instance loop_only_background {X} (f : Effect → option X) : LoopOnly f → Background f.
Proof. intros Hf e He. apply Hf. by destruct e as [[]| | | | | | | | | | | |]. Qed.
#[export] Instance reboot_of_loop_only : LoopOnly reboot_of.
Proof. by intros [| | | | | | | | | | | |]. Qed.
#[export] Instance answer_of_loop_only : LoopOnly answer_of.
Proof. by intros [| | | | | | | | | | | |]. Qed.

Lemma reboot_of_background : Background reboot_of.
Proof. apply _. Qed.
Lemma answer_of_background : Background answer_of.
Proof. apply _. Qed.
#[local] Hint Resolve reboot_of_background answer_of_background silent_do_omaha silent_report_event
  silent_record_first_seen silent_report_check_interval silent_report_response_time silent_backoff
  silent_report_install_duration silent_record_update_finished silent_report_installation
  silent_check_succeeded silent_check_failed silent_persist_data silent_report_metrics : respects.

(** Solves a goal about a check whose effects are none that are looked for. *)
Ltac quiet_check :=
  repeat (respects_step || apply silent_modify || apply silent_call ||
          (apply silent_emit, loop_only; reflexivity) ||
          unfold yield_, yield_state, update_context, update_storage, commit_storage, write_storage,
            sm_now, sm_now_in_walltime, sm_now_in_monotonic, sm_wait_for, sm_wait_until, sm_new_guid,
            sm_new_nonce, sm_random_u64, update_apps).

Section loop_only.
Context {X : Type} (f : Effect → option X) `{!LoopOnly f}.

Lemma quiet_loop_of_requests fuel n b : silent f (request_loop fuel n b).
Proof.
  pose proof (loop_only_background f _) as Hf.
  revert n b. induction fuel as [|fuel IH]; intros n b; cbn; [apply respects_lift; apply _|].
  quiet_check.
Qed.
#[local] Hint Resolve quiet_loop_of_requests : respects.

Lemma quiet_whole_check params : silent f (start_update_check params).
Proof.
  pose proof (loop_only_background f _) as Hf.
  unfold start_update_check, perform_update_check, handle_reply, plan_and_install, install,
    conclude_installation. quiet_check.
Qed.

(** A check starts, or not: the only effect is the answer. *)
Lemma consider_check_quiet v o responder s :
  trace (consider_check v o responder) s =
    answer_to responder (match returned (decide_check o) s with Ret (Some _) => Started | _ => Throttled end) ∧
  phase_quiet f (phase_of (returned (consider_check v o responder) s)).
Proof.
  unfold consider_check, decide_check, begin_check, respond, trace, returned, call, gets, emits, mbind, M_bind.
  cbn. destruct (update_check_allowed _ _ _ _ _) as [d pe]. cbn.
  destruct (decision_params d) as [rp|]; cbn; [|by rewrite app_nil_r].
  pose proof (quiet_whole_check rp (set_policy_engine pe s)) as Hs. unfold silent_rel, trace in Hs.
  destruct (start_update_check rp _) as [[s' t] out]. cbn. by rewrite app_nil_r.
Qed.
End loop_only.

Lemma reboots_silent {A} (m : SM A) (k : A → SM Phase) :
  silent reboot_of m → (∀ a, reboots_well (k a)) → reboots_well (m ≫= k).
Proof. intros Hm Hk. by apply observes_bind_silent. Qed.
Lemma reboots_ret p : phase_quiet reboot_of p → reboots_well (mret p).
Proof. intros Hp. by apply observes_ret. Qed.

Lemma reboots_if_allowed v o ir no :
  reboots_well no → reboots_well (if_reboot_allowed o ir (do_reboot v) no).
Proof.
  intros Hno. unfold if_reboot_allowed. apply reboots_silent; [apply silent_call|intros b].
  apply (observes_bind_emit _ _ (Some b)); [done|]. destruct b.
  - unfold do_reboot. apply (observes_bind_emit _ _ None); [done|].
    apply observes_bind_silent; [apply silent_call| |done]. intros _.
    apply observes_bind_silent; [by apply silent_emit| |done]. intros _. by apply observes_ret.
  - exact Hno.
Qed.
Lemma reboots_schedule_next : silent reboot_of schedule_next.
Proof. unfold schedule_next. quiet. Qed.
#[local] Hint Resolve reboots_schedule_next : respects.

Lemma reboots_consider v o responder : reboots_well (consider_check v o responder).
Proof.
  intros s. destruct (consider_check_quiet reboot_of v o responder s) as [-> Hp]. split; [|done].
  unfold observed, answer_to. by destruct responder.
Qed.

Lemma internal_reboots p m : phase_quiet reboot_of p → internal p = Some m → reboots_well m.
Proof.
  intros Hp. destruct p as [|v|v|v o [|e pd] [[ir|]|msg]|v o ir|v o ir| |msg]; try done; intros [= <-].
  - unfold run_start. apply reboots_silent; [quiet|]. intros apps.
    destruct (all_valid apps); [|by apply reboots_ret].
    repeat (apply reboots_silent; [quiet|intros]). by apply reboots_ret.
  - unfold loop_head, try_report_waited, report_waited_for_reboot_duration.
    repeat (apply reboots_silent; [quiet|intros]). by apply reboots_ret.
  - apply reboots_silent; [by apply silent_emit|]. intros _. by apply reboots_ret.
  - apply reboots_silent; [by apply silent_emit|]. intros _. by apply reboots_ret.
  - by apply observes_lift.
  - apply reboots_if_allowed. repeat (apply reboots_silent; [quiet|intros]). by apply reboots_ret.
Qed.

Lemma timer_reboots p m : m ∈ on_timer p → reboots_well m.
Proof.
  destruct p as [|v|v|v o pd out|v o ir|v o ir| |msg]; cbn [on_timer]; try by intros ?%not_elem_of_nil.
  - rewrite list_elem_of_singleton. intros ->.
    apply reboots_consider.
  - rewrite !elem_of_cons. intros [->|[->|?%not_elem_of_nil]]; [| |done].
    + apply reboots_if_allowed. repeat (apply reboots_silent; [quiet|intros]). by apply reboots_ret.
    + unfold on_ping_timer. repeat (apply reboots_silent; [quiet|intros]). by apply reboots_ret.
Qed.

Lemma request_reboots p o id m :
  phase_quiet reboot_of p → on_request p o id = Some m → reboots_well m.
Proof.
  intros Hp. destruct p as [|v|v|v o' pd out|v o' ir|v o' ir| |msg]; cbn [on_request];
    try done; intros [= <-].
  - apply reboots_consider.
  - apply reboots_silent; [by apply silent_respond|intros _]. by apply reboots_ret.
  - unfold on_reboot_request. apply reboots_silent; [by apply silent_respond|intros _].
    destruct (decide _); [|by apply reboots_ret]. by apply reboots_if_allowed, reboots_ret.
Qed.

Lemma reboots_ok_app l l' : reboots_ok l = true → reboots_ok l' = true → reboots_ok (l ++ l') = true.
Proof.
  intros Hl Hl'. revert Hl. remember (length l) as n eqn:Hn. revert l Hn.
  induction (lt_wf n) as [n _ IH]. intros l ->.
  destruct l as [|[[]|] l]; cbn; try done.
  - destruct l as [|[b|] l]; try done. intros Hl. by apply (IH (length l)); [cbn; lia| |].
  - intros Hl. by apply (IH (length l)); [cbn; lia| |].
Qed.

Lemma observes_at' {X A} (f : Effect → option X) (m : SM A) Φ s s' t o :
  observes f m Φ → m s = (s', t, o) → Φ o (observed f t).
Proof. intros Hm Hs. specialize (Hm s). unfold returned, trace in Hm. by rewrite Hs in Hm. Qed.

Lemma step_reboots p s l p' s' :
  step (p, s) l (p', s') → phase_quiet reboot_of p →
  reboots_ok (observed reboot_of (effects_of l)) = true ∧ phase_quiet reboot_of p'.
Proof.
  intros Hstep Hp. inversion Hstep as
    [p0 m s0 s1 t o Hi Hm|v o e pd out s0|p0 m s0 s1 t o Hi Hm|p0 no m i s0 s1 t o Hi Hm]; subst.
  - rewrite effects_of_fmap.
    exact (observes_at' reboot_of m _ s s' t o (internal_reboots _ _ Hp Hi) Hm).
  - cbn in *. destruct (reboot_of e); [done|]. by split.
  - change (effects_of (LTimer :: (LEffect <$> t))) with (effects_of (LEffect <$> t)).
    rewrite effects_of_fmap.
    exact (observes_at' reboot_of m _ s s' t o (timer_reboots _ _ Hi) Hm).
  - change (effects_of (LRequest i no :: (LEffect <$> t))) with (effects_of (LEffect <$> t)).
    rewrite effects_of_fmap.
    exact (observes_at' reboot_of m _ s s' t _ (request_reboots _ _ _ _ Hp Hi) Hm).
Qed.

(** *** Answers *)

Lemma answers_silent {A} (m : SM A) (k : A → SM Phase) :
  silent answer_of m → (∀ a, answers_none (k a)) → answers_none (m ≫= k).
Proof. intros Hm Hk. by apply observes_bind_silent. Qed.
Lemma answers_ret p : phase_quiet answer_of p → answers_none (mret p).
Proof. intros Hp. by apply observes_ret. Qed.
Lemma answers_if_allowed v o ir no :
  answers_none no → answers_none (if_reboot_allowed o ir (do_reboot v) no).
Proof.
  intros Hno. unfold if_reboot_allowed. do 2 (apply answers_silent; [quiet|intros]).
  case_match; [|done]. unfold do_reboot. repeat (apply answers_silent; [quiet|intros]). by apply answers_ret.
Qed.
Lemma answers_schedule_next : silent answer_of schedule_next.
Proof. unfold schedule_next. quiet. Qed.
#[local] Hint Resolve answers_schedule_next : respects.

Lemma internal_answers p m : phase_quiet answer_of p → internal p = Some m → answers_none m.
Proof.
  intros Hp. destruct p as [|v|v|v o [|e pd] [[ir|]|msg]|v o ir|v o ir| |msg]; try done; intros [= <-].
  - unfold run_start. apply answers_silent; [quiet|]. intros apps.
    destruct (all_valid apps); [|by apply answers_ret].
    repeat (apply answers_silent; [quiet|intros]). by apply answers_ret.
  - unfold loop_head, try_report_waited, report_waited_for_reboot_duration.
    repeat (apply answers_silent; [quiet|intros]). by apply answers_ret.
  - apply answers_silent; [quiet|]. intros _. by apply answers_ret.
  - apply answers_silent; [quiet|]. intros _. by apply answers_ret.
  - by apply observes_lift.
  - apply answers_if_allowed. repeat (apply answers_silent; [quiet|intros]). by apply answers_ret.
Qed.
Lemma timer_answers p m : m ∈ on_timer p → answers_none m.
Proof.
  destruct p as [|v|v|v o pd out|v o ir|v o ir| |msg]; cbn [on_timer]; try by intros ?%not_elem_of_nil.
  - rewrite list_elem_of_singleton. intros -> s.
    destruct (consider_check_quiet answer_of v check_options_default None s) as [-> Hp]. by split.
  - rewrite !elem_of_cons. intros [->|[->|?%not_elem_of_nil]]; [| |done].
    + apply answers_if_allowed. repeat (apply answers_silent; [quiet|intros]). by apply answers_ret.
    + unfold on_ping_timer. repeat (apply answers_silent; [quiet|intros]). by apply answers_ret.
Qed.

Lemma answers_respond id r (k : unit → SM Phase) :
  answers_none (k tt) → answers_first id (respond (Some id) r ≫= k).
Proof.
  intros Hk s. specialize (Hk s). unfold respond, answer_to, trace, returned, emits, mbind, M_bind in *.
  destruct (k tt s) as [[s' t] o]. exists r, t. by destruct Hk.
Qed.
Lemma request_answers p o id m :
  phase_quiet answer_of p → on_request p o id = Some m → answers_first id m.
Proof.
  intros Hp. destruct p as [|v|v|v o' pd out|v o' ir|v o' ir| |msg]; cbn [on_request];
    try done; intros [= <-].
  - intros s. destruct (consider_check_quiet answer_of v o (Some id) s) as [-> Hq]. by eexists _, [].
  - by apply answers_respond, answers_ret.
  - apply answers_respond. destruct (decide _); [|by apply answers_ret].
    by apply answers_if_allowed, answers_ret.
Qed.

Lemma answered_effects t : observed answer_of t = [] → requests_answered (LEffect <$> t) = true.
Proof. induction t as [|e t IH]; [done|]. cbn. by destruct e. Qed.
Lemma answered_app l l' :
  requests_answered l = true → requests_answered (l ++ l') = requests_answered l'.
Proof.
  remember (length l) as n eqn:Hn. revert l Hn. induction (lt_wf n) as [n _ IH]. intros l ->.
  destruct l as [|[e| |id o] l]; try done.
  - destruct e; try done; intros Hl; cbn; apply (IH (length l)); (cbn; lia) || done.
  - intros Hl. cbn. apply (IH (length l)); [cbn; lia|done..].
  - destruct l as [|[[]| |] l]; try done. cbn. intros [Hid Hl]%andb_true_iff.
    rewrite Hid. apply (IH (length l)); [cbn; lia|done..].
Qed.

Lemma step_answers c l c' :
  step c l c' → phase_quiet answer_of c.1 → requests_answered l = true ∧ phase_quiet answer_of c'.1.
Proof.
  intros [p m s s' t o Hi Hm|v o e pd out s|p m s s' t o Hi Hm|p no m i s s' t o Hi Hm] Hp; cbn [fst] in *.
  - destruct (observes_at' answer_of m _ s s' t o (internal_answers _ _ Hp Hi) Hm).
    split; [by apply answered_effects|done].
  - cbn in *. by destruct e.
  - destruct (observes_at' answer_of m _ s s' t o (timer_answers _ _ Hi) Hm).
    split; [by apply answered_effects|done].
  - destruct (request_answers _ _ _ _ Hp Hi s) as (r & t' & Ht & Hno & Hq).
    unfold trace, returned in Ht, Hq. rewrite Hm in Ht, Hq. cbn in Ht, Hq. subst t. split; [|done].
    cbn. rewrite Nat.eqb_refl. by apply answered_effects.
Qed.

(** Considering a check, computed. *)
Lemma consider_check_eq v o responder s :
  consider_check v o responder s =
  let '(decision, pe) := update_check_allowed (get_apps (app_set s)) (schedule (context s))
    (state (context s)) o (policy_engine s) in
  match decision_params decision with
  | Some rp =>
    match start_update_check rp (set_policy_engine pe s) with
    | (s', t, out) => (s', answer_to responder Started, Ret (PCheck v o t out))
    end
  | None => (set_policy_engine pe s, answer_to responder Throttled, Ret (PTop v))
  end.
Proof.
  unfold consider_check, decide_check, begin_check, respond, emits, call, gets, mbind, M_bind. cbn.
  destruct (update_check_allowed _ _ _ _ _) as [d pe]. cbn.
  destruct (decision_params d) as [rp|]; cbn; [|by rewrite app_nil_r].
  destruct (start_update_check rp _) as [[s' t] out]. by rewrite app_nil_r.
Qed.

(** *** Waiting for the next check *)

Lemma wp_schedule_next s :
  wp schedule_next (λ o s' t, match o with Ret _ => scheduled s' t | Panic _ => True end) s.
Proof.
  unfold wp, scheduled, timers_for, schedule_next, update_next_update_time, make_wait_to_next_check,
    sm_wait_for, sm_wait_until, update_context, yield_, call, gets, modify, emit, lift, mbind, M_bind. cbn.
  destruct (compute_next_update_time _ _ _ _) as [[timing|msg] pe] eqn:Hc; cbn; [|done].
  destruct (minimum_wait timing) as [d|] eqn:Hd; cbn;
    exists timing, (policy_engine s), (context s); by rewrite Hd.
Qed.

Lemma wp_loop_head v s :
  wp (loop_head v) (λ o s' t, match o with
    | Ret _ => ∃ before t', t = before ++ t' ∧ scheduled s' t'
    | Panic _ => True
    end) s.
Proof.
  unfold loop_head. wp_step. destruct (try_report_waited v s) as [[s1 t1] [v1|msg]] eqn:Hm; unfold wp at 1;
    rewrite Hm; [|done].
  wp_step. eapply wp_mono; [|apply wp_schedule_next]. intros [[]|msg] s2 t2 H2; [|done].
  wp_step. exists t1, t2. by rewrite app_nil_r.
Qed.

(** The phases where the task does not wait for the next check. *)
Definition elsewhere (p : Phase) : Prop := match p with PWait _ => False | _ => True end.
Ltac elsewhere := repeat (apply returns_then; intros); by apply returns_ret.
Lemma begin_check_elsewhere v o rp : returns elsewhere (begin_check v o rp).
Proof.
  intros s p. unfold begin_check, returned. by destruct (start_update_check rp s) as [[s' t] out]; intros [= <-].
Qed.
Lemma consider_elsewhere v o responder : returns elsewhere (consider_check v o responder).
Proof.
  unfold consider_check. apply returns_then. intros [rp|]; [|elsewhere].
  apply returns_then. intros _. apply begin_check_elsewhere.
Qed.
Lemma reboot_allowed_elsewhere v o ir no :
  returns elsewhere no → returns elsewhere (if_reboot_allowed o ir (do_reboot v) no).
Proof.
  intros Hno. unfold if_reboot_allowed. apply returns_then. intros b. apply returns_then. intros _.
  destruct b; [|done]. unfold do_reboot. elsewhere.
Qed.
Lemma internal_elsewhere p m : internal p = Some m → (∃ v, p = PTop v) ∨ returns elsewhere m.
Proof.
  destruct p as [|v|v|v o [|e pd] [[ir|]|msg]|v o ir|v o ir| |msg]; try done; intros [= <-];
    try (by left; exists v); right; try elsewhere.
  - unfold run_start. apply returns_then. intros apps. destruct (all_valid apps); elsewhere.
  - by apply returns_lift.
  - apply reboot_allowed_elsewhere. elsewhere.
Qed.
Lemma timer_elsewhere p m : m ∈ on_timer p → returns elsewhere m.
Proof.
  destruct p as [|v|v|v o pd out|v o ir|v o ir| |msg]; cbn [on_timer]; try by intros ?%not_elem_of_nil.
  - rewrite list_elem_of_singleton. intros ->. apply consider_elsewhere.
  - rewrite !elem_of_cons. intros [->|[->|?%not_elem_of_nil]]; [| |done].
    + apply reboot_allowed_elsewhere. elsewhere.
    + unfold on_ping_timer. elsewhere.
Qed.
Lemma request_elsewhere p o id m : on_request p o id = Some m → returns elsewhere m.
Proof.
  destruct p as [|v|v|v o' pd out|v o' ir|v o' ir| |msg]; try done; intros [= <-].
  - apply consider_elsewhere.
  - elsewhere.
  - unfold on_reboot_request. apply returns_then. intros _. destruct (decide _); [|elsewhere].
    apply reboot_allowed_elsewhere. elsewhere.
Qed.
Lemma returns_at (P : Phase → Prop) (m : SM Phase) s s' t v :
  returns P m → m s = (s', t, Ret v) → P v.
Proof. intros Hm Hs. apply (Hm s). unfold returned. by rewrite Hs. Qed.

Lemma turns_below_bind {A} n (m : SM A) (k : A → SM Phase) :
  (∀ a, turns_below n (k a)) → turns_below n (m ≫= k).
Proof.
  intros Hk s p. unfold returned, mbind, M_bind.
  destruct (m s) as [[s1 t1] [a|msg]]; [|done]. specialize (Hk a s1 p). unfold returned in Hk.
  by destruct (k a s1) as [[s2 t2] o].
Qed.
Lemma turns_below_ret n p : (turns_left p < n)%nat → turns_below n (mret p).
Proof. by intros Hp s p' [= <-]. Qed.

(** A turn of the task brings it nearer to waiting for requests. *)
Lemma turn_nearer p m : internal p = Some m → (0 < turns_left p)%nat → turns_below (turns_left p) m.
Proof.
  destruct p as [|v|v|v o [|e pd] out|v o ir|v o ir| |msg]; try done; cbn; try lia.
  - intros [= <-] _. unfold run_start. apply turns_below_bind. intros apps.
    destruct (all_valid apps); [|apply turns_below_ret; cbn; lia].
    repeat (apply turns_below_bind; intros ?). apply turns_below_ret. cbn. lia.
  - intros [= <-] _. repeat (apply turns_below_bind; intros ?). apply turns_below_ret. cbn. lia.
  - intros [= <-] _. unfold begin_reboot, if_reboot_allowed.
    apply turns_below_bind. intros b. apply turns_below_bind. intros _. destruct b;
      repeat (apply turns_below_bind; intros ?); apply turns_below_ret; cbn; lia.
Qed.

Lemma turns_to_ready p s :
  ∃ n l1 c1, (n ≤ turns_left p)%nat ∧ simulate (replicate n ChNext) (p, s) = Some (l1, c1) ∧
    turns_left c1.1 = 0%nat.
Proof.
  remember (turns_left p) as k eqn:Hk. revert p s Hk.
  induction k as [k IH] using lt_wf_ind; intros p s Hk.
  destruct (decide (k = 0%nat)) as [->|Hne]; [by exists 0%nat, [], (p, s)|].
  destruct (internal p) as [m|] eqn:Hi.
  2: { destruct p as [| | |? ? [|] []| | | |]; try done; by cbn in Hk. }
  pose proof (turn_nearer p m Hi) as Hm. rewrite <-Hk in Hm. specialize (Hm ltac:(lia) s).
  destruct (m s) as [[s' t] o] eqn:Hms. unfold returned in Hm. rewrite Hms in Hm. cbn in Hm.
  assert (turns_left (phase_of o) < k)%nat as Hlt by (destruct o; [by apply Hm|cbn; lia]).
  destruct (IH _ Hlt (phase_of o) s' eq_refl) as (n & l1 & c1 & Hn & Hs & H1).
  exists (S n), ((LEffect <$> t) ++ l1), c1. split; [lia|]. split; [|done].
  cbn [replicate simulate].
  assert (next ChNext (p, s) = Some (LEffect <$> t, (phase_of o, s'))) as ->.
  { destruct p as [| | |? ? [|]| | | |]; try (by cbn in Hk);
      cbn [next fst snd]; rewrite Hi; cbn; unfold after; by rewrite Hms. }
  cbn in Hs. by rewrite Hs.
Qed.

(** Whoever waits for requests takes one. *)
Lemma ready_takes_request id new_options p s :
  turns_left p = 0%nat → phase_quiet answer_of p →
  stopped p = true ∨
  ∃ r t c2, step (p, s) (LRequest id new_options :: LEffect (Answered id r) :: (LEffect <$> t)) c2.
Proof.
  intros Hturns Hp. destruct (on_request p new_options id) as [m|] eqn:Hon.
  - right. destruct (request_answers _ _ _ _ Hp Hon s) as (r & t & Ht & _).
    destruct (m s) as [[s' t'] o] eqn:Hm. unfold trace in Ht. rewrite Hm in Ht. cbn in Ht. subst t'.
    exists r, t, (phase_of o, s'). by eapply (step_request p new_options m id s s' (Answered id r :: t)).
  - left. by destruct p.
Qed.

Lemma run_answers s0 l c : run s0 l c → requests_answered l = true ∧ phase_quiet answer_of c.1.
Proof.
  induction 1 as [|l c l' c' Hrun [IH Hp] Hstep]; [done|]. rewrite answered_app by done.
  by eapply step_answers.
Qed.

(** ** Properties *)

(** C1: over a whole run, whatever the environment does, the states the state machine reports
    follow each other as [next_state] allows: a check starts from idle, an installation only from
    a check, the wait for a reboot only from an installation, and each turn ends in idle. *)
Theorem run_follows_state_protocol s0 l c :
  run s0 l c → states_ok Idle (states_of (effects_of l)) = true.
Proof. intros Hrun. apply (run_phase_ok _ _ _ Hrun). Qed.

(** C2: the system is rebooted only when the policy was asked whether a reboot is allowed and
    answered yes, right before, and then it always is; an answer that it is not allowed is never
    followed by a reboot without another question. *)
Theorem reboots_only_when_allowed s0 l c :
  run s0 l c → reboots_ok (observed reboot_of (effects_of l)) = true.
Proof.
  intros Hrun. enough (reboots_ok (observed reboot_of (effects_of l)) = true ∧ phase_quiet reboot_of c.1)
    by tauto.
  induction Hrun as [|l [p s] l' [p' s'] Hrun [IH Hp] Hstep]; [by split|].
  destruct (step_reboots _ _ _ _ _ Hstep Hp) as [Hl' Hp']. split; [|done].
  rewrite effects_of_app. unfold observed. rewrite omap_app. by apply reboots_ok_app.
Qed.


(** C15: whenever the task waits for the next check, the wait is the one its policy asked for: the last
    it did was to ask the policy for the time of the next check, for the apps and the books that it
    has, to store that time and to announce it, and to set the timers for it, the one for the least
    wait as well when the policy wants one. *)
Theorem waits_are_armed s0 l v s :
  run s0 l (PWait v, s) → ∃ before t, effects_of l = before ++ t ∧ scheduled s t.
Proof.
  intros Hrun. remember (PWait v, s) as c eqn:Hc.
  destruct Hrun as [|l c1 l' c2 Hrun Hstep]; [done|]. subst c2.
  enough (∃ before t, effects_of l' = before ++ t ∧ scheduled s t) as (before & t & Ht & Hs).
  { exists (effects_of l ++ before), t. by rewrite effects_of_app, Ht, app_assoc. }
  clear Hrun. inversion Hstep as [p m s1 s' t o Hi Hm|? ? ? ? ? ?|p m s1 s' t o Hi Hm|p no m i s1 s' t o Hi Hm];
    subst; (destruct o as [p'|msg]; [|done]); cbn in *; subst p'.
  - destruct (internal_elsewhere p m Hi) as [[v' ->]|He]; [|by destruct (returns_at _ _ _ _ _ _ He Hm)].
    injection Hi as <-. pose proof (wp_loop_head v' s1) as Hw. unfold wp in Hw. rewrite Hm in Hw.
    by rewrite effects_of_fmap.
  - by destruct (returns_at _ _ _ _ _ _ (timer_elsewhere _ _ Hi) Hm).
  - by destruct (returns_at _ _ _ _ _ _ (request_elsewhere _ _ _ _ Hi) Hm).
Qed.

(** C14: what the answer to a request means.  An idle state machine starts a check when the policy
    allows it, with the parameters of the policy, and answers that it did; otherwise it answers
    that the request is throttled and goes back to scheduling.  During a check and while a reboot
    is waited for, the answer is that it is already running, and an on-demand request makes the
    running options on-demand; one that comes while a reboot is waited for has the policy asked
    again, under these options, and the system rebooted when it allows that. *)
Theorem request_answer_meaning p s id new_options m s' t p' :
  on_request p new_options id = Some m → m s = (s', t, Ret p') →
  match p with
  | PWait v =>
    let '(decision, pe) := update_check_allowed (get_apps (app_set s)) (schedule (context s))
      (state (context s)) new_options (policy_engine s) in
    match decision with
    | CheckOk rp | CheckOkUpdateDeferred rp =>
      t = [Answered id Started] ∧ ∃ pending out, p' = PCheck v new_options pending out ∧
        start_update_check rp (set_policy_engine pe s) = (s', pending, out)
    | TooSoon | ThrottledByPolicy | CheckDeniedByPolicy => t = [Answered id Throttled] ∧ p' = PTop v
    end
  | PCheck v options pending out =>
    s' = s ∧ t = [Answered id AlreadyRunning] ∧
    p' = PCheck v (if decide (source new_options = Request.OnDemand)
                   then mkCheckOptions Request.OnDemand else options) pending out
  | PRebootWait v options ir =>
    (source new_options ≠ Request.OnDemand →
     s' = s ∧ t = [Answered id AlreadyRunning] ∧ p' = PRebootWait v options ir) ∧
    (source new_options = Request.OnDemand →
     if (reboot_allowed (mkCheckOptions Request.OnDemand) ir (policy_engine s)).1
     then p' = PTop v ∧
       t = [Answered id AlreadyRunning; RebootAllowedAnswer (mkCheckOptions Request.OnDemand) true;
            Rebooted; Yield (StateChange Idle)]
     else p' = PRebootWait v (mkCheckOptions Request.OnDemand) ir ∧
       t = [Answered id AlreadyRunning; RebootAllowedAnswer (mkCheckOptions Request.OnDemand) false])
  | _ => False
  end ∧ step (p, s) (LRequest id new_options :: (LEffect <$> t)) (p', s').
Proof.
  intros Hon Hm. split; [|exact (step_request p new_options m id s s' t (Ret p') Hon Hm)].
  destruct p as [|v|v|v o pd out|v o ir|v o ir| |msg]; try done; injection Hon as <-.
  - rewrite consider_check_eq in Hm. destruct (update_check_allowed _ _ _ _ _) as [d pe].
    destruct d as [rp|rp| | |]; cbn [decision_params] in Hm;
      try (destruct (start_update_check rp (set_policy_engine pe s)) as [[s2 t2] out]);
      injection Hm as <- <- <-; eauto 10.
  - by injection Hm as <- <- <-.
  - unfold on_reboot_request in Hm. case_decide as Ho.
    + unfold upgrade in Hm. rewrite decide_True in Hm by done. revert Hm.
      unfold if_reboot_allowed, do_reboot, mbind, M_bind, call. cbn.
      destruct (reboot_allowed _ _ _) as [[] pe]; cbn.
      * destruct (perform_reboot _) as [x i]. cbn. intros [= <- <- <-]. naive_solver.
      * intros [= <- <- <-]. naive_solver.
    + by injection Hm as <- <- <-.
Qed.
End run_loop.

From S2P Require Import Examples.

(** A run with an installed update and a reboot, with two requests on the way. *)
Lemma example_run :
  ∃ l c, run updating_machine l c ∧
    bool_decide (length (states_of (effects_of l)) = 4%nat ∧
      observed reboot_of (effects_of l) = [Some true; None]) = true.
Proof.
  set (chs := [ChNext; ChNext; ChRequest 7 (mkCheckOptions Request.ScheduledTask);
    ChRequest 8 (mkCheckOptions Request.OnDemand)] ++ replicate 25 ChNext).
  assert (match simulate chs (PStart, updating_machine) with
          | Some (l, _) => bool_decide (length (states_of (effects_of l)) = 4%nat ∧
              observed reboot_of (effects_of l) = [Some true; None])
          | None => false
          end = true) as Hb by (vm_compute; reflexivity).
  destruct (simulate chs (PStart, updating_machine)) as [[l c]|] eqn:E; [|discriminate Hb].
  exists l, c. split; [|exact Hb].
  exact (simulate_run updating_machine [] (PStart, updating_machine) chs l c (run_nil _) E).
Qed.

Lemma run_follows_state_protocol_witness :
  ∃ l c, run updating_machine l c ∧ length (states_of (effects_of l)) = 4%nat ∧
    states_ok Idle (states_of (effects_of l)) = true.
Proof.
  destruct example_run as (l & c & Hrun & [Hs _]%bool_decide_eq_true_1). exists l, c.
  split; [exact Hrun|]. split; [exact Hs|]. exact (run_follows_state_protocol updating_machine l c Hrun).
Defined.

Lemma reboots_only_when_allowed_witness :
  ∃ l c, run updating_machine l c ∧ observed reboot_of (effects_of l) = [Some true; None] ∧
    reboots_ok (observed reboot_of (effects_of l)) = true.
Proof.
  destruct example_run as (l & c & Hrun & [_ Hs]%bool_decide_eq_true_1). exists l, c.
  split; [exact Hrun|]. split; [exact Hs|]. exact (reboots_only_when_allowed updating_machine l c Hrun).
Defined.

(** Two turns lead to the first wait. *)
Lemma waits_are_armed_witness :
  ∃ l v s, run updating_machine l (PWait v, s) ∧ ∃ before t, effects_of l = before ++ t ∧ scheduled s t.
Proof.
  assert (match simulate [ChNext; ChNext] (PStart, updating_machine) with
          | Some (_, (PWait _, _)) => true
          | _ => false
          end = true) as Hb by (vm_compute; reflexivity).
  destruct (simulate [ChNext; ChNext] (PStart, updating_machine)) as [[l [p s]]|] eqn:E; [|discriminate Hb].
  destruct p as [| |v| | | | |]; try discriminate Hb.
  pose proof (simulate_run updating_machine [] (PStart, updating_machine) _ l _ (run_nil _) E) as Hrun.
  exists l, v, s. split; [exact Hrun|]. exact (waits_are_armed updating_machine l v s Hrun).
Defined.


(** A request during a check that is still going on. *)
Lemma request_answer_meaning_witness :
  let v := mkLoopVars false None 0 in
  let o := mkCheckOptions Request.ScheduledTask in
  let p := PCheck v o [Committed] (Ret NotNeeded) in
  let o' := mkCheckOptions Request.OnDemand in
  let p' := PCheck v o' [Committed] (Ret NotNeeded) in
  (updating_machine = updating_machine ∧ [Answered 3 AlreadyRunning] = [Answered 3 AlreadyRunning] ∧
   p' = PCheck v (if decide (source o' = Request.OnDemand) then mkCheckOptions Request.OnDemand else o)
          [Committed] (Ret NotNeeded)) ∧
  step (p, updating_machine) (LRequest 3 o' :: (LEffect <$> [Answered 3 AlreadyRunning])) (p', updating_machine).
Proof.
  intros v o p o' p'.
  exact (request_answer_meaning p updating_machine 3 o' _ updating_machine [Answered 3 AlreadyRunning] p'
    eq_refl eq_refl).
Defined.
