(* ===== verification/Invariant.v ===== *)
(** * What stays true of a running client

    [client_inv] holds of the state machine at every place where the task waits: the counters and
    the dates are in the range of their types, the poll interval is one that a server may dictate,
    or the one the client began with, the apps are the ones the client
    was started with (their ids, versions, fingerprints and extra fields), and so are the
    configuration and the CUP handler. *)

From S2P Require Import Prelude Serde Effects Time Version Protocol Storage Common UpdateCheck AppSet.
From S2P Require Import UriExt Http Cup RequestBuilder Metrics Installer Policy Machine Omaha Check.
From S2P Require Import Trace Requests Typed Books RunLoop.
From S2P Require Request Response.
Open Scope Z_scope.

(** What no operation changes of an app. *)
Definition app_key (a : App) : string * Version * option string * gmap string string :=
  (app_id a, app_version a, app_fingerprint a, app_extra_fields a).

Section invariant.
Context `{Client} `{!AppSetSpec AS}.

(** The poll interval that the server dictated, if any. *)
Definition poll_interval (s : StateMachine) : option Duration :=
  server_dictated_poll_interval (state (context s)).
Definition poll_since (s0 s : StateMachine) : Prop :=
  poll_interval s = poll_interval s0 ∨ dictated_interval (poll_interval s).

Definition client_inv (s0 s : StateMachine) : Prop :=
  machine_typed s ∧ app_key <$> get_apps (app_set s) = app_key <$> get_apps (app_set s0) ∧
  config s = config s0 ∧ cup_handler s = cup_handler s0 ∧ poll_since s0 s.

(** The phases of a task that has not panicked, and will not when its check is over. *)
Definition sound (p : Phase) : Prop :=
  match p with PPanic _ | PCheck _ _ _ (Panic _) => False | _ => True end.

(** ** Lemmas *)

Lemma app_update_from_omaha_key rs a : app_key (app_update_from_omaha rs a) = app_key a.
Proof. induction rs as [|r rs IH]; [done|]. cbn. by case_decide. Qed.
Lemma update_from_omaha_keys {AS'} `{AppSetSpec AS'} rs (a : AS') :
  app_key <$> get_apps (update_from_omaha rs a) = app_key <$> get_apps a.
Proof.
  unfold update_from_omaha. rewrite get_apps_iter_mut, <-list_fmap_compose.
  apply list_fmap_ext. intros _ x _. apply app_update_from_omaha_key.
Qed.

(** The relation of the computations that keep the invariant by leaving alone what it is about,
    but for the poll interval. *)
Definition inert (s : StateMachine) (t : list Effect) (s' : StateMachine) : Prop :=
  check_frame s t s' ∧ config s' = config s ∧ cup_handler s' = cup_handler s.
#[export] Instance inert_step : StepRel inert.
Proof.
  split; [intros s; split; [apply step_refl|done]|]. intros s1 t1 s2 t2 s3 (? & ? & ?) (? & ? & ?).
  split; [by eapply step_trans|]. split; congruence.
Qed.

Context (s0 : StateMachine).

Lemma inert_maintains {A} (m : SM A) : respects inert m → maintains (client_inv s0) m.
Proof.
  intros Hm s ([[Hf Hp] Ha] & Hk & Hc & Hh & Hd). specialize (Hm s).
  destruct (returned m s); [|done]. destruct Hm as ((Has & _ & _ & Hf' & _ & Hp') & Hc' & Hh').
  split; [split; [split|]|].
  - by rewrite Hf'.
  - destruct Hp' as [->|Hp']; [done|]. by eapply dictated_valid.
  - by rewrite Has.
  - rewrite Has, Hc', Hh'. split_and!; try done.
    unfold poll_since, poll_interval in *. destruct Hp' as [->|Hp']; [done|by right].
Qed.

Lemma inert_emit e : respects inert (emit e).
Proof. apply respects_emit. intros s. split; [|done]. split_and!; auto. Qed.

(** Solves the frame of a computation whose calls change nothing of interest. *)
Ltac inert :=
  repeat (respects_step || apply inert_emit ||
          (apply respects_call; intros; split; [split_and!; by auto|by split]) ||
          (apply respects_modify; intros; split; [split_and!; by auto|by split]) ||
          unfold yield_, yield_state, report_metrics, update_context, update_storage, commit_storage,
            write_storage, sm_now, sm_now_in_walltime, sm_now_in_monotonic, sm_wait_for, sm_wait_until,
            sm_new_guid, sm_new_nonce, sm_random_u64).

Lemma fixed_do_omaha b :
  respects (both (keeps config) (keeps cup_handler)) (do_omaha_request_and_update_context b).
Proof.
  unfold do_omaha_request_and_update_context, send_request, make_request, accept_response, sm_new_nonce.
  repeat (respects_step || apply respects_emit || apply respects_call || apply respects_modify ||
    intros; try done || unfold yield_, update_context, update_storage, commit_storage).
Qed.
Lemma inert_do_omaha b : respects inert (do_omaha_request_and_update_context b).
Proof. intros s. split; [apply frame_do_omaha|apply fixed_do_omaha]. Qed.
Hint Resolve inert_do_omaha : respects.

Lemma inert_report_event params event apps sid nv d :
  respects inert (report_omaha_event_and_update_context params event apps sid nv d).
Proof. unfold report_omaha_event_and_update_context. inert. Qed.
Hint Resolve inert_report_event : respects.

Lemma inert_request_loop fuel n b : respects inert (request_loop fuel n b).
Proof.
  revert n b. induction fuel as [|fuel IH]; intros n b; cbn.
  - apply respects_lift. apply _.
  - unfold report_response_time, backoff. inert.
Qed.
Hint Resolve inert_request_loop : respects.

Lemma inert_perform params apps : respects inert (perform_update_check params apps).
Proof.
  unfold perform_update_check, report_check_interval, handle_reply, plan_and_install, install,
    record_update_first_seen_time, report_install_duration, report_installation,
    conclude_installation, record_update_finished. inert.
Qed.

Lemma inert_persist_data : respects inert persist_data.
Proof. unfold persist_data. inert. Qed.
Lemma inert_report_install success : respects inert (report_attempts_to_successful_install success).
Proof. unfold report_attempts_to_successful_install. inert. Qed.
Lemma inert_yield e : respects inert (yield_ e).
Proof. apply inert_emit. Qed.
Lemma inert_report_metrics m : respects inert (report_metrics m).
Proof. unfold report_metrics. inert. Qed.
Lemma inert_call {C A} (get : StateMachine → C) set (f : C → A * C) :
  (∀ c s, inert s [] (set c s)) → respects inert (call get set f).
Proof. intros Hset. apply respects_call. auto. Qed.

#[local] Hint Resolve inert_maintains inert_perform inert_persist_data inert_report_install inert_yield
  inert_report_metrics inert_emit : maintains.

(** The assignments that change what the invariant is about. *)
Lemma maintains_failed_checks n :
  in_u32 n → maintains (client_inv s0) (update_context (set_failed_checks n)).
Proof. intros Hn. apply maintains_modify. by intros s ([[_ ?] ?] & ?). Qed.
Lemma maintains_update_apps rs :
  Forall answer_typed rs → maintains (client_inv s0) (update_apps rs).
Proof.
  intros Hrs. apply maintains_modify. intros s ([Hc Ha] & Hk & Hfix). split; [split; [done|]|].
  - by apply update_from_omaha_typed.
  - split; [|done]. cbn. by rewrite update_from_omaha_keys.
Qed.
Lemma maintains_count {A} a (k : Z → SM A) :
  (∀ n, in_u32 n → maintains (client_inv s0) (k n)) →
  maintains (client_inv s0) (lift (add_u32 a 1) ≫= k).
Proof.
  apply maintains_bind_if; [apply maintains_lift|]. apply returns_lift. intros n. apply add_u32_in.
Qed.
Hint Resolve maintains_failed_checks maintains_update_apps : maintains.

Lemma in_u32_0 : in_u32 0.
Proof. range. Qed.
Hint Resolve in_u32_0 : maintains.

Ltac keep := repeat ((apply maintains_count; intros) || maintains_step ||
  (apply maintains_modify; by intros s [[[??]?]?]) ||
  unfold sm_now, sm_now_in_monotonic, update_storage, commit_storage, sm_wait_for, sm_wait_until,
    sm_new_guid, yield_state).

Lemma maintains_report_attempts success :
  maintains (client_inv s0) (report_attempts_to_successful_check success).
Proof. unfold report_attempts_to_successful_check. keep. Qed.
Hint Resolve maintains_report_attempts : maintains.

Lemma maintains_check_succeeded r :
  Forall answer_typed (app_responses r) → maintains (client_inv s0) (check_succeeded r).
Proof. intros Hr. unfold check_succeeded, update_context. keep. Qed.
Lemma maintains_check_failed e : maintains (client_inv s0) (check_failed e).
Proof. unfold check_failed, update_context. keep. Qed.
Hint Resolve maintains_check_succeeded maintains_check_failed : maintains.

Lemma maintains_start_update_check params : maintains (client_inv s0) (start_update_check params).
Proof.
  unfold start_update_check. apply maintains_bind; [apply maintains_gets|intros apps].
  apply (maintains_bind_if _ result_typed);
    [apply inert_maintains, inert_perform|apply returns_perform|intros [[r rb]|e] Hr].
  - apply maintains_bind; [|intros [r' rb']; keep]. by keep.
  - apply maintains_bind; [|intros [r' rb']; keep]. keep.
Qed.

Lemma maintains_do_omaha b : maintains (client_inv s0) (do_omaha_request_and_update_context b).
Proof. apply inert_maintains, inert_do_omaha. Qed.
Hint Resolve maintains_do_omaha maintains_start_update_check : maintains.

Lemma maintains_ping_failed : maintains (client_inv s0) ping_failed.
Proof. unfold ping_failed. keep. Qed.
Hint Resolve maintains_ping_failed : maintains.
Lemma maintains_ping : maintains (client_inv s0) ping_omaha.
Proof.
  unfold ping_omaha. do 4 (apply maintains_bind; [keep|intros]).
  apply maintains_bind; [keep|intros [reply|e]; [|keep]].
  destruct (parse_omaha_response (data reply)) as [response|e] eqn:Hp; [|keep].
  apply map_err_Ok, Response.parse_json_response_typed in Hp. unfold update_context. keep.
  by apply maintains_update_apps, make_app_responses_typed.
Qed.
Lemma maintains_schedule_next : maintains (client_inv s0) schedule_next.
Proof. unfold schedule_next, update_next_update_time, make_wait_to_next_check, update_context. keep. Qed.
Hint Resolve maintains_ping maintains_schedule_next : maintains.

(** *** The steps of the main loop *)

(** A computation of the task leaves a client that keeps the invariant, unless it panicked. *)
Definition loop_inv (c : Task) : Prop := sound c.1 → client_inv s0 c.2.
Definition keeps_loop (m : SM Phase) : Prop :=
  ∀ s, client_inv s0 s → loop_inv (phase_of (returned m s), final m s).

Lemma maintains_keeps_loop m : maintains (client_inv s0) m → keeps_loop m.
Proof.
  intros Hm s Hs. specialize (Hm s Hs). unfold loop_inv. destruct (returned m s); cbn; [by intros|done].
Qed.
Lemma keeps_loop_bind {A} (m : SM A) (k : A → SM Phase) :
  maintains (client_inv s0) m → (∀ a, keeps_loop (k a)) → keeps_loop (m ≫= k).
Proof.
  intros Hm Hk s Hs. specialize (Hm s Hs). unfold returned, final, mbind, M_bind in *.
  destruct (m s) as [[s1 t1] [a|msg]]; [|by intros Hp]. cbn in Hm.
  specialize (Hk a s1 Hm). unfold returned, final in Hk. by destruct (k a s1) as [[s2 t2] o].
Qed.

Lemma begin_check_keeps v o rp : keeps_loop (begin_check v o rp).
Proof.
  intros s Hs. pose proof (maintains_start_update_check rp s Hs) as Hm.
  unfold returned, final, begin_check in *. destruct (start_update_check rp s) as [[s' t] [r|msg]].
  - by intros _.
  - by intros [].
Qed.

Lemma decide_check_maintains o : maintains (client_inv s0) (decide_check o).
Proof. unfold decide_check. keep. Qed.
Lemma loop_head_maintains v : maintains (client_inv s0) (loop_head v).
Proof. unfold loop_head, try_report_waited, report_waited_for_reboot_duration. keep. Qed.
Lemma if_reboot_allowed_maintains o ir yes no :
  maintains (client_inv s0) yes → maintains (client_inv s0) no →
  maintains (client_inv s0) (if_reboot_allowed o ir yes no).
Proof. intros. unfold if_reboot_allowed. repeat maintains_step; done. Qed.
Lemma do_reboot_maintains v : maintains (client_inv s0) (do_reboot v).
Proof. unfold do_reboot. keep. Qed.
Hint Resolve decide_check_maintains loop_head_maintains do_reboot_maintains : maintains.

Lemma internal_keeps p m : internal p = Some m → keeps_loop m.
Proof.
  destruct p as [|v|v|v o [|e l] [[ir|]|msg]|v o ir|v o ir| |]; try done; intros [= <-];
    apply maintains_keeps_loop; unfold run_start, begin_reboot; try apply if_reboot_allowed_maintains; keep.
Qed.

Lemma respond_maintains responder r : maintains (client_inv s0) (respond responder r).
Proof. unfold respond. by intros s Hs. Qed.
Hint Resolve respond_maintains : maintains.

Lemma consider_check_keeps v o responder : keeps_loop (consider_check v o responder).
Proof.
  unfold consider_check. apply keeps_loop_bind; [auto with maintains|intros [rp|]].
  - apply keeps_loop_bind; [auto with maintains|intros _]. apply begin_check_keeps.
  - apply keeps_loop_bind; [auto with maintains|intros _]. apply maintains_keeps_loop, maintains_ret.
Qed.

Lemma on_reboot_request_maintains v o o' ir id :
  maintains (client_inv s0) (on_reboot_request v o o' ir id).
Proof. unfold on_reboot_request. keep. apply if_reboot_allowed_maintains; keep. Qed.

Lemma timer_keeps p m : m ∈ on_timer p → keeps_loop m.
Proof.
  destruct p as [| |v| | |v o ir| |]; cbn; rewrite ?elem_of_cons, ?elem_of_nil; try done.
  - intros [->|[]]. apply consider_check_keeps.
  - intros [->|[->|[]]]; apply maintains_keeps_loop.
    + apply if_reboot_allowed_maintains; keep.
    + unfold on_ping_timer. keep.
Qed.

Lemma request_keeps p o id m :
  sound p → on_request p o id = Some m → keeps_loop m.
Proof.
  intros Hp. destruct p as [| |v|v o1 pending out| |v o1 ir| |]; try done; intros [= <-].
  - apply consider_check_keeps.
  - apply keeps_loop_bind; [auto with maintains|intros _]. apply maintains_keeps_loop, maintains_ret.
  - apply maintains_keeps_loop, on_reboot_request_maintains.
Qed.
Lemma request_unsound p o id m s s' t out :
  ¬ sound p → on_request p o id = Some m → m s = (s', t, out) → ¬ sound (phase_of out).
Proof.
  intros Hp. destruct p as [| |v|v o1 pending [|msg]| |v o1 ir| |]; try (by destruct Hp); try done.
  intros [= <-] [= _ _ <-]. by intros [].
Qed.
Lemma decide_sound (p : Phase) : sound p ∨ ¬ sound p.
Proof. destruct p as [| | |? ? ? []| | | |]; cbn; auto. Qed.

Lemma step_keeps c l c' : loop_inv c → step c l c' → loop_inv c'.
Proof.
  intros Hc Hstep. destruct Hstep as [p m s s' t o Hi Hm|v o e pending out s|p m s s' t o Hi Hm|
    p o m id s s' t out Ho Hm].
  - assert (sound p ∨ ∃ v o msg, p = PCheck v o [] (Panic msg)) as [Hp|(v & o' & msg & ->)].
    { destruct p as [| | |v o' [|e l] [[ir|]|msg]| | | |]; cbn; eauto 10; done. }
    + pose proof (internal_keeps _ _ Hi s (Hc Hp)) as Hk. unfold returned, final in Hk.
      by rewrite Hm in Hk.
    + injection Hi as <-. injection Hm as <- <- <-. by intros [].
  - done.
  - assert (sound p) as Hp by (by destruct p as [| | |? ? ? []| | | |];
      cbn in Hi |- *; rewrite ?elem_of_nil in Hi).
    pose proof (timer_keeps _ _ Hi s (Hc Hp)) as Hk. unfold returned, final in Hk. by rewrite Hm in Hk.
  - destruct (decide_sound p) as [Hp|Hp].
    + pose proof (request_keeps _ _ _ _ Hp Ho s (Hc Hp)) as Hk. unfold returned, final in Hk.
      by rewrite Hm in Hk.
    + intros Hs. by destruct (request_unsound _ _ _ _ _ _ _ _ Hp Ho Hm).
Qed.

(** ** Properties *)

(** C7: over a whole run, whatever the environment does, and as long as the task has not panicked and
    its check will not: the poll interval is the one the client began with, or none, or what a server
    may dictate, from nothing to a day; the apps keep their ids, versions, fingerprints and extra
    fields, and the client its configuration and its CUP handler; and the failed-check counter and
    the dates the apps are counted by, which the server chooses, stay u32 values. *)
Theorem run_keeps_invariant l p s :
  machine_typed s0 → run s0 l (p, s) → sound p →
  (poll_interval s = poll_interval s0 ∨
   ∀ d, poll_interval s = Some d → 0 ≤ d ≤ from_secs 86400) ∧
  app_key <$> get_apps (app_set s) = app_key <$> get_apps (app_set s0) ∧
  config s = config s0 ∧ cup_handler s = cup_handler s0 ∧ machine_typed s.
Proof.
  intros Hs0 Hrun Hp. assert (loop_inv (p, s)) as Hi; [|by destruct (Hi Hp) as (? & ? & ? & ? & ?)].
  clear Hp.
  remember (p, s) as c eqn:E. clear E p s. induction Hrun as [|l c l' c' _ IH Hstep].
  - intros _. do 4 (split; [done|]). by left.
  - by eapply step_keeps.
Qed.
End invariant.

From S2P Require Import Examples.

(** A run that installs an update, up to the wait for the next check. *)
Lemma run_keeps_invariant_witness :
  ∃ l p s, run updating_machine l (p, s) ∧ sound p ∧ states_of (effects_of l) ≠ [] ∧
    (poll_interval s = poll_interval updating_machine ∨
     ∀ d, poll_interval s = Some d → 0 ≤ d ≤ from_secs 86400) ∧
    app_key <$> get_apps (app_set s) = app_key <$> get_apps (app_set updating_machine) ∧
    config s = config updating_machine ∧ cup_handler s = cup_handler updating_machine ∧ machine_typed s.
Proof.
  set (chs := [ChNext; ChNext; ChTimer 0] ++ replicate 25 ChNext).
  assert (match simulate chs (PStart, updating_machine) with
          | Some (l, ((PTop _ | PWait _), _)) => negb (bool_decide (states_of (effects_of l) = []))
          | _ => false
          end = true) as Hb by (vm_compute; reflexivity).
  destruct (simulate chs (PStart, updating_machine)) as [[l [p s]]|] eqn:E; [|discriminate Hb].
  pose proof (simulate_run updating_machine [] (PStart, updating_machine) chs l (p, s) (run_nil _) E)
    as Hrun.
  exists l, p, s. split; [exact Hrun|]. assert (sound p) as Hp by (by destruct p).
  split; [exact Hp|]. split; [destruct p; try discriminate Hb;
    apply negb_true_iff in Hb; exact (bool_decide_eq_false_1 _ Hb)|].
  apply (run_keeps_invariant updating_machine l p s); [|exact Hrun|exact Hp].
  split; [split; [split; discriminate|intros d; discriminate]|].
  constructor; [exact I|constructor].
Defined.
