(* ===== verification/NoReboot.v ===== *)
(** * A client whose policy never needs a reboot

    When [reboot_needed] never says yes, a check never ends with a reboot to wait for, so the task
    stays out of [wait_for_reboot] for ever. *)

From S2P Require Import Prelude Effects Time Version Protocol Storage Common UpdateCheck AppSet.
From S2P Require Import UriExt Http Cup RequestBuilder Metrics Installer Policy Machine Omaha Check.
From S2P Require Import Trace RunLoop.
From S2P Require Request Response.
Open Scope Z_scope.

Section no_reboot.
Context `{Client}.

(** The policy never needs a reboot. *)
Definition never_needed : Prop := ∀ (plan : PL) (pe : PE), (reboot_needed plan pe).1 = false.

(** The phases outside of [wait_for_reboot], with nothing of it pending. *)
Definition no_wait (p : Phase) : Prop :=
  match p with
  | PCheck _ _ pending out => observed reboot_of pending = [] ∧ ∀ ir, out ≠ Ret (Needed ir)
  | PReboot _ _ _ | PRebootWait _ _ _ => False
  | _ => True
  end.

(** ** Lemmas *)

Context (Hnever : never_needed).

Definition not_needed (r : CheckResult) : Prop := match r with Ok (_, rb) => rb = NotNeeded | Err _ => True end.

Lemma returns_needed plan :
  returns (λ b : bool, b = false)
    (call policy_engine set_policy_engine (reboot_needed plan) : SM bool).
Proof.
  intros s b. unfold returned, call. pose proof (Hnever plan (policy_engine s)) as Hb.
  destruct (reboot_needed plan (policy_engine s)) as [b' pe]. cbn in *. by intros [= <-].
Qed.

Ltac returns_step :=
  match goal with
  | |- returns _ (_ ≫= _) => apply returns_then; intros
  | |- returns _ (match ?x with _ => _ end) => destruct x
  | |- returns _ (mret _) => by apply returns_ret
  end.

Lemma conclude_not_needed plan ir response results t1 t2 :
  returns not_needed (conclude_installation plan ir response results t1 t2).
Proof.
  unfold conclude_installation. apply returns_then. intros [rs [|e es]].
  - do 2 (apply returns_then; intros). apply (returns_bind _ _ _ _ (returns_needed plan)).
    intros b ->. apply returns_then. intros _. by apply returns_ret.
  - repeat returns_step.
Qed.

Lemma perform_not_needed params apps : returns not_needed (perform_update_check params apps).
Proof.
  unfold perform_update_check. do 4 returns_step. apply returns_then. intros [r n].
  repeat returns_step. unfold handle_reply. destruct (parse_omaha_response _) as [response|e].
  - returns_step. destruct (apps_with_update response); [repeat returns_step|].
    unfold plan_and_install. do 2 returns_step.
    destruct (try_create_install_plan _ _ _ _ _ _); [|repeat returns_step].
    apply returns_then. intros d. apply returns_then. intros _. destruct d; [|repeat returns_step..].
    unfold install. do 5 returns_step. apply returns_then. intros [progress [ir results]].
    do 4 returns_step. apply conclude_not_needed.
  - repeat returns_step.
Qed.

Lemma start_not_needed params : returns (λ rb, rb = NotNeeded) (start_update_check params).
Proof.
  unfold start_update_check. apply returns_then. intros apps.
  apply (returns_bind _ _ _ _ (perform_not_needed params apps)). intros r Hr.
  apply (returns_bind (λ x : result UpdateCheck.Response UpdateCheckError * RebootAfterUpdate,
    x.2 = NotNeeded)).
  - destruct r as [[r rb]|e]; apply returns_then; intros _; by apply returns_ret.
  - intros [r' rb]. cbn. intros ->. repeat returns_step.
Qed.

(** A step of the task that neither reboots nor gets near it. *)
Definition stays (m : SM Phase) : Prop := silent reboot_of m ∧ returns no_wait m.

Lemma stays_bind {A} (m : SM A) (k : A → SM Phase) :
  silent reboot_of m → (∀ a, stays (k a)) → stays (m ≫= k).
Proof.
  intros Hm Hk. split.
  - apply respects_bind; [apply _|done|]. intros a. apply Hk.
  - apply returns_then. intros a. apply Hk.
Qed.
Lemma stays_ret p : no_wait p → stays (mret p).
Proof. intros Hp. split; [apply respects_ret; apply _|by apply returns_ret]. Qed.

Lemma begin_check_stays v o rp : stays (begin_check v o rp).
Proof.
  split; intros s; pose proof (start_not_needed rp s) as Hn; pose proof (quiet_whole_check reboot_of rp s) as Hs;
    unfold begin_check, returned, silent_rel, trace in *;
    destruct (start_update_check rp s) as [[s' t] out]; [done|].
  intros p [= <-]. split; [exact Hs|]. intros ir ->. by specialize (Hn _ eq_refl).
Qed.
Lemma consider_stays v o responder : stays (consider_check v o responder).
Proof.
  unfold consider_check, decide_check. apply stays_bind; [quiet|]. intros [rp|];
    (apply stays_bind; [by apply silent_respond|intros _]); [apply begin_check_stays|by apply stays_ret].
Qed.

#[local] Hint Resolve reboot_of_background silent_report_metrics reboots_schedule_next : respects.

Lemma internal_stays p m : no_wait p → internal p = Some m → stays m.
Proof.
  destruct p as [|v|v|v o [|e pd] [[ir|]|msg]|v o ir|v o ir| |msg]; try done; intros Hp [= <-].
  - unfold run_start. apply stays_bind; [quiet|]. intros apps.
    destruct (all_valid apps); [|by apply stays_ret].
    repeat (apply stays_bind; [quiet|intros]). by apply stays_ret.
  - unfold loop_head, try_report_waited, report_waited_for_reboot_duration.
    repeat (apply stays_bind; [quiet|intros]). by apply stays_ret.
  - destruct Hp as [_ Hp]. by destruct (Hp ir).
  - apply stays_bind; [by apply silent_emit|]. intros _. by apply stays_ret.
  - split; [apply respects_lift; apply _|by apply returns_lift].
Qed.

Lemma stays_at m s s' t o :
  stays m → m s = (s', t, o) → observed reboot_of t = [] ∧ no_wait (phase_of o).
Proof.
  intros [Hq Hr] Hm. specialize (Hq s). specialize (Hr s). unfold silent_rel, trace, returned in *.
  rewrite Hm in *. split; [done|]. destruct o as [p|msg]; [by apply Hr|done].
Qed.
Lemma step_no_wait p s l p' s' :
  step (p, s) l (p', s') → no_wait p → observed reboot_of (effects_of l) = [] ∧ no_wait p'.
Proof.
  intros Hstep Hp. inversion Hstep as
    [p0 m s0 s1 t o Hi Hm|v o e pd out s0|p0 m s0 s1 t o Hi Hm|p0 no m i s0 s1 t o Hi Hm]; subst.
  - rewrite effects_of_fmap. by apply (stays_at m s s'); [apply (internal_stays p)|].
  - destruct Hp as [Hp Hout]. cbn in *. by destruct (reboot_of e).
  - change (effects_of (LTimer :: (LEffect <$> t))) with (effects_of (LEffect <$> t)).
    rewrite effects_of_fmap. apply (stays_at m s s'); [|done].
    destruct p as [| |v| | |v o1 ir| |]; cbn in Hi; rewrite ?elem_of_nil in Hi; try done.
    apply list_elem_of_singleton in Hi as ->. apply consider_stays.
  - change (effects_of (LRequest i no :: (LEffect <$> t))) with (effects_of (LEffect <$> t)).
    rewrite effects_of_fmap. apply (stays_at m s s'); [|done].
    destruct p as [| |v|v o1 pd out| |v o1 ir| |]; try done; injection Hi as <-.
    + apply consider_stays.
    + apply stays_bind; [by apply silent_respond|intros _]. by apply stays_ret.
Qed.

Lemma run_no_wait s0 l c :
  run s0 l c → observed reboot_of (effects_of l) = [] ∧ no_wait c.1.
Proof.
  induction 1 as [|l [p s] l' [p' s'] _ [IH Hp] Hstep]; [done|].
  destruct (step_no_wait _ _ _ _ _ Hstep Hp) as [Hl' Hp'].
  rewrite effects_of_app. unfold observed in *. rewrite omap_app, IH. by split.
Qed.
End no_reboot.
