(* ===== verification/Builder.v ===== *)
(** * Building and starting a state machine ([state_machine/builder.rs])

    The builder holds the implementations a state machine is made of; [builder_build] loads the
    context and the apps from the storage, so what one run left there is what the next starts
    with. *)

From S2P Require Import Prelude Serde Effects Time Version Protocol Storage Common UpdateCheck AppSet.
From S2P Require Import UriExt Http Cup RequestBuilder Metrics Installer Policy Machine Omaha Check.
From S2P Require Import Trace Requests Typed Books RunLoop Invariant.
From S2P Require Request Response.
Open Scope Z_scope.

(** [StateMachineBuilder]; its type parameters are the implementations. *)
Record StateMachineBuilder `{EcdsaCrate} (PE HR IN TM MR ST AS CH : Type) : Type :=
  mkStateMachineBuilder {
    b_policy_engine : PE;
    b_http : HR;
    b_installer : IN;
    b_timer : TM;
    b_metrics_reporter : MR;
    b_storage : ST;
    b_config : Config;
    b_app_set : AS;
    b_cup_handler : option CH;
  }.
Arguments mkStateMachineBuilder {_ PE HR IN TM MR ST AS CH}.
Arguments b_policy_engine {_ PE HR IN TM MR ST AS CH} s.
Arguments b_http {_ PE HR IN TM MR ST AS CH} s.
Arguments b_installer {_ PE HR IN TM MR ST AS CH} s.
Arguments b_timer {_ PE HR IN TM MR ST AS CH} s.
Arguments b_metrics_reporter {_ PE HR IN TM MR ST AS CH} s.
Arguments b_storage {_ PE HR IN TM MR ST AS CH} s.
Arguments b_config {_ PE HR IN TM MR ST AS CH} s.
Arguments b_app_set {_ PE HR IN TM MR ST AS CH} s.
Arguments b_cup_handler {_ PE HR IN TM MR ST AS CH} s.

(** ** The setters, which may change a type parameter *)

Section setters.
Context `{EcdsaCrate} {PE HR IN TM MR ST AS CH : Type}.

(** [StateMachineBuilder::new]. *)
Definition builder_new (policy_engine : PE) (http : HR) (installer : IN) (timer : TM)
    (metrics_reporter : MR) (storage : ST) (config : Config) (app_set : AS)
    (cup_handler : option CH) : StateMachineBuilder PE HR IN TM MR ST AS CH :=
  mkStateMachineBuilder policy_engine http installer timer metrics_reporter storage config app_set
    cup_handler.

Definition builder_policy_engine {PE2 : Type} (x : PE2) (self : StateMachineBuilder PE HR IN TM MR
    ST AS CH)
    : StateMachineBuilder PE2 HR IN TM MR ST AS CH :=
mkStateMachineBuilder x (b_http self) (b_installer self) (b_timer self) (b_metrics_reporter self)
    (b_storage self) (b_config self) (b_app_set self) (b_cup_handler self).
Definition builder_http {HR2 : Type} (x : HR2) (self : StateMachineBuilder PE HR IN TM MR ST AS CH)
    : StateMachineBuilder PE HR2 IN TM MR ST AS CH :=
mkStateMachineBuilder (b_policy_engine self) x (b_installer self) (b_timer self) (b_metrics_reporter
    self) (b_storage self) (b_config self) (b_app_set self) (b_cup_handler self).
Definition builder_installer {IN2 : Type} (x : IN2) (self : StateMachineBuilder PE HR IN TM MR ST AS
    CH)
    : StateMachineBuilder PE HR IN2 TM MR ST AS CH :=
mkStateMachineBuilder (b_policy_engine self) (b_http self) x (b_timer self) (b_metrics_reporter
    self) (b_storage self) (b_config self) (b_app_set self) (b_cup_handler self).
Definition builder_timer {TM2 : Type} (x : TM2) (self : StateMachineBuilder PE HR IN TM MR ST AS CH)
    : StateMachineBuilder PE HR IN TM2 MR ST AS CH :=
mkStateMachineBuilder (b_policy_engine self) (b_http self) (b_installer self) x (b_metrics_reporter
    self) (b_storage self) (b_config self) (b_app_set self) (b_cup_handler self).
Definition builder_metrics_reporter {MR2 : Type} (x : MR2) (self : StateMachineBuilder PE HR IN TM
    MR ST AS CH)
    : StateMachineBuilder PE HR IN TM MR2 ST AS CH :=
mkStateMachineBuilder (b_policy_engine self) (b_http self) (b_installer self) (b_timer self) x
    (b_storage self) (b_config self) (b_app_set self) (b_cup_handler self).
Definition builder_storage {ST2 : Type} (x : ST2) (self : StateMachineBuilder PE HR IN TM MR ST AS
    CH)
    : StateMachineBuilder PE HR IN TM MR ST2 AS CH :=
mkStateMachineBuilder (b_policy_engine self) (b_http self) (b_installer self) (b_timer self)
    (b_metrics_reporter self) x (b_config self) (b_app_set self) (b_cup_handler self).
Definition builder_config (x : Config) (self : StateMachineBuilder PE HR IN TM MR ST AS CH)
    : StateMachineBuilder PE HR IN TM MR ST AS CH :=
mkStateMachineBuilder (b_policy_engine self) (b_http self) (b_installer self) (b_timer self)
    (b_metrics_reporter self) (b_storage self) x (b_app_set self) (b_cup_handler self).
Definition builder_app_set {AS2 : Type} (x : AS2) (self : StateMachineBuilder PE HR IN TM MR ST AS
    CH)
    : StateMachineBuilder PE HR IN TM MR ST AS2 CH :=
mkStateMachineBuilder (b_policy_engine self) (b_http self) (b_installer self) (b_timer self)
    (b_metrics_reporter self) (b_storage self) (b_config self) x (b_cup_handler self).
Definition builder_cup_handler {CH2 : Type} (x : option CH2) (self : StateMachineBuilder PE HR IN TM
    MR ST AS CH)
    : StateMachineBuilder PE HR IN TM MR ST AS CH2 :=
mkStateMachineBuilder (b_policy_engine self) (b_http self) (b_installer self) (b_timer self)
    (b_metrics_reporter self) (b_storage self) (b_config self) (b_app_set self) x.
End setters.

(** ** Building *)

Section build.
Context `{Client}.

(** A builder whose implementations are those of the client. *)
Definition ClientBuilder : Type := StateMachineBuilder PE HR IN TM MR ST AS CH.

(** [StateMachineBuilder::build]; [random] is the process's randomness.  The context and the apps
    are loaded at the same time, and both loads only read the storage. *)
Definition builder_build (random : RNG) (self : ClientBuilder) : outcome StateMachine :=
  let storage := b_storage self in
  let app_set := app_set_load storage (b_app_set self) in
  context ← context_load storage;
  Ret (mkStateMachine (b_config self) (b_policy_engine self) (b_http self) (b_installer self)
    (b_timer self) (policy_time_source (b_policy_engine self)) (b_metrics_reporter self) storage
    context app_set (b_cup_handler self) random).

(** [StateMachineBuilder::start]: the task that runs the state machine, at its beginning. *)
Definition builder_start (random : RNG) (self : ClientBuilder) : outcome Task :=
  state_machine ← builder_build random self;
  Ret (PStart, state_machine).

(** [StateMachineBuilder::oneshot_check]: the events of one check, and how it ends. *)
Definition builder_oneshot_check (random : RNG) (self : ClientBuilder)
    : list StateMachineEvent * outcome unit :=
  match builder_build random self with
  | Panic msg => ([], Panic msg)
  | Ret state_machine =>
    let m := start_update_check request_params_default in
    (omap (λ e, match e with Yield ev => Some ev | _ => None end) (trace m state_machine),
     _ ← returned m state_machine; Ret tt)
  end.

(** ** Lemmas *)

Lemma app_load_commit `{!StorageSpec ST} (st : ST) a : app_load (commit_or_log st) a = app_load st a.
Proof. unfold app_load. by rewrite !get_string_view, view_commit_or_log. Qed.

Lemma builder_start_apps `{!AppSetSpec AS} random b c :
  builder_start random b = Ret c →
  c.1 = PStart ∧ all_valid (app_set c.2) = all_valid (b_app_set b).
Proof.
  unfold builder_start, builder_build. cbn.
  destruct (context_load (b_storage b)); [|done]. intros [= <-]. split; [done|].
  unfold all_valid, app_set_load. cbn. rewrite get_apps_iter_mut.
  generalize (get_apps (b_app_set b)). intros l. induction l as [|x l IH]; [done|]. cbn. rewrite IH.
  f_equal.
  unfold app_valid. by rewrite app_load_id, app_load_version.
Qed.
Lemma app_load_key (st : ST) a : app_key (app_load st a) = app_key a.
Proof. unfold app_load. repeat (case_match || case_decide); done. Qed.

(** The run that ends at once. *)
Lemma run_invalid s : all_valid (app_set s) = false → run s [] (PDone, s).
Proof.
  intros Hv. change (run s ([] ++ (LEffect <$> [])) (phase_of (Ret PDone), s)).
  apply (run_step _ _ (PStart, s)); [constructor|]. apply (step_internal PStart run_start); [done|].
  unfold run_start, mbind, M_bind, gets. cbn. by rewrite Hv.
Qed.

(** ** Properties *)

(** C9: an update check survives a restart.  With a storage that keeps its contract and never fails a
    write, counts and dates in the range of their types, and apps of different ids none of which is a key of the context, a state machine built from the storage
    that a completed check left, and from apps as they are created, has the apps of the old one,
    with their cohorts and user countings, and its context: the number of failed checks, and the
    poll interval and the last update time to the microsecond. *)
Theorem restart_resumes `{!StorageSpec ST, !StorageInfallible ST, !AppSetSpec AS, !SerdeJsonLaws}
    params s reboot random (b : ClientBuilder) :
  let s' := final (start_update_check params) s in
  machine_typed s →
  NoDup (app_id <$> get_apps (app_set s)) →
  (∀ i, i ∈ app_id <$> get_apps (app_set s) → i ∉ context_keys) →
  returned (start_update_check params) s = Ret reboot →
  b_storage b = storage_ref s' →
  get_apps (b_app_set b) = app_fresh <$> get_apps (app_set s') →
  ∃ s2, builder_build random b = Ret s2 ∧
    context s2 = stored_context (context s') ∧
    get_apps (app_set s2) = get_apps (app_set s') ∧
    storage_ref s2 = storage_ref s'.
Proof.
  cbn zeta. intros Hs Hnd Hids Hr Hst Hfresh.
  destruct (check_keeps_typed params s reboot Hr) as [Hid Hs'].
  destruct (check_saves params s reboot Hs Hids Hr) as (Hload & st & Hst').
  unfold builder_build. rewrite Hst, Hload. cbn. eexists. split; [done|]. cbn.
  split_and!; [done| |done].
  unfold app_set_load. rewrite get_apps_iter_mut, Hfresh, <-list_fmap_compose, Hst'.
  rewrite <-(list_fmap_id (get_apps _)) at 2. apply list_fmap_ext.
  intros i a Ha%list_elem_of_lookup_2. cbn. rewrite app_load_commit.
  apply app_load_persist_all; [by rewrite Hid|done|].
  by eapply Forall_forall; [apply Hs'|].
Qed.

(** C24: from a storage whose integers are [i64]s, whatever else it holds, and from apps whose dates
    are [u32]s, the client starts: building never panics, every number of the state machine that is
    started is in the range of its type, and its apps are the ones given, with their ids, versions
    and extra fields.  The schedule starts without a next check, with the stored time of the last
    one; a failure count that is not a [u32] is taken as 0 and a negative poll interval as none. *)
Theorem start_loads_typed `{!AppSetSpec AS} random (b : ClientBuilder) :
  (∀ k i, get_int (b_storage b) k = Some i → in_i64 i) →
  Forall app_typed (get_apps (b_app_set b)) →
  ∃ s, builder_start random b = Ret (PStart, s) ∧ machine_typed s ∧
    app_key <$> get_apps (app_set s) = app_key <$> get_apps (b_app_set b) ∧
    schedule (context s) =
      (let t := (λ i, Wall (i * 1000)) <$> get_int (b_storage b) LAST_UPDATE_TIME in
       mkUpdateCheckSchedule t t None) ∧
    state (context s) = mkProtocolState
      (i ← get_int (b_storage b) SERVER_DICTATED_POLL_INTERVAL;
       if decide (0 ≤ i) then Some (i * 1000) else None)
      (match get_int (b_storage b) CONSECUTIVE_FAILED_UPDATE_CHECKS with
       | Some i => if decide (in_u32 i) then i else 0
       | None => 0
       end) 0.
Proof.
  intros Hi64 Happs.
  destruct (context_load_total _ Hi64) as ([sc st] & Hc & Hv & Hlu & Hlc & Hn & Hp & Hf & Hx).
  unfold builder_start, builder_build. rewrite Hc. eexists. split; [done|]. cbn in *. split_and!.
  - split; [done|]. cbn. unfold app_set_load. rewrite get_apps_iter_mut. apply Forall_fmap.
    eapply Forall_impl; [exact Happs|]. intros a. apply app_load_typed.
  - unfold app_set_load. rewrite get_apps_iter_mut, <-list_fmap_compose. apply list_fmap_ext.
    intros _ a _. apply app_load_key.
  - destruct sc. cbn in *. by subst.
  - destruct st. cbn in *. by subst.
Qed.

(** A state machine that is started with an app that is not valid does nothing: it is done at
    once, without an effect, and takes no request. *)
Theorem invalid_apps_do_not_start `{!AppSetSpec AS} random b c l c' :
  builder_start random b = Ret c → all_valid (b_app_set b) = false →
  run c.2 l c' → l = [] ∧ (c' = c ∨ c' = (PDone, c.2)).
Proof.
  intros Hb Hv Hrun. destruct c as [p s]. apply builder_start_apps in Hb as [Hp Hall].
  cbn in *. subst p. rewrite Hv in Hall. remember s as s0 eqn:Es.
  induction Hrun as [|l c1 l' c2 _ IH Hstep]; [by auto|].
  destruct IH as [-> [-> | ->]]; inversion Hstep; simplify_eq; try done; try set_solver.
  - match goal with Hi : internal _ = _ |- _ => injection Hi as <- end.
    match goal with Hm : run_start _ = _ |- _ => revert Hm end.
    unfold run_start, mbind, M_bind, gets. cbn. rewrite Hall. intros [= <- <- <-]. by auto.
Qed.
End build.

From S2P Require Import Examples.

#[local] Existing Instance example_serde_laws.

(** A builder with the parts of [s], as they are in a program that just started. *)
Definition example_builder (s : StateMachine (H0 := example_client)) (apps : list App)
    : ClientBuilder (H0 := example_client) :=
  builder_new (policy_engine s) (http s) (installer s) (timer s) (metrics_reporter s)
    (storage_ref s) (config s) (mkVecAppSet apps) (cup_handler s).

(** The program starts again after a check that installed an update. *)
Definition restarted : ClientBuilder (H0 := example_client) :=
  example_builder (final (start_update_check example_params) updating_machine) [example_app].

Lemma restart_resumes_witness :
  let s' := final (start_update_check example_params) updating_machine in
  ∃ s2, builder_build 0 restarted = Ret s2 ∧
    context s2 = stored_context (context s') ∧
    get_apps (app_set s2) = get_apps (app_set s') ∧
    storage_ref s2 = storage_ref s'.
Proof.
  intros s'.
  refine (restart_resumes example_params updating_machine (Needed tt) 0 restarted _ _ _ _ _ _).
  - split; [split; cbn; [range|done]|by repeat constructor].
  - cbn. apply NoDup_singleton.
  - intros i Hi. cbn in Hi. apply list_elem_of_singleton in Hi as ->.
    by apply (bool_decide_unpack _).
  - apply returns_needed_spec. vm_compute. reflexivity.
  - done.
  - vm_compute. reflexivity.
Defined.

(** A storage with integers that are out of range for what they stand for. *)
Definition odd_builder : ClientBuilder (H0 := example_client) :=
  builder_storage (set_int (set_int (set_int mem_new SERVER_DICTATED_POLL_INTERVAL (-5)).2
    CONSECUTIVE_FAILED_UPDATE_CHECKS (2 ^ 40)).2 LAST_UPDATE_TIME 7).2 restarted.

Lemma start_loads_typed_witness :
  ∃ s, builder_start (H0 := example_client) 0 odd_builder = Ret (PStart, s) ∧ machine_typed s ∧
    app_key <$> get_apps (app_set s) = [app_key example_app] ∧
    schedule (context s) = mkUpdateCheckSchedule (Some (Wall 7000)) (Some (Wall 7000)) None ∧
    state (context s) = mkProtocolState None 0 0.
Proof.
  apply (start_loads_typed (H0 := example_client) 0 odd_builder).
  - intros k i. cbn. unfold mem_get_int. cbn. rewrite !lookup_insert.
    repeat case_decide; intros [= <-]; split; discriminate.
  - repeat constructor.
Defined.

(** An app without a version is not valid. *)
Definition invalid_builder : ClientBuilder (H0 := example_client) :=
  example_builder updating_machine [app_new "app" (version_from [0])].

Definition invalid_start : outcome Task := builder_start 0 invalid_builder.

Definition started (o : outcome Task) : bool := match o with Ret _ => true | _ => false end.

Lemma invalid_apps_do_not_start_witness :
  ∃ c l c', invalid_start = Ret c ∧ run c.2 l c' ∧ c' = (PDone, c.2) ∧
    l = [] ∧ (c' = c ∨ c' = (PDone, c.2)).
Proof.
  assert (started invalid_start = true) as Hok by (vm_compute; reflexivity).
  destruct invalid_start as [c|] eqn:E; [|done].
  assert (all_valid (app_set c.2) = false) as Hv.
  { etrans; [exact (proj2 (builder_start_apps _ _ _ E))|]. vm_compute. reflexivity. }
  pose proof (run_invalid c.2 Hv) as Hrun.
  exists c, [], (PDone, c.2). do 3 (split; [done|]).
  exact (invalid_apps_do_not_start _ _ c [] _ E eq_refl Hrun).
Defined.
