(* ===== verification/Crash.v ===== *)
(** * Losing power at any moment

    A storage keeps what was committed to it: [Journal] is a storage that remembers the storage as
    it was at each of its commits, and a program that starts again after a crash finds the last of
    these snapshots.  Here is what every snapshot, at any moment of any run, brings back. *)

From S2P Require Import Prelude Serde Effects Time Version Protocol Storage Common UpdateCheck AppSet.
From S2P Require Import UriExt Http Cup RequestBuilder Metrics Installer Policy Machine Omaha Check.
From S2P Require Import StorageTests Trace Requests Typed Books Records RunLoop Invariant Builder.
From S2P Require Request Response.
Open Scope Z_scope.

(** ** A storage that remembers its commits *)

Record Journal (ST : Type) : Type := mkJournal {
  working : ST;
  snapshots : list ST;
}.
Arguments mkJournal {ST} working snapshots.
Arguments working {ST} j.
Arguments snapshots {ST} j.

Section journal.
Context {ST : Type} `{Storage ST}.

Definition on_working (f : ST → result unit storage_error * ST) (j : Journal ST)
    : result unit storage_error * Journal ST :=
  ((f (working j)).1, mkJournal (f (working j)).2 (snapshots j)).
Definition journal_commit (j : Journal ST) : result unit storage_error * Journal ST :=
  ((commit (working j)).1, mkJournal (commit (working j)).2
     (snapshots j ++ if is_ok (commit (working j)).1 then [(commit (working j)).2] else [])).

#[export] Instance journal_storage : Storage (Journal ST) := {|
  storage_error := @storage_error ST _;
  get_string j := get_string (working j);
  get_int j := get_int (working j);
  get_bool j := get_bool (working j);
  set_string j k v := on_working (λ st, set_string st k v) j;
  set_int j k v := on_working (λ st, set_int st k v) j;
  set_bool j k v := on_working (λ st, set_bool st k v) j;
  remove j k := on_working (λ st, remove st k) j;
  commit := journal_commit;
|}.

(** What a crash leaves: the last snapshot, or the storage the program started with. *)
Definition durable (start : ST) (j : Journal ST) : ST := unwrap_or (last (snapshots j)) start.

#[export] Instance journal_spec `{!StorageSpec ST} : StorageSpec (Journal ST).
Proof.
  refine {| view (j : Journal ST) := view (working j) |}; intros [w l]; cbn.
  - apply (view_reads w).
  - apply (view_set_string w).
  - apply (view_set_int w).
  - apply (view_set_bool w).
  - apply (view_remove w).
  - apply (view_commit w).
Defined.
#[export] Instance journal_reliable `{!StorageReliable ST} : StorageReliable (Journal ST).
Proof.
  split; [split|..]; intros [w l]; cbn.
  - apply (set_string_ok w).
  - apply (set_int_ok w).
  - apply (remove_ok w).
  - apply (set_bool_ok w).
  - apply (commit_ok w).
Qed.
End journal.

(** ** What a program that starts again loads *)

(** The keys the state machine writes, beside those of the context and of the apps. *)
Definition record_keys : list string :=
  [INSTALL_PLAN_ID; UPDATE_FIRST_SEEN_TIME; UPDATE_FINISH_TIME; TARGET_VERSION;
   CONSECUTIVE_FAILED_INSTALL_ATTEMPTS].

(** The part of a context that only a completed check or ping changes. *)
Definition tally (c : Context) : option PartialComplexTime * Z :=
  (last_update_time (schedule c), consecutive_failed_update_checks (state c)).

Lemma app_fresh_key a a' : app_key a = app_key a' → app_fresh a = app_fresh a'.
Proof. unfold app_key, app_fresh. intros [= -> -> -> ->]. done. Qed.

Section loads.
Context `{SerdeJsonLaws} (init : list App).

(** From a storage, and with the apps [init] it is built with, a program has this context and these
    apps. *)
Definition loads {ST} `{Storage ST} (st : ST) (c : Context) (apps : list App) : Prop :=
  context_load st = Ret c ∧ app_load st <$> init = apps.

(** Two storages from which the same is loaded. *)
Definition agree {ST1 ST2} `{Storage ST1, Storage ST2} (st1 : ST1) (st2 : ST2) : Prop :=
  (∀ k, k ∈ context_keys → get_int st1 k = get_int st2 k) ∧
  (∀ i, i ∈ app_id <$> init → get_string st1 i = get_string st2 i).

Lemma agree_loads {ST1 ST2} `{Storage ST1, Storage ST2} (st1 : ST1) (st2 : ST2) c apps :
  agree st1 st2 → loads st1 c apps → loads st2 c apps.
Proof.
  intros [Hc Ha] [Hl <-]. split; [by rewrite <-Hl; symmetry; apply context_load_ext|].
  apply Forall_fmap_ext_1, Forall_forall. intros a Hin. unfold app_load.
  by rewrite Ha by by apply list_elem_of_fmap_2.
Qed.
Lemma agree_trans {ST1 ST2 ST3} `{Storage ST1, Storage ST2, Storage ST3}
    (st1 : ST1) (st2 : ST2) (st3 : ST3) : agree st1 st2 → agree st2 st3 → agree st1 st3.
Proof.
  intros [Hc1 Ha1] [Hc2 Ha2].
  split; [intros k Hk; by rewrite Hc1, Hc2|intros i Hi; by rewrite Ha1, Ha2].
Qed.

Context {ST : Type} `{StorageSpec ST, !StorageReliable ST}.
Context (Hids : ∀ i, i ∈ app_id <$> init → i ∉ context_keys ++ record_keys).

Lemma agree_view (st st' : ST) k :
  k ∈ record_keys → (∀ k', k' ≠ k → view st' !! k' = view st !! k') → agree st st'.
Proof using Hids.
  intros Hk Hv. split.
  - intros k' Hk'. rewrite !get_int_view, Hv; [done|]. intros ->.
    revert Hk Hk'. unfold record_keys, context_keys. rewrite !elem_of_cons, !elem_of_nil.
    by intros [->|[->|[->|[->|[->|[]]]]]] [?|[?|[?|[]]]].
  - intros i Hi. rewrite !get_string_view, Hv; [done|]. intros ->.
    by apply (Hids _ Hi), elem_of_app; right.
Qed.
Lemma agree_set_string (st : ST) k s : k ∈ record_keys → agree st (set_string st k s).2.
Proof using All.
  intros Hk. apply (agree_view _ _ k Hk). intros k' Hne.
  by rewrite view_set_string, lookup_insert_ne by (done || apply set_string_ok).
Qed.
Lemma agree_set_option (st : ST) k o : k ∈ record_keys → agree st (set_option_int st k o).2.
Proof using All.
  intros Hk. apply (agree_view _ _ k Hk). intros k' Hne.
  rewrite view_set_option_int by apply set_option_int_ok.
  destruct o; by rewrite ?lookup_insert_ne, ?lookup_delete_ne by done.
Qed.
Lemma agree_commit (st : ST) : agree st (commit st).2.
Proof. split; intros; by rewrite ?get_int_view, ?get_string_view, view_commit. Qed.

(** Persisting a context changes its keys only. *)
Lemma get_string_context_persist c (st : ST) k :
  k ∉ context_keys → get_string (context_persist c st) k = get_string st k.
Proof using All.
  unfold context_keys, context_persist. rewrite !not_elem_of_cons. intros (? & ? & ? & _).
  by rewrite !get_string_set_option_int by (apply set_option_int_ok || congruence).
Qed.
Lemma context_persist_keeps_apps c (st : ST) :
  app_load (context_persist c st) <$> init = app_load st <$> init.
Proof using All.
  apply Forall_fmap_ext_1, Forall_forall. intros a Ha%(list_elem_of_fmap_2 app_id). unfold app_load.
  rewrite get_string_context_persist; [done|]. intros Hin. by apply (Hids _ Ha), elem_of_app; left.
Qed.
End loads.

(** A client with a storage that remembers its commits. *)
Definition journaled `{Crates} (c : Client) : Client := {|
  PE := @PE _ c;
  TS := @TS _ c;
  HR := @HR _ c;
  IN := @IN _ c;
  IR := @IR _ c;
  PL := @PL _ c;
  TM := @TM _ c;
  MR := @MR _ c;
  ST := Journal (@ST _ c);
  AS := @AS _ c;
  CH := @CH _ c;
  RNG := @RNG _ c;
|}.

Section crash.
Context `{Crates} (c : Client).
#[local] Instance journaled_client : Client := journaled c.
Context `{!StorageSpec (@ST _ c), !StorageReliable (@ST _ c), !AppSetSpec (@AS _ c), !SerdeJsonLaws}.

Section saving.
Context (start : @ST _ c) (s0 : StateMachine).

(** The apps as the program creates them. *)
Definition created : list App := app_fresh <$> get_apps (app_set s0).

(** A program that starts from [st] is where the state machine is now. *)
Definition loads_now {ST} `{Storage ST} (s : StateMachine) (st : ST) : Prop :=
  loads created st (stored_context (context s)) (get_apps (app_set s)).
(** Its poll interval is one that the program began with, or that a server may dictate. *)
Definition poll_recovered (x : Context) : Prop :=
  let d := server_dictated_poll_interval (state x) in
  d = server_dictated_poll_interval (state (stored_context (context s0))) ∨ dictated_interval d.
(** It has the apps and the tally of now, and such a poll interval. *)
Definition recovers (s : StateMachine) (st : @ST _ c) : Prop :=
  ∃ x, loads created st x (get_apps (app_set s)) ∧ tally x = tally (stored_context (context s)) ∧
    poll_recovered x.

Definition saved (s : StateMachine) : Prop :=
  client_inv s0 s ∧ loads_now s (storage_ref s) ∧ loads_now s (durable start (storage_ref s)).

Definition same_books (s s' : StateMachine) : Prop :=
  tally (stored_context (context s')) = tally (stored_context (context s)) ∧
  get_apps (app_set s') = get_apps (app_set s).

(** The snapshots that are taken from [s] to [s'] all satisfy a predicate. *)
Definition taken (P : @ST _ c → Prop) (s s' : StateMachine) : Prop :=
  ∃ new, snapshots (storage_ref s') = snapshots (storage_ref s) ++ new ∧ Forall P new.

(** The computations that keep what is saved, and change nothing that needs to be saved. *)
Definition quiet (s : StateMachine) (t : list Effect) (s' : StateMachine) : Prop :=
  saved s → saved s' ∧ same_books s s' ∧ taken (recovers s) s s'.
(** The computations that take no snapshot and leave alone what is loaded. *)
Definition unsaved (s : StateMachine) (t : list Effect) (s' : StateMachine) : Prop :=
  snapshots (storage_ref s') = snapshots (storage_ref s) ∧
  agree created (storage_ref s) (storage_ref s').

(** ** Lemmas *)

Lemma recovers_same s s' st : same_books s s' → recovers s' st → recovers s st.
Proof. intros [Ht Ha] (x & Hl & Hx & Hd). exists x. split; [by rewrite <-Ha|]. by rewrite Hx. Qed.
Lemma same_books_sym s s' : same_books s s' → same_books s' s.
Proof. by intros [? ?]. Qed.
Lemma stored_poll s : client_inv s0 s → poll_recovered (stored_context (context s)).
Proof.
  unfold poll_recovered, stored_context. cbn. intros (_ & _ & _ & _ & [Hp|Hp]); unfold poll_interval in Hp.
  - left. by rewrite Hp.
  - right. intros d Hd. apply bind_Some in Hd as (d' & Hd' & Hd). apply Hp in Hd'. case_decide; [|done].
    injection Hd as <-. unfold as_micros in *.
    pose proof (Z.mul_div_le d' 1000). pose proof (Z.div_pos d' 1000). lia.
Qed.
Lemma now_recovers s (st : @ST _ c) : client_inv s0 s → loads_now s st → recovers s st.
Proof. intros Hinv Hl. eexists. split; [exact Hl|]. split; [done|]. by apply stored_poll. Qed.

Lemma taken_none P s s' :
  snapshots (storage_ref s') = snapshots (storage_ref s) → taken P s s'.
Proof. intros He. exists []. by rewrite app_nil_r. Qed.
Lemma taken_trans P s1 s2 s3 : taken P s1 s2 → taken P s2 s3 → taken P s1 s3.
Proof.
  intros (n1 & H1 & F1) (n2 & H2 & F2). exists (n1 ++ n2). rewrite H2, H1, app_assoc.
  split; [done|by apply Forall_app].
Qed.
Lemma taken_mono (P Q : @ST _ c → Prop) s s' : (∀ st, P st → Q st) → taken P s s' → taken Q s s'.
Proof. intros HPQ (n & Hn & F). exists n. split; [done|]. by eapply Forall_impl. Qed.

#[export] Instance quiet_step : StepRel quiet.
Proof.
  split.
  - intros s Hs. split; [done|]. split; [done|]. by apply taken_none.
  - intros s1 t1 s2 t2 s3 H12 H23 Hs1. destruct (H12 Hs1) as (Hs2 & Hb2 & Ht2).
    destruct (H23 Hs2) as (Hs3 & Hb3 & Ht3). split; [done|]. split.
    + destruct Hb2, Hb3. split; congruence.
    + eapply taken_trans; [done|]. eapply taken_mono; [|done]. intros st. by apply recovers_same.
Qed.
#[export] Instance unsaved_step : StepRel unsaved.
Proof.
  split; [by intros s; split|]. intros s1 t1 s2 t2 s3 [H1 A1] [H2 A2].
  split; [by rewrite H2|by eapply agree_trans].
Qed.

(** A change of the state machine beside its storage, apps and saved context. *)
Lemma quiet_inert s t s' :
  (client_inv s0 s → client_inv s0 s') → storage_ref s' = storage_ref s →
  stored_context (context s') = stored_context (context s) → app_set s' = app_set s → quiet s t s'.
Proof.
  intros Hi Hst Hc Ha (Hinv & Hw & Hd). unfold saved, loads_now, same_books. rewrite Hst, Hc, Ha.
  split_and!; auto. by apply taken_none; rewrite Hst.
Qed.
Lemma quiet_emit e : respects quiet (emit e).
Proof. apply respects_emit. intros s. by apply quiet_inert. Qed.

Context (Hids : ∀ i, i ∈ app_id <$> get_apps (app_set s0) → i ∉ context_keys ++ record_keys).

Lemma created_ids : app_id <$> created = app_id <$> get_apps (app_set s0).
Proof. unfold created. by rewrite <-list_fmap_compose. Qed.
Lemma Hcreated i : i ∈ app_id <$> created → i ∉ context_keys ++ record_keys.
Proof using Hids. rewrite created_ids. apply Hids. Qed.

(** A write that leaves alone what is loaded. *)
Lemma quiet_storage j s t :
  snapshots j = snapshots (storage_ref s) → agree created (storage_ref s) j → quiet s t (set_storage j s).
Proof.
  intros Hj Ha (Hinv & Hw & Hd). unfold saved, loads_now, durable. cbn. rewrite Hj.
  split; [split; [done|split; [by eapply agree_loads|done]]|].
  split; [done|by apply taken_none].
Qed.
Lemma quiet_update (f : ST → ST) :
  (∀ j : Journal (@ST _ c), snapshots (f j) = snapshots j ∧ agree created j (f j)) → respects quiet (update_storage f).
Proof. intros Hf. apply respects_modify. intros s. by apply quiet_storage; apply Hf. Qed.
Lemma quiet_write (f : ST → result unit storage_error * ST) :
  (∀ j : Journal (@ST _ c), snapshots (f j).2 = snapshots j ∧ agree created j (f j).2) → respects quiet (write_storage f).
Proof.
  intros Hf. apply respects_call. intros s. specialize (Hf (storage_ref s)).
  destruct (f (storage_ref s)) as [r j]. by apply quiet_storage; apply Hf.
Qed.

(** Committing saves what the storage holds. *)
Lemma commit_saves s :
  client_inv s0 s → loads_now s (storage_ref s) →
  let s' := set_storage (commit_or_log (storage_ref s)) s in
  saved s' ∧ same_books s s' ∧ taken (loads_now s) s s'.
Proof.
  intros Hinv Hw. unfold commit_or_log. cbn. unfold journal_commit. cbn. rewrite commit_ok. cbn.
  assert (loads_now s (commit (working (storage_ref s))).2) as Hl.
  { eapply agree_loads, Hw. eapply agree_trans, (agree_commit created (working (storage_ref s))). by split. }
  split; [|split; [done|]].
  - split; [done|]. split; [exact Hl|]. unfold durable. cbn. by rewrite last_snoc.
  - eexists [_]. split; [done|]. by constructor.
Qed.
Lemma quiet_commit : respects quiet commit_storage.
Proof.
  unfold commit_storage. apply respects_bind; [apply _|apply quiet_emit|intros _].
  apply respects_modify. intros s (Hinv & Hw & _).
  destruct (commit_saves s Hinv Hw) as (Hs & Hb & Ht). split_and!; [exact Hs|done|].
  eapply taken_mono, Ht. intros st. by apply now_recovers.
Qed.

(** Persisting the context: what is loaded afterwards. *)
Lemma persisted_context_now s (j : Journal (@ST _ c)) x :
  context_valid (context s) → loads created j x (get_apps (app_set s)) →
  loads_now s (context_persist (context s) j).
Proof.
  intros Hv [_ Ha]. split; [by apply context_persist_loads|].
  by rewrite (context_persist_keeps_apps _ Hcreated).
Qed.
Lemma snapshots_context_persist x (j : Journal (@ST _ c)) :
  snapshots (context_persist x j) = snapshots j.
Proof. unfold context_persist, set_option_int. by repeat case_match. Qed.

(** The poll interval changes, and is persisted at once. *)
Lemma quiet_poll_interval d :
  dictated_interval d →
  respects quiet (update_context (set_poll_interval d);; ctx ← gets context;
    yield_ (ProtocolStateChange (state ctx));; update_storage (context_persist ctx);; commit_storage).
Proof.
  intros Hd s (Hinv & Hw & _).
  set (s1 := set_context (set_poll_interval d (context s)) s).
  set (s2 := set_storage (context_persist (context s1) (storage_ref s)) s1).
  assert (client_inv s0 s2) as Hinv2.
  { destruct Hinv as ([[Hf Hp] Ha] & Hk & Hcf & Hh & _). split; [split; [split; [done|]|done]|].
    - by eapply dictated_valid.
    - do 3 (split; [done|]). by right. }
  assert (loads_now s2 (storage_ref s2)) as Hl2 by (eapply (persisted_context_now s1); [apply Hinv2|exact Hw]).
  destruct (commit_saves s2 Hinv2 Hl2) as (Hs & Hb & Ht).
  split; [exact Hs|]. split; [exact Hb|].
  destruct Ht as (new & Hnew & Hall). exists new. split.
  - etrans; [exact Hnew|]. f_equal. apply snapshots_context_persist.
  - eapply Forall_impl; [exact Hall|]. intros st Hst. by eapply (now_recovers s2) in Hst.
Qed.

Lemma quiet_accept md resp sig : respects quiet (accept_response md resp sig).
Proof.
  unfold accept_response. respects_step; [repeat respects_step|]. apply respects_bind; [apply _| |].
  - case_decide; [repeat respects_step|]. apply quiet_poll_interval.
    intros d Hd. pose proof (retry_after_bound resp) as Hb. rewrite Hd in Hb. exact Hb.
  - intros _. repeat respects_step.
Qed.
Hint Resolve quiet_accept quiet_commit quiet_emit : respects.

(** Calls and assignments beside the storage, the apps and what is saved of the context. *)
Lemma quiet_call {C A} (get : StateMachine → C) set (f : C → A * C) :
  (∀ x s, (client_inv s0 s → client_inv s0 (set x s)) ∧ storage_ref (set x s) = storage_ref s ∧
     context (set x s) = context s ∧ app_set (set x s) = app_set s) →
  respects quiet (call get set f).
Proof.
  intros Hset. apply respects_call. intros s. destruct (Hset (f (get s)).2 s) as (? & ? & ? & ?).
  apply quiet_inert; [done|done|congruence|done].
Qed.
Lemma quiet_update_context f :
  (∀ x, stored_context (f x) = stored_context x ∧ state (f x) = state x) →
  respects quiet (update_context f).
Proof.
  intros Hf. apply respects_modify. intros s. destruct (Hf (context s)) as [Hc Hst].
  apply quiet_inert; [|done..]. unfold client_inv, poll_since, poll_interval, machine_typed, context_valid. cbn.
  by rewrite Hst.
Qed.
Lemma quiet_write_string k v : k ∈ record_keys → respects quiet (write_storage (λ st, set_string st k v)).
Proof. intros Hk. apply quiet_write. intros j. split; [done|]. by apply (agree_set_string _ Hcreated). Qed.
Lemma quiet_write_time k t : k ∈ record_keys → respects quiet (write_storage (λ st, set_time st k t)).
Proof.
  intros Hk. apply quiet_write. intros j. unfold set_time.
  split; [by destruct (checked_system_time_to_micros_from_epoch t)|].
  by apply (agree_set_option _ Hcreated).
Qed.
Lemma quiet_remove k : k ∈ record_keys → respects quiet (write_storage (λ st, remove st k)).
Proof.
  intros Hk. apply quiet_write. intros j. split; [done|].
  by apply (agree_set_option _ Hcreated _ _ None).
Qed.
Lemma quiet_remove_or_log k : k ∈ record_keys → respects quiet (update_storage (λ st, remove_or_log st k)).
Proof.
  intros Hk. apply quiet_update. intros j. split; [done|].
  by apply (agree_set_option _ Hcreated _ _ None).
Qed.

(** Solves the quietness of a computation. *)
Ltac quiet :=
  repeat (respects_step || (apply quiet_call; intros; split; [by intros|by split_and!]) ||
    (apply quiet_update_context; intros; by split) ||
    ((apply quiet_write_string || apply quiet_write_time || apply quiet_remove ||
      apply quiet_remove_or_log); unfold record_keys; set_solver) ||
    unfold yield_, yield_state, report_metrics, sm_now, sm_now_in_walltime, sm_now_in_monotonic,
      sm_wait_for, sm_wait_until, sm_new_guid, sm_new_nonce, sm_random_u64, make_request).

Lemma quiet_do_omaha b : respects quiet (do_omaha_request_and_update_context b).
Proof. unfold do_omaha_request_and_update_context, send_request. quiet. Qed.
Hint Resolve quiet_do_omaha : respects.
Lemma quiet_report_event params event apps sid nv d :
  respects quiet (report_omaha_event_and_update_context params event apps sid nv d).
Proof. unfold report_omaha_event_and_update_context. quiet. Qed.
Hint Resolve quiet_report_event : respects.
Lemma quiet_request_loop fuel n b : respects quiet (request_loop fuel n b).
Proof.
  revert n b. induction fuel as [|fuel IH]; intros n b; cbn.
  - apply respects_lift. apply _.
  - unfold report_response_time, backoff. quiet.
Qed.
Hint Resolve quiet_request_loop : respects.
Lemma quiet_install params apps sid response p :
  respects quiet (install params apps sid response p).
Proof.
  unfold install, record_update_first_seen_time, report_install_duration, report_installation,
    conclude_installation, record_update_finished. quiet.
Qed.
Hint Resolve quiet_install : respects.
(** Everything an update check does before its result is known. *)
Lemma quiet_perform params apps : respects quiet (perform_update_check params apps).
Proof. unfold perform_update_check, report_check_interval, handle_reply, plan_and_install. quiet. Qed.

(** *** What needs to be saved, and saving it *)

Lemma unsaved_inert s t s' : storage_ref s' = storage_ref s → unsaved s t s'.
Proof. intros Hst. unfold unsaved. rewrite Hst. by split. Qed.
Lemma unsaved_report_install success : respects unsaved (report_attempts_to_successful_install success).
Proof.
  unfold report_attempts_to_successful_install, report_metrics.
  repeat (respects_step || (apply respects_emit; intros; by apply unsaved_inert) ||
    (apply respects_call; intros; by apply unsaved_inert)).
  - apply respects_modify. intros s. split; [done|].
    apply (agree_set_option (ST := Journal (@ST _ c)) _ Hcreated _ _ None). unfold record_keys. set_solver.
  - apply respects_call. intros s. split; [done|].
    refine (agree_set_option (ST := Journal (@ST _ c)) _ Hcreated (storage_ref s)
      CONSECUTIVE_FAILED_INSTALL_ATTEMPTS (Some _) _). unfold record_keys. set_solver.
Qed.
Hint Resolve unsaved_report_install : respects.
Ltac unsaved :=
  repeat (respects_step || (apply respects_emit; intros; by apply unsaved_inert) ||
    (apply respects_call; intros; by apply unsaved_inert) ||
    (apply respects_modify; intros; by apply unsaved_inert) ||
    unfold report_attempts_to_successful_check, report_metrics, update_context, update_apps, sm_now).
Lemma unsaved_check_succeeded r : respects unsaved (check_succeeded r).
Proof. unfold check_succeeded. unsaved. Qed.
Lemma unsaved_check_failed e : respects unsaved (check_failed e).
Proof. unfold check_failed. unsaved. Qed.

(** What [persist_data] stores is what is loaded. *)
Context (Hnd : NoDup (app_id <$> get_apps (app_set s0))).

Lemma created_now s : client_inv s0 s → created = app_fresh <$> get_apps (app_set s).
Proof.
  intros (_ & Hk & _). unfold created.
  revert Hk. generalize (get_apps (app_set s0)) as l0, (get_apps (app_set s)) as l.
  induction l0 as [|a0 l0 IH]; intros [|a l]; try done. rewrite !fmap_cons. intros [Ha Hl]%(inj2 cons).
  by rewrite (IH l Hl), (app_fresh_key _ _ Ha).
Qed.
Lemma ids_now s : client_inv s0 s → app_id <$> get_apps (app_set s) = app_id <$> get_apps (app_set s0).
Proof. intros Hinv. by rewrite <-created_ids, (created_now s Hinv), <-list_fmap_compose. Qed.
Lemma persisted_now s (j : Journal (@ST _ c)) :
  client_inv s0 s → loads_now s (app_set_persist (app_set s) (context_persist (context s) j)).
Proof.
  intros Hinv. pose proof (ids_now s Hinv) as Hid. split.
  - rewrite <-(context_persist_loads (context s) j) by apply Hinv. apply context_load_ext.
    intros k Hk. refine (get_int_app_set_persist (app_set s) _ k _). rewrite Hid. intros Hin.
    by apply (Hids k Hin), elem_of_app; left.
  - rewrite (created_now s Hinv), <-list_fmap_compose. etrans; [|apply list_fmap_id].
    apply list_fmap_ext. intros i a Ha%list_elem_of_lookup_2.
    apply app_load_persist_all; [by rewrite Hid|done|]. by eapply Forall_forall; [apply Hinv|].
Qed.
Lemma snapshots_app_set_persist (a : @AS _ c) (j : Journal (@ST _ c)) :
  snapshots (app_set_persist a j) = snapshots j.
Proof.
  unfold app_set_persist. generalize (get_apps a). intros l. revert j.
  induction l as [|x l IH]; intros j; [done|]. cbn. rewrite IH. unfold app_persist. by case_match.
Qed.

Lemma wp_persist s :
  client_inv s0 s →
  wp persist_data (λ o s' _, o = Ret tt ∧ saved s' ∧ same_books s s' ∧ taken (recovers s) s s') s.
Proof.
  intros Hinv. unfold persist_data, update_storage, commit_storage. repeat wp_step.
  split; [done|]. set (j := app_set_persist _ _). set (s1 := set_storage j s).
  assert (snapshots j = snapshots (storage_ref s)) as Hj.
  { etrans; [apply snapshots_app_set_persist|apply snapshots_context_persist]. }
  destruct (commit_saves s1 Hinv (persisted_now s _ Hinv)) as (Hs & Hb & new & Hnew & Hall).
  split; [exact Hs|]. split; [exact Hb|]. exists new. split; [by rewrite <-Hj|].
  eapply Forall_impl; [exact Hall|]. intros st. by apply (now_recovers s1).
Qed.

(** *** Checks and pings *)

(** Each snapshot brings back the books as they were at the start, or as they are at the end. *)
Definition either (s s' : StateMachine) : Prop := taken (λ st, recovers s st ∨ recovers s' st) s s'.
Definition safe {A} (m : SM A) : Prop := ∀ s, saved s →
  wp m (λ o s' _, either s s' ∧ match o with Ret _ => saved s' | Panic _ => True end) s.

Lemma either_quiet s s' : taken (recovers s) s s' → either s s'.
Proof. apply taken_mono. auto. Qed.
Lemma safe_quiet {A} (m : SM A) : respects quiet m → safe m.
Proof.
  intros Hm s Hs. eapply wp_mono; [|by apply respects_wp]. intros o s' t Hq.
  destruct (Hq Hs) as (Hs' & _ & Ht). split; [by apply either_quiet|]. by destruct o.
Qed.
Lemma safe_after_quiet_if {A B} (P : A → Prop) (m : SM A) (k : A → SM B) :
  respects quiet m → returns P m → (∀ a, P a → safe (k a)) → safe (m ≫= k).
Proof.
  intros Hm Hr Hk s Hs. apply wp_bind.
  eapply wp_mono; [|exact (wp_and m _ _ s (respects_wp quiet m s Hm) (returns_wp P m s Hr))].
  intros [a|msg] s1 t [Hq Ha]; destruct (Hq Hs) as (Hs1 & Hb1 & Ht1); [|by split; [apply either_quiet|]].
  eapply wp_mono; [|apply (Hk a Ha s1 Hs1)]. intros o s2 t2 [He Ho]. split; [|done].
  eapply taken_trans; [eapply taken_mono; [|exact Ht1]|eapply taken_mono; [|exact He]].
  - auto.
  - intros st [Hst|Hst]; [left|by right]. by eapply recovers_same.
Qed.
Lemma safe_after_quiet {A B} (m : SM A) (k : A → SM B) :
  respects quiet m → (∀ a, safe (k a)) → safe (m ≫= k).
Proof. intros Hm Hk. by apply (safe_after_quiet_if (λ _, True)). Qed.
Lemma safe_before_quiet {A B} (m : SM A) (k : A → SM B) :
  safe m → (∀ a, respects quiet (k a)) → safe (m ≫= k).
Proof.
  intros Hm Hk s Hs. apply wp_bind. eapply wp_mono; [|apply (Hm s Hs)].
  intros [a|msg] s1 t [He1 Hs1]; [|done]. eapply wp_mono; [|by apply respects_wp].
  intros o s2 t2 Hq. destruct (Hq Hs1) as (Hs2 & Hb2 & Ht2). split; [|by destruct o].
  eapply taken_trans; [eapply taken_mono; [|exact He1]|eapply taken_mono; [|exact Ht2]].
  - intros st [Hr|Hr]; [by left|right]. eapply recovers_same; [|exact Hr]. by apply same_books_sym.
  - intros st Hr. right. eapply recovers_same; [|exact Hr]. by apply same_books_sym.
Qed.

(** The computations that end by saving the books, whatever was changed since [s] was saved. *)
Definition closing {A} (m : SM A) : Prop := ∀ s s1,
  saved s → unsaved s [] s1 → client_inv s0 s1 →
  wp m (λ o s' _, either s s' ∧ match o with Ret _ => saved s' | Panic _ => True end) s1.

Lemma safe_closing {A} (m : SM A) : closing m → safe m.
Proof. intros Hm s Hs. apply Hm; [done|by apply unsaved_inert|apply Hs]. Qed.
Lemma closing_bind_if {A B} (P : A → Prop) (m : SM A) (k : A → SM B) :
  respects unsaved m → maintains (client_inv s0) m → returns P m → (∀ a, P a → closing (k a)) →
  closing (m ≫= k).
Proof.
  intros Hm Hi Hr Hk s s1 Hs Hu Hinv. apply wp_bind.
  eapply wp_mono; [|exact (wp_and m _ _ s1 (respects_wp unsaved m s1 Hm)
    (wp_and m _ _ s1 (maintains_wp _ m s1 Hi Hinv) (returns_wp P m s1 Hr)))].
  intros [a|msg] s2 t (Hu2 & Hinv2 & Ha).
  - eapply wp_mono; [|apply (Hk a Ha s s2 Hs); [|done]].
    + done.
    + by apply (step_trans _ [] s1 [] _ Hu).
  - split; [|done]. apply taken_none. destruct Hu as [Hj _], Hu2 as [Hj2 _]. by rewrite Hj2.
Qed.
Lemma closing_bind {A B} (m : SM A) (k : A → SM B) :
  respects unsaved m → maintains (client_inv s0) m → (∀ a, closing (k a)) → closing (m ≫= k).
Proof. intros Hm Hi Hk. by apply (closing_bind_if (λ _, True)). Qed.
Lemma closing_persist {A} (a : A) : closing (persist_data;; mret a).
Proof.
  intros s s1 Hs [Hj _] Hinv. apply wp_bind. eapply wp_mono; [|by apply wp_persist].
  intros o s2 t2 (-> & Hs2 & Hb2 & Ht2). wp_step. split; [|done].
  eapply taken_trans; [by apply taken_none|]. eapply taken_mono; [|exact Ht2].
  intros st Hr. right. eapply recovers_same; [|exact Hr]. by apply same_books_sym.
Qed.
Lemma closing_persist_data : closing persist_data.
Proof.
  intros s s1 Hs Hu Hinv. pose proof (closing_persist tt s s1 Hs Hu Hinv) as Hw.
  unfold wp, mbind, M_bind in *. destruct (persist_data s1) as [[s2 t2] [[]|msg]]; [|done].
  cbn in Hw. exact Hw.
Qed.

Hint Resolve unsaved_check_succeeded unsaved_check_failed : respects.
Hint Resolve maintains_check_succeeded maintains_check_failed maintains_update_apps : maintains.

(** One step of a computation towards its end. *)
Ltac closing_step :=
  match goal with
  | |- closing (_ ≫= _) =>
    apply closing_bind; [solve [unsaved]|repeat maintains_step; by auto with maintains|intros]
  | |- closing (match ?x with _ => _ end) => destruct x
  end.

Lemma safe_check params : safe (start_update_check params).
Proof.
  unfold start_update_check. apply safe_after_quiet; [apply respects_gets; apply _|intros apps].
  apply (safe_after_quiet_if result_typed); [apply quiet_perform|apply returns_perform|].
  intros r Hr. apply safe_closing. apply closing_bind.
  - destruct r as [[r rb]|e]; unsaved.
  - destruct r as [[r rb]|e]; cbn in Hr; repeat maintains_step; auto with maintains.
  - intros [r' rb]. unfold yield_. repeat closing_step. apply closing_persist.
Qed.

Lemma quiet_schedule_next : respects quiet schedule_next.
Proof. unfold schedule_next, update_next_update_time, make_wait_to_next_check. quiet. Qed.
Hint Resolve quiet_schedule_next : respects.

Lemma closing_ping_failed : closing ping_failed.
Proof.
  unfold ping_failed. closing_step. apply (closing_bind_if in_u32).
  - unsaved.
  - repeat maintains_step.
  - apply returns_lift. intros n. apply add_u32_in.
  - intros n Hn. apply closing_bind; [unsaved|by apply maintains_failed_checks|intros _].
    apply closing_persist_data.
Qed.
Lemma safe_ping : safe ping_omaha.
Proof.
  unfold ping_omaha. do 4 (apply safe_after_quiet; [by quiet|intros]).
  apply safe_after_quiet; [by quiet|intros [reply|e]]; apply safe_closing; [|apply closing_ping_failed].
  destruct (parse_omaha_response (data reply)) as [response|e] eqn:Hp; [|apply closing_ping_failed].
  apply map_err_Ok, Response.parse_json_response_typed in Hp.
  apply closing_bind; [unsaved|apply maintains_failed_checks; range|intros _].
  unfold sm_now, update_context, yield_. do 4 closing_step. apply closing_bind; [unsaved| |intros _; apply closing_persist_data].
  by apply maintains_update_apps, make_app_responses_typed.
Qed.

(** *** The steps of the main loop *)

(** What a step from [s] leaves, unless its task panicked. *)
Definition step_saves (s : StateMachine) (c' : Task) : Prop :=
  either s c'.2 ∧ (sound c'.1 → saved c'.2).

Lemma safe_step (m : SM Phase) s s' t o :
  safe m → saved s → m s = (s', t, o) → step_saves s (phase_of o, s').
Proof.
  intros Hm Hs E. specialize (Hm s Hs). unfold wp in Hm. rewrite E in Hm. destruct Hm as [He Ho].
  split; [done|]. destruct o; [by intros|by intros []].
Qed.
Lemma quiet_loop_head v : respects quiet (loop_head v).
Proof. unfold loop_head, try_report_waited, report_waited_for_reboot_duration. quiet. Qed.
Lemma quiet_do_reboot v : respects quiet (do_reboot v).
Proof. unfold do_reboot. quiet. Qed.
Hint Resolve quiet_loop_head quiet_do_reboot : respects.

Lemma consider_saves v o responder s s' t out :
  saved s → consider_check v o responder s = (s', t, out) → step_saves s (phase_of out, s').
Proof.
  intros Hs. rewrite consider_check_eq.
  destruct (update_check_allowed _ _ _ _ _) as [d pe]. destruct (decision_params d) as [rp|].
  - assert (saved (set_policy_engine pe s)) as Hs1 by exact Hs.
    pose proof (safe_check rp _ Hs1) as Hw. unfold wp in Hw.
    destruct (start_update_check rp _) as [[s2 t2] out2]. intros [= <- _ <-]. destruct Hw as [He Ho].
    split; [exact He|]. destruct out2; [by intros|by intros []].
  - intros [= <- _ <-]. split; [by apply taken_none|by intros].
Qed.
Lemma quiet_respond responder r : respects quiet (respond responder r).
Proof. apply respects_emits. intros s. by apply quiet_inert. Qed.
Hint Resolve quiet_respond : respects.

Lemma step_safe p s l c' : saved s → sound p → step (p, s) l c' → step_saves s c'.
Proof.
  intros Hs Hp Hstep. inversion Hstep as [p' m ? s' t o Hi Hm|v o e pending out|p' m ? s' t o Hi Hm|
    p' o m id ? s' t out' Ho Hm]; subst.
  - eapply safe_step; [|exact Hs|exact Hm]. clear Hm.
    destruct p as [|v|v|v o' [|e l'] [[ir|]|msg]|v o' ir|v o' ir| |]; try done; injection Hi as <-;
      apply safe_quiet; unfold run_start, begin_reboot, if_reboot_allowed; quiet.
  - split; [by apply taken_none|by intros].
  - destruct p as [| |v| | |v o' ir| |]; cbn in Hi; rewrite ?elem_of_cons, ?elem_of_nil in Hi; try done.
    + destruct Hi as [->|[]]. by eapply consider_saves.
    + eapply safe_step; [|exact Hs|exact Hm]. destruct Hi as [->|[->|[]]].
      * apply safe_quiet. unfold on_reboot_timer, if_reboot_allowed. quiet.
      * unfold on_ping_timer. apply safe_before_quiet; [apply safe_ping|intros _]. quiet.
  - destruct p as [| |v|v o1 pending out| |v o1 ir| |]; try done; injection Ho as <-.
    + by eapply consider_saves.
    + eapply safe_step; [|exact Hs|exact Hm]. apply safe_quiet. quiet.
    + eapply safe_step; [|exact Hs|exact Hm]. apply safe_quiet.
      unfold on_reboot_request, if_reboot_allowed. quiet.
Qed.

(** A task that has panicked, or will, takes no more snapshots. *)
Lemma step_unsound p s l p' s' : ¬ sound p → step (p, s) l (p', s') → s' = s ∧ ¬ sound p'.
Proof.
  intros Hp Hstep. inversion Hstep as [? m ? ? t o Hi Hm|v o e pending out|? m ? ? t o Hi Hm|
    ? o m id ? ? t out' Ho Hm]; subst.
  - destruct p as [| | |v o' [|e l'] [[ir|]|msg]| | | |]; try (by destruct Hp); try done.
    injection Hi as <-. injection Hm as <- _ <-. auto.
  - auto.
  - destruct p as [| | |? ? ? []| | | |]; try (by destruct Hp); cbn in Hi; by rewrite ?elem_of_nil in Hi.
  - destruct p as [| | |v o1 pending [|msg]| | | |]; try (by destruct Hp); try done.
    injection Ho as <-. injection Hm as <- _ <-. auto.
Qed.

(** The step that took a snapshot, and what the snapshot brings back. *)
Definition taken_in (j : nat) (st : @ST _ c) (c1 c2 : Task) : Prop :=
  (length (snapshots (storage_ref c1.2)) ≤ j < length (snapshots (storage_ref c2.2)))%nat ∧
  (recovers c1.2 st ∨ recovers c2.2 st).

Lemma step_takes c1 l c2 j st :
  (sound c1.1 → saved c1.2) → step c1 l c2 → snapshots (storage_ref c2.2) !! j = Some st →
  snapshots (storage_ref c1.2) !! j = Some st ∨ taken_in j st c1 c2.
Proof.
  intros Hs Hstep Hj. destruct c1 as [p s], c2 as [p' s'].
  destruct (decide_sound p) as [Hp|Hp].
  - destruct (step_safe p s l (p', s') (Hs Hp) Hp Hstep) as [(new & Hnew & Hall) _]. cbn in *.
    rewrite Hnew in Hj. apply lookup_app_Some in Hj as [Hj|[Hlen Hj]]; [by left|right].
    split; [|by eapply Forall_lookup_1 in Hall].
    cbn. rewrite Hnew, length_app. apply lookup_lt_Some in Hj. lia.
  - destruct (step_unsound _ _ _ _ _ Hp Hstep) as [-> _]. by left.
Qed.
Lemma run_saves l c1 : saved s0 → run s0 l c1 → sound c1.1 → saved c1.2.
Proof.
  intros Hs Hrun. induction Hrun as [|l [p s] l' [p' s'] Hrun IH Hstep]; [done|]. intros Hp'.
  destruct (decide_sound p) as [Hp|Hp].
  - by apply (step_safe p s l' (p', s')); auto.
  - by destruct (step_unsound _ _ _ _ _ Hp Hstep).
Qed.
Lemma run_takes l c2 j st :
  saved s0 → snapshots (storage_ref s0) = [] → run s0 l c2 →
  snapshots (storage_ref c2.2) !! j = Some st →
  ∃ l1 c1 l' c', run s0 l1 c1 ∧ step c1 l' c' ∧ (l1 ++ l') `prefix_of` l ∧ taken_in j st c1 c'.
Proof.
  intros Hs Hnone Hrun Hj. induction Hrun as [|l c1 l' c' Hrun IH Hstep]; [cbn in Hj; by rewrite Hnone in Hj|].
  destruct (step_takes c1 l' c' j st (run_saves l c1 Hs Hrun) Hstep Hj) as [Hj'|Ht].
  - destruct (IH Hj') as (l1 & c2 & l2 & c3 & Hr & Hst & Hp & Ht). exists l1, c2, l2, c3.
    do 2 (split; [done|]). split; [by apply prefix_app_r|done].
  - by exists l, c1, l', c'.
Qed.
End saving.

(** ** Starting again *)

(** A program that starts from the storage [start]: with apps as they are created, of different ids
    that are not keys of the state machine, and integers in the storage that can be negated. *)
Record well_begun (b : ClientBuilder) (start : @ST _ c) : Prop := {
  begun_storage : b_storage b = mkJournal start [];
  begun_integers k i : get_int start k = Some i → i64_min < i ≤ i64_max;
  begun_created : app_fresh <$> get_apps (b_app_set b) = get_apps (b_app_set b);
  begun_distinct : NoDup (app_id <$> get_apps (b_app_set b));
  begun_ids i : i ∈ app_id <$> get_apps (b_app_set b) → i ∉ context_keys ++ record_keys;
}.

(** The program is built again, from what a crash left. *)
Definition rebuild (random : RNG) (b : ClientBuilder) (st : @ST _ c) : outcome StateMachine :=
  builder_build random (builder_storage (mkJournal st [] : ST) b).

(** Where the task stands between two checks. *)
Definition at_rest (p : Phase) : Prop :=
  match p with PCheck _ _ _ _ | PPanic _ => False | _ => True end.

(** What the rebuilt program has of [s], in a run that began at [s0]: the apps, the tally, and a poll
    interval as every client has. *)
Definition rebuilt_as (random : RNG) (b : ClientBuilder) (st : @ST _ c) (s0 s : StateMachine) : Prop :=
  ∃ s2, rebuild random b st = Ret s2 ∧ get_apps (app_set s2) = get_apps (app_set s) ∧
    tally (context s2) = tally (stored_context (context s)) ∧ poll_since s0 s2.

(** ** Lemmas *)

(** What was loaded is stored as it is. *)
Lemma loaded_is_stored (st : @ST _ c) x :
  (∀ k i, get_int st k = Some i → i64_min < i ≤ i64_max) → context_load st = Ret x → stored_context x = x.
Proof.
  intros Hi Hx. destruct (context_load_total st) as (x' & Hx' & [Hf _] & Hl & Hlc & Hn & Hp & _ & Hcp).
  { intros k i Hk%Hi. range. }
  rewrite Hx in Hx'. injection Hx' as <-. destruct x as [[lu lc nu] [p f cp]]. cbn in *. subst.
  unfold stored_context. cbn. f_equal; f_equal.
  - destruct (get_int st LAST_UPDATE_TIME) as [i|] eqn:Hk; [|done]. apply Hi in Hk. cbn.
    unfold stored_time. cbn. rewrite Z.quot_mul by done. by rewrite decide_True by range.
  - destruct (get_int st LAST_UPDATE_TIME) as [i|] eqn:Hk; [|done]. apply Hi in Hk. cbn.
    unfold stored_time. cbn. rewrite Z.quot_mul by done. by rewrite decide_True by range.
  - destruct (get_int st SERVER_DICTATED_POLL_INTERVAL) as [i|] eqn:Hk; [|done]. apply Hi in Hk. cbn.
    case_decide; [|done]. cbn. unfold as_micros. rewrite Z.div_mul by done.
    by rewrite decide_True by range.
Qed.

Lemma built random (b : ClientBuilder) (st : @ST _ c) s :
  b_storage b = mkJournal st [] → builder_build random b = Ret s →
  storage_ref s = mkJournal st [] ∧ context_load st = Ret (context s) ∧
  get_apps (app_set s) = app_load st <$> get_apps (b_app_set b).
Proof.
  unfold builder_build. intros ->. destruct (context_load _) as [x|] eqn:Hx; [|done]. intros [= <-].
  split; [done|]. split; [done|]. cbn. unfold app_set_load. by rewrite get_apps_iter_mut.
Qed.
Lemma build_total random (b : ClientBuilder) (st : @ST _ c) x :
  b_storage b = mkJournal st [] → context_load st = Ret x → ∃ s, builder_build random b = Ret s.
Proof.
  intros Hst Hx. unfold builder_build. rewrite Hst.
  change (context_load (mkJournal st [])) with (context_load st). rewrite Hx. by eexists.
Qed.

Lemma built_saved random b start s0 :
  well_begun b start → builder_build random b = Ret s0 →
  created s0 = get_apps (b_app_set b) ∧ saved start s0 s0 ∧
  app_id <$> get_apps (app_set s0) = app_id <$> get_apps (b_app_set b).
Proof.
  intros Hb Hs0. destruct (built _ _ _ _ (begun_storage _ _ Hb) Hs0) as (Hst & Hx & Ha).
  assert (created s0 = get_apps (b_app_set b)) as Hcr.
  { unfold created. rewrite Ha, <-list_fmap_compose. etrans; [|apply (begun_created _ _ Hb)].
    apply list_fmap_ext. intros _ a _. apply app_fresh_key, app_load_key. }
  split; [exact Hcr|]. split.
  - assert (loads_now s0 s0 start) as Hl.
    { split; [by rewrite (loaded_is_stored start _ (begun_integers _ _ Hb) Hx)|]. by rewrite Hcr. }
    split; [|unfold durable; rewrite Hst; by split].
    split; [|do 3 (split; [done|]); by left]. split.
    + destruct (context_load_total start) as (x & Hx' & Hv & _).
      { intros k i Hk%(begun_integers _ _ Hb). range. }
      rewrite Hx in Hx'. by injection Hx' as <-.
    + refine (eq_ind_r (Forall app_typed) _ Ha).
      rewrite <-(begun_created _ _ Hb), <-list_fmap_compose. apply Forall_fmap, Forall_true.
      intros a. by apply app_load_typed.
  - rewrite Ha, <-list_fmap_compose. apply list_fmap_ext. intros _ a _. apply app_load_id.
Qed.

Lemma recovers_rebuilt random random' b start s0 s st :
  well_begun b start → builder_build random' b = Ret s0 → recovers s0 s st → rebuilt_as random b st s0 s.
Proof.
  intros Hb Hs0 (x & [Hx Ha] & Ht & Hd). destruct (built_saved _ _ _ _ Hb Hs0) as (Hcr & _).
  destruct (built _ _ _ _ (begun_storage _ _ Hb) Hs0) as (_ & Hx0 & _).
  unfold poll_recovered in Hd. rewrite (loaded_is_stored start _ (begun_integers _ _ Hb) Hx0) in Hd.
  unfold rebuilt_as, rebuild. set (b' := builder_storage _ b).
  destruct (build_total random b' st x eq_refl Hx) as [s2 Hs2]. exists s2. split; [done|].
  destruct (built random b' st s2 eq_refl Hs2) as (_ & Hx2 & Ha2). rewrite Hx in Hx2.
  injection Hx2 as Hx2. unfold poll_since, poll_interval. rewrite <-Hx2.
  split; [|by split]. rewrite Ha2, <-Ha, Hcr. done.
Qed.

Lemma start_build random b c0 :
  builder_start random b = Ret c0 → c0.1 = PStart ∧ builder_build random b = Ret c0.2.
Proof. unfold builder_start. destruct (builder_build random b); [|done]. by intros [= <-]. Qed.

(** ** Properties *)

(** C10: Power may be lost at any moment.  Of a run of the client from a well begun program (its apps
    are as they are created, their ids differ and are no keys of the state machine, and the stored
    integers can be negated), on a storage whose writes and commits succeed, each storage that was
    ever committed was committed in one step of the task.  A program that is built again from it has the apps, with their cohorts and
    the dates they are counted by, the count of failed checks and the time of the last update that
    the client had before that step, or those it has after it, as they are stored: of these a crash
    never brings back a mixture.  Its poll interval may already be that of a response of the check in
    progress, but is always the one the client began with, none, or one of at most a day. *)
Theorem crash_recovers b start random random' c0 l c2 j st :
  well_begun b start → builder_start random b = Ret c0 →
  run c0.2 l c2 → snapshots (storage_ref c2.2) !! j = Some st →
  ∃ l1 c1 l' c', run c0.2 l1 c1 ∧ step c1 l' c' ∧ (l1 ++ l') `prefix_of` l ∧
    (length (snapshots (storage_ref c1.2)) ≤ j < length (snapshots (storage_ref c'.2)))%nat ∧
    (rebuilt_as random' b st c0.2 c1.2 ∨ rebuilt_as random' b st c0.2 c'.2).
Proof.
  intros Hb Hc0 Hrun Hj. apply start_build in Hc0 as [_ Hc0].
  destruct (built_saved _ _ _ _ Hb Hc0) as (Hcr & Hs & Hid).
  pose proof (begun_ids _ _ Hb) as Hids. pose proof (begun_distinct _ _ Hb) as Hnd.
  rewrite <-Hid in Hids, Hnd.
  destruct (run_takes start c0.2 Hids Hnd l c2 j st Hs) as (l1 & c1 & l' & c' & Hr & Hst & Hp & Hlen & Ht);
    [by destruct (built _ _ _ _ (begun_storage _ _ Hb) Hc0) as (-> & _)|done..|].
  exists l1, c1, l', c'. do 4 (split; [done|]).
  destruct Ht; [left|right]; by eapply recovers_rebuilt.
Qed.

(** C11: Between two checks nothing can be lost of the client's books, on a storage whose writes and
    commits succeed.  Wherever a run of a well begun program has come to rest, a program that is built again from what a crash leaves at that moment has the apps of the
    client, and its whole context as it is stored. *)
Theorem nothing_is_lost b start random random' c0 l p s :
  well_begun b start → builder_start random b = Ret c0 → run c0.2 l (p, s) → at_rest p →
  ∃ s2, rebuild random' b (durable start (storage_ref s)) = Ret s2 ∧
    get_apps (app_set s2) = get_apps (app_set s) ∧ context s2 = stored_context (context s).
Proof.
  intros Hb Hc0 Hrun Hp. apply start_build in Hc0 as [_ Hc0].
  destruct (built_saved _ _ _ _ Hb Hc0) as (Hcr & Hs & Hid).
  pose proof (begun_ids _ _ Hb) as Hids. pose proof (begun_distinct _ _ Hb) as Hnd.
  rewrite <-Hid in Hids, Hnd.
  destruct (run_saves start c0.2 Hids Hnd l (p, s) Hs Hrun) as (_ & _ & Hx & Ha); [by destruct p|].
  cbn in Hx, Ha. set (st := durable start (storage_ref s)) in *.
  unfold rebuild. set (b' := builder_storage _ b).
  destruct (build_total random' b' st _ eq_refl Hx) as [s2 Hs2]. exists s2. split; [done|].
  destruct (built random' b' st s2 eq_refl Hs2) as (_ & Hx2 & Ha2). rewrite Hx in Hx2.
  injection Hx2 as <-. split; [|done].
  etrans; [exact Ha2|]. etrans; [|exact Ha]. by rewrite Hcr.
Qed.
End crash.

From S2P Require Import Examples.

#[local] Existing Instance example_serde_laws.
#[local] Instance crashing_client : Client := journaled example_client.

(** A program that will install an update, with an empty storage. *)
Definition crash_builder : ClientBuilder (H0 := crashing_client) :=
  builder_storage (mkJournal mem_new [] : ST) (builder_app_set (mkVecAppSet [example_app])
    (example_builder updating_machine [])).
(** The choices that lead through the check. *)
Definition crash_choices : list Choice := [ChNext; ChNext; ChTimer 0] ++ replicate 24 ChNext.
Definition crash_start : outcome Task := builder_start 0 crash_builder.
Definition crash_run : outcome (list Label * Task) :=
  c0 ← crash_start;
  match simulate crash_choices c0 with Some r => Ret r | None => Panic "stuck" end.

Lemma crash_builder_begun : well_begun example_client crash_builder mem_new.
Proof.
  split; [done| |done|apply NoDup_singleton|].
  - intros k i. cbn. unfold mem_get_int. cbn. by rewrite lookup_empty.
  - intros i ->%list_elem_of_singleton. by apply (bool_decide_unpack _).
Qed.

(** The run: it is at rest again, and the storage was committed three times. *)
Definition crash_run_ok (r : outcome (list Label * Task)) : bool :=
  match r with
  | Ret (l, (PReboot _ _ _, s)) => bool_decide (length (snapshots (storage_ref s)) = 3%nat)
  | _ => false
  end.
Lemma crash_run_spec :
  ∃ c0 l p s, crash_start = Ret c0 ∧ run c0.2 l (p, s) ∧ at_rest example_client p ∧
    is_Some (snapshots (storage_ref s) !! 2%nat).
Proof.
  assert (crash_run_ok crash_run = true) as Hok by (vm_compute; reflexivity).
  unfold crash_run in Hok. destruct (crash_start) as [c0|] eqn:Hc0; [|done].
  cbn -[simulate crash_choices] in Hok. destruct (simulate crash_choices c0) as [[l [p s]]|] eqn:Hs; [|done].
  exists c0, l, p, s. split; [done|]. split.
  - apply (simulate_run c0.2 [] c0 crash_choices); [|done].
    apply (start_build example_client) in Hc0 as [Hp _]. destruct c0 as [p0 s0]. cbn in Hp. subst p0. constructor.
  - destruct p; try done. split; [done|]. apply lookup_lt_is_Some. cbn in Hok.
    apply bool_decide_eq_true in Hok. refine (eq_ind_r (λ n, (2 < n)%nat) _ Hok). lia.
Qed.

Lemma crash_recovers_witness :
  ∃ c0 l c2 st, crash_start = Ret c0 ∧ run c0.2 l c2 ∧
    snapshots (storage_ref c2.2) !! 2%nat = Some st ∧
    ∃ l1 c1 l' c', run c0.2 l1 c1 ∧ step c1 l' c' ∧ (l1 ++ l') `prefix_of` l ∧
      (length (snapshots (storage_ref c1.2)) ≤ 2 < length (snapshots (storage_ref c'.2)))%nat ∧
      (rebuilt_as example_client 7 crash_builder st c0.2 c1.2 ∨
       rebuilt_as example_client 7 crash_builder st c0.2 c'.2).
Proof.
  destruct crash_run_spec as (c0 & l & p & s & Hc0 & Hrun & _ & st & Hst).
  exists c0, l, (p, s), st. do 3 (split; [done|]).
  exact (crash_recovers example_client crash_builder mem_new 0 7 c0 l (p, s) 2 st
    crash_builder_begun Hc0 Hrun Hst).
Defined.

Lemma nothing_is_lost_witness :
  ∃ c0 l p s, crash_start = Ret c0 ∧ run c0.2 l (p, s) ∧ at_rest example_client p ∧
    ∃ s2, rebuild example_client 7 crash_builder (durable mem_new (storage_ref s)) = Ret s2 ∧
      get_apps (app_set s2) = get_apps (app_set s) ∧ context s2 = stored_context (context s).
Proof.
  destruct crash_run_spec as (c0 & l & p & s & Hc0 & Hrun & Hp & _).
  exists c0, l, p, s. do 3 (split; [done|]).
  exact (nothing_is_lost example_client crash_builder mem_new 0 7 c0 l p s
    crash_builder_begun Hc0 Hrun Hp).
Defined.
