(* ===== verification/HelloWorld.v ===== *)
(** * The hello-world client ([examples/hello-world])

    A program that runs the library with the smallest implementation of each of its traits.  The
    HTTP client of [hyper], the timeouts of [tokio] and the clocks of the standard library are
    parameters; everything else of the program is here, as a [Client] that the theorems about the
    library apply to. *)

From S2P Require Import Prelude Serde Effects Time Version Protocol Storage Common UpdateCheck AppSet.
From S2P Require Import UriExt Http Cup RequestBuilder Metrics Installer Policy Machine Omaha Check.
From S2P Require Import Trace Requests Typed Books RunLoop Invariant NoReboot Builder.
From S2P Require Request Response.
Open Scope Z_scope.

(** ** [app_set.rs] *)

Inductive AppIdSource : Type := VbMetadata | ChannelConfig | DefaultEmpty.
Record AppMetadata : Type := mkAppMetadata { appid_source : AppIdSource }.
Record MinimalAppSet : Type := mkMinimalAppSet {
  system_app : App;
  system_app_metadata : AppMetadata;
}.
Definition minimal_app_set_new (system_app : App) (system_app_metadata : AppMetadata) : MinimalAppSet :=
  mkMinimalAppSet system_app system_app_metadata.
Definition set_system_app (a : App) (self : MinimalAppSet) : MinimalAppSet :=
  mkMinimalAppSet a (system_app_metadata self).

Definition get_system_product_id (self : MinimalAppSet) : string :=
  unwrap_or (app_extra_fields (system_app self) !! "product_id"%string) EmptyString.
Definition get_system_current_channel (self : MinimalAppSet) : string :=
  get_current_channel (system_app self).
Definition get_system_target_channel (self : MinimalAppSet) : string :=
  get_target_channel (system_app self).
Definition set_system_target_channel (self : MinimalAppSet) (channel id : option string) : MinimalAppSet :=
  set_system_app (set_target_channel (system_app self) channel id) self.
Definition get_system_app_metadata (self : MinimalAppSet) : AppMetadata := system_app_metadata self.

#[export] Instance minimal_app_set : AppSet MinimalAppSet := {|
  get_apps self := [system_app self];
  iter_mut_apps f self := set_system_app (f (system_app self)) self;
  get_system_app_id self := Ret (app_id (system_app self));
|}.
#[export] Instance minimal_app_set_spec : AppSetSpec MinimalAppSet.
Proof. split; [done|]. intros f s Hf. cbn. by rewrite Hf. Qed.

(** ** [installer.rs] *)

Inductive MinimalInstallErrors : Type := MinimalFailed.
Inductive MinimalInstallResult : Type := MinimalInstalled | MinimalNotInstalled.
Inductive MinimalInstallPlan : Type := mkMinimalInstallPlan.
#[export] Instance minimal_plan : Plan MinimalInstallPlan := λ _, EmptyString.
Record MinimalInstaller : Type := mkMinimalInstaller { minimal_should_fail : bool }.

#[export] Instance minimal_installer `{Anyhow}
    : Installer MinimalInstaller MinimalInstallResult MinimalInstallPlan := {|
  installer_error := MinimalInstallErrors;
  perform_install _ self :=
    ([], (if minimal_should_fail self then (MinimalNotInstalled, [Failed MinimalFailed])
          else (MinimalInstalled, [Installed])), self);
  perform_reboot self := (Ok tt, self);
  try_create_install_plan _ _ response _ _ _ :=
    if decide (Response.protocol_version response = "3.0"%string) then Ok mkMinimalInstallPlan
    else Err MinimalFailed;
|}.

(** ** [metrics.rs] *)

Inductive MinimalMetricsReporter : Type := mkMinimalMetricsReporter.
#[export] Instance minimal_metrics_reporter `{Anyhow} : MetricsReporter MinimalMetricsReporter :=
  λ _ self, (Ok tt, self).

(** ** [storage.rs] *)

Inductive MinimalStorage : Type := mkMinimalStorage.
Inductive MinimalErrors : Type := MinimalIntentional.
Definition minimal_fail (self : MinimalStorage) : result unit MinimalErrors * MinimalStorage :=
  (Err MinimalIntentional, self).
#[export] Instance minimal_storage : Storage MinimalStorage := {|
  storage_error := MinimalErrors;
  get_string _ _ := None;
  get_int _ _ := None;
  get_bool _ _ := None;
  set_string self _ _ := minimal_fail self;
  set_int self _ _ := minimal_fail self;
  set_bool self _ _ := minimal_fail self;
  remove self _ := minimal_fail self;
  commit self := minimal_fail self;
|}.

#[export] Instance minimal_storage_spec : StorageSpec MinimalStorage.
Proof. by refine {| view _ := ∅ |}. Defined.

(** ** [policy.rs] *)

Inductive UnusedPolicyData : Type := mkUnusedPolicyData.
Definition UPDATE_DELAY_SECS : Z := 15.
Inductive MinimalPolicy : Type := mkMinimalPolicy.

(** [compute_next_update_time] reads the standard clock: what it reads comes with the data. *)
Definition minimal_compute_next_update_time (now : SystemTime) : outcome CheckTiming :=
  next_update_time ← time_add now (from_secs UPDATE_DELAY_SECS);
  Ret (mkCheckTiming (Wall next_update_time) (Some (from_millis 100))).
#[export] Instance minimal_policy : Policy MinimalPolicy MinimalInstallPlan (UnusedPolicyData * SystemTime)
    UnusedPolicyData UnusedPolicyData UnusedPolicyData := {|
  policy_compute_next_update_time data _ _ _ := minimal_compute_next_update_time data.2;
  policy_update_check_allowed _ _ _ _ _ := CheckOk request_params_default;
  policy_update_can_start _ _ := UpdateOk;
  policy_reboot_allowed _ _ := true;
  policy_reboot_needed _ := false;
|}.

(** [MinimalPolicyEngine]; [policy_world] is what [SystemTime::now] reads. *)
Record MinimalPolicyEngine (W T : Type) : Type := mkMinimalPolicyEngine {
  minimal_time_source : T;
  minimal_metrics : MinimalMetricsReporter;
  policy_world : W;
}.
Arguments mkMinimalPolicyEngine {W T}.
Arguments minimal_time_source {W T} m.
Arguments minimal_metrics {W T} m.
Arguments policy_world {W T} m.
Definition minimal_policy_engine_new {W T} (time_source : T) (metrics : MinimalMetricsReporter) (world : W)
    : MinimalPolicyEngine W T :=
  mkMinimalPolicyEngine time_source metrics world.
Definition minimal_engine_next_update_time {W T} `{StdClock W} (apps : list App)
    (scheduling : UpdateCheckSchedule) (protocol_state : ProtocolState) (self : MinimalPolicyEngine W T)
    : outcome CheckTiming * MinimalPolicyEngine W T :=
  let '(now, world) := system_time_now (policy_world self) in
  (policy_compute_next_update_time (Policy := minimal_policy) (mkUnusedPolicyData, now) apps scheduling
     protocol_state,
   mkMinimalPolicyEngine (minimal_time_source self) (minimal_metrics self) world).
#[export] Instance minimal_policy_engine {W T} `{StdClock W}
    : PolicyEngine (MinimalPolicyEngine W T) T MinimalInstallResult MinimalInstallPlan := {|
  policy_time_source := minimal_time_source;
  compute_next_update_time := minimal_engine_next_update_time;
  update_check_allowed apps scheduling protocol_state check_options self :=
    (policy_update_check_allowed (Policy := minimal_policy) mkUnusedPolicyData apps scheduling
       protocol_state check_options, self);
  update_can_start plan self :=
    (policy_update_can_start (Policy := minimal_policy) mkUnusedPolicyData plan, self);
  reboot_allowed check_options _ self :=
    (policy_reboot_allowed (Policy := minimal_policy) mkUnusedPolicyData check_options, self);
  reboot_needed plan self := (policy_reboot_needed (Policy := minimal_policy) plan, self);
|}.

(** ** [timer.rs] *)

(** [MinimalTimer]; [slept] has the durations that [tokio::time::sleep] was asked for. *)
Record MinimalTimer (W : Type) : Type := mkMinimalTimer {
  timer_world : W;
  slept : list Duration;
}.
Arguments mkMinimalTimer {W} timer_world slept.
Arguments timer_world {W} m.
Arguments slept {W} m.

Section timer.
Context {W : Type} `{StdClock W}.

Definition duration_until_system_time (world : W) (system : SystemTime) : Duration * W :=
  let '(now, world) := system_time_now world in
  (unwrap_or (res_ok (duration_since system now)) (from_secs 0), world).
Definition duration_until_instant (world : W) (instant : Instant) : Duration * W :=
  let '(now, world) := instant_now world in
  (unwrap_or (checked_duration_since instant now) (from_secs 0), world).

(** The duration that [wait_until] sleeps. *)
Definition minimal_wait_duration (world : W) (time : PartialComplexTime) : Duration * W :=
  match time with
  | Wall w => duration_until_system_time world w
  | Monotonic m => duration_until_instant world m
  | Complex c =>
    let '(dw, world) := duration_until_system_time world (wall c) in
    let '(dm, world) := duration_until_instant world (mono c) in
    (Z.min dw dm, world)
  end.
#[export] Instance minimal_timer : Timer (MinimalTimer W) := {|
  wait_until self time :=
    let '(duration, world) := minimal_wait_duration (timer_world self) time in
    mkMinimalTimer world (slept self ++ [duration]);
  wait_for self duration := mkMinimalTimer (timer_world self) (slept self ++ [duration]);
|}.
End timer.

(** ** [http_request.rs] *)

(** A future by when it is ready, counted from its first poll, and with what; [None] never is. *)
Definition Fut (A : Type) : Type := option (Duration * A).
Definition fut_ready {A} (a : A) : Fut A := Some (0, a).
Definition fut_bind {A B} (m : Fut A) (k : A → Fut B) : Fut B :=
  '(t, a) ← m; '(t', b) ← k a; Some (t + t', b).

(** [hyper_util]'s client [HC] and its messages, whose body is still to arrive, and
    [tokio::time::timeout]. *)
Class HyperClient `{HttpCrate} (HC : Type) := {
  HyperResponse : Type;
  Parts : Type;
  HyperBody : Type;
  client_error : Type;
  boxed_client_error : client_error → ErrorSource;
  client_request : HttpReq → HC → Fut (result HyperResponse client_error) * HC;
  into_parts : HyperResponse → Parts * HyperBody;
  from_parts : Parts → bytes → HttpResp;
  hyper_collect : HyperBody → Fut (result bytes hyper_error);
}.
Class TokioTime := {
  tokio_timeout {A} : Duration → Fut A → Fut (result A unit);
}.
(** What completes before the timeout comes through, and what does not is cut off. *)
Class TokioTimeLaws `{TokioTime} : Prop := {
  timeout_in_time {A} d t (a : A) : t < d → tokio_timeout d (Some (t, a)) = Some (t, Ok a);
  timeout_elapsed {A} d (m : Fut A) :
    match m with Some (t, _) => d < t | None => True end → ∃ t, tokio_timeout d m = Some (t, Err tt);
}.

Record MinimalHttpRequest (HC : Type) : Type := mkMinimalHttpRequest {
  http_timeout : Duration;
  http_client : HC;
}.
Arguments mkMinimalHttpRequest {HC} http_timeout http_client.
Arguments http_timeout {HC} m.
Arguments http_client {HC} m.

Section http.
Context `{HyperClient} `{!TokioTime}.

(** [using_timeout], with the client that is built, and [new]. *)
Definition using_timeout (client : HC) (timeout : Duration) : MinimalHttpRequest HC :=
  mkMinimalHttpRequest timeout client.
Definition minimal_http_new (client : HC) : MinimalHttpRequest HC := using_timeout client (from_secs 30).

Definition collect_from_future (response_future : Fut (result HyperResponse client_error))
    : Fut (result HttpResp HttpRequestError) :=
  fut_bind response_future (λ response,
    match map_err (new_transport ∘ boxed_client_error) response with
    | Err e => fut_ready (Err e)
    | Ok response =>
      let '(parts, body) := into_parts response in
      fut_bind (hyper_collect body) (λ bytes,
        match map_err http_request_error_from bytes with
        | Err e => fut_ready (Err e)
        | Ok bytes => fut_ready (Ok (from_parts parts bytes))
        end)
    end).
Definition collect_from_future_on_timeout (response_future : Fut (result HyperResponse client_error))
    (timeout : Duration) : Fut (result HttpResp HttpRequestError) :=
  fut_bind (tokio_timeout timeout (collect_from_future response_future)) (λ r,
    fut_ready match r with Ok r => r | Err _ => Err new_timeout end).

(** [HttpRequest::request]: the future that is awaited. *)
Definition minimal_request (req : HttpReq) (self : MinimalHttpRequest HC)
    : Fut (result HttpResp HttpRequestError) * MinimalHttpRequest HC :=
  let '(response, client) := client_request req (http_client self) in
  (collect_from_future_on_timeout response (http_timeout self),
   mkMinimalHttpRequest (http_timeout self) client).
(** An await that never ends has no result; with the laws of the timeout there is none. *)
#[export] Instance minimal_http_request : HttpTransport (MinimalHttpRequest HC) := λ req self,
  let '(response, self) := minimal_request req self in
  (match response with Some (_, r) => r | None => Err new_timeout end, self).
End http.

(** ** [main.rs] *)

Definition APP_ID : string := "appid_01".

Definition hello_world_app : App :=
  set_app_cohort (cohort_from_hint "stable-channel") (app_new APP_ID (version_from [14; 20230831; 4; 72])).
Definition hello_world_config `{EcdsaCrate} (url : string) : Config :=
  mkConfig (mkUpdater "FuchsiaUpdater" (version_from [0; 0; 1; 0]))
    (Request.mkOS "Fuchsia" "14.20230831.4.72" "" "aarch64") url None.

(** The task goes to its loop when its apps are valid. *)
Lemma run_start_enters `{Client} s finish :
  all_valid (app_set s) = true → get_time (storage_ref s) UPDATE_FINISH_TIME = Ret finish →
  ∃ v, run_start s = (set_time_source (now_in_monotonic (time_source s)).2 s, [], Ret (PTop v)) ∧
    (finish = None → should_report_waited_for_reboot_duration v = false).
Proof.
  destruct s as [c pe h i tm src mr st ctx ap ch r]. cbn. intros Hall Hf.
  unfold run_start, sm_now_in_monotonic, call, gets, mbind, M_bind. cbn. rewrite Hall. cbn.
  destruct (now_in_monotonic src) as [t ts]. cbn. rewrite Hf. eexists.
  split; [reflexivity|]. by intros ->.
Qed.

Section main.
Context `{Crates} {W HC R : Type}.
Context {clock : StdClock W} {hyper : HyperClient HC} {tokio : TokioTime} {entropy_R : Entropy R}.
Context `{!HexCrate} `{!Sha2Crate}.

(** The implementations the program gives to the library. *)
Definition hello_client : Client := {|
  PE := MinimalPolicyEngine W (StandardTimeSource W);
  TS := StandardTimeSource W;
  HR := MinimalHttpRequest HC;
  IN := MinimalInstaller;
  IR := MinimalInstallResult;
  PL := MinimalInstallPlan;
  TM := MinimalTimer W;
  MR := MinimalMetricsReporter;
  ST := MinimalStorage;
  AS := MinimalAppSet;
  CH := StandardCupv2Handler;
  RNG := R;
|}.
#[local] Existing Instance hello_client.

(** The builder that [main_inner] starts; the three parts that read a clock read the world [w]. *)
Definition hello_world_builder (url : string) (client : HC) (w : W) : ClientBuilder :=
  let platform_config := hello_world_config url in
  let cup_handler := standard_cupv2_handler_new <$> omaha_public_keys platform_config in
  let app_set := minimal_app_set_new hello_world_app (mkAppMetadata DefaultEmpty) in
  builder_new (minimal_policy_engine_new (mkStandardTimeSource w) mkMinimalMetricsReporter w)
    (minimal_http_new client) (mkMinimalInstaller false) (mkMinimalTimer w []) mkMinimalMetricsReporter
    mkMinimalStorage platform_config app_set cup_handler.

(** ** Lemmas *)

Lemma hello_never_needed : never_needed.
Proof. done. Qed.

(** ** Properties *)

(** C25: the hello-world program gets into its loop, and never reboots.  With any service URL, any
    clocks and any randomness, building the state machine does not panic, its one app is valid, so
    the task goes to its loop with its numbers in their ranges; and over the whole run, whatever the
    servers answer and whoever asks, no reboot is asked about, done or waited for. *)
Theorem hello_world_never_reboots url client w (random : RNG) :
  ∃ s, builder_start random (hello_world_builder url client w) = Ret (PStart, s) ∧ machine_typed s ∧
    (∃ v s1, next ChNext (PStart, s) = Some ([], (PTop v, s1)) ∧
       should_report_waited_for_reboot_duration v = false) ∧
    ∀ l c, run s l c →
      observed reboot_of (effects_of l) = [] ∧ no_wait c.1.
Proof.
  eexists. split; [reflexivity|]. split; [|split].
  - split; [split; [split; discriminate|intros d; discriminate]|]. by repeat constructor.
  - set (s := mkStateMachine _ _ _ _ _ _ _ _ _ _ _ _).
    destruct (run_start_enters s None) as (v & Hr & Hv); [vm_compute; reflexivity|reflexivity|].
    exists v. eexists. split; [|by apply Hv]. cbn. unfold after. by rewrite Hr.
  - intros l c. apply run_no_wait, hello_never_needed.
Qed.

(** C26: what the hello-world program does at the head of its loop: as long as the clock is not at
    its end it asks for the next check in 15 seconds, by the wall clock, and in 100 ms at the
    least, and the timer sleeps for what is left of the 15 seconds when it is set.  And in its wait
    every check is allowed, with the default parameters, and a request for one is answered so. *)
Theorem hello_world_schedule v (s : StateMachine) :
  should_report_waited_for_reboot_duration v = false →
  let t := (system_time_now (policy_world (policy_engine s))).1 in
  let timing := mkCheckTiming (Wall (t + from_secs 15)) (Some (from_millis 100)) in
  valid_timespec (t + from_secs 15) →
  let t' := (system_time_now (timer_world (timer s))).1 in
  (∃ s', loop_head v s = (s', [Yield (ScheduleChange (schedule (context s'))); WaitFor (from_millis 100);
       WaitUntil (Wall (t + from_secs 15))], Ret (PWait v)) ∧
     next_update_time (schedule (context s')) = Some timing ∧
     slept (timer s') = slept (timer s) ++ [from_millis 100; Z.max 0 (t + from_secs 15 - t')]) ∧
  ∀ o responder, ∃ s' pending out,
    consider_check v o responder s =
      (s', answer_to responder Started, Ret (PCheck v o pending out)) ∧
    start_update_check request_params_default s = (s', pending, out).
Proof.
  intros Hv t timing Ht t'. split.
  - subst t t' timing. unfold loop_head, try_report_waited. rewrite Hv.
    unfold schedule_next, update_next_update_time, make_wait_to_next_check, sm_wait_for, sm_wait_until,
      update_context, yield_, call, gets, modify, emit, mbind, M_bind. cbn.
    unfold minimal_engine_next_update_time.
    destruct (system_time_now (policy_world (policy_engine s))) as [t w]. cbn in *.
    unfold minimal_compute_next_update_time. rewrite time_add_exact by done. cbn.
    unfold duration_until_system_time. destruct (system_time_now (timer_world (timer s))) as [t' w']. cbn.
    match goal with |- ∃ s', (?x, _, _) = _ ∧ _ => exists x end.
    split; [reflexivity|]. split; [reflexivity|]. cbn. rewrite <-app_assoc. cbn.
    do 3 f_equal. change (from_secs 0) with 0. change UPDATE_DELAY_SECS with 15.
    generalize (t + from_secs 15). intros d. unfold duration_since.
    destruct (decide (t' ≤ d)); cbn [res_ok unwrap_or]; lia.
  - intros o responder. rewrite consider_check_eq. cbn.
    destruct s as [c pe h i tm ts mr st ctx ap ch r]. cbn.
    destruct (start_update_check request_params_default _) as [[s' pending] out]. eauto 10.
Qed.
End main.

(** What the clocks show when the wait starts. *)
Definition wait_start {W} `{StdClock W} (world : W) (time : PartialComplexTime) : ComplexTime :=
  let '(w, world') := system_time_now world in
  mkComplexTime w (instant_now match time with Monotonic _ => world | _ => world' end).1.

(** C27: The timer of the program waits as long as it has to, and not longer.  It never waits a
    negative time; and while both clocks go on at the same pace, one of the bounds it waits for is
    reached exactly from the end of its sleep on. *)
Theorem minimal_timer_exact {W} `{StdClock W} (world : W) (time : PartialComplexTime) e :
  0 ≤ e →
  let c := wait_start world time in
  let d := (minimal_wait_duration world time).1 in
  0 ≤ d ∧ (is_after_or_eq_any (mkComplexTime (wall c + e) (mono c + e)) time = true ↔ d ≤ e).
Proof.
  intros He. unfold wait_start. cbv zeta.
  destruct (system_time_now world) as [w world'] eqn:Hw.
  destruct time as [tw|tm|[tw tm]]; cbn [is_after_or_eq_any minimal_wait_duration wall mono];
    unfold duration_until_system_time, duration_until_instant;
    rewrite ?orb_true_iff, !bool_decide_eq_true.
  - rewrite Hw. cbn. unfold duration_since. case_decide; cbn; unfold from_secs; lia.
  - destruct (instant_now world) as [m world'']. cbn. unfold checked_duration_since.
    case_decide; cbn; unfold from_secs; lia.
  - rewrite Hw. destruct (instant_now world') as [m world'']. cbn.
    unfold duration_since, checked_duration_since.
    repeat case_decide; cbn; unfold from_secs; lia.
Qed.

Lemma minimal_request_result `{HyperClient} `{!TokioTime} (req : HttpReq) (self : MinimalHttpRequest HC) :
  http_request req self =
  let '(response, client) := client_request req (http_client self) in
  (match collect_from_future_on_timeout response (http_timeout self) with
   | Some (_, r) => r
   | None => Err new_timeout
   end, mkMinimalHttpRequest (http_timeout self) client).
Proof.
  unfold http_request, minimal_http_request, minimal_request. by destruct (client_request _ _).
Qed.

Lemma timeout_cut `{HyperClient} `{TokioTimeLaws} d f :
  match collect_from_future f with Some (t, _) => d < t | None => True end →
  ∃ t, collect_from_future_on_timeout f d = Some (t, Err new_timeout).
Proof.
  intros Hf. unfold collect_from_future_on_timeout.
  destruct (timeout_elapsed d (collect_from_future f) Hf) as [t ->]. by eexists.
Qed.
Lemma timeout_through `{HyperClient} `{TokioTimeLaws} d f t r :
  collect_from_future f = Some (t, r) → t < d →
  ∃ t', collect_from_future_on_timeout f d = Some (t', r).
Proof.
  intros Hf Ht. unfold collect_from_future_on_timeout. rewrite Hf, timeout_in_time by done. by eexists.
Qed.

(** A request of the program's HTTP client ends, whatever the server does.  A response whose
    head and body arrive before the timeout is given with its whole body; one that fails before the
    timeout is an error that is no timeout, a transport error when there was no response, and what
    the error of the body says otherwise; and what takes longer, or never comes, is a timeout. *)
Theorem minimal_request_spec `{HyperClient} `{TokioTimeLaws} (req : HttpReq) (self : MinimalHttpRequest HC) :
  let d := http_timeout self in
  let r := (http_request req self).1 in
  match (client_request req (http_client self)).1 with
  | None => r = Err new_timeout
  | Some (t, Err e) =>
    (t < d → r = Err (new_transport (boxed_client_error e))) ∧ (d < t → r = Err new_timeout)
  | Some (t, Ok response) =>
    match hyper_collect (into_parts response).2 with
    | None => r = Err new_timeout
    | Some (t', Err e) =>
      (t + t' < d → r = Err (http_request_error_from e)) ∧ (d < t + t' → r = Err new_timeout)
    | Some (t', Ok bytes) =>
      (t + t' < d → r = Ok (from_parts (into_parts response).1 bytes)) ∧
      (d < t + t' → r = Err new_timeout)
    end
  end.
Proof.
  cbv zeta. rewrite minimal_request_result. destruct (client_request req (http_client self)) as [f client].
  cbn [fst]. set (d := http_timeout self).
  assert (∀ t r, collect_from_future f = Some (t, r) →
    (t < d → match collect_from_future_on_timeout f d with Some (_, r) => r | None => Err new_timeout end = r) ∧
    (d < t → match collect_from_future_on_timeout f d with Some (_, r) => r | None => Err new_timeout end =
       Err new_timeout)) as Hsome.
  { intros t r Hf. split; intros Ht.
    - by destruct (timeout_through d f t r Hf Ht) as [t' ->].
    - destruct (timeout_cut d f) as [t' ->]; [by rewrite Hf|done]. }
  assert (collect_from_future f = None →
    match collect_from_future_on_timeout f d with Some (_, r) => r | None => Err new_timeout end =
    Err new_timeout) as Hnone.
  { intros Hf. destruct (timeout_cut d f) as [t' ->]; [by rewrite Hf|done]. }
  destruct f as [[t [response|e]]|]; [|apply Hsome; cbn; by rewrite Z.add_0_r|by apply Hnone].
  unfold collect_from_future, fut_bind in Hsome, Hnone. cbn in Hsome, Hnone.
  destruct (into_parts response) as [parts body]. cbn.
  destruct (hyper_collect body) as [[t' [bytes|e]]|]; cbn in Hsome, Hnone; [..|by apply Hnone];
    apply Hsome; by rewrite Z.add_0_r.
Qed.

From S2P Require Import Examples.

#[local] Existing Instance example_hex.
#[local] Existing Instance example_sha2.

(** A world of clocks that go on by a nanosecond at each reading, a client that answers after five
    seconds with a body that arrives two later, and timeouts that cut off at once. *)
#[local] Instance example_std_clock : StdClock Z := {|
  system_time_now w := (w, w + 1);
  instant_now w := (w, w + 1);
|}.
#[local] Instance example_hyper : HyperClient (option ExampleResp) := {|
  HyperResponse := ExampleResp;
  Parts := ExampleResp;
  HyperBody := bytes;
  client_error := unit;
  boxed_client_error e := e;
  client_request _ client :=
    (match client with Some r => Some (from_secs 5, Ok r) | None => None end, client);
  into_parts r := (r, body r);
  from_parts r b := mkExampleResp (status_code r) (resp_headers r) b;
  hyper_collect b := Some (from_secs 2, Ok b);
|}.
#[local] Instance example_tokio : TokioTime := {|
  tokio_timeout A d m :=
    match m with
    | Some (t, a) => if decide (t < d) then Some (t, Ok a) else Some (d, Err tt)
    | None => Some (d, Err tt)
    end;
|}.
#[local] Instance example_tokio_laws : TokioTimeLaws.
Proof.
  split; cbn.
  - intros A d t a Ht. by rewrite decide_True.
  - intros A d [[t a]|] Ht; [rewrite decide_False by lia|]; by eexists.
Qed.

Definition hello_example : Client :=
  hello_client (W := Z) (HC := option ExampleResp) (R := Z) (clock := example_std_clock)
    (hyper := example_hyper) (tokio := example_tokio) (entropy_R := example_entropy).

(** The client that is never answered: the run is the one to the wait for the first check. *)
Lemma hello_world_never_reboots_witness :
  ∃ s, builder_start (H0 := hello_example) 0 (hello_world_builder "http://example.com/" None 0) =
      Ret (PStart, s) ∧
    ∃ v s1, next ChNext (PStart, s) = Some ([], (PTop v, s1)).
Proof.
  destruct (hello_world_never_reboots (R := Z) (clock := example_std_clock) (hyper := example_hyper)
    (tokio := example_tokio) (entropy_R := example_entropy) "http://example.com/" None 0 0)
    as (s & Hs & _ & (v & s1 & Hn & _) & _).
  exists s. split; [exact Hs|]. exists v, s1. exact Hn.
Defined.

Definition hello_machine : StateMachine (H0 := hello_example) :=
  mkStateMachine (H0 := hello_example) (hello_world_config "http://example.com/")
    (minimal_policy_engine_new (mkStandardTimeSource 0) mkMinimalMetricsReporter 0)
    (minimal_http_new None) (mkMinimalInstaller false) (mkMinimalTimer 7 []) (mkStandardTimeSource 0)
    mkMinimalMetricsReporter mkMinimalStorage (mkContext schedule_default protocol_state_default)
    (minimal_app_set_new hello_world_app (mkAppMetadata DefaultEmpty)) None 0.

Lemma hello_world_schedule_witness :
  ∃ s', loop_head (mkLoopVars false None 0) hello_machine =
      (s', [Yield (ScheduleChange (schedule (context s'))); WaitFor (from_millis 100);
        WaitUntil (Wall (from_secs 15))], Ret (PWait (mkLoopVars false None 0))) ∧
    slept (timer s') = [from_millis 100; from_secs 15 - 7].
Proof.
  destruct (hello_world_schedule (R := Z) (clock := example_std_clock) (hyper := example_hyper)
    (tokio := example_tokio) (entropy_R := example_entropy) (mkLoopVars false None 0) hello_machine)
    as [(s' & Hl & _ & Hs) _]; [reflexivity|split; discriminate|].
  exists s'. split; [exact Hl|exact Hs].
Defined.

Lemma minimal_timer_exact_witness :
  let time := Complex (mkComplexTime 100 50) in
  (minimal_wait_duration 10 time).1 = 39 ∧
  is_after_or_eq_any (mkComplexTime (10 + 39) (11 + 39)) time = true.
Proof.
  intros time. split; [reflexivity|].
  apply (proj2 (minimal_timer_exact 10 time 39 ltac:(discriminate))). discriminate.
Defined.

Lemma minimal_request_spec_witness :
  let req : @HttpReq example_http := mkExampleReq "http://example.com/" [] [] in
  let resp := mkExampleResp 200 [] [x00] in
  (http_request req (minimal_http_new (Some resp))).1 = Ok resp ∧
  (http_request req (using_timeout (Some resp) (from_secs 6))).1 = Err new_timeout.
Proof.
  intros req resp. split.
  - exact (proj1 (minimal_request_spec req (minimal_http_new (Some resp))) eq_refl).
  - exact (proj2 (minimal_request_spec req (using_timeout (Some resp) (from_secs 6))) eq_refl).
Defined.
