(* ===== verification/MachineTesting.v ===== *)
(** * What the tests of the state machine are run with ([state_machine.rs], [mod tests])

    The stub builder and the installers of the tests, the answers of the server, and what a test
    does with a state machine: run a check, start the task and let it run until it stalls, unblock
    its timers and its installer, ask it for a check, look at what it shows.

    Everything a state machine calls is part of its state, so what a test shares with it, the cells
    of a mock or the storage, is read from the state of the machine and written to it while the
    machine waits.  The timers are seen by the effects of the machine: the one that awaits a timer
    shows the wait it asks for. *)

From S2P Require Import Prelude Testing Serde Effects Time Version Protocol Storage Common UpdateCheck.
From S2P Require Import AppSet UriExt Http Cup RequestBuilder CupKeys Metrics Installer Policy Machine Omaha.
From S2P Require Import Check Trace RunLoop Builder.
From S2P Require Request Response.
Open Scope Z_scope.

(** ** The crates *)

#[export] Instance test_http : HttpCrate := example_http.
#[export] Instance test_uri : UriCrate := example_uri.
#[export] Instance test_serde : SerdeJson := example_serde.
#[export] Instance test_hex : HexCrate := example_hex.
#[export] Instance test_sha2 : Sha2Crate := example_sha2.
#[export] Instance test_ecdsa : EcdsaCrate := example_signing.
#[export] Instance test_sign : EcdsaSign := example_sign.
#[export] Instance test_anyhow : Anyhow := unit.
#[export] Instance test_uuid : Request.UuidCrate := example_uuid.
#[export] Instance test_checks : OverflowChecks := true.
#[export] Instance test_crates : Crates := {|
  crate_uri := test_uri;
  crate_serde := test_serde;
  crate_http := test_http;
  crate_ecdsa := test_ecdsa;
  crate_anyhow := test_anyhow;
  crate_uuid := test_uuid;
  crate_checks := test_checks;
|}.

(** What a test compares of two requests. *)
#[export] Instance test_request_view : RequestView := {|
  Method := string;
  request_method _ := "POST"%string;
  RequestUri := string;
  parse_request_uri := Some;
  request_uri := req_uri;
  request_header r name := snd <$> find_first (λ kv, bool_decide (kv.1 = name)) (req_headers r);
  header_eq_str h s := bool_decide (h = s);
  request_bytes r := Some (req_body r);
  from_utf8_lossy := String.string_of_list_byte;
|}.

(** In tests [GUID::new] counts from 0.  The random numbers are a sequence that starts anywhere. *)
Record TestEntropy : Type := mkTestEntropy { guids : Z; numbers : Z }.
#[export] Instance test_entropy : Entropy TestEntropy := {|
  new_guid r := (Request.mkGUID (guids r), mkTestEntropy (guids r + 1) (numbers r));
  new_nonce r := (mkNonce (replicate 32 x00), r);
  random_u64 r := (wrap_u64 (numbers r), mkTestEntropy (guids r) (numbers r * 6364136223846793005 + 1));
|}.

(** ** The collaborators *)

(** A handle on the mock clock, with what the clock shows.  A test that moves the clock moves every
    handle of the machine. *)
Record MockClock : Type := mkMockClock { shows : ComplexTime }.
#[export] Instance mock_clock : TimeSource MockClock := {|
  now_in_walltime c := (wall (shows c), c);
  now_in_monotonic c := (mono (shows c), c);
  now c := (shows c, c);
|}.
Definition new_from_now : MockClock := mkMockClock (mkComplexTime (10 ^ 18) (10 ^ 12)).

(** Every wait shows in the effects. *)
Inductive TestTimer : Type := mkTestTimer.
#[export] Instance test_timer : Timer TestTimer := {| wait_until tm _ := tm; wait_for tm _ := tm |}.

#[export] Instance test_metrics : MetricsReporter MockMetricsReporter := mock_report tt.

(** [TestInstaller]: it fails [install_fails] times.  It also moves the clock by [INSTALL_DURATION]
    while it installs; its handle on the clock is left out, and no test here looks at how long an
    installation took. *)
Record TestInstaller : Type := mkTestInstaller {
  reboot_called : bool;
  install_fails : nat;
}.
Definition test_installer_new : TestInstaller := mkTestInstaller false 0.
Definition add_install_fail (self : TestInstaller) : TestInstaller :=
  mkTestInstaller (reboot_called self) (S (install_fails self)).
(** The bits of the [f32]s 0.0, 0.3, 0.9 and 1.0. *)
Definition test_progress : list f32 := [0; 1050253722; 1063675494; 1065353216].
#[export] Instance test_installer : Installer TestInstaller unit StubPlan := {|
  installer_error := StubInstallErrors;
  perform_install _ self :=
    match install_fails self with
    | S n => ([], (tt, [Failed StubFailed]), mkTestInstaller (reboot_called self) n)
    | O => ((λ p, mkProgressCall None p None None) <$> test_progress, (tt, [Installed]), self)
    end;
  perform_reboot self := (Ok tt, mkTestInstaller true (install_fails self));
  try_create_install_plan _ _ _ _ _ _ := Ok mkStubPlan;
|}.

(** [BlockingInstaller]: the results are those that the test sends when it unblocks the
    installation. *)
Record BlockingInstaller : Type := mkBlockingInstaller {
  results_sent : list (AppInstallResult StubInstallErrors);
}.
#[export] Instance blocking_installer : Installer BlockingInstaller unit StubPlan := {|
  installer_error := StubInstallErrors;
  perform_install _ self := ([], (tt, results_sent self), self);
  perform_reboot self := (Ok tt, self);
  try_create_install_plan _ _ _ _ _ _ := Ok mkStubPlan;
|}.

(** The client of these collaborators. *)
Definition test_client (PE HR IN MR ST : Type) `{PolicyEngine PE MockClock unit StubPlan}
    `{!HttpTransport HR} `{!Installer IN unit StubPlan} `{!MetricsReporter MR} `{Storage ST} : Client := {|
  PE := PE; TS := MockClock; HR := HR; IN := IN; IR := unit; PL := StubPlan; TM := TestTimer;
  MR := MR; ST := ST; AS := VecAppSet; CH := MockCupv2Handler; RNG := TestEntropy;
|}.

(** ** Building *)

(** [config_generator], with the key it generates. *)
Definition config_generator (signing_key : SigningKey) : Config :=
  let omaha_public_keys := mkPublicKeys (mkPublicKeyAndId (verifying_key signing_key) 42) [] in
  mkConfig (mkUpdater "updater" (version_from [1; 2; 3; 4]))
    (Request.mkOS "platform" "0.1.2.3" "sp" "test_arch") "http://example.com/" (Some omaha_public_keys).

Definition the_app_id : string := "{00000000-0000-0000-0000-000000000001}".
Definition the_app : App :=
  set_app_cohort (cohort_new "stable-channel") (app_new the_app_id (version_from [1; 2; 3; 4])).
(** [make_test_app_set]. *)
Definition make_test_app_set : VecAppSet := mkVecAppSet [the_app].

(** [StateMachineBuilder::new_stub]; 1 is the generated key. *)
Definition TestBuilder (PE HR IN MR ST : Type) : Type :=
  StateMachineBuilder PE HR IN TestTimer MR ST VecAppSet MockCupv2Handler.
Definition new_stub :
    TestBuilder (StubPolicyEngine MockClock) StubHttpRequest StubInstaller StubMetricsReporter StubStorage :=
  builder_new (mkStubPolicyEngine new_from_now) mkStubHttpRequest (mkStubInstaller false) mkTestTimer
    mkStubMetricsReporter mkStubStorage (config_generator (1 : Z)) (mkVecAppSet [the_app])
    (Some (mock_cup_new (1 : Z))).

(** [MockPolicyEngine::default()] with a clock. *)
Definition mock_engine (clock : MockClock) : MockPolicyEngine MockClock := mock_policy_engine_default clock.
Definition with_check_timing (t : option CheckTiming) (e : MockPolicyEngine MockClock) :=
  mkMockPolicyEngine t (check_decision e) (update_decision e) (Policy.time_source e)
    (mock_reboot_allowed e) (mock_reboot_needed e) (reboot_check_options_received e).
Definition with_check_decision (d : CheckDecision) (e : MockPolicyEngine MockClock) :=
  mkMockPolicyEngine (check_timing e) d (update_decision e) (Policy.time_source e)
    (mock_reboot_allowed e) (mock_reboot_needed e) (reboot_check_options_received e).
Definition with_update_decision (d : UpdateDecision) (e : MockPolicyEngine MockClock) :=
  mkMockPolicyEngine (check_timing e) (check_decision e) d (Policy.time_source e)
    (mock_reboot_allowed e) (mock_reboot_needed e) (reboot_check_options_received e).
Definition with_reboot_allowed (b : bool) (e : MockPolicyEngine MockClock) :=
  mkMockPolicyEngine (check_timing e) (check_decision e) (update_decision e) (Policy.time_source e)
    b (mock_reboot_needed e) (reboot_check_options_received e).
Definition with_reboot_needed (b : bool) (e : MockPolicyEngine MockClock) :=
  mkMockPolicyEngine (check_timing e) (check_decision e) (update_decision e) (Policy.time_source e)
    (mock_reboot_allowed e) b (reboot_check_options_received e).
Definition with_clock (c : MockClock) (e : MockPolicyEngine MockClock) :=
  mkMockPolicyEngine (check_timing e) (check_decision e) (update_decision e) c
    (mock_reboot_allowed e) (mock_reboot_needed e) (reboot_check_options_received e).

(** ** What the server answers *)

(** A response about the app, with these members of the app. *)
Definition app_response (protocol : string) (members : list (string * Json)) : Json :=
  JObj [("response", JObj [("server", JStr "prod"); ("protocol", JStr protocol);
    ("app", JArr [JObj ([("appid", JStr the_app_id); ("status", JStr "ok")] ++ members)])])]%string.
Definition updatecheck (members : list (string * Json)) : string * Json :=
  ("updatecheck"%string, JObj members).
Definition status_ok : string * Json := ("status", JStr "ok")%string.
Definition status_noupdate : string * Json := ("status", JStr "noupdate")%string.
Definition manifest_of (version : string) : string * Json :=
  ("manifest", JObj [("version", JStr version); ("actions", JObj [("action", JArr [])]);
     ("packages", JObj [("package", JArr [])])])%string.

(** [serde_json::to_vec(..).unwrap()], and [HttpResponse::new]. *)
Definition to_vec (j : Json) : outcome bytes := unwrap_ok (json_to_vec j).
Definition response_of (body : bytes) : HttpResp := mkExampleResp 200 [] body.
Definition make_update_available_response : outcome HttpResp :=
  body ← to_vec (app_response "3.0" [updatecheck [status_ok]]);
  Ret (response_of body).
Definition make_noupdate_httpresponse : outcome bytes :=
  to_vec (app_response "3.0" [updatecheck [status_noupdate]]).
(** The mock that answers with this first. *)
Definition http_with (j : Json) : outcome MockHttpRequest :=
  body ← to_vec j; Ret (mock_http_new (response_of body)).
Definition http_update_available : outcome MockHttpRequest :=
  response ← make_update_available_response; Ret (mock_http_new response).
Definition http_no_update : outcome MockHttpRequest :=
  body ← make_noupdate_httpresponse; Ret (mock_http_new (response_of body)).

(** [assert_request]: the last request has the body of the one that is built. *)
Definition assert_request (http : MockHttpRequest) (request_builder : RequestBuilder)
    : outcome MockHttpRequest :=
  let cup_handler := standard_cupv2_handler_new
    (make_public_keys_for_test make_default_public_key_id_for_test (verifying_key (2 : Z))) in
  '(request, _) ← unwrap_ok (build (Some cup_handler) (mkNonce (replicate 32 x00)) request_builder);
  bytes ← unwrap (request_bytes request);
  assert_body_str (from_utf8_lossy bytes) http.

(** ** Running *)

(** [build]: the client is that of the collaborators in the builder. *)
Section build.
Context {PE HR IN MR ST : Type} `{PolicyEngine PE MockClock unit StubPlan, !HttpTransport HR,
  !Installer IN unit StubPlan, !MetricsReporter MR, Storage ST}.

Definition TestMachine : Type := StateMachine (H0 := test_client PE HR IN MR ST).
Definition build_test (b : TestBuilder PE HR IN MR ST) : outcome TestMachine :=
  builder_build (H0 := test_client PE HR IN MR ST) (mkTestEntropy 0 42) b.
End build.
Arguments TestMachine PE HR IN MR ST {_ _ _ _ _}.

Section run.
Context `{Client}.

(** What a computation of the state machine gives: the machine after it, what it showed, and its
    value. *)
Definition run_sm {A} (m : SM A) (s : StateMachine) : outcome (StateMachine * list Effect * A) :=
  match m s with (s, t, o) => a ← o; Ret (s, t, a) end.

(** [StateMachine::oneshot], [StateMachine::run_once]. *)
Definition oneshot (request_params : RequestParams) : SM CheckResult :=
  apps ← gets (get_apps ∘ app_set);
  perform_update_check request_params apps.
Definition run_once : SM unit := _ ← start_update_check request_params_default; mret tt.

(** The events that a stream of them gives, and those of one kind. *)
Definition events_of (t : list Effect) : list StateMachineEvent :=
  omap (λ e, match e with Yield ev => Some ev | _ => None end) t.
Definition states_seen (t : list Effect) : list State :=
  omap (λ ev, match ev with StateChange s => Some s | _ => None end) (events_of t).

(** The task that a test has started, and what the test has not taken yet of what the task showed:
    the states its observer saw and the waits of the blocking timer.  [blocks] says what the task
    stops at until the test unblocks it, and [held] is what it shows then; [ready] is whether the
    timers are over at once. *)
Record Pool : Type := mkPool {
  task : Task;
  states : list State;
  waits : list RequestedWait;
  blocks : Effect → bool;
  blocked : bool;
  held : list Effect;
  ready : bool;
}.

Definition wait_of (e : Effect) : option RequestedWait :=
  match e with WaitFor d => Some (For d) | WaitUntil t => Some (Until t) | _ => None end.
(** The task is seen to do these effects, up to the one that blocks it. *)
Fixpoint show (t : list Effect) (p : Pool) : Pool :=
  match t with
  | [] => p
  | e :: t =>
    let p := mkPool (task p) (states p ++ states_seen [e]) (waits p ++ option_list (wait_of e))
      (blocks p) (blocked p) (held p) (ready p) in
    if blocks p e then mkPool (task p) (states p) (waits p) (blocks p) true t (ready p) else show t p
  end.
Definition with_task (c : Task) (p : Pool) : Pool :=
  mkPool c (states p) (waits p) (blocks p) (blocked p) (held p) (ready p).
Definition modify_machine (f : StateMachine → StateMachine) (p : Pool) : Pool :=
  with_task ((task p).1, f (task p).2) p.
Definition machine (p : Pool) : StateMachine := (task p).2.

(** What happens next without the test: a step of the task, or a timer that is over at once. *)
Definition pool_step (p : Pool) : option Pool :=
  if blocked p then None
  else match next ChNext (task p) with
       | Some (l, c) => Some (show (effects_of l) (with_task c p))
       | None =>
         if ready p
         then (λ lc, show (effects_of lc.1) (with_task lc.2 p)) <$> next (ChTimer 0) (task p)
         else None
       end.
(** [pool.run_until_stalled()]. *)
Fixpoint stalled_within (fuel : nat) (p : Pool) : outcome Pool :=
  match fuel with
  | O => Panic "the pool does not stall"
  | S fuel =>
    match pool_step p with
    | Some p => stalled_within fuel p
    | None => Ret p
    end
  end.
Definition run_until_stalled : Pool → outcome Pool := stalled_within 200.
(** [pool.run_until(..)] with a future that is over when [over] holds. *)
Fixpoint until_within (fuel : nat) (over : Pool → bool) (p : Pool) : outcome Pool :=
  match fuel with
  | O => Panic "the future is not ready"
  | S fuel =>
    if over p then Ret p
    else match pool_step p with
         | Some p => until_within fuel over p
         | None => Panic "the future is never ready"
         end
  end.
Definition run_until : (Pool → bool) → Pool → outcome Pool := until_within 200.

(** [start], and the observer that is spawned with the task. *)
Definition spawn (blocks : Effect → bool) (ready : bool) (s : StateMachine) : Pool :=
  mkPool (PStart, s) [] [] blocks false [] ready.

(** [timers.next().await.unwrap().requested_wait()]. *)
Definition next_wait (p : Pool) : outcome (RequestedWait * Pool) :=
  p ← run_until (λ p, match waits p with [] => false | _ => true end) p;
  match waits p with
  | [] => Panic "no wait"
  | w :: rest =>
    Ret (w, mkPool (task p) (states p) rest (blocks p) (blocked p) (held p) (ready p))
  end.
(** Unblocking the timer of this number, among those the task waits for. *)
Definition unblock_timer (n : nat) (p : Pool) : outcome Pool :=
  '(l, c) ← unwrap (next (ChTimer n) (task p));
  Ret (show (effects_of l) (with_task c p)).
(** Unblocking the installer: what the test receives from it, and sends to it. *)
Definition recv_blocked (p : Pool) : outcome Pool := run_until blocked p.
Definition unblock_installer (p : Pool) : Pool :=
  show (held p) (mkPool (task p) (states p) (waits p) (blocks p) false [] (ready p)).

(** [TestObserver::take_states]. *)
Definition take_states (p : Pool) : list State * Pool :=
  (states p, mkPool (task p) [] (waits p) (blocks p) (blocked p) (held p) (ready p)).
Definition assert_states (expected : list State) (p : Pool) : outcome Pool :=
  let '(l, p) := take_states p in assert_eq l expected;; Ret p.

(** [ctl.start_update_check(options).await]: the task takes the request when it can. *)
Definition ctl_start_update_check (options : CheckOptions) (p : Pool)
    : outcome (StartUpdateCheckResponse * Pool) :=
  p ← run_until (λ p, opt_is_some (next (ChRequest 0 options) (task p))) p;
  '(l, c) ← unwrap (next (ChRequest 0 options) (task p));
  match l with
  | LRequest _ _ :: LEffect (Answered _ r) :: l => Ret (r, show (effects_of l) (with_task c p))
  | _ => Panic "no answer"
  end.
End run.
