(* ===== verification/MessageTests.v ===== *)
(** * The tests of [protocol/request/tests.rs], [protocol/response/tests.rs] and
      [request_builder/tests.rs]

    A [json!] is a tree, and so is a text the tests read: it is given to the reader as the example
    crate writes the tree. *)

From S2P Require Import Prelude Testing Serde Version Protocol Common UriExt Http Cup RequestBuilder CupKeys.
From S2P Require Import CupTests MachineTesting.
From S2P Require Request Response.
Open Scope Z_scope.
#[local] Open Scope string_scope.

(** ** [serde_json::to_value] *)

(** A member is put in the place of its name; an earlier one of that name is replaced. *)
Fixpoint put_member (name : string) (j : Json) (members : list (string * Json)) : list (string * Json) :=
  match members with
  | [] => [(name, j)]
  | (name', j') :: members' =>
    match String.compare name name' with
    | Lt => (name, j) :: members
    | Eq => (name, j) :: members'
    | Gt => (name', j') :: put_member name j members'
    end
  end.
(** A [serde_json::Map] has its members in the order of their names. *)
Fixpoint to_value (j : Json) : Json :=
  match j with
  | JArr l => JArr (map to_value l)
  | JObj members =>
    JObj (foldl (λ m kv, put_member kv.1 kv.2 m) [] (map (λ kv, (kv.1, to_value kv.2)) members))
  | j => j
  end.

(** ** Requests *)

Module RequestTests.
Import Request.

(** [n] hex digits, and the digits of a UUID in their groups. *)
Fixpoint hex_digits (n : nat) (z : Z) : string :=
  match n with
  | O => EmptyString
  | S n => hex_digits n (z / 16) +:+ String (hex_digit (Z.to_nat (z mod 16))) EmptyString
  end.
#[local] Instance braced_uuid : UuidCrate := λ z,
  "{" +:+ hex_digits 8 (Z.shiftr z 96) +:+ "-" +:+ hex_digits 4 (Z.shiftr z 80) +:+ "-" +:+
  hex_digits 4 (Z.shiftr z 64) +:+ "-" +:+ hex_digits 4 (Z.shiftr z 48) +:+ "-" +:+ hex_digits 12 z +:+ "}".

(** What the requests of these tests share, and the trees they are compared with. *)
Definition the_id : string := "{00000000-0000-0000-0000-000000000001}".
Definition no_guid : string := "{00000000-0000-0000-0000-000000000000}".
Definition guid_default : GUID := mkGUID 0.
Definition request_of (source : InstallSource) (guid : option GUID) (app : App) : RequestWrapper :=
  mkRequestWrapper (mkRequest "3.0" "some_updater" "1.0" source true guid guid
    (mkOS "some_platform" "4.5" "0.1" "some_architecture") [app]).
Definition tree_of (source : string) (guid : option string) (app : list (string * Json)) : Json :=
  JObj [("request", JObj (
    [("protocol", JStr "3.0"); ("updater", JStr "some_updater"); ("updaterversion", JStr "1.0");
     ("installsource", JStr source); ("ismachine", JBool true)] ++
    match guid with
    | Some guid => [("requestid", JStr guid); ("sessionid", JStr guid)]
    | None => []
    end ++
    [("os", JObj [("platform", JStr "some_platform"); ("version", JStr "4.5"); ("sp", JStr "0.1");
       ("arch", JStr "some_architecture")]);
     ("app", JArr [JObj app])]))].
Definition assert_value (expected : Json) (request : RequestWrapper) : outcome unit :=
  assert_eq (to_value expected) (to_value (request_wrapper_json request)).
(** An app with the default of the other fields. *)
Definition app_of (update_check : option UpdateCheck) (events : list Event) (ping : option Ping)
    (extra_fields : list (string * string)) : App :=
  mkApp the_id "1.2.3.4" None None update_check events ping extra_fields.
Definition tree_app : list (string * Json) := [("appid", JStr the_id); ("version", JStr "1.2.3.4")].
Definition default_check : UpdateCheck := mkUpdateCheck false false.
Definition install_complete : Event := mkEvent InstallComplete Success (Some ParseResponse) None None None.
Definition update_complete : Event := mkEvent UpdateComplete SuccessAndRestartRequired None None None None.
Definition tree_event (type result : Z) (others : list (string * Json)) : Json :=
  JObj ([("eventtype", JNum type); ("eventresult", JNum result)] ++ others).

Definition basic_serialization_test : outcome unit :=
  assert_value (tree_of "ondemand" (Some no_guid) (tree_app ++ [("updatecheck", JObj [])]))
    (request_of OnDemand (Some guid_default) (app_of (Some default_check) [] None [])).

Definition basic_serialization_test_app_with_extras : outcome unit :=
  assert_value (tree_of "ondemand" (Some no_guid) (tree_app ++
      [("updatecheck", JObj []); ("key1", JStr "value1"); ("key2", JStr "value2")]))
    (request_of OnDemand (Some guid_default) (app_of (Some default_check) [] None
      [("key1", "value1"); ("key2", "value2")])).

(** The extra field takes the place of the version. *)
Definition basic_serialization_test_app_with_extras_will_overwrite_protocol_fields : outcome unit :=
  assert_value (tree_of "ondemand" None [("appid", JStr the_id); ("version", JStr "5.6.7.8")])
    (request_of OnDemand None (app_of None [] None [("version", "5.6.7.8")])).

Definition basic_ping_serialization_test : outcome unit :=
  assert_value (tree_of "scheduledtask" None
      (tree_app ++ [("ping", JObj [("ad", JNum 2000); ("rd", JNum 2001)])]))
    (request_of ScheduledTask None (app_of None [] (Some (mkPing (Some 2000) (Some 2001))) [])).

Definition basic_event_serialization_test : outcome unit :=
  assert_value (tree_of "ondemand" None
      (tree_app ++ [("event", JArr [tree_event 2 1 [("errorcode", JNum 0)]])]))
    (request_of OnDemand None (app_of None [install_complete] None [])).

Definition multiple_event_serialization_test : outcome unit :=
  assert_value (tree_of "ondemand" None
      (tree_app ++ [("event", JArr [tree_event 2 1 [("errorcode", JNum 0)]; tree_event 3 2 [];
         tree_event 54 1 [("previousversion", JStr "3.4.5.6"); ("nextversion", JStr "4.5.6.7");
           ("download_time_ms", JNum 42)]])]))
    (request_of OnDemand None (app_of None [install_complete; update_complete;
      mkEvent RebootedAfterUpdate Success None (Some "3.4.5.6") (Some "4.5.6.7") (Some 42)] None [])).

Definition all_fields_serialization_test : outcome unit :=
  assert_value (tree_of "ondemand" (Some no_guid)
      (tree_app ++ [("fp", JStr "some_fingerprint"); ("cohort", JStr "1"); ("cohorthint", JStr "stable");
         ("cohortname", JStr "Production"); ("updatecheck", JObj [("updatedisabled", JBool true)]);
         ("ping", JObj [("ad", JNum 300); ("rd", JNum 45)]);
         ("event", JArr [tree_event 2 1 [("errorcode", JNum 0)]; tree_event 3 2 [];
            tree_event 54 1 [("previousversion", JStr "3.4.5.6")]])]))
    (request_of OnDemand (Some guid_default)
      (mkApp the_id "1.2.3.4" (Some "some_fingerprint")
        (Some (mkCohort (Some "1") (Some "stable") (Some "Production")))
        (Some update_check_disabled)
        [install_complete; update_complete;
         mkEvent RebootedAfterUpdate Success None (Some "3.4.5.6") None None]
        (Some (mkPing (Some 300) (Some 45))) [])).

Definition tests : list (outcome unit) :=
  [basic_serialization_test; basic_serialization_test_app_with_extras;
   basic_serialization_test_app_with_extras_will_overwrite_protocol_fields;
   basic_ping_serialization_test; basic_event_serialization_test; multiple_event_serialization_test;
   all_fields_serialization_test].
End RequestTests.

(** ** Responses *)

Module ResponseTests.
Import Response.

Definition parsed (j : Json) : result Response serde_error := parse_json_response (example_text j).
Definition assert_response (j : Json) (expected : Response) : outcome unit :=
  let* response := unwrap_ok (parsed j) in
  assert_eq response expected.

Definition the_id : string := "{00000000-0000-0000-0000-000000000001}".
Definition response_of (protocol : string) (apps : list Json) : Json :=
  JObj [("response", JObj [("server", JStr "prod"); ("protocol", JStr protocol); ("app", JArr apps)])].
Definition read_as (protocol : string) (apps : list App) : Response :=
  mkResponse protocol (Some "prod") None apps.
Definition status_ok : string * Json := ("status", JStr "ok").
(** An app with the default of the other fields. *)
Definition app_of (id : string) (status : OmahaStatus) (update_check : option UpdateCheck) : App :=
  mkApp id status cohort_default None update_check None ∅.

Definition test_invalid_json : outcome unit :=
  assert (negb (is_ok (parse_json_response (String.list_byte_of_string "invalid_json")))).
Definition test_empty_json : outcome unit := assert (negb (is_ok (parsed (JObj [])))).

Definition test_minimal : outcome unit :=
  assert_response (response_of "3.0" [JObj [("appid", JStr the_id); status_ok]])
    (read_as "3.0" [app_of the_id StatusOk None]).

(** The trees of [test_all_fields], part by part. *)
Definition data_tree : Json := JObj
  [("name", JStr "install"); ("index", JStr "default"); ("status", JStr "ok");
   ("#text", JStr ("{" +:+ newline +:+ quoted "  `distribution` : {" +:+ newline +:+
      quoted "    `some_flag` : true" +:+ newline +:+ "  }" +:+ newline +:+ "}" +:+ newline))].
Definition first_app_tree : Json := JObj
  [("appid", JStr the_id); ("cohort", JStr ""); status_ok; ("cohorthint", JStr "");
   ("cohortname", JStr "");
   ("updatecheck", JObj [("status", JStr "noupdate"); ("info", JStr "no update for you")]);
   ("ping", JObj [status_ok]); ("event", JArr [JObj [status_ok]; JObj [status_ok]]);
   ("data", data_tree)].
Definition first_app : App :=
  mkApp the_id StatusOk (mkCohort (Some "") (Some "") (Some "")) (Some (mkPing StatusOk))
    (Some (mkUpdateCheck NoUpdate (Some "no update for you") None None ∅))
    (Some [mkEvent StatusOk; mkEvent StatusOk]) {["data" := data_tree]}.
Definition sha_a : string := "aaaaaaaaaaaaaaaaaaaaaaaaaaaaaaaaaaaaaaaaaaaaaaaaaaaaaaaaaaaaaaaa".
Definition actions_tree : Json := JObj [("action", JArr
  [JObj [("run", JStr "update_package"); ("arguments", JStr "/update"); ("event", JStr "update")];
   JObj [("event", JStr "postinstall")];
   JObj [("run", JStr "ChromeRecovery.crx")]])].
Definition package_tree : Json := JObj
  [("hash_sha256", JStr sha_a); ("size", JNum 2000000); ("name", JStr "update_package");
   ("fp", JStr ("1." +:+ sha_a)); ("required", JBool true);
   ("hash", JStr "qqqqqqqqqqqqqqqqqqqqqqqqqqqqqqqq")].
Definition codebase_tree (url : string) : Json := JObj [("codebase", JStr url)].
Definition second_app_tree : Json := JObj
  [("appid", JStr "{11111111-1111-1111-1111-111111111111}"); ("cohort", JStr ""); status_ok;
   ("cohortname", JStr "");
   ("updatecheck", JObj
     [("_urgent_update", JStr "true"); status_ok;
      ("urls", JObj [("url",
         JArr [codebase_tree "http://url/base/"; codebase_tree "https://url/base/"])]);
      ("manifest", JObj [("version", JStr "1.3.33.17"); ("actions", actions_tree);
         ("packages", JObj [("package", JArr [package_tree])])])]);
   ("ping", JObj [status_ok]); ("event", JArr [JObj [status_ok]])].
Definition second_app : App :=
  mkApp "{11111111-1111-1111-1111-111111111111}" StatusOk (mkCohort (Some "") None (Some ""))
    (Some (mkPing StatusOk))
    (Some (mkUpdateCheck StatusOk None (Some (urls_new ["http://url/base/"; "https://url/base/"]))
       (Some (mkManifest "1.3.33.17"
         (mkActions [mkAction (Some "update") (Some "update_package") {["arguments" := JStr "/update"]};
            mkAction (Some "postinstall") None ∅; mkAction None (Some "ChromeRecovery.crx") ∅])
         (mkPackages [mkPackage "update_package" true (Some 2000000)
            (Some "qqqqqqqqqqqqqqqqqqqqqqqqqqqqqqqq") (Some sha_a) ("1." +:+ sha_a) ∅])))
       {["_urgent_update" := JStr "true"]}))
    (Some [mkEvent StatusOk]) ∅.
Definition test_all_fields : outcome unit :=
  assert_response
    (JObj [("response", JObj
       [("messagetype", JStr "response"); ("server", JStr "test"); ("protocol", JStr "3.0");
        ("daystart", JObj [("elapsed_seconds", JNum 54956); ("elapsed_days", JNum 4242)]);
        ("app", JArr [first_app_tree; second_app_tree])])])
    (mkResponse "3.0" (Some "test") (Some (mkDayStart (Some 4242) (Some 54956))) [first_app; second_app]).

Definition test_new_cohort : outcome unit :=
  assert_response
    (response_of "3.0" [JObj
       [("appid", JStr the_id); ("cohort", JStr "1:3:"); status_ok; ("cohortname", JStr "stable");
        ("updatecheck", JObj [("status", JStr "noupdate")]); ("ping", JObj [status_ok])]])
    (read_as "3.0" [mkApp the_id StatusOk (mkCohort (Some "1:3:") None (Some "stable"))
       (Some (mkPing StatusOk)) (Some update_check_no_update) None ∅]).

Definition test_unknown_app_id : outcome unit :=
  assert_response
    (response_of "3.0" [JObj [("appid", JStr the_id); ("status", JStr "error-unknownApplication")]])
    (read_as "3.0" [app_of the_id (StatusError "error-unknownApplication") None]).

Definition sha_b : string := "bbbbbbbbbbbbbbbbbbbbbbbbbbbbbbbbbbbbbbbbbbbbbbbbbbbbbbbbbbbbbbbb".
Definition test_single_url : outcome unit :=
  let package := JObj
    [("hash_sha256", JStr sha_b); ("size", JNum 100000000); ("name", JStr "full.payload");
     ("fp", JStr ("1." +:+ sha_b)); ("required", JBool true)] in
  let manifest := JObj
    [("version", JStr "1.0");
     ("actions", JObj [("action",
        JArr [JObj [("event", JStr "install"); ("run", JStr "full.payload")]])]);
     ("packages", JObj [("package", JArr [package])])] in
  assert_response
    (response_of "3.0" [JObj
       [("appid", JStr "single-url-appid"); status_ok;
        ("updatecheck", JObj
           [status_ok; ("urls", JObj [("url", JArr [codebase_tree "http://url/base/"])]);
            ("manifest", manifest)])]])
    (read_as "3.0" [app_of "single-url-appid" StatusOk
       (Some (mkUpdateCheck StatusOk None (Some (urls_new ["http://url/base/"]))
          (Some (mkManifest "1.0" (mkActions [mkAction (Some "install") (Some "full.payload") ∅])
             (mkPackages [mkPackage "full.payload" true (Some 100000000) None (Some sha_b)
                ("1." +:+ sha_b) ∅]))) ∅))]).

Definition test_no_update : outcome unit :=
  assert_response
    (response_of "3.0" [JObj
       [("appid", JStr "no-update-appid"); status_ok; ("updatecheck", JObj [("status", JStr "noupdate")])]])
    (read_as "3.0" [app_of "no-update-appid" StatusOk (Some update_check_no_update)]).

Definition test_unsupported_protocol_version : outcome unit :=
  assert_response (response_of "2.0" [JObj [("appid", JStr the_id); status_ok]])
    (read_as "2.0" [app_of the_id StatusOk None]).

Definition test_missing_app : outcome unit :=
  assert (negb (is_ok (parsed
    (JObj [("response", JObj [("server", JStr "prod"); ("protocol", JStr "3.0")])])))).

Definition valid_json : Json := JObj [("this", JArr [JStr "is"; JStr "valid"; JStr "json"])].
Definition test_no_safe_json : outcome unit :=
  let* valid_json_bytes := unwrap_ok (json_to_vec valid_json) in
  let* parsed_json := unwrap_ok (parse_safe_json (T := Json) valid_json_bytes) in
  assert_eq parsed_json valid_json.
Definition test_safe_json : outcome unit :=
  let* valid_json_bytes := unwrap_ok (json_to_vec valid_json) in
  let* parsed_json := unwrap_ok (parse_safe_json (T := Json)
    ([x29; x5d; x7d; x27; x0a] ++ valid_json_bytes)%list) in
  assert_eq parsed_json valid_json.

Definition test_update_check : outcome unit :=
  let all_packages := [package_with_name "update_package"; package_with_name "update_package2"] in
  let ok := update_check_ok ["http://url/base/"; "https://url/base/"] in
  let update_check := mkUpdateCheck (status ok) (info ok) (urls ok)
    (Some (mkManifest "" (mkActions []) (mkPackages all_packages))) (uc_extra_attributes ok) in
  assert_eq (get_all_url_codebases update_check) ["http://url/base/"; "https://url/base/"];;
  assert_eq (get_all_packages update_check) all_packages;;
  assert_eq (get_all_full_urls update_check)
    ["http://url/base/update_package"; "http://url/base/update_package2";
     "https://url/base/update_package"; "https://url/base/update_package2"].

Definition tests : list (outcome unit) :=
  [test_invalid_json; test_empty_json; test_minimal; test_all_fields; test_new_cohort;
   test_unknown_app_id; test_single_url; test_no_update; test_unsupported_protocol_version;
   test_missing_app; test_no_safe_json; test_safe_json; test_update_check].
End ResponseTests.

(** ** The request builder *)

Module BuilderTests.
#[local] Existing Instance cup_test_pem.

Definition config : Config := config_generator (1 : Z).
Definition on_demand : RequestParams := mkRequestParams Request.OnDemand false false false.
Definition scheduled : RequestParams := mkRequestParams Request.ScheduledTask false false false.
(** [App::builder()] with an id, a version and a cohort. *)
Definition app (id : string) (version : list Z) (cohort : string) : App :=
  set_app_cohort (cohort_new cohort) (app_new id (version_from version)).
Definition with_fingerprint (fp : string) (a : App) : App :=
  mkApp (app_id a) (app_version a) (Some fp) (app_cohort a) (app_user_counting a) (app_extra_fields a).
Definition with_extra_fields (fields : list (string * string)) (a : App) : App :=
  mkApp (app_id a) (app_version a) (app_fingerprint a) (app_cohort a) (app_user_counting a)
    (list_to_map fields).
Definition counted (a : App) : App := set_app_user_counting (ClientRegulatedByDate (Some 34)) a.

Definition nonce_of_test : Nonce := mkNonce (replicate 32 x07).
(** [build_intermediate], with the handler or without one, and the request in it. *)
Definition intermediate_of (cup_handler : option StandardCupv2Handler) (builder : RequestBuilder)
    : outcome Intermediate :=
  let* (intermediate, _) := unwrap_ok (build_intermediate cup_handler nonce_of_test builder) in
  Ret intermediate.
Definition request_of (builder : RequestBuilder) : outcome Request.Request :=
  let* intermediate := intermediate_of None builder in
  Ret (Request.request (ibody intermediate)).
Definition app_of (request : Request.Request) (i : nat) : outcome Request.App :=
  unwrap (Request.apps request !! i).
Definition handler_for_test : outcome StandardCupv2Handler := make_cup_handler_for_test raw_key raw_key.

(** What most tests look at of an app, and of a header. *)
Definition assert_app (a : Request.App) (id version cohort : string) : outcome unit :=
  assert_eq (Request.id a) id;;
  assert_eq (Request.version a) version;;
  assert_eq (Request.cohort a) (Some (cohort_new cohort)).
Definition assert_ping (a : Request.App) : outcome unit :=
  let* ping := unwrap (Request.ping a) in
  assert_eq (Request.date_last_active ping) (Some 34);;
  assert_eq (Request.date_last_roll_call ping) (Some 34).
Definition assert_event (a : Request.App) (i : nat) (type : Request.EventType)
    (result : Request.EventResult) (errorcode : Request.EventErrorCode) : outcome unit :=
  let* event := unwrap (Request.events a !! i) in
  assert_eq (Request.event_type event) type;;
  assert_eq (Request.event_result event) result;;
  assert_eq (Request.errorcode event) (Some errorcode).
Definition assert_no_events (a : Request.App) : outcome unit :=
  assert_eq (length (Request.events a)) 0%nat.
Definition assert_headers (intermediate : Intermediate) (id interactivity : string) : outcome unit :=
  let headers := headers intermediate in
  assert_eq 4%nat (length headers);;
  foldl (λ passed h, passed;; assert (bool_decide (h ∈ headers))) (Ret tt)
    [(CONTENT_TYPE, "application/json"); (Request.HEADER_UPDATER_NAME, updater_name (updater config));
     (Request.HEADER_APP_ID, id); (Request.HEADER_INTERACTIVITY, interactivity)].
(** The fields of a request on demand with the ids 1 and 2. *)
Definition assert_request_fields (request : Request.Request) : outcome unit :=
  assert_eq (Request.protocol_version request) "3.0";;
  assert_eq (Request.updater request) (updater_name (updater config));;
  assert_eq (Request.updater_version request) (version_to_string (updater_version (updater config)));;
  assert_eq (Request.install_source request) Request.OnDemand;;
  assert_eq (Request.is_machine request) true;;
  assert_eq (Request.session_id request) (Some (Request.mkGUID 1));;
  assert_eq (Request.request_id request) (Some (Request.mkGUID 2));;
  assert_eq (Request.os request) (os config).
Definition with_ids (builder : RequestBuilder) : RequestBuilder :=
  set_request_id (Request.mkGUID 2) (set_session_id (Request.mkGUID 1) builder).

Definition test_simple_request : outcome unit :=
  let* cup_handler := handler_for_test in
  let* intermediate := intermediate_of (Some cup_handler)
    (with_ids (add_update_check (with_fingerprint "fp" (app "app id" [5; 6; 7; 8] "some-channel"))
      (request_builder_new config on_demand))) in
  let request := Request.request (ibody intermediate) in
  assert_request_fields request;;
  let* a := app_of request 0 in
  assert_app a "app id" "5.6.7.8" "some-channel";;
  assert_eq (Request.fingerprint a) (Some "fp");;
  assert_eq (Request.update_check a) (Some (Request.mkUpdateCheck false false));;
  assert_no_events a;;
  assert_eq (Request.ping a) None;;
  assert_headers intermediate "app id" "fg";;
  let* u := unwrap_ok (uri_parse (uri intermediate)) in
  let* query := unwrap (uri_query u) in
  assert_eq (length (split_on "&" query)) 1%nat;;
  assert_matches (String.prefix "cup2key=" query).

(** The builder of two apps, with the parameters of the test. *)
Definition two_checks (params : RequestParams) : RequestBuilder :=
  add_update_check (app "app id 2" [5; 6; 7; 8] "some-channel")
    (add_update_check (with_fingerprint "fp" (app "app id 1" [1; 2; 3; 4] "some-channel"))
      (request_builder_new config params)).
Definition assert_two_checks (request : Request.Request) (check : Request.UpdateCheck) : outcome unit :=
  let* a := app_of request 0 in
  assert_app a "app id 1" "1.2.3.4" "some-channel";;
  assert_eq (Request.fingerprint a) (Some "fp");;
  assert_eq (Request.update_check a) (Some check);;
  assert_no_events a;;
  assert_eq (Request.ping a) None;;
  let* a := app_of request 1 in
  assert_eq (Request.update_check a) (Some check).
Definition test_updates_disabled_request : outcome unit :=
  let* request := request_of (with_ids (two_checks (mkRequestParams Request.OnDemand false true false))) in
  assert_request_fields request;;
  assert_two_checks request Request.update_check_disabled.
Definition test_same_version_update_request : outcome unit :=
  let* request := request_of (two_checks (mkRequestParams Request.OnDemand false false true)) in
  assert_two_checks request (Request.mkUpdateCheck false true).

Definition test_app_includes_extras : outcome unit :=
  let* request := request_of (add_update_check
    (with_extra_fields [("key", "value")] (app_new "app id" (version_from [5; 6; 7; 8])))
    (request_builder_new config on_demand)) in
  let* a := app_of request 0 in
  assert_eq (Request.id a) "app id";;
  assert_eq (Request.extra_fields a) [("key", "value")].

(** [request_post] makes a POST. *)
Definition test_single_request : outcome unit :=
  let* cup_handler := handler_for_test in
  let* (http_request, _) := unwrap_ok (build (Some cup_handler) nonce_of_test
    (add_update_check (app "app id" [5; 6; 7; 8] "some-channel") (request_builder_new config on_demand))) in
  assert (String.prefix (service_url config) (req_uri http_request));;
  let* u := unwrap_ok (uri_parse (req_uri http_request)) in
  let* query := unwrap (uri_query u) in
  assert (String.prefix "cup2key=" query);;
  let o := os config in
  let expected := JObj [("request", JObj
    [("protocol", JStr "3.0"); ("updater", JStr (updater_name (updater config)));
     ("updaterversion", JStr (version_to_string (updater_version (updater config))));
     ("installsource", JStr "ondemand"); ("ismachine", JBool true);
     ("os", JObj [("platform", JStr (Request.platform o)); ("version", JStr (Request.os_version o));
        ("sp", JStr (Request.service_pack o)); ("arch", JStr (Request.arch o))]);
     ("app", JArr [JObj [("appid", JStr "app id"); ("cohort", JStr "some-channel");
        ("version", JStr "5.6.7.8"); ("updatecheck", JObj [])]])])] in
  let* actual := unwrap_ok (from_slice (A := Json) (req_body http_request)) in
  assert_eq (to_value expected) (to_value actual);;
  let headers := req_headers http_request in
  assert_eq 4%nat (length headers);;
  foldl (λ passed h, passed;; assert (bool_decide (h ∈ headers))) (Ret tt)
    [("content-type", "application/json"); (Request.HEADER_UPDATER_NAME, updater_name (updater config));
     (Request.HEADER_APP_ID, "app id"); (Request.HEADER_INTERACTIVITY, "fg")].

Definition test_simple_ping : outcome unit :=
  let* intermediate := intermediate_of None (add_ping
    (counted (app "ping app id" [6; 7; 8; 9] "ping-channel")) (request_builder_new config scheduled)) in
  let* a := app_of (Request.request (ibody intermediate)) 0 in
  assert_app a "ping app id" "6.7.8.9" "ping-channel";;
  assert_ping a;;
  assert_headers intermediate "ping app id" "bg".

Definition event (type : Request.EventType) (result : Request.EventResult)
    (errorcode : Request.EventErrorCode) : Request.Event :=
  Request.mkEvent type result (Some errorcode) None None None.
Definition event_app : App := app "event app id" [6; 7; 8; 9] "event-channel".
Definition started : Request.Event :=
  event Request.UpdateDownloadStarted Request.Success Request.Installation.
Definition test_simple_event : outcome unit :=
  let* request := request_of (add_event event_app started (request_builder_new config scheduled)) in
  let* a := app_of request 0 in
  assert_app a "event app id" "6.7.8.9" "event-channel";;
  assert_event a 0 Request.UpdateDownloadStarted Request.Success Request.Installation.
Definition test_multiple_events : outcome unit :=
  let* request := request_of
    (add_event event_app (event Request.UpdateDownloadFinished Request.Error Request.DeniedByPolicy)
      (add_event event_app started (request_builder_new config scheduled))) in
  let* a := app_of request 0 in
  assert_app a "event app id" "6.7.8.9" "event-channel";;
  assert_event a 0 Request.UpdateDownloadStarted Request.Success Request.Installation;;
  assert_event a 1 Request.UpdateDownloadFinished Request.Error Request.DeniedByPolicy.

(** Two apps with update checks, and a ping or an event of one of them. *)
Definition app_1 : App := app "first app id" [1; 2; 3; 4] "some-channel".
Definition app_2 : App := app "second app id" [5; 6; 7; 8] "some-other-channel".
Definition both (app_1 app_2 : App) : RequestBuilder :=
  add_update_check app_2 (add_update_check app_1 (request_builder_new config scheduled)).
(** The two entries of the request. *)
Definition both_apps (request : Request.Request) : outcome (Request.App * Request.App) :=
  assert_eq (length (Request.apps request)) 2%nat;;
  let* a := app_of request 0 in
  let* b := app_of request 1 in
  assert_app a "first app id" "1.2.3.4" "some-channel";;
  assert_app b "second app id" "5.6.7.8" "some-other-channel";;
  Ret (a, b).
Definition finished : Request.Event :=
  event Request.UpdateDownloadFinished Request.Success Request.Installation.
Definition assert_finished (a : Request.App) : outcome unit :=
  assert_event a 0 Request.UpdateDownloadFinished Request.Success Request.Installation.

Definition test_ping_added_to_first_app_update_entry : outcome unit :=
  let* request := request_of (add_ping (counted app_1) (both (counted app_1) app_2)) in
  let* (a, b) := both_apps request in
  assert_ping a;; assert_eq (Request.ping b) None.
Definition test_ping_added_to_second_app_update_entry : outcome unit :=
  let* request := request_of (add_ping (counted app_2) (both app_1 (counted app_2))) in
  let* (_, b) := both_apps request in
  assert_ping b.
Definition test_event_added_to_first_app_update_entry : outcome unit :=
  let* request := request_of (add_event app_1 finished (both app_1 app_2)) in
  let* (a, b) := both_apps request in
  assert_finished a;; assert_no_events b.
Definition test_event_added_to_second_app_update_entry : outcome unit :=
  let* request := request_of (add_event app_2 finished (both app_1 app_2)) in
  let* (a, b) := both_apps request in
  assert_no_events a;; assert_eq (length (Request.events b)) 1%nat;; assert_finished b.

Definition tests : list (outcome unit) :=
  [test_simple_request; test_updates_disabled_request; test_same_version_update_request;
   test_app_includes_extras; test_single_request; test_simple_ping; test_simple_event;
   test_multiple_events; test_ping_added_to_first_app_update_entry;
   test_ping_added_to_second_app_update_entry; test_event_added_to_first_app_update_entry;
   test_event_added_to_second_app_update_entry].
End BuilderTests.

(** ** They pass *)

Definition message_tests : list (outcome unit) :=
  RequestTests.tests ++ ResponseTests.tests ++ BuilderTests.tests.
Lemma message_tests_pass : all_pass message_tests = true.
Proof. vm_compute. reflexivity. Qed.
