(* ===== verification/CheckTests.v ===== *)
(** * The tests of an update check ([state_machine.rs], [mod tests])

    The tests that run a check, or a method of the state machine, on its own. *)

From S2P Require Import Prelude Testing Serde Effects Time Version Protocol Storage Common UpdateCheck.
From S2P Require Import AppSet UriExt StorageTests Http Cup RequestBuilder CupKeys Metrics Installer.
From S2P Require Import Policy Machine Omaha Check Trace RunLoop Builder MachineTesting.
From S2P Require Request Response.
Open Scope Z_scope.

(** What the tests look at of the result of a check. *)
Section results.
Context `{Client}.
Definition unwrap_result (r : CheckResult) : outcome (UpdateCheck.Response * RebootAfterUpdate) := unwrap_ok r.
Definition app_result (i : nat) (r : UpdateCheck.Response) : outcome AppResponse :=
  unwrap (app_responses r !! i).
Definition is_needed (r : RebootAfterUpdate) : bool := match r with Needed _ => true | NotNeeded => false end.
Definition is_not_needed (r : RebootAfterUpdate) : bool := negb (is_needed r).

(** The events of one kind ([filter_map]). *)
Definition installer_errors (l : list StateMachineEvent)
    : list (installer_error (Installer := client_installer)) :=
  omap (λ e, match e with InstallerError (Some e) => Some e | _ => None end) l.
Definition state_changes (l : list StateMachineEvent) : list State :=
  omap (λ e, match e with StateChange s => Some s | _ => None end) l.
Definition schedule_changes (l : list StateMachineEvent) : list UpdateCheckSchedule :=
  omap (λ e, match e with ScheduleChange s => Some s | _ => None end) l.
Definition protocol_state_changes (l : list StateMachineEvent) : list ProtocolState :=
  omap (λ e, match e with ProtocolStateChange s => Some s | _ => None end) l.
Definition server_responses (l : list StateMachineEvent) : list Response.Response :=
  omap (λ e, match e with OmahaServerResponse r => Some r | _ => None end) l.
Definition progresses (l : list StateMachineEvent) : list f32 :=
  omap (λ e, match e with InstallProgressChange p => Some (progress p) | _ => None end) l.
End results.

(** A response about the app and its cohort. *)
Definition cohort_response (check : list (string * Json)) : Json :=
  app_response "3.0" [("cohort", JStr "1"); ("cohortname", JStr "stable-channel"); updatecheck check]%string.
Definition empty_response : HttpResp := response_of [].

(** [StateMachineBuilder::oneshot] of a test builder: the machine after it, its effects, its result. *)
Section oneshot.
Context {PE HR IN MR ST : Type} `{PolicyEngine PE MockClock unit StubPlan, !HttpTransport HR,
  !Installer IN unit StubPlan, !MetricsReporter MR, Storage ST}.
Definition builder_oneshot (b : TestBuilder PE HR IN MR ST) :=
  s ← build_test b;
  run_sm (H0 := test_client PE HR IN MR ST) (oneshot request_params_default) s.
(** [oneshot_check] of a test builder: its events. *)
Definition oneshot_events (b : TestBuilder PE HR IN MR ST)
    : outcome (list (StateMachineEvent (H0 := test_client PE HR IN MR ST))) :=
  let '(events, over) :=
    builder_oneshot_check (H0 := test_client PE HR IN MR ST) (mkTestEntropy 0 42) b in
  over;; Ret events.
(** The request that a test expects of the machine, about its apps. *)
Definition expected_request (s : TestMachine PE HR IN MR ST) (session_id request_id : Z)
    (add : list App → RequestBuilder → outcome RequestBuilder) : outcome RequestBuilder :=
  let builder := request_builder_new (config s) request_params_default in
  builder ← add (get_apps (app_set s)) builder;
  Ret (set_request_id (Request.mkGUID request_id) (set_session_id (Request.mkGUID session_id) builder)).
End oneshot.
Definition with_event (i : nat) (event : Request.Event) (apps : list App) (builder : RequestBuilder)
    : outcome RequestBuilder :=
  app ← unwrap (apps !! i); Ret (add_event app event builder).

Definition run_simple_check_with_noupdate_result : outcome unit :=
  http ← http_no_update;
  let* (_, _, r) := builder_oneshot (builder_http http new_stub) in
  _ ← unwrap_result r;
  Ret tt.

Definition assert_cohort (r : UpdateCheck.Response) : outcome unit :=
  app ← app_result 0 r;
  assert_eq the_app_id (response_app_id app);;
  assert_eq (Some "1"%string) (cohort_id (response_cohort app));;
  assert_eq (Some "stable-channel"%string) (cohort_name (response_cohort app));;
  assert_eq None (cohort_hint (response_cohort app)).

Definition test_cohort_returned_with_noupdate_result : outcome unit :=
  http ← http_with (cohort_response [status_noupdate]);
  let* (_, _, r) := builder_oneshot (builder_http http new_stub) in
  let* (response, reboot_after_update) := unwrap_result r in
  assert_cohort response;;
  assert_matches (is_not_needed reboot_after_update).

Definition test_cohort_returned_with_update_result : outcome unit :=
  http ← http_with (cohort_response [status_ok]);
  let* (_, _, r) := builder_oneshot (builder_http http new_stub) in
  let* (response, reboot_after_update) := unwrap_result r in
  assert_cohort response;;
  assert_matches (is_needed reboot_after_update).

(** An event of an app that had the version 1.2.3.4. *)
Definition event_of (event : Request.Event) (next_version : option string) (download : option Z)
    : Request.Event :=
  Request.mkEvent (Request.event_type event) (Request.event_result event) (Request.errorcode event)
    (Some "1.2.3.4"%string) next_version download.
Definition invalid_body : bytes := String.list_byte_of_string "invalid response".

Definition test_report_parse_response_error : outcome unit :=
  let* (s, _, r) := builder_oneshot (builder_http (mock_http_new (response_of invalid_body)) new_stub) in
  assert_matches match r with Err (ErrorResponseParser _) => true | _ => false end;;
  request_builder ← expected_request s 0 2
    (with_event 0 (event_of (Request.event_error Request.ParseResponse) None None));
  _ ← assert_request (http s) request_builder;
  Ret tt.

Definition test_report_construct_install_plan_error : outcome unit :=
  http ← http_with (app_response "4.0" [updatecheck [status_ok]]);
  let* (s, _, r) := builder_oneshot (builder_http http new_stub) in
  assert_matches match r with Err (ErrorInstallPlan _) => true | _ => false end;;
  request_builder ← expected_request s 0 2
    (with_event 0 (event_of (Request.event_error Request.ConstructInstallPlan) None None));
  _ ← assert_request (Machine.http s) request_builder;
  Ret tt.

Definition test_report_installation_error : outcome unit :=
  http ← http_with (app_response "3.0" [updatecheck [status_ok; manifest_of "5.6.7.8"]]);
  let* (s, _, r) := builder_oneshot (builder_installer (mkStubInstaller true) (builder_http http new_stub)) in
  let* (response, reboot_after_update) := unwrap_result r in
  app ← app_result 0 response;
  assert_eq ActionInstallPlanExecutionError (response_result app);;
  assert_matches (is_not_needed reboot_after_update);;
  request_builder ← expected_request s 0 3 (with_event 0
    (event_of (Request.event_error Request.Installation) (Some "5.6.7.8"%string) (Some 0)));
  _ ← assert_request (Machine.http s) request_builder;
  Ret tt.

Definition app_member (id : string) (check : list (string * Json)) : Json :=
  JObj [("appid", JStr id); ("status", JStr "ok"); updatecheck check]%string.
Definition event_with (e : Request.Event) (previous next : string) (download : Z) : Request.Event :=
  Request.mkEvent (Request.event_type e) (Request.event_result e) (Request.errorcode e)
    (Some previous) (Some next) (Some download).
Definition update_deferred : Request.Event :=
  Request.mkEvent Request.UpdateComplete Request.UpdateDeferred
    (Request.errorcode Request.event_default) None None None.
Definition test_report_installation_error_multi_app : outcome unit :=
  http ← http_with (JObj [("response", JObj [("server", JStr "prod"); ("protocol", JStr "3.0");
    ("app", JArr [app_member "appid_3" [status_ok; manifest_of "5.6.7.8"];
       app_member "appid_1" [status_ok; manifest_of "1.2.3.4"];
       app_member "appid_2" [status_noupdate]])])])%string;
  let http := mock_add_response empty_response http in
  app_set ← vec_app_set_new [app_new "appid_1" (version_from [1; 2; 3; 3]);
    app_new "appid_2" (version_from [9; 9; 9; 9]); app_new "appid_3" (version_from [5; 6; 7; 7])];
  let* (s, _, r) := builder_oneshot (builder_app_set app_set (builder_http http
    (builder_installer (mkBlockingInstaller [Deferred; Installed]) new_stub))) in
  let* (response, reboot_after_update) := unwrap_result r in
  app0 ← app_result 0 response;
  app1 ← app_result 1 response;
  app2 ← app_result 2 response;
  assert_eq "appid_3"%string (response_app_id app0);;
  assert_eq ActionDeferredByPolicy (response_result app0);;
  assert_eq "appid_1"%string (response_app_id app1);;
  assert_eq ActionUpdated (response_result app1);;
  assert_eq "appid_2"%string (response_app_id app2);;
  assert_eq ActionNoUpdate (response_result app2);;
  assert_matches (is_needed reboot_after_update);;
  request_builder ← expected_request s 0 4 (with_event 0
    (event_with (Request.event_success Request.UpdateComplete) "1.2.3.3" "1.2.3.4" 0));
  http ← assert_request (Machine.http s) request_builder;
  request_builder ← expected_request s 0 3 (λ apps b,
    b ← with_event 2 (event_with update_deferred "5.6.7.7" "5.6.7.8" 0) apps b;
    with_event 0 (event_with (Request.event_success Request.UpdateDownloadFinished)
      "1.2.3.3" "1.2.3.4" 0) apps b);
  _ ← assert_request http request_builder;
  Ret tt.

Definition test_observe_installation_error : outcome unit :=
  http ← http_update_available;
  let* events := oneshot_events (builder_installer (mkStubInstaller true) (builder_http http new_stub)) in
  assert_eq (A := list StubInstallErrors) (installer_errors events) [StubFailed].

(** The check with a policy that makes this decision about the update. *)
Definition decided_check (d : UpdateDecision) :=
  http ← http_update_available;
  builder_oneshot (builder_policy_engine (with_update_decision d (mock_engine new_from_now))
    (builder_http http new_stub)).
Definition test_report_deferred_by_policy : outcome unit :=
  let* (s, _, r) := decided_check UpdateDeferredByPolicy in
  let* (response, reboot_after_update) := unwrap_result r in
  app ← app_result 0 response;
  assert_eq ActionDeferredByPolicy (response_result app);;
  assert_matches (is_not_needed reboot_after_update);;
  request_builder ← expected_request s 0 2 (with_event 0 (event_of update_deferred None None));
  _ ← assert_request (http s) request_builder;
  Ret tt.
Definition test_report_denied_by_policy : outcome unit :=
  let* (s, _, r) := decided_check UpdateDeniedByPolicy in
  let* (response, reboot_after_update) := unwrap_result r in
  app ← app_result 0 response;
  assert_eq ActionDeniedByPolicy (response_result app);;
  assert_matches (is_not_needed reboot_after_update);;
  request_builder ← expected_request s 0 2
    (with_event 0 (event_of (Request.event_error Request.DeniedByPolicy) None None));
  _ ← assert_request (http s) request_builder;
  Ret tt.

Definition report_tests : list (outcome unit) :=
  [run_simple_check_with_noupdate_result; test_cohort_returned_with_noupdate_result;
   test_cohort_returned_with_update_result; test_report_parse_response_error;
   test_report_construct_install_plan_error; test_report_installation_error;
   test_report_installation_error_multi_app; test_observe_installation_error;
   test_report_deferred_by_policy; test_report_denied_by_policy].

Lemma report_tests_pass : all_pass report_tests = true.
Proof. vm_compute. reflexivity. Qed.

(** ** What the apps and the observers see *)

(** A response with a daystart. *)
Definition daystart_response : Json :=
  JObj [("response", JObj [("server", JStr "prod"); ("protocol", JStr "3.0");
    ("daystart", JObj [("elapsed_days", JNum 1234567); ("elapsed_seconds", JNum 3645)]);
    ("app", JArr [JObj [("appid", JStr the_app_id); ("status", JStr "ok"); ("cohort", JStr "1");
       ("cohortname", JStr "stable-channel"); updatecheck [status_noupdate]]])])]%string.

Definition test_cohort_and_user_counting_updates_are_used_in_subsequent_requests : outcome unit :=
  body ← to_vec daystart_response;
  let http := mock_add_response (response_of body) (mock_http_new (response_of body)) in
  let* s := build_test (builder_app_set make_test_app_set (builder_http http new_stub)) in
  let* (s, _, _) := run_sm run_once s in
  let apps := get_apps (app_set s) in
  app ← unwrap (apps !! 0%nat);
  assert_eq (Some "1"%string) (cohort_id (app_cohort app));;
  assert_eq None (cohort_hint (app_cohort app));;
  assert_eq (Some "stable-channel"%string) (cohort_name (app_cohort app));;
  assert_eq (ClientRegulatedByDate (Some 1234567)) (app_user_counting app);;
  let* (s, _, _) := run_sm run_once s in
  expected ← expected_request s 2 3 (λ _ b, Ret (add_ping app (add_update_check app b)));
  _ ← assert_request (Machine.http s) expected;
  Ret tt.

Definition test_user_counting_returned : outcome unit :=
  http ← http_with daystart_response;
  let* (_, _, r) := builder_oneshot (builder_http http new_stub) in
  let* (response, reboot_after_update) := unwrap_result r in
  app ← app_result 0 response;
  assert_eq (ClientRegulatedByDate (Some 1234567)) (response_user_counting app);;
  assert_matches (is_not_needed reboot_after_update).

Definition test_observe_state : outcome unit :=
  let* events := oneshot_events new_stub in
  assert_eq (state_changes events) [CheckingForUpdates Request.ScheduledTask; ErrorCheckingForUpdate].

Definition test_observe_schedule : outcome unit :=
  let mock_time := new_from_now in
  let* events := oneshot_events (builder_policy_engine (mkStubPolicyEngine mock_time) new_stub) in
  let now := Complex (shows mock_time) in
  assert_eq (schedule_changes events) [mkUpdateCheckSchedule (Some now) (Some now) None].

Definition test_observe_protocol_state : outcome unit :=
  let* events := oneshot_events new_stub in
  assert_eq (protocol_state_changes events)
    [mkProtocolState (server_dictated_poll_interval protocol_state_default) 1
       (consecutive_proxied_requests protocol_state_default)].

Definition test_observe_omaha_server_response : outcome unit :=
  body ← to_vec (cohort_response [status_noupdate]);
  expected ← unwrap_ok (Response.parse_json_response body);
  let* events := oneshot_events (builder_http (mock_http_new (response_of body)) new_stub) in
  assert_eq (server_responses events) [expected].

Definition test_progress_observer : outcome unit :=
  http ← http_update_available;
  let* events := oneshot_events (builder_policy_engine (mkStubPolicyEngine new_from_now)
    (builder_installer test_installer_new (builder_http http new_stub))) in
  assert_eq (progresses events) test_progress.

(** ** Metrics *)

(** The metrics that a check or a run of [run_once] reports. *)
Definition metrics_after_oneshot {HR} `{!HttpTransport HR} (http : HR) : outcome (list Metrics) :=
  let* (s, _, _) := builder_oneshot
    (builder_metrics_reporter mock_metrics_new (builder_http http new_stub)) in
  Ret (metrics (metrics_reporter s)).
Definition metrics_after_run_once {HR} `{!HttpTransport HR} (http : HR) : outcome (list Metrics) :=
  let* s := build_test (builder_metrics_reporter mock_metrics_new (builder_http http new_stub)) in
  let* (s, _, _) := run_sm run_once s in
  Ret (metrics (metrics_reporter s)).

Definition the_lost_event : Request.Event := Request.event_error Request.ParseResponse.
Definition test_metrics_report_omaha_event_lost : outcome unit :=
  metrics ← metrics_after_oneshot (mock_http_new (response_of invalid_body));
  assert_matches
    match metrics with
    | [UpdateCheckResponseTime _ true; RequestsPerCheck 1 true; OmahaEventLost event] =>
      bool_decide (event = the_lost_event)
    | _ => false
    end.

(** The code lists the two metrics of the check; the event that is sent for the empty answer of the
    stub is not lost. *)
Definition test_metrics_report_update_check_response_time : outcome unit :=
  metrics ← metrics_after_oneshot mkStubHttpRequest;
  assert_matches
    match metrics with [UpdateCheckResponseTime _ true; RequestsPerCheck 1 true] => true | _ => false end.

(** A mock that fails so often before it answers. *)
Definition failing_http (failures : nat) : MockHttpRequest :=
  mock_add_response response_empty
    (Nat.iter failures (mock_add_error make_transport_error) mock_http_empty).
Definition max_attempts : nat := Z.to_nat MAX_OMAHA_REQUEST_ATTEMPTS.

Definition test_metrics_report_update_check_response_time_on_failure : outcome unit :=
  metrics ← metrics_after_oneshot (failing_http max_attempts);
  assert_matches
    match metrics with
    | [UpdateCheckResponseTime _ false; UpdateCheckResponseTime _ false;
       UpdateCheckResponseTime _ false; RequestsPerCheck 3 false] => true
    | _ => false
    end.
Definition test_metrics_report_update_check_response_time_on_failure_followed_by_success : outcome unit :=
  metrics ← metrics_after_oneshot (failing_http (max_attempts - 1));
  assert_matches
    match metrics with
    | [UpdateCheckResponseTime _ false; UpdateCheckResponseTime _ false;
       UpdateCheckResponseTime _ true; RequestsPerCheck 3 true; OmahaEventLost event] =>
      bool_decide (event = the_lost_event)
    | _ => false
    end.

Definition reports (m : Metrics) (l : list Metrics) : bool := bool_decide (m ∈ l).
Definition test_metrics_report_requests_per_check : outcome unit :=
  metrics ← metrics_after_oneshot mkStubHttpRequest;
  assert (reports (RequestsPerCheck 1 true) metrics).
Definition test_metrics_report_requests_per_check_on_failure_followed_by_success : outcome unit :=
  metrics ← metrics_after_oneshot (failing_http (max_attempts - 1));
  assert (negb (bool_decide (metrics = [])));;
  assert (reports (RequestsPerCheck MAX_OMAHA_REQUEST_ATTEMPTS true) metrics).
Definition test_metrics_report_requests_per_check_on_failure : outcome unit :=
  metrics ← metrics_after_oneshot (failing_http max_attempts);
  assert (negb (bool_decide (metrics = [])));;
  assert (reports (RequestsPerCheck MAX_OMAHA_REQUEST_ATTEMPTS false) metrics).

(** The waits of the machine are put to the mock timer. *)
Fixpoint wait_on (waits : list RequestedWait) (timer : MockTimer) : outcome MockTimer :=
  match waits with
  | [] => Ret timer
  | w :: waits =>
    '(timer, future) ← handle_wait timer w;
    match future with FutReady => wait_on waits timer | FutPending => Panic "blocked" end
  end.
Definition test_requests_per_check_backoff_with_mock_timer : outcome unit :=
  let timer := expect_for_range (expect_for_range mock_timer_new (from_millis 500) (from_millis 1500))
    (from_millis 1500) (from_millis 2500) in
  let* (_, t, response) := builder_oneshot (builder_http mock_http_empty new_stub) in
  timer ← wait_on (omap wait_of t) timer;
  assert_matches
    match requested_waits timer with
    | [For d; For d'] =>
      bool_decide (from_millis 500 ≤ d ≤ from_millis 1500) &&
      bool_decide (from_millis 1500 ≤ d' ≤ from_millis 2500)
    | _ => false
    end;;
  assert_matches match response with Err (ErrorOmahaRequest (ReqHttpStatus _)) => true | _ => false end;;
  mock_timer_drop timer.

Definition test_metrics_report_update_check_failure_reason_omaha : outcome unit :=
  metrics ← metrics_after_run_once mkStubHttpRequest;
  assert (reports (UpdateCheckFailure FailureOmaha) metrics).
Definition test_metrics_report_update_check_failure_reason_network : outcome unit :=
  metrics ← metrics_after_run_once mock_http_empty;
  assert (reports (UpdateCheckFailure FailureNetwork) metrics).

Definition metric_tests : list (outcome unit) :=
  [test_cohort_and_user_counting_updates_are_used_in_subsequent_requests; test_user_counting_returned;
   test_observe_state; test_observe_schedule; test_observe_protocol_state;
   test_observe_omaha_server_response; test_progress_observer; test_metrics_report_omaha_event_lost;
   test_metrics_report_update_check_response_time;
   test_metrics_report_update_check_response_time_on_failure;
   test_metrics_report_update_check_response_time_on_failure_followed_by_success;
   test_metrics_report_requests_per_check;
   test_metrics_report_requests_per_check_on_failure_followed_by_success;
   test_metrics_report_requests_per_check_on_failure;
   test_requests_per_check_backoff_with_mock_timer;
   test_metrics_report_update_check_failure_reason_omaha;
   test_metrics_report_update_check_failure_reason_network].

Lemma metric_tests_pass : all_pass metric_tests = true.
Proof. vm_compute. reflexivity. Qed.

(** ** What is kept in the storage *)

(** The machine of a builder with this storage, after a check of [oneshot_check] or [oneshot]. *)
Definition after_check {HR} `{!HttpTransport HR} (http : HR) (storage : MemStorage) :=
  let* s := build_test (builder_storage storage (builder_http http new_stub)) in
  run_sm (start_update_check request_params_default) s.
Definition after_oneshot {HR} `{!HttpTransport HR} (http : HR) (storage : MemStorage) :=
  builder_oneshot (builder_storage storage (builder_http http new_stub)).

Definition test_persist_last_update_time : outcome unit :=
  let* (s, _, _) := after_check mkStubHttpRequest mem_new in
  _ ← unwrap (get_int (storage_ref s) LAST_UPDATE_TIME);
  assert (mem_committed (storage_ref s)).

(** The answer that dictates a poll interval, and what the machine makes of it. *)
Definition retry_after (status : Z) (seconds : string) (body : bytes) : MockHttpRequest :=
  mock_http_new (mkExampleResp status [(X_RETRY_AFTER, seconds)] body).
Definition is_status_error `{Client} (r : CheckResult) : bool :=
  match r with Err (ErrorOmahaRequest (ReqHttpStatus _)) => true | _ => false end.
Definition assert_interval (ctx : Context) (storage : MemStorage) (seconds : Z) : outcome unit :=
  assert_eq (server_dictated_poll_interval (state ctx)) (Some (from_secs seconds));;
  assert_eq (get_int storage SERVER_DICTATED_POLL_INTERVAL) (Some (seconds * 1000000));;
  assert (mem_committed storage).

Definition test_persist_server_dictated_poll_interval : outcome unit :=
  body ← make_noupdate_httpresponse;
  let* (s, _, r) := after_oneshot (retry_after 200 "1234" body) mem_new in
  _ ← unwrap_result r;
  assert_interval (context s) (storage_ref s) 1234.
Definition test_persist_server_dictated_poll_interval_http_error : outcome unit :=
  let* (s, _, r) := after_oneshot (retry_after 500 "1234" []) mem_new in
  assert_matches (is_status_error r);;
  assert_interval (context s) (storage_ref s) 1234.
Definition test_persist_server_dictated_poll_interval_max_duration : outcome unit :=
  let* (s, _, r) := after_oneshot (retry_after 500 "123456789" []) mem_new in
  assert_matches (is_status_error r);;
  assert_interval (context s) (storage_ref s) 86400.

Definition test_server_dictated_poll_interval_with_transport_error_no_retry : outcome unit :=
  let http := mock_add_error make_transport_error mock_http_empty in
  let storage := (commit (set_int mem_new SERVER_DICTATED_POLL_INTERVAL 1234000000).2).2 in
  let* (s, _, r) := after_oneshot http storage in
  assert_matches match r with Err (ErrorOmahaRequest (ReqHttpTransport _)) => true | _ => false end;;
  assert_eq (server_dictated_poll_interval (state (context s))) (Some (from_secs 1234)).

Definition test_persist_app : outcome unit :=
  let* s := build_test (builder_app_set make_test_app_set (builder_storage mem_new new_stub)) in
  let* (s, _, _) := run_sm (start_update_check request_params_default) s in
  app ← unwrap (get_apps (app_set s) !! 0%nat);
  _ ← unwrap (get_string (storage_ref s) (app_id app));
  assert (mem_committed (storage_ref s)).

(** [mock_time.truncate_submicrosecond_walltime()]. *)
Definition truncated (clock : MockClock) : outcome MockClock :=
  t ← truncate_submicrosecond_walltime (shows clock); Ret (mkMockClock t).
Definition test_load_last_update_time : outcome unit :=
  mock_time ← truncated new_from_now;
  last_update_time ← time_sub (wall (shows mock_time)) (from_secs 999);
  storage ← unwrap_write (set_time mem_new LAST_UPDATE_TIME last_update_time);
  let* s := build_test
    (builder_policy_engine (mkStubPolicyEngine mock_time) (builder_storage storage new_stub)) in
  last ← unwrap (Common.last_update_time (schedule (context s)));
  assert_eq last (Wall last_update_time).
Definition test_load_server_dictated_poll_interval : outcome unit :=
  storage ← unwrap_write (set_int mem_new SERVER_DICTATED_POLL_INTERVAL 56789);
  let* s := build_test (builder_storage storage new_stub) in
  assert_eq (Some (from_micros 56789)) (server_dictated_poll_interval (state (context s))).

Definition test_load_app : outcome unit :=
  app_set ← vec_app_set_new [app_new the_app_id (version_from [1; 2; 3; 4])];
  let persisted_app := mkPersistedApp (mkCohort (Some "cohort_id") (Some "test_channel") None)%string
    (ClientRegulatedByDate (Some 22222)) in
  json ← unwrap_ok (json_to_string (persisted_app_json persisted_app));
  app ← unwrap (get_apps app_set !! 0%nat);
  storage ← unwrap_write (set_string mem_new (app_id app) json);
  let* s := build_test (builder_app_set app_set (builder_storage storage new_stub)) in
  app ← unwrap (get_apps (Machine.app_set s) !! 0%nat);
  assert_eq (persisted_cohort persisted_app) (app_cohort app);;
  assert_eq (ClientRegulatedByDate (Some 22222)) (app_user_counting app).

(** ** The methods on their own *)

(** [mock_time.advance(d)], for the machine's handle on the clock. *)
Definition later (d : Duration) (c : MockClock) : outcome MockClock :=
  t ← complex_add (shows c) d; Ret (mkMockClock t).
Section advance.
Context {PE HR IN MR ST : Type} `{PolicyEngine PE MockClock unit StubPlan, !HttpTransport HR,
  !Installer IN unit StubPlan, !MetricsReporter MR, Storage ST}.
Definition advance_clock (d : Duration) (s : TestMachine PE HR IN MR ST)
    : outcome (TestMachine PE HR IN MR ST) :=
  c ← later d (Machine.time_source s);
  Ret (set_time_source (H0 := test_client PE HR IN MR ST) c s).
End advance.

Definition clocked_machine :=
  build_test (builder_metrics_reporter mock_metrics_new
    (builder_policy_engine (mkStubPolicyEngine new_from_now) new_stub)).
Definition test_report_check_interval_with_no_storage : outcome unit :=
  let* s := clocked_machine in
  let* (s, _, _) := run_sm (report_check_interval Request.ScheduledTask) s in
  assert_eq (metrics (metrics_reporter s)) [];;
  let interval := from_micros 999999 in
  let* s := advance_clock interval s in
  let* (s, _, _) := run_sm (report_check_interval Request.ScheduledTask) s in
  assert_eq (metrics (metrics_reporter s))
    [UpdateCheckInterval interval ClockMonotonic Request.ScheduledTask].
Definition test_report_check_interval_mono_transition : outcome unit :=
  let* s := clocked_machine in
  let initial_duration := from_secs 999 in
  initial_time ← time_sub (wall (shows new_from_now)) initial_duration;
  let s := set_context (set_last_update_check_time (Wall initial_time) (context s)) s in
  let* (s, _, _) := run_sm (report_check_interval Request.ScheduledTask) s in
  let interval := from_micros 999999 in
  let* s := advance_clock interval s in
  let* (s, _, _) := run_sm (report_check_interval Request.ScheduledTask) s in
  let* s := advance_clock interval s in
  let* (s, _, _) := run_sm (report_check_interval Request.ScheduledTask) s in
  assert_eq (metrics (metrics_reporter s))
    [UpdateCheckInterval initial_duration ClockWall Request.ScheduledTask;
     UpdateCheckInterval interval ClockMonotonic Request.ScheduledTask;
     UpdateCheckInterval interval ClockMonotonic Request.ScheduledTask].

Definition test_report_failed_update_duration : outcome unit :=
  http ← http_update_available;
  let* s := build_test (builder_metrics_reporter mock_metrics_new
    (builder_installer (mkStubInstaller true) (builder_http http new_stub))) in
  let* (s, _, _) := run_sm run_once s in
  assert (reports (FailedUpdateDuration (from_micros 0)) (metrics (metrics_reporter s))).

(** What the storage holds of the update that was seen first. *)
Definition assert_first_seen (id : string) (t : SystemTime) (storage : MemStorage) : outcome unit :=
  assert_eq (get_string storage INSTALL_PLAN_ID) (Some id);;
  stored ← get_time storage UPDATE_FIRST_SEEN_TIME;
  assert_eq stored (Some t);;
  assert_eq (mem_len storage) 2%nat;;
  assert (mem_committed storage).
Definition test_record_update_first_seen_time : outcome unit :=
  let* s := build_test (builder_storage mem_new new_stub) in
  mock_time ← truncated new_from_now;
  let now := wall (shows mock_time) in
  let* (s, _, seen) := run_sm (record_update_first_seen_time "id" now) s in
  assert_eq seen now;;
  assert_first_seen "id" now (storage_ref s);;
  mock_time ← later (from_secs 1000) mock_time;
  let now2 := wall (shows mock_time) in
  let* (s, _, seen) := run_sm (record_update_first_seen_time "id" now2) s in
  assert_eq seen now;;
  assert_first_seen "id" now (storage_ref s);;
  let* (s, _, seen) := run_sm (record_update_first_seen_time "id2" now2) s in
  assert_eq seen now2;;
  assert_first_seen "id2" now2 (storage_ref s).

Definition failed_checks `{Client} (s : StateMachine) : Z :=
  consecutive_failed_update_checks (state (context s)).
Definition test_report_attempts_to_successful_check : outcome unit :=
  let* s := build_test (builder_storage mem_new (builder_metrics_reporter mock_metrics_new
    (builder_installer (mkStubInstaller true) new_stub))) in
  let* (s, _, _) := run_sm (report_attempts_to_successful_check true) s in
  assert_eq (failed_checks s) 0;;
  assert_eq (metrics (metrics_reporter s)) [AttemptsToSuccessfulCheck 1];;
  let* (s, _, _) := run_sm (report_attempts_to_successful_check false) s in
  assert_eq (failed_checks s) 1;;
  let* (s, _, _) := run_sm (report_attempts_to_successful_check false) s in
  assert_eq (failed_checks s) 2;;
  let* (s, _, _) := run_sm (report_attempts_to_successful_check true) s in
  assert_eq (failed_checks s) 0;;
  assert_eq (metrics (metrics_reporter s)) [AttemptsToSuccessfulCheck 1; AttemptsToSuccessfulCheck 3].

Definition test_ping_omaha_updates_consecutive_failed_update_checks_and_persists : outcome unit :=
  body ← to_vec (app_response "3.0" []);
  let http := mock_add_response (response_of body) (mock_add_response empty_response
    (mock_add_error make_transport_error mock_http_empty)) in
  let storage := (commit (set_int mem_new CONSECUTIVE_FAILED_UPDATE_CHECKS 1).2).2 in
  let* s := build_test (builder_http http (builder_storage storage new_stub)) in
  let* (s, _, _) := run_sm ping_omaha s in
  assert_eq (failed_checks s) 2;;
  assert_eq (get_int (storage_ref s) CONSECUTIVE_FAILED_UPDATE_CHECKS) (Some 2);;
  let* (s, _, _) := run_sm ping_omaha s in
  assert_eq (failed_checks s) 3;;
  assert_eq (get_int (storage_ref s) CONSECUTIVE_FAILED_UPDATE_CHECKS) (Some 3);;
  let* (s, _, _) := run_sm ping_omaha s in
  assert_eq (failed_checks s) 0;;
  assert_eq (get_int (storage_ref s) CONSECUTIVE_FAILED_UPDATE_CHECKS) None.

(** ** Installations *)

Definition lost (t : Request.EventType) (m : Metrics) : bool :=
  match m with
  | OmahaEventLost e =>
    bool_decide (Request.event_type e = t) && bool_decide (Request.event_result e = Request.Success)
  | _ => false
  end.

(** The machine of the tests of the installer: its metrics after so many runs of [run_once]. *)
Definition metrics_of_runs (runs : nat) (http : MockHttpRequest) (installer : TestInstaller)
    : outcome (list Metrics) :=
  let* s := build_test (builder_storage mem_new (builder_metrics_reporter mock_metrics_new
    (builder_policy_engine (mkStubPolicyEngine new_from_now)
       (builder_installer installer (builder_http http new_stub))))) in
  let* (s, _, _) := run_sm (for_each (λ _, run_once) (seq 0 runs)) s in
  Ret (metrics (metrics_reporter s)).

Definition test_report_attempts_to_successful_install : outcome unit :=
  http ← http_update_available;
  metrics ← metrics_of_runs 1 http test_installer_new;
  assert_matches
    match metrics with
    | [UpdateCheckResponseTime _ true; RequestsPerCheck 1 true; lost1; SuccessfulUpdateDuration _;
       lost2; lost3; SuccessfulUpdateFromFirstSeen _; AttemptsToSuccessfulCheck 1;
       AttemptsToSuccessfulInstall 1 true] =>
      lost Request.UpdateDownloadStarted lost1 && lost Request.UpdateDownloadFinished lost2
      && lost Request.UpdateComplete lost3
    | _ => false
    end.

Definition test_report_attempts_to_successful_install_fails_then_succeeds : outcome unit :=
  response ← make_update_available_response;
  let http := foldl (λ h r, mock_add_response r h) (mock_http_new response)
    [empty_response; empty_response; response; empty_response; empty_response] in
  metrics ← metrics_of_runs 2 http (add_install_fail test_installer_new);
  assert_matches
    match metrics with
    | [UpdateCheckResponseTime _ true; RequestsPerCheck 1 true; FailedUpdateDuration _;
       AttemptsToSuccessfulCheck 1; AttemptsToSuccessfulInstall 1 false; UpdateCheckInterval _ _ _;
       UpdateCheckResponseTime _ true; RequestsPerCheck 1 true; SuccessfulUpdateDuration _;
       OmahaEventLost _; SuccessfulUpdateFromFirstSeen _; AttemptsToSuccessfulCheck 1;
       AttemptsToSuccessfulInstall 2 true] => true
    | _ => false
    end.

Definition test_report_attempts_to_successful_install_does_not_report_for_no_update : outcome unit :=
  http ← http_with (app_response "3.0"
    [updatecheck [status_noupdate; ("info", JStr "no update for you")%string]]);
  metrics ← metrics_of_runs 1 http test_installer_new;
  assert_matches
    match metrics with
    | [UpdateCheckResponseTime _ true; RequestsPerCheck 1 true; AttemptsToSuccessfulCheck 1] => true
    | _ => false
    end.

(** ** Waiting for the reboot, and CUP *)

Definition test_report_waited_for_reboot_duration_doesnt_panic_on_wrong_current_time : outcome unit :=
  let state_machine_start_monotonic := mono (shows new_from_now) in
  let update_finish_time := wall (shows new_from_now) in
  now_wall ← time_add update_finish_time (from_secs 1);
  now_monotonic ← time_add state_machine_start_monotonic (from_secs 10);
  let* s := build_test (builder_metrics_reporter mock_metrics_new new_stub) in
  let* (s, _, r) := run_sm (report_waited_for_reboot_duration update_finish_time
    state_machine_start_monotonic (mkComplexTime now_wall now_monotonic)) s in
  assert (negb (is_ok r));;
  assert_eq (metrics (metrics_reporter s)) [].

(** A check whose CUP handler does this. *)
Definition cup_check (handler : MockCupv2Handler) :=
  let* http := http_no_update in
  builder_oneshot (builder_cup_handler (Some handler) (builder_http http new_stub)).
Definition run_cup_but_decoration_error : outcome unit :=
  e ← match uri_parse "" with Err e => Ret e | Ok _ => Panic "called `unwrap_err` on an `Ok` value" end;
  let* (_, _, r) := cup_check (set_decoration_error (Some (ParseError e)) (mock_cup_new (1 : Z))) in
  assert_matches match r with Err (ErrorOmahaRequest (ReqCupDecoration (ParseError _))) => true | _ => false end.
Definition run_cup_but_verification_error : outcome unit :=
  let* (_, _, r) := cup_check (set_verification_error (Some EtagHeaderMissing) (mock_cup_new (1 : Z))) in
  assert_matches match r with Err (ErrorOmahaRequest (ReqCupValidation EtagHeaderMissing)) => true | _ => false end.
Definition run_cup_valid : outcome unit :=
  let* http := http_no_update in
  let* (_, _, r) := builder_oneshot (builder_http http new_stub) in
  assert_matches (is_ok r).

Definition method_tests : list (outcome unit) :=
  [test_persist_last_update_time; test_persist_server_dictated_poll_interval;
   test_persist_server_dictated_poll_interval_http_error;
   test_persist_server_dictated_poll_interval_max_duration;
   test_server_dictated_poll_interval_with_transport_error_no_retry; test_persist_app;
   test_load_last_update_time; test_load_server_dictated_poll_interval; test_load_app;
   test_report_check_interval_with_no_storage; test_report_check_interval_mono_transition;
   test_report_failed_update_duration; test_record_update_first_seen_time;
   test_report_attempts_to_successful_check;
   test_ping_omaha_updates_consecutive_failed_update_checks_and_persists;
   test_report_attempts_to_successful_install;
   test_report_attempts_to_successful_install_fails_then_succeeds;
   test_report_attempts_to_successful_install_does_not_report_for_no_update;
   test_report_waited_for_reboot_duration_doesnt_panic_on_wrong_current_time;
   run_cup_but_decoration_error; run_cup_but_verification_error; run_cup_valid].
Lemma method_tests_pass : all_pass method_tests = true.
Proof. vm_compute. reflexivity. Qed.
