(* ===== verification/LoopTests.v ===== *)
(** * The tests of the main loop ([state_machine.rs], [mod tests])

    The tests that start the task, unblock its timers and its installer, and ask it for checks. *)

From S2P Require Import Prelude Testing Serde Effects Time Version Protocol Storage Common UpdateCheck.
From S2P Require Import AppSet UriExt StorageTests Http Cup RequestBuilder CupKeys Metrics Installer.
From S2P Require Import Policy Machine Omaha Check Trace RunLoop Builder MachineTesting CheckTests.
From S2P Require Request Response.
Open Scope Z_scope.

(** Nothing, the installation, the installation and the reboot, or a terminal state stops the task. *)
Definition nothing_blocks `{Client} (e : Effect) : bool := false.
Definition install_blocks `{Client} (e : Effect) : bool :=
  match e with InstallStarted _ => true | _ => false end.
Definition install_and_reboot_block `{Client} (e : Effect) : bool :=
  match e with InstallStarted _ | Rebooted => true | _ => false end.
(** [observe_until_terminal]: the task is not polled any more after it. *)
Definition terminal `{Client} (e : Effect) : bool :=
  match e with Yield (StateChange (Idle | WaitingForReboot)) => true | _ => false end.

(** [StateMachineBuilder::start] and the observer of the task. *)
Section start.
Context {PE HR IN MR ST : Type} `{PolicyEngine PE MockClock unit StubPlan, !HttpTransport HR,
  !Installer IN unit StubPlan, !MetricsReporter MR, Storage ST}.
Definition start (blocks : Effect (H0 := test_client PE HR IN MR ST) → bool) (ready : bool)
    (b : TestBuilder PE HR IN MR ST) : outcome (Pool (H0 := test_client PE HR IN MR ST)) :=
  s ← build_test b; Ret (spawn (H0 := test_client PE HR IN MR ST) blocks ready s).
End start.
Arguments start {_ _ _ _ _ _ _ _ _ _}.

(** The mock clock and a time after it, in a check timing. *)
Definition mock_time : MockClock := new_from_now.
Definition time_after (secs : Z) : outcome ComplexTime := complex_add (shows mock_time) (from_secs secs).
Definition timed_engine (t : ComplexTime) : MockPolicyEngine MockClock :=
  with_check_timing (Some (mkCheckTiming (Complex t) None)) (mock_engine mock_time).
(** The next wait is until this time; the wait is taken. *)
Definition expect_wait `{Client} (w : RequestedWait) (p : Pool) : outcome Pool :=
  '(wait, p) ← next_wait p; assert_eq wait w;; Ret p.

Definition checked_states : list State :=
  [CheckingForUpdates Request.ScheduledTask; ErrorCheckingForUpdate; Idle].
Definition update_states : list State := [CheckingForUpdates Request.ScheduledTask; InstallingUpdate].

Definition test_wait_timer : outcome unit :=
  let* next_update_time := time_after 111 in
  let* p := start nothing_blocks false
    (builder_policy_engine (timed_engine next_update_time) new_stub) in
  _ ← expect_wait (Until (Complex next_update_time)) p;
  Ret tt.

(** ** Reboots *)

Definition test_successful_update_triggers_reboot : outcome unit :=
  http ← http_update_available;
  let* p := start nothing_blocks false (builder_policy_engine (mkStubPolicyEngine mock_time)
    (builder_installer test_installer_new (builder_http http new_stub))) in
  let* p := expect_wait (Until (Complex (shows mock_time))) p in
  let* p := unblock_timer 0 p in
  let* p := run_until_stalled p in
  assert (reboot_called (installer (machine p))).

Definition test_skip_reboot_if_not_needed : outcome unit :=
  http ← http_update_available;
  let next_update_time := shows mock_time in
  let* p := start nothing_blocks false
    (builder_policy_engine (with_reboot_needed false (timed_engine next_update_time))
       (builder_installer test_installer_new (builder_http http new_stub))) in
  let* p := expect_wait (Until (Complex next_update_time)) p in
  let* p := unblock_timer 0 p in
  let* p := run_until_stalled p in
  let* p := assert_states (update_states ++ [Idle]) p in
  assert_eq (reboot_check_options_received (policy_engine (machine p))) [];;
  assert (negb (reboot_called (installer (machine p)))).

Definition test_failed_update_does_not_trigger_reboot : outcome unit :=
  http ← http_update_available;
  let* p := start nothing_blocks false (builder_policy_engine (mkStubPolicyEngine mock_time)
    (builder_installer (add_install_fail test_installer_new) (builder_http http new_stub))) in
  let* p := expect_wait (Until (Complex (shows mock_time))) p in
  let* p := unblock_timer 0 p in
  let* p := run_until_stalled p in
  assert (negb (reboot_called (installer (machine p)))).

Definition on_demand : CheckOptions := mkCheckOptions Request.OnDemand.
Definition scheduled : CheckOptions := mkCheckOptions Request.ScheduledTask.

Definition test_reboots_immediately_if_user_initiated_update_requests_occurs_during_install : outcome unit :=
  http ← http_update_available;
  let* p := start install_and_reboot_block true
    (builder_policy_engine (timed_engine (shows mock_time))
       (builder_installer (mkBlockingInstaller [Installed]) (builder_http http new_stub))) in
  let* p := recv_blocked p in
  let* p := run_until_stalled p in
  let* p := assert_states update_states p in
  let* (answer, p) := ctl_start_update_check on_demand p in
  assert_matches match answer with AlreadyRunning => true | _ => false end;;
  let* p := run_until_stalled p in
  let* p := assert_states [] p in
  let* p := run_until_stalled (unblock_installer p) in
  let* p := assert_states [WaitingForReboot] p in
  let* p := recv_blocked p in
  let* p := run_until_stalled p in
  assert_eq (reboot_check_options_received (policy_engine (machine p))) [on_demand].

(** The server's answers to a check with an update, its three events and a ping. *)
Definition update_and_ping : outcome MockHttpRequest :=
  response ← make_update_available_response;
  Ret (foldl (λ h r, mock_add_response r h) (mock_http_new response)
    [empty_response; empty_response; empty_response; response]).

(** The start of the tests that wait for a reboot: the check has been made, and the timers of the
    reboot and of the next ping are awaited, in any order. *)
Definition waiting_for_reboot (next_update_time : ComplexTime) :=
  let* http := update_and_ping in
  let* p := start nothing_blocks false (builder_storage mem_new
    (builder_policy_engine (with_reboot_allowed false (timed_engine next_update_time))
       (builder_installer test_installer_new (builder_http http
          (builder_app_set make_test_app_set new_stub))))) in
  let* p := expect_wait (Until (Complex next_update_time)) p in
  let* p := unblock_timer 0 p in
  let* p := run_until_stalled p in
  let* (wait1, p) := next_wait p in
  let* (wait2, p) := next_wait p in
  let '(wait_for_reboot, wait_for_next_ping) :=
    match wait1 with For _ => (wait1, wait2) | Until _ => (wait2, wait1) end in
  let* _ := assert_eq wait_for_reboot (For CHECK_REBOOT_ALLOWED_INTERVAL) in
  Ret (wait_for_next_ping, p).

(** The cell of the engine's answer, which the test shares. *)
Definition allow_reboot {HR IN MR ST} `{!HttpTransport HR, !Installer IN unit StubPlan,
    !MetricsReporter MR, Storage ST} (b : bool)
    (s : TestMachine (MockPolicyEngine MockClock) HR IN MR ST) :=
  set_policy_engine (H0 := test_client (MockPolicyEngine MockClock) HR IN MR ST)
    (with_reboot_allowed b (policy_engine s)) s.

Definition test_reboots_immediately_when_check_now_comes_in_during_wait : outcome unit :=
  let* next_update_time := time_after 1000 in
  let* (_, p) := waiting_for_reboot next_update_time in
  assert (negb (reboot_called (installer (machine p))));;
  let p := modify_machine (allow_reboot true) p in
  let* (answer, p) := ctl_start_update_check on_demand p in
  assert_matches match answer with AlreadyRunning => true | _ => false end;;
  let* p := run_until_stalled p in
  assert (reboot_called (installer (machine p)));;
  assert_eq (reboot_check_options_received (policy_engine (machine p))) [scheduled; on_demand].

Definition reboot_tests : list (outcome unit) :=
  [test_wait_timer; test_successful_update_triggers_reboot; test_skip_reboot_if_not_needed;
   test_failed_update_does_not_trigger_reboot;
   test_reboots_immediately_if_user_initiated_update_requests_occurs_during_install;
   test_reboots_immediately_when_check_now_comes_in_during_wait].
Lemma reboot_tests_pass : all_pass reboot_tests = true.
Proof. vm_compute. reflexivity. Qed.

(** Both handles of the machine on the clock, which the test moves. *)
Definition advance_both {HR IN MR ST} `{!HttpTransport HR, !Installer IN unit StubPlan,
    !MetricsReporter MR, Storage ST} (d : Duration)
    (s : TestMachine (MockPolicyEngine MockClock) HR IN MR ST) : outcome (TestMachine _ HR IN MR ST) :=
  let* c := later d (Machine.time_source s) in
  Ret (set_time_source (H0 := test_client (MockPolicyEngine MockClock) HR IN MR ST) c
    (set_policy_engine (H0 := test_client (MockPolicyEngine MockClock) HR IN MR ST)
       (with_clock c (policy_engine s)) s)).
(** [assert_request] on a viewer of the machine's requests: the request is taken off. *)
Definition assert_ping {PE IN MR ST} `{PolicyEngine PE MockClock unit StubPlan,
    !Installer IN unit StubPlan, !MetricsReporter MR, Storage ST} (session_id request_id : Z) (apps : list App)
    (s : TestMachine PE MockHttpRequest IN MR ST) : outcome (TestMachine PE MockHttpRequest IN MR ST) :=
  let builder := set_request_id (Request.mkGUID request_id) (set_session_id (Request.mkGUID session_id)
    (request_builder_new (config_generator (3 : Z)) request_params_default)) in
  let* h := assert_request (Machine.http s) (foldl (λ b app, add_ping app b) builder apps) in
  Ret (set_http (H0 := test_client PE MockHttpRequest IN MR ST) h s).
(** A change of the machine that may fail. *)
Definition try_modify `{Client} (f : StateMachine → outcome StateMachine) (p : Pool) : outcome Pool :=
  let* s := f (machine p) in Ret (modify_machine (λ _, s) p).

(** The cell of the installer, which the test shares. *)
Definition set_reboot_called {PE HR MR ST} `{PolicyEngine PE MockClock unit StubPlan,
    !HttpTransport HR, !MetricsReporter MR, Storage ST} (b : bool) (s : TestMachine PE HR TestInstaller MR ST) :=
  set_installer (H0 := test_client PE HR TestInstaller MR ST)
    (mkTestInstaller b (install_fails (installer s))) s.

(** The end of the test sets [reboot_called] itself, under a comment that says it allows the reboot,
    and then asserts it: what the machine does in the last step is not looked at. *)
Definition test_wait_for_reboot : outcome unit :=
  let* next_update_time := time_after 1000 in
  let* (wait_for_next_ping, p) := waiting_for_reboot next_update_time in
  let* _ := assert_eq wait_for_next_ping (Until (Complex next_update_time)) in
  let* p := try_modify (advance_both (from_secs 1000)) p in
  let* p := unblock_timer 1 p in
  let* p := run_until_stalled p in
  let apps := get_apps (app_set (machine p)) in
  let* p := try_modify (assert_ping 5 6 apps) p in
  let* (answer, p) := ctl_start_update_check check_options_default p in
  let* _ := assert_matches match answer with AlreadyRunning => true | _ => false end in
  let* context := context_load (storage_ref (machine p)) in
  let* _ := assert_eq (last_update_time (schedule context))
    (Some (Wall (wall (shows (Machine.time_source (machine p)))))) in
  let* p := expect_wait (Until (Complex next_update_time)) p in
  let* p := unblock_timer 0 p in
  let* p := run_until_stalled p in
  let* _ := assert (negb (reboot_called (installer (machine p)))) in
  let* p := expect_wait (For CHECK_REBOOT_ALLOWED_INTERVAL) p in
  let* p := unblock_timer 1 p in
  let* p := run_until_stalled p in
  let* p := try_modify (assert_ping 7 8 apps) p in
  let* _ := assert (negb (reboot_called (installer (machine p)))) in
  let p := modify_machine (set_reboot_called true) p in
  let* p := unblock_timer 0 p in
  let* p := run_until_stalled p in
  assert (reboot_called (installer (machine p))).

(** ** Requests for a check *)

Definition test_start_update_during_update_replies_with_in_progress : outcome unit :=
  http ← http_update_available;
  let* p := start (λ e, install_blocks e || terminal e) true
    (builder_installer (mkBlockingInstaller [Installed]) (builder_http http new_stub)) in
  let* p := recv_blocked p in
  let* p := run_until_stalled p in
  let* p := assert_states update_states p in
  let* (answer, p) := ctl_start_update_check check_options_default p in
  let* _ := assert_matches match answer with AlreadyRunning => true | _ => false end in
  let* p := run_until_stalled p in
  let* p := assert_states [] p in
  let* p := run_until_stalled (unblock_installer p) in
  let* p := assert_states [WaitingForReboot] p in
  Ret tt.

Definition test_start_update_during_timer_starts_update : outcome unit :=
  let* next_update_time := time_after 321 in
  let* p := start nothing_blocks false
    (builder_policy_engine (timed_engine next_update_time) new_stub) in
  let* p := expect_wait (Until (Complex next_update_time)) p in
  let* p := try_modify (advance_both (from_secs 200)) p in
  let* p := assert_states [] p in
  let* p := run_until_stalled p in
  let* p := assert_states [] p in
  let* p := unblock_timer 0 p in
  let* p := expect_wait (Until (Complex next_update_time)) p in
  let* p := assert_states checked_states p in
  let* (answer, p) := ctl_start_update_check check_options_default p in
  let* _ := assert_matches match answer with Started => true | _ => false end in
  let* p := run_until_stalled p in
  let* p := assert_states checked_states p in
  Ret tt.

Definition test_start_update_check_returns_throttled : outcome unit :=
  let* next_update_time := time_after 321 in
  let* p := start nothing_blocks false (builder_policy_engine
    (with_check_decision ThrottledByPolicy (timed_engine next_update_time)) new_stub) in
  let* p := expect_wait (Until (Complex next_update_time)) p in
  let* p := try_modify (advance_both (from_secs 200)) p in
  let* p := assert_states [] p in
  let* (answer, p) := ctl_start_update_check check_options_default p in
  let* _ := assert_matches match answer with Throttled => true | _ => false end in
  let* p := run_until_stalled p in
  let* p := assert_states [] p in
  Ret tt.

(** ** After the reboot *)

Definition is_waited (m : Metrics) : bool := match m with WaitedForRebootDuration _ => true | _ => false end.
Definition test_report_waited_for_reboot_duration : outcome unit :=
  let* http := http_with (app_response "3.0" [updatecheck [status_ok; manifest_of "1.2.3.5"]]) in
  let* mock_time := truncated new_from_now in
  let* (s, _, r) := builder_oneshot (builder_storage mem_new
    (builder_policy_engine (mkStubPolicyEngine mock_time) (builder_http http new_stub))) in
  let* _ := assert_matches (is_ok r) in
  let* mock_time := later (from_secs 999) mock_time in
  let config := mkConfig (mkUpdater "updater" (version_from [0; 1]))
    (Request.mkOS EmptyString "1.2.3.5" EmptyString EmptyString) "http://example.com/" None in
  let* p := start nothing_blocks false (builder_storage (storage_ref s : MemStorage)
    (builder_policy_engine (mkStubPolicyEngine mock_time)
       (builder_metrics_reporter mock_metrics_new (builder_config config new_stub)))) in
  let* p := run_until_stalled p in
  let* _ := assert_eq (filter (λ m, is_waited m = true) (metrics (metrics_reporter (machine p))))
    [WaitedForRebootDuration (from_secs 999)] in
  let* finish := get_time (storage_ref (machine p)) UPDATE_FINISH_TIME in
  let* _ := assert_eq finish None in
  let* _ := assert_eq (get_string (storage_ref (machine p)) TARGET_VERSION) None in
  assert (mem_committed (storage_ref (machine p))).

Definition request_tests : list (outcome unit) :=
  [test_wait_for_reboot; test_start_update_during_update_replies_with_in_progress;
   test_start_update_during_timer_starts_update; test_start_update_check_returns_throttled;
   test_report_waited_for_reboot_duration].
Lemma request_tests_pass : all_pass request_tests = true.
Proof. vm_compute. reflexivity. Qed.
